(** * Session stream reducer and broadcast relay

    A shallow embedding of the server side of the agent web UI:
    - [Sse]: the frame encoder of [src/server/sse.ts] ([formatSse]);
    - the transcript model and the session reducer of the agent session
      module (the handlers [ensureAssistantMessage], [appendTextChunk],
      [handleMessageStopped], ..., [enqueueUserMessage],
      [interruptCurrentResponse] and [startStreamingSession]).

    JavaScript strings are modelled by [string]: one [ascii] per code unit,
    restricted to the 8-bit range.  Line feed and carriage return are the
    code units 10 and 13. *)

From Stdlib Require Import ZArith Lia Bool Ascii String.
From stdpp Require Import base option list strings gmap pretty sorting.

Set Warnings "-register-all".


(* ===================================================================== *)
(** ** Strings as the code uses them *)
(* ===================================================================== *)

Module Js.

Definition LF : ascii := Ascii.ascii_of_nat 10.
Definition CR : ascii := Ascii.ascii_of_nat 13.

(** The one-character string ['\n']. *)
Definition nl : string := String LF EmptyString.

(** Truthiness of a string: [if (s)]. *)
Definition truthy (s : string) : bool :=
  match s with EmptyString => false | String _ _ => true end.

(** Truthiness of a possibly null or undefined string. *)
Definition truthyOpt (o : option string) : bool :=
  match o with Some s => truthy s | None => false end.

(** [a ?? b] on possibly undefined values. *)
Definition nullish {A} (o : option A) (d : A) : A :=
  match o with Some a => a | None => d end.

(** [lines.join(sep)]. *)
Fixpoint join (sep : string) (l : list string) : string :=
  match l with
  | [] => EmptyString
  | [x] => x
  | x :: rest => x +:+ sep +:+ join sep rest
  end.

(** Puts a code unit in front of the first piece of a split. *)
Definition consHead (c : ascii) (l : list string) : list string :=
  match l with
  | [] => [String c EmptyString]
  | h :: t => String c h :: t
  end.

(** [s.split(/\r?\n/)]: the separator is a line feed, together with the
    carriage return just in front of it when there is one. *)
Fixpoint splitLines (s : string) : list string :=
  match s with
  | EmptyString => [EmptyString]
  | String c rest =>
      if Ascii.eqb c LF then EmptyString :: splitLines rest
      else
        match rest with
        | String c' rest' =>
            if Ascii.eqb c CR && Ascii.eqb c' LF
            then EmptyString :: splitLines rest'
            else consHead c (splitLines rest)
        | EmptyString => consHead c (splitLines rest)
        end
  end.

(** White space removed by [String.prototype.trim], in the 8-bit range:
    tab, line feed, vertical tab, form feed, carriage return, space and
    the no-break space. *)
Definition isWhite (c : ascii) : bool :=
  let n := Ascii.nat_of_ascii c in
  ((9 <=? n) && (n <=? 13) || (n =? 32) || (n =? 160))%nat.

Fixpoint trimStart (s : string) : string :=
  match s with
  | EmptyString => EmptyString
  | String c rest => if isWhite c then trimStart rest else s
  end.

(** Drops the trailing white space: a white code unit is kept only when
    something that is kept follows it. *)
Fixpoint trimEnd (s : string) : string :=
  match s with
  | EmptyString => EmptyString
  | String c rest =>
      match trimEnd rest with
      | EmptyString => if isWhite c then EmptyString else String c EmptyString
      | r => String c r
      end
  end.

(** [s.trim()]. *)
Definition trim (s : string) : string := trimEnd (trimStart s).

(** A string without line feed. *)
Fixpoint noLF (s : string) : bool :=
  match s with
  | EmptyString => true
  | String c rest => negb (Ascii.eqb c LF) && noLF rest
  end.

(** [set.has(x)] and [array.includes(x)] for strings. *)
Definition has (l : list string) (x : string) : bool :=
  existsb (String.eqb x) l.

End Js.

(* ===================================================================== *)
(** ** The frame encoder, [src/server/sse.ts] *)
(* ===================================================================== *)

Module Sse.
Import Js.

Section Encoder.

(** Payloads that are neither [undefined], [null] nor a string are
    rendered by [JSON.stringify]; both are left abstract. *)
Variable JsVal : Type.
Variable JSON_stringify : JsVal -> string.

(** The [data: unknown] argument of [formatSse], by the cases the
    function distinguishes. *)
Inductive JsData :=
| Undefined
| Null
| Str (s : string)
| Other (v : JsVal).

(** The lines pushed for the event name. *)
Definition eventLines (event : string) : list string :=
  if truthy event then ["event: " +:+ event] else [].

(** The lines pushed for the payload. *)
Definition dataLines (data : JsData) : list string :=
  match data with
  | Undefined => ["data:"]
  | Null => ["data: null"]
  | Str s => map (fun part => "data: " +:+ part) (splitLines s)
  | Other v => ["data: " +:+ JSON_stringify v]
  end.

(** [formatSse(event, data)], before the UTF-8 encoding: the lines, the
    empty line pushed last, joined by line feeds and followed by one. *)
Definition formatSse (event : string) (data : JsData) : string :=
  let lines := eventLines event ++ dataLines data ++ [EmptyString] in
  join nl lines +:+ nl.

(** What a reader of the channel does with the bytes it receives: cut
    them into line-feed terminated lines and close a frame at every empty
    line.  [cur] is the line being read, [acc] the lines of the frame
    being read; an unterminated rest is not a frame. *)
Fixpoint readFrames (cur : string) (acc : list string) (s : string)
  : list (list string) :=
  match s with
  | EmptyString => []
  | String c rest =>
      if Ascii.eqb c LF then
        match cur with
        | EmptyString => acc :: readFrames EmptyString [] rest
        | _ => readFrames EmptyString (acc ++ [cur]) rest
        end
      else readFrames (cur +:+ String c EmptyString) acc rest
  end.

(** The text of a list of lines, each followed by its line feed. *)
Fixpoint unlines (l : list string) : string :=
  match l with
  | [] => EmptyString
  | x :: rest => x +:+ nl +:+ unlines rest
  end.

(** Whether the rendering of the payload is free of line feeds; only
    [JSON.stringify] can fail that, the other cases hold by
    construction. *)
Definition dataNoLF (data : JsData) : bool :=
  match data with
  | Other v => noLF (JSON_stringify v)
  | _ => true
  end.

End Encoder.

Arguments Undefined {JsVal}.
Arguments Null {JsVal}.
Arguments Str {JsVal} s.
Arguments Other {JsVal} v.
Arguments dataLines {JsVal} JSON_stringify data.
Arguments formatSse {JsVal} JSON_stringify event data.
Arguments dataNoLF {JsVal} JSON_stringify data.

End Sse.

(* ===================================================================== *)
(** ** The renderer's end of the stream, [src/renderer/api/sseClient.ts] *)
(* ===================================================================== *)

Module Renderer.
Import Js.

(** The three sets of event names [connectSse] listens to. *)
Definition JSON_EVENTS : list string :=
  ["chat:init"; "chat:message-replay"; "chat:thinking-start";
   "chat:thinking-chunk"; "chat:tool-use-start"; "chat:tool-input-delta";
   "chat:content-block-stop"; "chat:tool-result-start";
   "chat:tool-result-delta"; "chat:tool-result-complete";
   "chat:subagent-tool-use"; "chat:subagent-tool-input-delta";
   "chat:subagent-tool-result-start"; "chat:subagent-tool-result-delta";
   "chat:subagent-tool-result-complete"; "chat:logs"; "chat:status";
   "chat:agent-error"].

Definition STRING_EVENTS : list string :=
  ["chat:message-chunk"; "chat:message-error"; "chat:debug-message";
   "chat:log"].

Definition NULL_EVENTS : list string :=
  ["chat:message-complete"; "chat:message-stopped"].

(** The names [connectSse] adds [handleEvent] as listener for:
    [[...JSON_EVENTS, ...STRING_EVENTS, ...NULL_EVENTS]]. *)
Definition listened : list string :=
  JSON_EVENTS ++ STRING_EVENTS ++ NULL_EVENTS.

Section Listening.

(** What [JSON.parse] returns, and [JSON.parse] itself, [None] when it
    throws. *)
Variable Parsed : Type.
Variable JSON_parse : string -> option Parsed.

(** The second argument of [emitEvent]. *)
Inductive Emitted :=
| E_parsed (parsed : Parsed)
| E_null
| E_data (data : string).

(** [handleEvent(event)] for an event of type [type] with the text
    [data]: the call of [emitEvent] it makes, if it makes one. *)
Definition handleEvent (type data : string) : option (string * Emitted) :=
  if has JSON_EVENTS type
  then
    match JSON_parse data with
    | Some parsed => Some (type, E_parsed parsed)
    | None => Some (type, E_null)
    end
  else if has NULL_EVENTS type
  then Some (type, E_null)
  else if has STRING_EVENTS type
  then Some (type, E_data data)
  else None.

(** What reaches [emitEvent] of an event the [EventSource] receives: it
    calls [handleEvent] for the types [connectSse] listens to, and nothing
    for the others. *)
Definition dispatchEvent (type data : string) : option (string * Emitted) :=
  if has listened type then handleEvent type data else None.

End Listening.

Arguments E_parsed {Parsed} parsed.
Arguments E_null {Parsed}.
Arguments E_data {Parsed} data.
Arguments handleEvent {Parsed} JSON_parse type data.
Arguments dispatchEvent {Parsed} JSON_parse type data.

End Renderer.

(* ===================================================================== *)
(** ** The agent session: data model *)
(* ===================================================================== *)

(** The session module exists in two revisions under [src/]: the file
    [src/server/agent-session.ts], and the revision with sub-agent tool
    calls, logging and the message queue of its own, which is the one the
    HTTP entry point imports from (it needs [getLogLines]).  The model
    follows the second; the handlers the two share are the same text in
    both.  Where [agent-session.ts] differs in a way that matters here, its
    function is embedded next to the other under a name ending in
    [_first]. *)

Module Session.
Import Js.

(** JavaScript values the code only handles as [unknown]: tool inputs, the
    contents of tool results, the blocks of a message. *)
Inductive JsVal :=
| VUndefined
| VNull
| VBool (b : bool)
| VNum (n : Z)
| VStr (s : string)
| VArr (items : list JsVal)
| VObj (fields : list (string * JsVal)).

(** The empty object literal. *)
Definition emptyObject : JsVal := VObj [].

(** [if (v)]. *)
Definition truthyVal (v : JsVal) : bool :=
  match v with
  | VUndefined | VNull => false
  | VBool b => b
  | VNum n => negb (n =? 0)%Z
  | VStr s => truthy s
  | VArr _ | VObj _ => true
  end.

(** [typeof v === 'object' && v !== null]. *)
Definition isObject (v : JsVal) : bool :=
  match v with VArr _ | VObj _ => true | _ => false end.

Fixpoint assoc (k : string) (l : list (string * JsVal)) : option JsVal :=
  match l with
  | [] => None
  | (k', v) :: rest => if String.eqb k k' then Some v else assoc k rest
  end.

(** ['k' in v], for the property names the code asks for (none of them is
    an array index or [length]). *)
Definition hasProp (k : string) (v : JsVal) : bool :=
  match v with
  | VObj fields => bool_decide (is_Some (assoc k fields))
  | _ => false
  end.

(** [v.k]; [undefined] when the property is missing. *)
Definition getProp (k : string) (v : JsVal) : JsVal :=
  match v with
  | VObj fields => nullish (assoc k fields) VUndefined
  | _ => VUndefined
  end.

(** [v.k === s]. *)
Definition propIs (k s : string) (v : JsVal) : bool :=
  match getProp k v with
  | VStr s' => String.eqb s' s
  | _ => false
  end.

(** [v ?? d]. *)
Definition nullishVal (v d : JsVal) : JsVal :=
  match v with VUndefined | VNull => d | _ => v end.

Inductive SessionState := idle | running | error.
Inductive Role := user | assistant.
Inductive BlockType := T_text | T_tool_use | T_thinking.

Global Instance SessionState_eq_dec : EqDecision SessionState.
Proof. solve_decision. Defined.
Global Instance Role_eq_dec : EqDecision Role.
Proof. solve_decision. Defined.
Global Instance BlockType_eq_dec : EqDecision BlockType.
Proof. solve_decision. Defined.

(** [SubagentToolCall]. *)
Record SubagentToolCall := mkCall {
  call_id : string;
  call_name : string;
  call_input : JsVal;
  call_streamIndex : option Z;
  call_inputJson : option string;
  call_parsedInput : option JsVal;
  call_result : option string;
  call_isLoading : option bool;
  call_isError : option bool
}.

(** [ToolUseState]. *)
Record ToolUseState := mkTool {
  tool_id : string;
  tool_name : string;
  tool_input : JsVal;
  tool_streamIndex : Z;
  tool_inputJson : option string;
  tool_parsedInput : option JsVal;
  tool_result : option string;
  tool_isLoading : option bool;
  tool_isError : option bool;
  tool_subagentCalls : option (list SubagentToolCall)
}.

(** [ContentBlock]: one record with a type tag and optional fields, as in
    the source. *)
Record ContentBlock := mkBlock {
  b_type : BlockType;
  b_text : option string;
  b_tool : option ToolUseState;
  b_thinking : option string;
  b_thinkingStartedAt : option Z;
  b_thinkingDurationMs : option Z;
  b_thinkingStreamIndex : option Z;
  b_isComplete : option bool
}.

(** [content: string | ContentBlock[]]. *)
Inductive Content :=
| CText (s : string)
| CBlocks (blocks : list ContentBlock).

(** [MessageWire]; the server never sets [attachments]. *)
Record MessageWire := mkMessage {
  msg_id : string;
  msg_role : Role;
  msg_content : Content;
  msg_timestamp : string
}.

(** What [broadcast] is given as data: object literals are written field
    by field, as in the source. *)
Inductive Payload :=
| Jundefined
| Jnull
| Jbool (b : bool)
| Jnum (n : Z)
| Jstr (s : string)
| Jval (v : JsVal)
| Jstate (st : SessionState)
| Jmessage (m : MessageWire)
| Jobj (fields : list (string * Payload)).

(** [x || undefined] for a string in a payload. *)
Definition JstrOpt (o : option string) : Payload :=
  match o with Some s => Jstr s | None => Jundefined end.
Definition JnumOpt (o : option Z) : Payload :=
  match o with Some n => Jnum n | None => Jundefined end.
Definition JboolOpt (o : option bool) : Payload :=
  match o with Some b => Jbool b | None => Jundefined end.

(** The runtime's session object returned by [query], and the promise a
    run resolves when it has released it: both are references, modelled
    by numbers. *)
Abbreviation Query := nat (only parsing).
Abbreviation PromiseId := nat (only parsing).

(** An entry of [messageQueue]: the text of the user message (its
    [message] is [{ role: 'user', content: [{ type: 'text', text }] }]) and
    the [resolve] of the promise the caller of [enqueueUserMessage]
    awaits, named by a number. *)
Record MessageQueueItem := mkItem {
  item_text : string;
  item_resolve : nat
}.

(** The module's variables, and [sent]: what [broadcast] was called with,
    oldest first. *)
Record State := mkState {
  agentDir : string;
  hasInitialPrompt : bool;
  sessionState : SessionState;
  querySession : option Query;
  isProcessing : bool;
  shouldAbortSession : bool;
  sessionTerminationPromise : option PromiseId;
  isInterruptingResponse : bool;
  isStreamingMessage : bool;
  messages : list MessageWire;
  streamIndexToToolId : gmap Z string;
  toolResultIndexToId : gmap Z string;
  childToolToParent : gmap string string;
  messageSequence : nat;
  sessionId : string;
  logLines : list string;
  systemInitInfo : option JsVal;
  messageQueue : list MessageQueueItem;
  sent : list (string * Payload)
}.

Definition set_agentDir (v : string) (s : State) : State :=
  {| agentDir := v; hasInitialPrompt := hasInitialPrompt s; sessionState :=
     sessionState s; querySession := querySession s; isProcessing :=
     isProcessing s; shouldAbortSession := shouldAbortSession s;
     sessionTerminationPromise := sessionTerminationPromise s;
     isInterruptingResponse := isInterruptingResponse s; isStreamingMessage
     := isStreamingMessage s; messages := messages s; streamIndexToToolId :=
     streamIndexToToolId s; toolResultIndexToId := toolResultIndexToId s;
     childToolToParent := childToolToParent s; messageSequence :=
     messageSequence s; sessionId := sessionId s; logLines := logLines s;
     systemInitInfo := systemInitInfo s; messageQueue := messageQueue s;
     sent := sent s |}.

Definition set_hasInitialPrompt (v : bool) (s : State) : State :=
  {| agentDir := agentDir s; hasInitialPrompt := v; sessionState :=
     sessionState s; querySession := querySession s; isProcessing :=
     isProcessing s; shouldAbortSession := shouldAbortSession s;
     sessionTerminationPromise := sessionTerminationPromise s;
     isInterruptingResponse := isInterruptingResponse s; isStreamingMessage
     := isStreamingMessage s; messages := messages s; streamIndexToToolId :=
     streamIndexToToolId s; toolResultIndexToId := toolResultIndexToId s;
     childToolToParent := childToolToParent s; messageSequence :=
     messageSequence s; sessionId := sessionId s; logLines := logLines s;
     systemInitInfo := systemInitInfo s; messageQueue := messageQueue s;
     sent := sent s |}.

Definition set_sessionState (v : SessionState) (s : State) : State :=
  {| agentDir := agentDir s; hasInitialPrompt := hasInitialPrompt s;
     sessionState := v; querySession := querySession s; isProcessing :=
     isProcessing s; shouldAbortSession := shouldAbortSession s;
     sessionTerminationPromise := sessionTerminationPromise s;
     isInterruptingResponse := isInterruptingResponse s; isStreamingMessage
     := isStreamingMessage s; messages := messages s; streamIndexToToolId :=
     streamIndexToToolId s; toolResultIndexToId := toolResultIndexToId s;
     childToolToParent := childToolToParent s; messageSequence :=
     messageSequence s; sessionId := sessionId s; logLines := logLines s;
     systemInitInfo := systemInitInfo s; messageQueue := messageQueue s;
     sent := sent s |}.

Definition set_querySession (v : option Query) (s : State) : State :=
  {| agentDir := agentDir s; hasInitialPrompt := hasInitialPrompt s;
     sessionState := sessionState s; querySession := v; isProcessing :=
     isProcessing s; shouldAbortSession := shouldAbortSession s;
     sessionTerminationPromise := sessionTerminationPromise s;
     isInterruptingResponse := isInterruptingResponse s; isStreamingMessage
     := isStreamingMessage s; messages := messages s; streamIndexToToolId :=
     streamIndexToToolId s; toolResultIndexToId := toolResultIndexToId s;
     childToolToParent := childToolToParent s; messageSequence :=
     messageSequence s; sessionId := sessionId s; logLines := logLines s;
     systemInitInfo := systemInitInfo s; messageQueue := messageQueue s;
     sent := sent s |}.

Definition set_isProcessing (v : bool) (s : State) : State :=
  {| agentDir := agentDir s; hasInitialPrompt := hasInitialPrompt s;
     sessionState := sessionState s; querySession := querySession s;
     isProcessing := v; shouldAbortSession := shouldAbortSession s;
     sessionTerminationPromise := sessionTerminationPromise s;
     isInterruptingResponse := isInterruptingResponse s; isStreamingMessage
     := isStreamingMessage s; messages := messages s; streamIndexToToolId :=
     streamIndexToToolId s; toolResultIndexToId := toolResultIndexToId s;
     childToolToParent := childToolToParent s; messageSequence :=
     messageSequence s; sessionId := sessionId s; logLines := logLines s;
     systemInitInfo := systemInitInfo s; messageQueue := messageQueue s;
     sent := sent s |}.

Definition set_shouldAbortSession (v : bool) (s : State) : State :=
  {| agentDir := agentDir s; hasInitialPrompt := hasInitialPrompt s;
     sessionState := sessionState s; querySession := querySession s;
     isProcessing := isProcessing s; shouldAbortSession := v;
     sessionTerminationPromise := sessionTerminationPromise s;
     isInterruptingResponse := isInterruptingResponse s; isStreamingMessage
     := isStreamingMessage s; messages := messages s; streamIndexToToolId :=
     streamIndexToToolId s; toolResultIndexToId := toolResultIndexToId s;
     childToolToParent := childToolToParent s; messageSequence :=
     messageSequence s; sessionId := sessionId s; logLines := logLines s;
     systemInitInfo := systemInitInfo s; messageQueue := messageQueue s;
     sent := sent s |}.

Definition set_sessionTerminationPromise (v : option PromiseId) (s : State) : State :=
  {| agentDir := agentDir s; hasInitialPrompt := hasInitialPrompt s;
     sessionState := sessionState s; querySession := querySession s;
     isProcessing := isProcessing s; shouldAbortSession :=
     shouldAbortSession s; sessionTerminationPromise := v;
     isInterruptingResponse := isInterruptingResponse s; isStreamingMessage
     := isStreamingMessage s; messages := messages s; streamIndexToToolId :=
     streamIndexToToolId s; toolResultIndexToId := toolResultIndexToId s;
     childToolToParent := childToolToParent s; messageSequence :=
     messageSequence s; sessionId := sessionId s; logLines := logLines s;
     systemInitInfo := systemInitInfo s; messageQueue := messageQueue s;
     sent := sent s |}.

Definition set_isInterruptingResponse (v : bool) (s : State) : State :=
  {| agentDir := agentDir s; hasInitialPrompt := hasInitialPrompt s;
     sessionState := sessionState s; querySession := querySession s;
     isProcessing := isProcessing s; shouldAbortSession :=
     shouldAbortSession s; sessionTerminationPromise :=
     sessionTerminationPromise s; isInterruptingResponse := v;
     isStreamingMessage := isStreamingMessage s; messages := messages s;
     streamIndexToToolId := streamIndexToToolId s; toolResultIndexToId :=
     toolResultIndexToId s; childToolToParent := childToolToParent s;
     messageSequence := messageSequence s; sessionId := sessionId s;
     logLines := logLines s; systemInitInfo := systemInitInfo s;
     messageQueue := messageQueue s; sent := sent s |}.

Definition set_isStreamingMessage (v : bool) (s : State) : State :=
  {| agentDir := agentDir s; hasInitialPrompt := hasInitialPrompt s;
     sessionState := sessionState s; querySession := querySession s;
     isProcessing := isProcessing s; shouldAbortSession :=
     shouldAbortSession s; sessionTerminationPromise :=
     sessionTerminationPromise s; isInterruptingResponse :=
     isInterruptingResponse s; isStreamingMessage := v; messages := messages
     s; streamIndexToToolId := streamIndexToToolId s; toolResultIndexToId :=
     toolResultIndexToId s; childToolToParent := childToolToParent s;
     messageSequence := messageSequence s; sessionId := sessionId s;
     logLines := logLines s; systemInitInfo := systemInitInfo s;
     messageQueue := messageQueue s; sent := sent s |}.

Definition set_messages (v : list MessageWire) (s : State) : State :=
  {| agentDir := agentDir s; hasInitialPrompt := hasInitialPrompt s;
     sessionState := sessionState s; querySession := querySession s;
     isProcessing := isProcessing s; shouldAbortSession :=
     shouldAbortSession s; sessionTerminationPromise :=
     sessionTerminationPromise s; isInterruptingResponse :=
     isInterruptingResponse s; isStreamingMessage := isStreamingMessage s;
     messages := v; streamIndexToToolId := streamIndexToToolId s;
     toolResultIndexToId := toolResultIndexToId s; childToolToParent :=
     childToolToParent s; messageSequence := messageSequence s; sessionId :=
     sessionId s; logLines := logLines s; systemInitInfo := systemInitInfo
     s; messageQueue := messageQueue s; sent := sent s |}.

Definition set_streamIndexToToolId (v : gmap Z string) (s : State) : State :=
  {| agentDir := agentDir s; hasInitialPrompt := hasInitialPrompt s;
     sessionState := sessionState s; querySession := querySession s;
     isProcessing := isProcessing s; shouldAbortSession :=
     shouldAbortSession s; sessionTerminationPromise :=
     sessionTerminationPromise s; isInterruptingResponse :=
     isInterruptingResponse s; isStreamingMessage := isStreamingMessage s;
     messages := messages s; streamIndexToToolId := v; toolResultIndexToId
     := toolResultIndexToId s; childToolToParent := childToolToParent s;
     messageSequence := messageSequence s; sessionId := sessionId s;
     logLines := logLines s; systemInitInfo := systemInitInfo s;
     messageQueue := messageQueue s; sent := sent s |}.

Definition set_toolResultIndexToId (v : gmap Z string) (s : State) : State :=
  {| agentDir := agentDir s; hasInitialPrompt := hasInitialPrompt s;
     sessionState := sessionState s; querySession := querySession s;
     isProcessing := isProcessing s; shouldAbortSession :=
     shouldAbortSession s; sessionTerminationPromise :=
     sessionTerminationPromise s; isInterruptingResponse :=
     isInterruptingResponse s; isStreamingMessage := isStreamingMessage s;
     messages := messages s; streamIndexToToolId := streamIndexToToolId s;
     toolResultIndexToId := v; childToolToParent := childToolToParent s;
     messageSequence := messageSequence s; sessionId := sessionId s;
     logLines := logLines s; systemInitInfo := systemInitInfo s;
     messageQueue := messageQueue s; sent := sent s |}.

Definition set_childToolToParent (v : gmap string string) (s : State) : State :=
  {| agentDir := agentDir s; hasInitialPrompt := hasInitialPrompt s;
     sessionState := sessionState s; querySession := querySession s;
     isProcessing := isProcessing s; shouldAbortSession :=
     shouldAbortSession s; sessionTerminationPromise :=
     sessionTerminationPromise s; isInterruptingResponse :=
     isInterruptingResponse s; isStreamingMessage := isStreamingMessage s;
     messages := messages s; streamIndexToToolId := streamIndexToToolId s;
     toolResultIndexToId := toolResultIndexToId s; childToolToParent := v;
     messageSequence := messageSequence s; sessionId := sessionId s;
     logLines := logLines s; systemInitInfo := systemInitInfo s;
     messageQueue := messageQueue s; sent := sent s |}.

Definition set_messageSequence (v : nat) (s : State) : State :=
  {| agentDir := agentDir s; hasInitialPrompt := hasInitialPrompt s;
     sessionState := sessionState s; querySession := querySession s;
     isProcessing := isProcessing s; shouldAbortSession :=
     shouldAbortSession s; sessionTerminationPromise :=
     sessionTerminationPromise s; isInterruptingResponse :=
     isInterruptingResponse s; isStreamingMessage := isStreamingMessage s;
     messages := messages s; streamIndexToToolId := streamIndexToToolId s;
     toolResultIndexToId := toolResultIndexToId s; childToolToParent :=
     childToolToParent s; messageSequence := v; sessionId := sessionId s;
     logLines := logLines s; systemInitInfo := systemInitInfo s;
     messageQueue := messageQueue s; sent := sent s |}.

Definition set_sessionId (v : string) (s : State) : State :=
  {| agentDir := agentDir s; hasInitialPrompt := hasInitialPrompt s;
     sessionState := sessionState s; querySession := querySession s;
     isProcessing := isProcessing s; shouldAbortSession :=
     shouldAbortSession s; sessionTerminationPromise :=
     sessionTerminationPromise s; isInterruptingResponse :=
     isInterruptingResponse s; isStreamingMessage := isStreamingMessage s;
     messages := messages s; streamIndexToToolId := streamIndexToToolId s;
     toolResultIndexToId := toolResultIndexToId s; childToolToParent :=
     childToolToParent s; messageSequence := messageSequence s; sessionId :=
     v; logLines := logLines s; systemInitInfo := systemInitInfo s;
     messageQueue := messageQueue s; sent := sent s |}.

Definition set_logLines (v : list string) (s : State) : State :=
  {| agentDir := agentDir s; hasInitialPrompt := hasInitialPrompt s;
     sessionState := sessionState s; querySession := querySession s;
     isProcessing := isProcessing s; shouldAbortSession :=
     shouldAbortSession s; sessionTerminationPromise :=
     sessionTerminationPromise s; isInterruptingResponse :=
     isInterruptingResponse s; isStreamingMessage := isStreamingMessage s;
     messages := messages s; streamIndexToToolId := streamIndexToToolId s;
     toolResultIndexToId := toolResultIndexToId s; childToolToParent :=
     childToolToParent s; messageSequence := messageSequence s; sessionId :=
     sessionId s; logLines := v; systemInitInfo := systemInitInfo s;
     messageQueue := messageQueue s; sent := sent s |}.

Definition set_systemInitInfo (v : option JsVal) (s : State) : State :=
  {| agentDir := agentDir s; hasInitialPrompt := hasInitialPrompt s;
     sessionState := sessionState s; querySession := querySession s;
     isProcessing := isProcessing s; shouldAbortSession :=
     shouldAbortSession s; sessionTerminationPromise :=
     sessionTerminationPromise s; isInterruptingResponse :=
     isInterruptingResponse s; isStreamingMessage := isStreamingMessage s;
     messages := messages s; streamIndexToToolId := streamIndexToToolId s;
     toolResultIndexToId := toolResultIndexToId s; childToolToParent :=
     childToolToParent s; messageSequence := messageSequence s; sessionId :=
     sessionId s; logLines := logLines s; systemInitInfo := v; messageQueue
     := messageQueue s; sent := sent s |}.

Definition set_messageQueue (v : list MessageQueueItem) (s : State) : State :=
  {| agentDir := agentDir s; hasInitialPrompt := hasInitialPrompt s;
     sessionState := sessionState s; querySession := querySession s;
     isProcessing := isProcessing s; shouldAbortSession :=
     shouldAbortSession s; sessionTerminationPromise :=
     sessionTerminationPromise s; isInterruptingResponse :=
     isInterruptingResponse s; isStreamingMessage := isStreamingMessage s;
     messages := messages s; streamIndexToToolId := streamIndexToToolId s;
     toolResultIndexToId := toolResultIndexToId s; childToolToParent :=
     childToolToParent s; messageSequence := messageSequence s; sessionId :=
     sessionId s; logLines := logLines s; systemInitInfo := systemInitInfo
     s; messageQueue := v; sent := sent s |}.

Definition set_sent (v : list (string * Payload)) (s : State) : State :=
  {| agentDir := agentDir s; hasInitialPrompt := hasInitialPrompt s;
     sessionState := sessionState s; querySession := querySession s;
     isProcessing := isProcessing s; shouldAbortSession :=
     shouldAbortSession s; sessionTerminationPromise :=
     sessionTerminationPromise s; isInterruptingResponse :=
     isInterruptingResponse s; isStreamingMessage := isStreamingMessage s;
     messages := messages s; streamIndexToToolId := streamIndexToToolId s;
     toolResultIndexToId := toolResultIndexToId s; childToolToParent :=
     childToolToParent s; messageSequence := messageSequence s; sessionId :=
     sessionId s; logLines := logLines s; systemInitInfo := systemInitInfo
     s; messageQueue := messageQueue s; sent := v |}.

(** *** What the runtime yields *)

Inductive Delta :=
| text_delta (text : string)
| thinking_delta (thinking : string)
| input_json_delta (partial_json : string)
| other_delta.

(** The [content_block] of a [content_block_start] event, by the cases
    the loop distinguishes: [cb_tool_result] is a block of one of the tool
    result types that has a [tool_use_id]. *)
Inductive StartedBlock :=
| cb_thinking
| cb_tool_use (id name : string) (input : JsVal)
| cb_tool_result (tool_use_id : string) (content : JsVal)
    (is_error : option bool)
| cb_other.

Inductive StreamEvent :=
| content_block_delta (index : Z) (delta : Delta)
| content_block_start (index : Z) (content_block : StartedBlock)
| content_block_stop (index : Z)
| other_event.

(** An SDK message.  [parent_tool_use_id] is [None] for [null]; [content]
    is [message.content] ([VUndefined] when there is none). *)
Inductive SdkMessage :=
| stream_event (parent_tool_use_id : option string) (event : StreamEvent)
| user_message (parent_tool_use_id : option string) (content : JsVal)
| assistant_message (parent_tool_use_id : option string) (content : JsVal)
| result_message
| other_message.

(** What is thrown: [error instanceof Error] with its [message], or
    anything else. *)
Inductive Thrown :=
| ErrorObject (message : string)
| NotAnError.

(** Library and platform functions the session calls, and the parts of
    the loop's preamble that only decide what is logged and broadcast. *)
Class Host := {
  (** [JSON.stringify(v, null, 2)] *)
  JSON_stringify2 : JsVal -> string;
  (** [JSON.parse(text)]; [None] when it throws *)
  JSON_parse : string -> option JsVal;
  (** [parsePartialJson(text)] *)
  parsePartialJson : string -> JsVal;
  (** [String(v)] *)
  String_ : JsVal -> string;
  (** [new Date(now).toISOString()] *)
  toISOString : Z -> string;
  (** [JSON.stringify(sdkMessage)]; [None] when it throws *)
  sdkJson : SdkMessage -> option string;
  (** [parseSystemInitInfo(sdkMessage)] *)
  parseSystemInitInfo : SdkMessage -> option JsVal;
  (** [extractAgentError(sdkMessage)] *)
  extractAgentError : SdkMessage -> option string
}.

(** *** Arrays *)

(** [l.find(p)], as the position of the element found. *)
Fixpoint findIndex {A} (p : A -> bool) (l : list A) : option nat :=
  match l with
  | [] => None
  | x :: rest => if p x then Some 0 else S <$> findIndex p rest
  end.

(** Mutation of the element [l.find(p)] returns, when it returns one. *)
Definition alterFirst {A} (p : A -> bool) (f : A -> A) (l : list A)
  : list A :=
  match findIndex p l with
  | Some i => alter f i l
  | None => l
  end.

(** Mutation of [l[l.length - 1]]. *)
Definition alterLast {A} (f : A -> A) (l : list A) : list A :=
  alter f (length l - 1) l.

(** *** Field updates *)

Definition setContent (c : Content) (m : MessageWire) : MessageWire :=
  {| msg_id := msg_id m; msg_role := msg_role m; msg_content := c;
     msg_timestamp := msg_timestamp m |}.

Definition setText (t : option string) (b : ContentBlock) : ContentBlock :=
  {| b_type := b_type b; b_text := t; b_tool := b_tool b;
     b_thinking := b_thinking b;
     b_thinkingStartedAt := b_thinkingStartedAt b;
     b_thinkingDurationMs := b_thinkingDurationMs b;
     b_thinkingStreamIndex := b_thinkingStreamIndex b;
     b_isComplete := b_isComplete b |}.

Definition setTool (t : option ToolUseState) (b : ContentBlock)
  : ContentBlock :=
  {| b_type := b_type b; b_text := b_text b; b_tool := t;
     b_thinking := b_thinking b;
     b_thinkingStartedAt := b_thinkingStartedAt b;
     b_thinkingDurationMs := b_thinkingDurationMs b;
     b_thinkingStreamIndex := b_thinkingStreamIndex b;
     b_isComplete := b_isComplete b |}.

Definition setThinking (t : option string) (b : ContentBlock)
  : ContentBlock :=
  {| b_type := b_type b; b_text := b_text b; b_tool := b_tool b;
     b_thinking := t;
     b_thinkingStartedAt := b_thinkingStartedAt b;
     b_thinkingDurationMs := b_thinkingDurationMs b;
     b_thinkingStreamIndex := b_thinkingStreamIndex b;
     b_isComplete := b_isComplete b |}.

(** [isComplete = true; thinkingDurationMs = d]. *)
Definition closeThinking (d : option Z) (b : ContentBlock) : ContentBlock :=
  {| b_type := b_type b; b_text := b_text b; b_tool := b_tool b;
     b_thinking := b_thinking b;
     b_thinkingStartedAt := b_thinkingStartedAt b;
     b_thinkingDurationMs := d;
     b_thinkingStreamIndex := b_thinkingStreamIndex b;
     b_isComplete := Some true |}.

Definition setInputJson (j : option string) (t : ToolUseState)
  : ToolUseState :=
  {| tool_id := tool_id t; tool_name := tool_name t;
     tool_input := tool_input t; tool_streamIndex := tool_streamIndex t;
     tool_inputJson := j; tool_parsedInput := tool_parsedInput t;
     tool_result := tool_result t; tool_isLoading := tool_isLoading t;
     tool_isError := tool_isError t;
     tool_subagentCalls := tool_subagentCalls t |}.

Definition setParsedInput (p : option JsVal) (t : ToolUseState)
  : ToolUseState :=
  {| tool_id := tool_id t; tool_name := tool_name t;
     tool_input := tool_input t; tool_streamIndex := tool_streamIndex t;
     tool_inputJson := tool_inputJson t; tool_parsedInput := p;
     tool_result := tool_result t; tool_isLoading := tool_isLoading t;
     tool_isError := tool_isError t;
     tool_subagentCalls := tool_subagentCalls t |}.

Definition setResult (r : option string) (t : ToolUseState)
  : ToolUseState :=
  {| tool_id := tool_id t; tool_name := tool_name t;
     tool_input := tool_input t; tool_streamIndex := tool_streamIndex t;
     tool_inputJson := tool_inputJson t;
     tool_parsedInput := tool_parsedInput t;
     tool_result := r; tool_isLoading := tool_isLoading t;
     tool_isError := tool_isError t;
     tool_subagentCalls := tool_subagentCalls t |}.

Definition setIsError (e : option bool) (t : ToolUseState)
  : ToolUseState :=
  {| tool_id := tool_id t; tool_name := tool_name t;
     tool_input := tool_input t; tool_streamIndex := tool_streamIndex t;
     tool_inputJson := tool_inputJson t;
     tool_parsedInput := tool_parsedInput t;
     tool_result := tool_result t; tool_isLoading := tool_isLoading t;
     tool_isError := e;
     tool_subagentCalls := tool_subagentCalls t |}.

Definition setSubagentCalls (c : option (list SubagentToolCall))
  (t : ToolUseState) : ToolUseState :=
  {| tool_id := tool_id t; tool_name := tool_name t;
     tool_input := tool_input t; tool_streamIndex := tool_streamIndex t;
     tool_inputJson := tool_inputJson t;
     tool_parsedInput := tool_parsedInput t;
     tool_result := tool_result t; tool_isLoading := tool_isLoading t;
     tool_isError := tool_isError t;
     tool_subagentCalls := c |}.

(** [existing.name = name; existing.input = input;
    existing.streamIndex = streamIndex]. *)
Definition redeclareCall (name : string) (input : JsVal)
  (streamIndex : option Z) (c : SubagentToolCall) : SubagentToolCall :=
  {| call_id := call_id c; call_name := name; call_input := input;
     call_streamIndex := streamIndex; call_inputJson := call_inputJson c;
     call_parsedInput := call_parsedInput c; call_result := call_result c;
     call_isLoading := call_isLoading c; call_isError := call_isError c |}.

Definition setCallInputJson (j : option string) (c : SubagentToolCall)
  : SubagentToolCall :=
  {| call_id := call_id c; call_name := call_name c;
     call_input := call_input c; call_streamIndex := call_streamIndex c;
     call_inputJson := j; call_parsedInput := call_parsedInput c;
     call_result := call_result c; call_isLoading := call_isLoading c;
     call_isError := call_isError c |}.

Definition setCallParsedInput (p : option JsVal) (c : SubagentToolCall)
  : SubagentToolCall :=
  {| call_id := call_id c; call_name := call_name c;
     call_input := call_input c; call_streamIndex := call_streamIndex c;
     call_inputJson := call_inputJson c; call_parsedInput := p;
     call_result := call_result c; call_isLoading := call_isLoading c;
     call_isError := call_isError c |}.

Definition setCallResult (r : option string) (c : SubagentToolCall)
  : SubagentToolCall :=
  {| call_id := call_id c; call_name := call_name c;
     call_input := call_input c; call_streamIndex := call_streamIndex c;
     call_inputJson := call_inputJson c;
     call_parsedInput := call_parsedInput c; call_result := r;
     call_isLoading := call_isLoading c; call_isError := call_isError c |}.

Definition setCallIsLoading (l : option bool) (c : SubagentToolCall)
  : SubagentToolCall :=
  {| call_id := call_id c; call_name := call_name c;
     call_input := call_input c; call_streamIndex := call_streamIndex c;
     call_inputJson := call_inputJson c;
     call_parsedInput := call_parsedInput c; call_result := call_result c;
     call_isLoading := l; call_isError := call_isError c |}.

Definition setCallIsError (e : option bool) (c : SubagentToolCall)
  : SubagentToolCall :=
  {| call_id := call_id c; call_name := call_name c;
     call_input := call_input c; call_streamIndex := call_streamIndex c;
     call_inputJson := call_inputJson c;
     call_parsedInput := call_parsedInput c; call_result := call_result c;
     call_isLoading := call_isLoading c; call_isError := e |}.

(* ===================================================================== *)
(** ** The agent session: transcript model *)
(* ===================================================================== *)

Section Handlers.
Context {host : Host}.

(** [broadcast(event, data)]: every client is sent the frame of
    [(event, data)]; the model records the call. *)
Definition broadcast (event : string) (data : Payload) (s : State) : State :=
  set_sent (sent s ++ [(event, data)]) s.

(** [setSessionState(nextState)]. *)
Definition setSessionState (nextState : SessionState) (s : State) : State :=
  if decide (sessionState s = nextState) then s
  else
    let s := set_sessionState nextState s in
    broadcast "chat:status" (Jobj [("sessionState", Jstate nextState)]) s.

(** [ensureAssistantMessage()]: the message it returns is the last one
    of [messages] afterwards. *)
Definition ensureAssistantMessage (now : Z) (s : State) : State :=
  let fresh :=
    let assistant_ :=
      {| msg_id := pretty (messageSequence s); msg_role := assistant;
         msg_content := CText ""; msg_timestamp := toISOString now |} in
    set_isStreamingMessage true
      (set_messages (messages s ++ [assistant_])
         (set_messageSequence (S (messageSequence s)) s)) in
  match last (messages s) with
  | Some lastMessage =>
      if bool_decide (msg_role lastMessage = assistant)
         && isStreamingMessage s
      then s
      else fresh
  | None => fresh
  end.

(** A text block [{ type: 'text', text }]. *)
Definition textBlock (t : string) : ContentBlock :=
  {| b_type := T_text; b_text := Some t; b_tool := None; b_thinking := None;
     b_thinkingStartedAt := None; b_thinkingDurationMs := None;
     b_thinkingStreamIndex := None; b_isComplete := None |}.

(** The array [ensureContentArray(message)] returns. *)
Definition contentArrayOf (m : MessageWire) : list ContentBlock :=
  match msg_content m with
  | CText t => if truthy t then [textBlock t] else []
  | CBlocks blocks => blocks
  end.

(** [ensureContentArray(message)], as the update of the message. *)
Definition ensureContentArray (m : MessageWire) : MessageWire :=
  setContent (CBlocks (contentArrayOf m)) m.

(** The preamble of the block handlers,
    [const message = ensureAssistantMessage();
     const contentArray = ensureContentArray(message);],
    followed by the mutation [f] of [contentArray]. *)
Definition onContentArray (now : Z)
  (f : list ContentBlock -> list ContentBlock) (s : State) : State :=
  let s := ensureAssistantMessage now s in
  set_messages
    (alterLast (fun m => setContent (CBlocks (f (contentArrayOf m))) m)
       (messages s)) s.

(** The mutation [appendTextChunk] makes to the message it got. *)
Definition appendTextTo (chunk : string) (m : MessageWire) : MessageWire :=
  match msg_content m with
  | CText t => setContent (CText (t +:+ chunk)) m
  | CBlocks contentArray =>
      match last contentArray with
      | Some lastBlock =>
          if bool_decide (b_type lastBlock = T_text)
          then setContent
                 (CBlocks
                    (alterLast
                       (setText
                          (Some (nullish (b_text lastBlock) "" +:+ chunk)))
                       contentArray)) m
          else setContent (CBlocks (contentArray ++ [textBlock chunk])) m
      | None => setContent (CBlocks (contentArray ++ [textBlock chunk])) m
      end
  end.

(** [appendTextChunk(chunk)]. *)
Definition appendTextChunk (now : Z) (chunk : string) (s : State) : State :=
  let s := ensureAssistantMessage now s in
  set_messages (alterLast (appendTextTo chunk) (messages s)) s.

(** [handleThinkingStart(index)]. *)
Definition handleThinkingStart (now : Z) (index : Z) (s : State) : State :=
  onContentArray now
    (fun contentArray =>
       contentArray ++
       [{| b_type := T_thinking; b_text := None; b_tool := None;
           b_thinking := Some ""; b_thinkingStartedAt := Some now;
           b_thinkingDurationMs := None;
           b_thinkingStreamIndex := Some index; b_isComplete := None |}])
    s.

(** [block.type === 'thinking' && block.thinkingStreamIndex === index
    && !block.isComplete]. *)
Definition isOpenThinkingAt (index : Z) (block : ContentBlock) : bool :=
  bool_decide (b_type block = T_thinking)
  && bool_decide (b_thinkingStreamIndex block = Some index)
  && negb (nullish (b_isComplete block) false).

(** [block.type === 'tool_use' && block.tool?.id === toolId]. *)
Definition isToolBlock (toolId : string) (block : ContentBlock) : bool :=
  bool_decide (b_type block = T_tool_use)
  && match b_tool block with
     | Some t => String.eqb (tool_id t) toolId
     | None => false
     end.

(** [block.type === 'tool_use' && block.tool?.streamIndex === index]. *)
Definition isToolBlockAt (index : Z) (block : ContentBlock) : bool :=
  bool_decide (b_type block = T_tool_use)
  && match b_tool block with
     | Some t => (tool_streamIndex t =? index)%Z
     | None => false
     end.

(** [handleThinkingChunk(index, delta)]. *)
Definition handleThinkingChunk (now : Z) (index : Z) (delta : string)
  (s : State) : State :=
  onContentArray now
    (alterFirst (isOpenThinkingAt index)
       (fun thinkingBlock =>
          setThinking
            (Some (nullish (b_thinking thinkingBlock) "" +:+ delta))
            thinkingBlock))
    s.

(** [handleToolUseStart(tool)]. *)
Definition handleToolUseStart (now : Z) (id name : string) (input : JsVal)
  (streamIndex : Z) (s : State) : State :=
  onContentArray now
    (fun contentArray =>
       contentArray ++
       [{| b_type := T_tool_use; b_text := None;
           b_tool :=
             Some {| tool_id := id; tool_name := name; tool_input := input;
                     tool_streamIndex := streamIndex;
                     tool_inputJson := Some ""; tool_parsedInput := None;
                     tool_result := None; tool_isLoading := None;
                     tool_isError := None; tool_subagentCalls := None |};
           b_thinking := None; b_thinkingStartedAt := None;
           b_thinkingDurationMs := None; b_thinkingStreamIndex := None;
           b_isComplete := None |}])
    s.

(** The two assignments of [handleToolInputDelta] to the tool. *)
Definition growInputJson (delta : string) (t : ToolUseState) : ToolUseState :=
  let newInputJson := nullish (tool_inputJson t) "" +:+ delta in
  let t := setInputJson (Some newInputJson) t in
  let parsedInput := parsePartialJson newInputJson in
  if truthyVal parsedInput then setParsedInput (Some parsedInput) t else t.

(** [handleToolInputDelta(index, toolId, delta)]. *)
Definition handleToolInputDelta (now : Z) (index : Z) (toolId delta : string)
  (s : State) : State :=
  onContentArray now
    (alterFirst (isToolBlock toolId)
       (fun toolBlock => setTool (growInputJson delta <$> b_tool toolBlock)
                           toolBlock))
    s.

(** [thinkingStartedAt ? Date.now() - thinkingStartedAt : undefined]. *)
Definition thinkingDuration (now : Z) (block : ContentBlock) : option Z :=
  match b_thinkingStartedAt block with
  | Some t => if (t =? 0)%Z then None else Some (now - t)%Z
  | None => None
  end.

(** The strict parse of a closing tool block, with the partial parser as
    the fallback. *)
Definition reconcileInput (t : ToolUseState) : ToolUseState :=
  if truthyOpt (tool_inputJson t) then
    let inputJson := nullish (tool_inputJson t) "" in
    match JSON_parse inputJson with
    | Some v => setParsedInput (Some v) t
    | None =>
        let parsed := parsePartialJson inputJson in
        if truthyVal parsed then setParsedInput (Some parsed) t else t
    end
  else t.

(** [handleContentBlockStop(index, toolId)]. *)
Definition handleContentBlockStop (now : Z) (index : Z)
  (toolId : option string) (s : State) : State :=
  onContentArray now
    (fun contentArray =>
       match findIndex (isOpenThinkingAt index) contentArray with
       | Some i =>
           alter (fun thinkingBlock =>
                    closeThinking (thinkingDuration now thinkingBlock)
                      thinkingBlock) i contentArray
       | None =>
           let found :=
             if truthyOpt toolId
             then isToolBlock (nullish toolId "")
             else isToolBlockAt index in
           alterFirst found
             (fun toolBlock => setTool (reconcileInput <$> b_tool toolBlock)
                                 toolBlock)
             contentArray
       end)
    s.

(** [handleMessageComplete()]. *)
Definition handleMessageComplete (s : State) : State :=
  setSessionState idle (set_isStreamingMessage false s).

(** The function mapped over the blocks by [handleMessageStopped]. *)
Definition stopBlock (now : Z) (block : ContentBlock) : ContentBlock :=
  if bool_decide (b_type block = T_thinking)
     && negb (nullish (b_isComplete block) false)
  then closeThinking (thinkingDuration now block) block
  else block.

(** [handleMessageStopped()]. *)
Definition handleMessageStopped (now : Z) (s : State) : State :=
  let s := setSessionState idle (set_isStreamingMessage false s) in
  match last (messages s) with
  | Some lastMessage =>
      match msg_role lastMessage, msg_content lastMessage with
      | assistant, CBlocks blocks =>
          set_messages
            (alterLast (setContent (CBlocks (map (stopBlock now) blocks)))
               (messages s)) s
      | _, _ => s
      end
  | None => s
  end.

(** [handleMessageError(error)]. *)
Definition handleMessageError (now : Z) (error_ : string) (s : State)
  : State :=
  let s := setSessionState idle (set_isStreamingMessage false s) in
  set_messages
    (messages s ++
     [{| msg_id := pretty (messageSequence s); msg_role := assistant;
         msg_content := CText ("Error: " +:+ error_);
         msg_timestamp := toISOString now |}])
    (set_messageSequence (S (messageSequence s)) s).

(** *** Tool blocks and sub-agent calls *)

(** The scan of [findToolBlockById] over the messages from position [i]
    on: the match in the latest message wins, as the loop runs from the
    last message down.  The result is the position of the message and of
    the block in it. *)
Fixpoint findToolFrom (toolUseId : string) (i : nat)
  (ms : list MessageWire) : option (nat * nat) :=
  match ms with
  | [] => None
  | message :: rest =>
      match findToolFrom toolUseId (S i) rest with
      | Some found => Some found
      | None =>
          match msg_role message, msg_content message with
          | assistant, CBlocks blocks =>
              (fun j => (i, j)) <$> findIndex (isToolBlock toolUseId) blocks
          | _, _ => None
          end
      end
  end.

(** [findToolBlockById(toolUseId)]: where the tool block is. *)
Definition findToolBlockById (toolUseId : string) (s : State)
  : option (nat * nat) :=
  findToolFrom toolUseId 0 (messages s).

(** The tool a position holds. *)
Definition toolAt (loc : nat * nat) (s : State) : option ToolUseState :=
  m ← messages s !! loc.1;
  match msg_content m with
  | CBlocks blocks => b ← blocks !! loc.2; b_tool b
  | CText _ => None
  end.

(** Mutation of the tool [findToolBlockById] returned. *)
Definition alterToolAt (loc : nat * nat) (f : ToolUseState -> ToolUseState)
  (s : State) : State :=
  set_messages
    (alter (fun m =>
              match msg_content m with
              | CBlocks blocks =>
                  setContent
                    (CBlocks (alter (fun b => setTool (f <$> b_tool b) b)
                                loc.2 blocks)) m
              | CText _ => m
              end) loc.1 (messages s)) s.

Definition isCall (toolId : string) (call : SubagentToolCall) : bool :=
  String.eqb (call_id call) toolId.

(** [handleSubagentToolUseStart(parentToolUseId, tool)]. *)
Definition handleSubagentToolUseStart (parentToolUseId : string)
  (id name : string) (input : JsVal) (streamIndex : option Z) (s : State)
  : State :=
  match findToolBlockById parentToolUseId s with
  | None => s
  | Some parentTool =>
      let s :=
        set_childToolToParent (<[id := parentToolUseId]> (childToolToParent s))
          s in
      alterToolAt parentTool
        (fun t =>
           let calls := nullish (tool_subagentCalls t) [] in
           match findIndex (isCall id) calls with
           | Some k =>
               setSubagentCalls
                 (Some (alter (redeclareCall name input streamIndex) k calls))
                 t
           | None =>
               setSubagentCalls
                 (Some (calls ++
                        [{| call_id := id; call_name := name;
                            call_input := input;
                            call_streamIndex := streamIndex;
                            call_inputJson := Some (JSON_stringify2 input);
                            call_parsedInput := None; call_result := None;
                            call_isLoading := Some true;
                            call_isError := None |}]))
                 t
           end)
        s
  end.

(** The entry [ensureSubagentToolPlaceholder] pushes. *)
Definition placeholderCall (toolUseId : string) : SubagentToolCall :=
  {| call_id := toolUseId; call_name := "Tool"; call_input := emptyObject;
     call_streamIndex := None; call_inputJson := Some "{}";
     call_parsedInput := None; call_result := None;
     call_isLoading := Some true; call_isError := None |}.

(** [ensureSubagentToolPlaceholder(parentToolUseId, toolUseId)]. *)
Definition ensureSubagentToolPlaceholder (parentToolUseId toolUseId : string)
  (s : State) : State :=
  match findToolBlockById parentToolUseId s with
  | None => s
  | Some parentTool =>
      let calls :=
        nullish (toolAt parentTool s ≫= tool_subagentCalls) [] in
      match findIndex (isCall toolUseId) calls with
      | Some _ => alterToolAt parentTool (setSubagentCalls (Some calls)) s
      | None =>
          let s :=
            set_childToolToParent
              (<[toolUseId := parentToolUseId]> (childToolToParent s)) s in
          alterToolAt parentTool
            (setSubagentCalls (Some (calls ++ [placeholderCall toolUseId])))
            s
      end
  end.

(** The lookups shared by the sub-agent handlers below:
    [childToolToParent.get(toolUseId)], its tool block, its
    [subagentCalls], the call with the id.  The result is the position of
    the parent's tool block and of the call in its [subagentCalls]. *)
Definition findSubagentCall (toolUseId : string) (s : State)
  : option ((nat * nat) * nat) :=
  parentToolUseId ← childToolToParent s !! toolUseId;
  if truthy parentToolUseId then
    parentTool ← findToolBlockById parentToolUseId s;
    calls ← toolAt parentTool s ≫= tool_subagentCalls;
    k ← findIndex (isCall toolUseId) calls;
    Some (parentTool, k)
  else None.

(** Mutation of the call [findSubagentCall] found. *)
Definition alterCallAt (at_ : (nat * nat) * nat)
  (f : SubagentToolCall -> SubagentToolCall) (s : State) : State :=
  alterToolAt at_.1
    (fun t => setSubagentCalls (alter f at_.2 <$> tool_subagentCalls t) t) s.

(** The call [findSubagentCall] found. *)
Definition callAt (at_ : (nat * nat) * nat) (s : State)
  : option SubagentToolCall :=
  calls ← toolAt at_.1 s ≫= tool_subagentCalls; calls !! at_.2.

(** [handleSubagentToolInputDelta(parentToolUseId, toolId, delta)]. *)
Definition handleSubagentToolInputDelta (parentToolUseId toolId delta : string)
  (s : State) : State :=
  match findToolBlockById parentToolUseId s with
  | None => s
  | Some parentTool =>
      alterToolAt parentTool
        (fun t =>
           match tool_subagentCalls t with
           | None => t
           | Some calls =>
               setSubagentCalls
                 (Some
                    (alterFirst (isCall toolId)
                       (fun subCall =>
                          let newInputJson :=
                            nullish (call_inputJson subCall) "" +:+ delta in
                          let subCall :=
                            setCallInputJson (Some newInputJson) subCall in
                          let parsedInput := parsePartialJson newInputJson in
                          if truthyVal parsedInput
                          then setCallParsedInput (Some parsedInput) subCall
                          else subCall)
                       calls)) t
           end) s
  end.

(** [finalizeSubagentToolInput(parentToolUseId, toolId)]. *)
Definition finalizeSubagentToolInput (parentToolUseId toolId : string)
  (s : State) : State :=
  match findToolBlockById parentToolUseId s with
  | None => s
  | Some parentTool =>
      alterToolAt parentTool
        (fun t =>
           match tool_subagentCalls t with
           | None => t
           | Some calls =>
               setSubagentCalls
                 (Some
                    (alterFirst (isCall toolId)
                       (fun subCall =>
                          if truthyOpt (call_inputJson subCall) then
                            let inputJson :=
                              nullish (call_inputJson subCall) "" in
                            match JSON_parse inputJson with
                            | Some v => setCallParsedInput (Some v) subCall
                            | None =>
                                let parsed := parsePartialJson inputJson in
                                if truthyVal parsed
                                then setCallParsedInput (Some parsed) subCall
                                else subCall
                            end
                          else subCall)
                       calls)) t
           end) s
  end.

(** [handleSubagentToolResultStart(toolUseId, content, isError)]: the
    value returned and the state. *)
Definition handleSubagentToolResultStart (toolUseId content : string)
  (isError : bool) (s : State) : bool * State :=
  match findSubagentCall toolUseId s with
  | None => (false, s)
  | Some subCall =>
      (true,
       alterCallAt subCall
         (fun c =>
            setCallIsLoading (Some true)
              (setCallIsError (Some isError)
                 (setCallResult (Some content) c))) s)
  end.

(** [handleSubagentToolResultComplete(toolUseId, content, isError)];
    [isError] is [None] when the argument is left out. *)
Definition handleSubagentToolResultComplete (toolUseId content : string)
  (isError : option bool) (s : State) : bool * State :=
  match findSubagentCall toolUseId s with
  | None => (false, s)
  | Some subCall =>
      (true,
       alterCallAt subCall
         (fun c =>
            let c := setCallResult (Some content) c in
            let c :=
              match isError with
              | Some e => setCallIsError (Some e) c
              | None => c
              end in
            setCallIsLoading (Some false) c) s)
  end.

(** [appendSubagentToolResultDelta(toolUseId, delta)]. *)
Definition appendSubagentToolResultDelta (toolUseId delta : string)
  (s : State) : bool * State :=
  match findSubagentCall toolUseId s with
  | None => (false, s)
  | Some subCall =>
      (true,
       alterCallAt subCall
         (fun c =>
            setCallIsLoading (Some true)
              (setCallResult
                 (Some (nullish (call_result c) "" +:+ delta)) c)) s)
  end.

(** [finalizeSubagentToolResult(toolUseId)]. *)
Definition finalizeSubagentToolResult (toolUseId : string) (s : State)
  : bool * State :=
  match findSubagentCall toolUseId s with
  | None => (false, s)
  | Some subCall => (true, alterCallAt subCall (setCallIsLoading (Some false)) s)
  end.

(** [getSubagentToolResult(toolUseId)]. *)
Definition getSubagentToolResult (toolUseId : string) (s : State)
  : option string :=
  subCall ← findSubagentCall toolUseId s;
  c ← callAt subCall s;
  call_result c.

(** [setToolResult(toolUseId, content, isError)]. *)
Definition setToolResult (toolUseId content : string)
  (isError : option bool) (s : State) : State :=
  match findToolBlockById toolUseId s with
  | None => s
  | Some toolBlock =>
      alterToolAt toolBlock
        (fun t =>
           let t := setResult (Some content) t in
           match isError with
           | Some e => setIsError (Some e) t
           | None => t
           end) s
  end.

(** [getToolResult(toolUseId)]. *)
Definition getToolResult (toolUseId : string) (s : State) : option string :=
  toolBlock ← findToolBlockById toolUseId s;
  t ← toolAt toolBlock s;
  tool_result t.

(** [appendToolResultContent(toolUseId, content, isError)]: the string
    returned and the state. *)
Definition appendToolResultContent (toolUseId content : string)
  (isError : option bool) (s : State) : string * State :=
  let existing := getToolResult toolUseId s in
  let next :=
    if truthyOpt existing
    then nullish existing "" +:+ nl +:+ content
    else content in
  (next, setToolResult toolUseId next isError s).

(** [appendToolResultDelta(toolUseId, delta)]. *)
Definition appendToolResultDelta (toolUseId delta : string) (s : State)
  : State :=
  match appendSubagentToolResultDelta toolUseId delta s with
  | (true, s') => s'
  | (false, _) =>
      match findToolBlockById toolUseId s with
      | None => s
      | Some toolBlock =>
          alterToolAt toolBlock
            (fun t =>
               setResult (Some (nullish (tool_result t) "" +:+ delta)) t) s
      end
  end.

(** [handleToolResultStart(toolUseId, content, isError)]. *)
Definition handleToolResultStart (toolUseId content : string)
  (isError : bool) (s : State) : State :=
  match handleSubagentToolResultStart toolUseId content isError s with
  | (true, s') => s'
  | (false, _) => setToolResult toolUseId content (Some isError) s
  end.

(** [handleToolResultComplete(toolUseId, content, isError)]. *)
Definition handleToolResultComplete (toolUseId content : string)
  (isError : option bool) (s : State) : State :=
  match handleSubagentToolResultComplete toolUseId content isError s with
  | (true, s') => s'
  | (false, _) => setToolResult toolUseId content isError s
  end.

(** *** Rendering of what the runtime sends *)

(** [String(v)], and the reading of a field the code casts to [string]. *)
Definition toStr (v : JsVal) : string :=
  match v with VStr s => s | _ => String_ v end.

(** The elements a [for (const block of content)] visits. *)
Definition blocksOf (content : JsVal) : list JsVal :=
  match content with VArr items => items | _ => [] end.

(** What one block adds to [parts] in [formatAssistantContent]. *)
Definition formatBlock (block : JsVal) : list string :=
  match block with
  | VStr s => [s]
  | _ =>
      if negb (truthyVal block) || negb (isObject block) then []
      else if propIs "type" "text" block && hasProp "text" block
      then [toStr (nullishVal (getProp "text" block) (VStr ""))]
      else if propIs "type" "thinking" block && hasProp "thinking" block
      then
        let text :=
          trim (toStr (nullishVal (getProp "thinking" block) (VStr ""))) in
        if truthy text then ["Thinking:" +:+ nl +:+ text] else []
      else
        match getProp "text" block with
        | VStr t => if hasProp "text" block then [t] else []
        | _ => []
        end
  end.

(** [formatAssistantContent(content)]. *)
Definition formatAssistantContent (content : JsVal) : string :=
  match content with
  | VStr s => s
  | VArr items =>
      join (nl +:+ nl)
        (filter (fun part => truthy part = true)
           (map trim (concat (map formatBlock items))))
  | _ => EmptyString
  end.

(** The string a [content_block_start] of a tool result carries. *)
Definition startedResultText (content : JsVal) : string :=
  match content with
  | VStr s => s
  | VNull | VUndefined => EmptyString
  | _ => JSON_stringify2 content
  end.

(** The string a [tool_result] block of a user message carries. *)
Definition userResultText (content : JsVal) : string :=
  match content with
  | VStr s => s
  | _ => JSON_stringify2 (nullishVal content (VStr ""))
  end.

(** One element of an array content, in an assistant message. *)
Definition resultItemText (c : JsVal) : string :=
  match c with
  | VStr s => s
  | _ =>
      if isObject c then
        match getProp "text" c with
        | VStr t => if hasProp "text" c then t else JSON_stringify2 c
        | _ =>
            if propIs "type" "text" c && hasProp "text" c
            then toStr (getProp "text" c)
            else JSON_stringify2 c
        end
      else toStr c
  end.

(** The string a block with [tool_use_id] and [content] carries, in an
    assistant message. *)
Definition assistantResultText (content : JsVal) : string :=
  match content with
  | VStr s => s
  | VArr items => join nl (map resultItemText items)
  | VObj _ => JSON_stringify2 content
  | _ => toStr content
  end.

(** [appendLogLine(line)]; the write to the log file is not modelled. *)
Definition appendLogLine (line : string) (s : State) : State :=
  let lines := logLines s ++ [line] in
  let lines := if 2000 <? length lines then tail lines else lines in
  broadcast "chat:log" (Jstr line) (set_logLines lines s).

(** The tool payload [{ id, name, input, streamIndex }]. *)
Definition toolPayload (id name : string) (input : JsVal)
  (streamIndex : option Z) : Payload :=
  Jobj ([("id", Jstr id); ("name", Jstr name); ("input", Jval input)]
        ++ match streamIndex with
           | Some i => [("streamIndex", Jnum i)]
           | None => []
           end).

(** [childToolToParent.get(toolUseId) ?? parent_tool_use_id]. *)
Definition parentOf (toolUseId : string) (parent : option string)
  (s : State) : option string :=
  match childToolToParent s !! toolUseId with
  | Some p => Some p
  | None => parent
  end.

(** The part the three tool-result sites of the loop share: with a parent,
    the placeholder when the child is not known yet and the sub-agent
    event [subEvent]; without one, the event [event]. *)
Definition announceResult (subEvent event : string) (toolUseId : string)
  (parent : option string) (fields : list (string * Payload)) (s : State)
  : State :=
  let parentToolUseId := parentOf toolUseId parent s in
  if truthyOpt parentToolUseId then
    let p := nullish parentToolUseId "" in
    let s :=
      if bool_decide (is_Some (childToolToParent s !! toolUseId)) then s
      else ensureSubagentToolPlaceholder p toolUseId s in
    broadcast subEvent
      (Jobj ([("parentToolUseId", Jstr p); ("toolUseId", Jstr toolUseId)]
             ++ fields)) s
  else broadcast event (Jobj (("toolUseId", Jstr toolUseId) :: fields)) s.

(** The body of the loop over the blocks of a user message. *)
Definition userBlock (parent : option string) (s : State) (block : JsVal)
  : State :=
  if isObject block && hasProp "type" block
     && propIs "type" "tool_result" block && hasProp "tool_use_id" block
  then
    let toolUseId := toStr (getProp "tool_use_id" block) in
    let contentStr := userResultText (getProp "content" block) in
    let s :=
      announceResult "chat:subagent-tool-result-complete"
        "chat:tool-result-complete" toolUseId parent
        [("content", Jstr contentStr)] s in
    handleToolResultComplete toolUseId contentStr None s
  else s.

(** The body of the first loop over the blocks of an assistant message:
    the tool uses of a sub-agent. *)
Definition assistantToolUseBlock (parent : string) (s : State)
  (block : JsVal) : State :=
  if isObject block && hasProp "type" block
     && propIs "type" "tool_use" block && hasProp "id" block
     && hasProp "name" block
  then
    let id := toStr (getProp "id" block) in
    let name := toStr (getProp "name" block) in
    let input :=
      if truthyVal (getProp "input" block) then getProp "input" block
      else emptyObject in
    let s :=
      broadcast "chat:subagent-tool-use"
        (Jobj [("parentToolUseId", Jstr parent);
               ("tool", toolPayload id name input None)]) s in
    handleSubagentToolUseStart parent id name input None s
  else s.

(** The body of the second loop over the blocks of an assistant message:
    the tool results. *)
Definition assistantResultBlock (parent : option string) (s : State)
  (block : JsVal) : State :=
  if isObject block && hasProp "tool_use_id" block && hasProp "content" block
  then
    let toolUseId := toStr (getProp "tool_use_id" block) in
    let contentStr := assistantResultText (getProp "content" block) in
    let isError := truthyVal (getProp "is_error" block) in
    let s :=
      announceResult "chat:subagent-tool-result-complete"
        "chat:tool-result-complete" toolUseId parent
        [("content", Jstr contentStr); ("isError", Jbool isError)] s in
    handleToolResultComplete toolUseId contentStr (Some isError) s
  else s.

(** *** The body of the consumption loop *)

(** The start of the body: the log line, the system information and the
    agent error, none of which touches the transcript. *)
Definition noteSdkMessage (now : Z) (m : SdkMessage) (s : State) : State :=
  let s :=
    match sdkJson m with
    | Some json => appendLogLine (toISOString now +:+ " " +:+ json) s
    | None => s
    end in
  let s :=
    match parseSystemInitInfo m with
    | Some info =>
        broadcast "chat:system-init" (Jobj [("info", Jval info)])
          (set_systemInitInfo (Some info) s)
    | None => s
    end in
  if truthyOpt (extractAgentError m)
  then broadcast "chat:agent-error"
         (Jobj [("message", Jstr (nullish (extractAgentError m) ""))]) s
  else s.

(** A [content_block_delta]. *)
Definition onDelta (now : Z) (parent : option string) (index : Z)
  (delta : Delta) (s : State) : State :=
  match delta with
  | text_delta text =>
      if truthyOpt parent then
        let toolUseId := nullish parent "" in
        let s :=
          match childToolToParent s !! toolUseId with
          | Some parentToolUseId =>
              if truthy parentToolUseId then
                broadcast "chat:subagent-tool-result-delta"
                  (Jobj [("parentToolUseId", Jstr parentToolUseId);
                         ("toolUseId", Jstr toolUseId);
                         ("delta", Jstr text)]) s
              else
                broadcast "chat:tool-result-delta"
                  (Jobj [("toolUseId", Jstr toolUseId);
                         ("delta", Jstr text)]) s
          | None =>
              broadcast "chat:tool-result-delta"
                (Jobj [("toolUseId", Jstr toolUseId); ("delta", Jstr text)])
                s
          end in
        appendToolResultDelta toolUseId text s
      else
        appendTextChunk now text (broadcast "chat:message-chunk" (Jstr text) s)
  | thinking_delta thinking =>
      handleThinkingChunk now index thinking
        (broadcast "chat:thinking-chunk"
           (Jobj [("index", Jnum index); ("delta", Jstr thinking)]) s)
  | input_json_delta partial_json =>
      let toolId := nullish (streamIndexToToolId s !! index) "" in
      if truthyOpt parent then
        let p := nullish parent "" in
        handleSubagentToolInputDelta p toolId partial_json
          (broadcast "chat:subagent-tool-input-delta"
             (Jobj [("parentToolUseId", Jstr p); ("toolId", Jstr toolId);
                    ("delta", Jstr partial_json)]) s)
      else
        handleToolInputDelta now index toolId partial_json
          (broadcast "chat:tool-input-delta"
             (Jobj [("index", Jnum index); ("toolId", Jstr toolId);
                    ("delta", Jstr partial_json)]) s)
  | other_delta => s
  end.

(** A [content_block_start]. *)
Definition onBlockStart (now : Z) (parent : option string) (index : Z)
  (content_block : StartedBlock) (s : State) : State :=
  match content_block with
  | cb_thinking =>
      handleThinkingStart now index
        (broadcast "chat:thinking-start" (Jobj [("index", Jnum index)]) s)
  | cb_tool_use id name input =>
      let s :=
        set_streamIndexToToolId (<[index := id]> (streamIndexToToolId s)) s in
      let input := if truthyVal input then input else emptyObject in
      if truthyOpt parent then
        let p := nullish parent "" in
        handleSubagentToolUseStart p id name input (Some index)
          (broadcast "chat:subagent-tool-use"
             (Jobj [("parentToolUseId", Jstr p);
                    ("tool", toolPayload id name input (Some index))]) s)
      else
        handleToolUseStart now id name input index
          (broadcast "chat:tool-use-start"
             (toolPayload id name input (Some index)) s)
  | cb_tool_result tool_use_id content is_error =>
      let contentStr := startedResultText content in
      let s :=
        set_toolResultIndexToId
          (<[index := tool_use_id]> (toolResultIndexToId s)) s in
      if truthy contentStr then
        let isError := nullish is_error false in
        let s :=
          announceResult "chat:subagent-tool-result-start"
            "chat:tool-result-start" tool_use_id parent
            [("content", Jstr contentStr); ("isError", Jbool isError)] s in
        handleToolResultStart tool_use_id contentStr isError s
      else s
  | cb_other => s
  end.

(** A [content_block_stop]. *)
Definition onBlockStop (now : Z) (parent : option string) (index : Z)
  (s : State) : State :=
  let toolId := streamIndexToToolId s !! index in
  if truthyOpt parent then
    let p := nullish parent "" in
    let s :=
      if truthyOpt toolId
      then finalizeSubagentToolInput p (nullish toolId "") s
      else s in
    let toolResultId := toolResultIndexToId s !! index in
    if truthyOpt toolResultId then
      let id := nullish toolResultId "" in
      let s :=
        set_toolResultIndexToId (delete index (toolResultIndexToId s)) s in
      match finalizeSubagentToolResult id s with
      | (true, s) =>
          let result := nullish (getSubagentToolResult id s) "" in
          let parentToolUseId := childToolToParent s !! id in
          if truthyOpt parentToolUseId then
            broadcast "chat:subagent-tool-result-complete"
              (Jobj [("parentToolUseId", JstrOpt parentToolUseId);
                     ("toolUseId", Jstr id); ("content", Jstr result)]) s
          else s
      | (false, s) => s
      end
    else s
  else
    let toolId := if truthyOpt toolId then toolId else None in
    handleContentBlockStop now index toolId
      (broadcast "chat:content-block-stop"
         (Jobj [("index", Jnum index); ("toolId", JstrOpt toolId)]) s).

(** The part of the body after [if (shouldAbortSession) break;]. *)
Definition dispatchSdkMessage (now : Z) (m : SdkMessage) (s : State)
  : State :=
  match m with
  | stream_event parent (content_block_delta index delta) =>
      onDelta now parent index delta s
  | stream_event parent (content_block_start index content_block) =>
      onBlockStart now parent index content_block s
  | stream_event parent (content_block_stop index) =>
      onBlockStop now parent index s
  | stream_event _ other_event => s
  | user_message parent content =>
      if truthyOpt parent && truthyVal content
      then foldl (userBlock parent) s (blocksOf content)
      else s
  | assistant_message parent content =>
      let s :=
        if truthyOpt parent && truthyVal content
        then foldl (assistantToolUseBlock (nullish parent "")) s
               (blocksOf content)
        else s in
      let s :=
        if truthyOpt parent then
          let text := formatAssistantContent content in
          if truthy text then
            let '(next, s) :=
              appendToolResultContent (nullish parent "") text None s in
            broadcast "chat:tool-result-complete"
              (Jobj [("toolUseId", Jstr (nullish parent ""));
                     ("content", Jstr next)]) s
          else s
        else s in
      if truthyVal content
      then foldl (assistantResultBlock parent) s (blocksOf content)
      else s
  | result_message =>
      handleMessageComplete (broadcast "chat:message-complete" Jnull s)
  | other_message => s
  end.

(** *** Enqueueing, starting and ending a run, interrupting *)

(** [isSessionActive()]. *)
Definition isSessionActive (s : State) : bool :=
  isProcessing s || bool_decide (is_Some (querySession s)).

(** [getAgentState()]. *)
Definition getAgentState (s : State) : string * SessionState * bool :=
  (agentDir s, sessionState s, hasInitialPrompt s).

(** [getMessages()]. *)
Definition getMessages (s : State) : list MessageWire := messages s.

(** The user message [enqueueUserMessage] builds. *)
Definition userMessageOf (now : Z) (trimmed : string) (s : State)
  : MessageWire :=
  {| msg_id := pretty (messageSequence s); msg_role := user;
     msg_content := CText trimmed; msg_timestamp := toISOString now |}.

(** [enqueueUserMessage(text)] up to the test of [isSessionActive()]:
    [None] when it returns at once because the trimmed text is empty. *)
Definition enqueueHead (now : Z) (text : string) (s : State)
  : option State :=
  let trimmed := trim text in
  if truthy trimmed then
    let s := if hasInitialPrompt s then s else set_hasInitialPrompt true s in
    let s := setSessionState running s in
    let userMessage := userMessageOf now trimmed s in
    let s :=
      set_messages (messages s ++ [userMessage])
        (set_messageSequence (S (messageSequence s)) s) in
    Some (broadcast "chat:message-replay"
            (Jobj [("message", Jmessage userMessage)]) s)
  else None.

(** The same part of [enqueueUserMessage] in [agent-session.ts], which
    leaves [hasInitialPrompt] alone. *)
Definition enqueueHead_first (now : Z) (text : string) (s : State)
  : option State :=
  let trimmed := trim text in
  if truthy trimmed then
    let s := setSessionState running s in
    let userMessage := userMessageOf now trimmed s in
    let s :=
      set_messages (messages s ++ [userMessage])
        (set_messageSequence (S (messageSequence s)) s) in
    Some (broadcast "chat:message-replay"
            (Jobj [("message", Jmessage userMessage)]) s)
  else None.

(** The end of [enqueueUserMessage]: the push onto [messageQueue] of the
    message and of the [resolve] of the promise awaited. *)
Definition enqueueTail (text : string) (resolve : nat) (s : State) : State :=
  set_messageQueue
    (messageQueue s ++ [{| item_text := trim text; item_resolve := resolve |}])
    s.

(** [startStreamingSession()] between its test of a live session and the
    call of [query]: [None] when it returns because a session is live. *)
Definition startHead (p : PromiseId) (s : State) : option State :=
  if isProcessing s || bool_decide (is_Some (querySession s)) then None
  else
    let s := set_shouldAbortSession false s in
    let s := set_isProcessing true s in
    let s := set_streamIndexToToolId ∅ s in
    let s := setSessionState running s in
    Some (set_sessionTerminationPromise (Some p) s).

(** [error instanceof Error ? error.message : 'Unknown error occurred']. *)
Definition errorMessageOf (e : Thrown) : string :=
  match e with
  | ErrorObject message => message
  | NotAnError => "Unknown error occurred"
  end.

(** The [catch] clause of [startStreamingSession]. *)
Definition sessionCatch (now : Z) (e : Thrown) (s : State) : State :=
  let errorMessage := errorMessageOf e in
  let s := broadcast "chat:message-error" (Jstr errorMessage) s in
  let s := handleMessageError now errorMessage s in
  setSessionState error s.

(** The [finally] clause of [startStreamingSession], but for the call of
    [resolveTermination]. *)
Definition sessionFinally (s : State) : State :=
  let s := set_querySession None (set_isProcessing false s) in
  if decide (sessionState s = error) then s else setSessionState idle s.

End Handlers.

(* ===================================================================== *)
(** ** The agent session: what runs when *)
(* ===================================================================== *)

(** The asynchronous functions of the module are cut at their [await]s.
    Between two cuts a function runs alone; at a cut anything else may
    run.  The world holds the module's variables and what the pending
    invocations remember. *)

(** An invocation of [startStreamingSession]:
    - [Awaiting p]: suspended at [await sessionTerminationPromise], the
      promise being [p];
    - [Live held]: inside the [for await] over the session [query]
      returned; its message generator is suspended at its [yield] when
      [held] is the [resolve] of the item it yielded;
    - [Over]: returned.
    The invocation at position [i] of [runs] names its session and its
    termination promise [i]. *)
Inductive Run :=
| Awaiting (p : PromiseId)
| Live (held : option nat)
| Over.

(** An invocation of [interruptCurrentResponse] that went as far as
    [await querySession.interrupt()]. *)
Inductive Stop :=
| InFlight
| Settled.

Global Instance Run_eq_dec : EqDecision Run.
Proof. solve_decision. Defined.
Global Instance Stop_eq_dec : EqDecision Stop.
Proof. solve_decision. Defined.

Record World := mkWorld {
  (** the module's variables *)
  vars : State;
  (** the invocations of [startStreamingSession], oldest first *)
  runs : list Run;
  (** the termination promises that are resolved *)
  terminated : list PromiseId;
  (** the promises of [enqueueUserMessage] that are resolved *)
  resolved : list nat;
  (** how many such promises were made *)
  calls : nat;
  (** the sessions whose [interrupt()] was called, oldest first *)
  interrupts : list Query;
  (** the invocations of [interruptCurrentResponse] that reached the
      [await] *)
  stops : list Stop;
  (** the values [interruptCurrentResponse] returned, oldest first *)
  answers : list bool
}.

Definition set_vars (v : State) (w : World) : World :=
  {| vars := v; runs := runs w; terminated := terminated w; resolved :=
     resolved w; calls := calls w; interrupts := interrupts w; stops :=
     stops w; answers := answers w |}.

Definition set_runs (v : list Run) (w : World) : World :=
  {| vars := vars w; runs := v; terminated := terminated w; resolved :=
     resolved w; calls := calls w; interrupts := interrupts w; stops :=
     stops w; answers := answers w |}.

Definition set_terminated (v : list PromiseId) (w : World) : World :=
  {| vars := vars w; runs := runs w; terminated := v; resolved := resolved
     w; calls := calls w; interrupts := interrupts w; stops := stops w;
     answers := answers w |}.

Definition set_resolved (v : list nat) (w : World) : World :=
  {| vars := vars w; runs := runs w; terminated := terminated w; resolved :=
     v; calls := calls w; interrupts := interrupts w; stops := stops w;
     answers := answers w |}.

Definition set_calls (v : nat) (w : World) : World :=
  {| vars := vars w; runs := runs w; terminated := terminated w; resolved :=
     resolved w; calls := v; interrupts := interrupts w; stops := stops w;
     answers := answers w |}.

Definition set_interrupts (v : list Query) (w : World) : World :=
  {| vars := vars w; runs := runs w; terminated := terminated w; resolved :=
     resolved w; calls := calls w; interrupts := v; stops := stops w;
     answers := answers w |}.

Definition set_stops (v : list Stop) (w : World) : World :=
  {| vars := vars w; runs := runs w; terminated := terminated w; resolved :=
     resolved w; calls := calls w; interrupts := interrupts w; stops := v;
     answers := answers w |}.

Definition set_answers (v : list bool) (w : World) : World :=
  {| vars := vars w; runs := runs w; terminated := terminated w; resolved :=
     resolved w; calls := calls w; interrupts := interrupts w; stops :=
     stops w; answers := v |}.

Section Scheduling.
Context {host : Host}.

(** The sessions that are live: the positions of the [Live] runs. *)
Fixpoint liveFrom (i : nat) (rs : list Run) : list Query :=
  match rs with
  | [] => []
  | Live _ :: rest => i :: liveFrom (S i) rest
  | _ :: rest => liveFrom (S i) rest
  end.

Definition liveSessions (w : World) : list Query := liveFrom 0 (runs w).

(** The end of run [i], through [finally]: the handle is released and
    the termination promise resolved. *)
Definition finishRun (i : nat) (w : World) : World :=
  set_terminated (terminated w ++ [i])
    (set_runs (<[i := Over]> (runs w))
       (set_vars (sessionFinally (vars w)) w)).

(** [startStreamingSession()] from its test of a live session on, for
    the invocation at position [i]; [thrown] is what the call of [query]
    throws, if it throws. *)
Definition startRun (i : nat) (now : Z) (thrown : option Thrown) (w : World)
  : World :=
  match startHead i (vars w) with
  | None => set_runs (<[i := Over]> (runs w)) w
  | Some s =>
      match thrown with
      | None =>
          set_runs (<[i := Live None]> (runs w))
            (set_vars (set_querySession (Some i) s) w)
      | Some e => finishRun i (set_vars (sessionCatch now e s) w)
      end
  end.

(** [startStreamingSession()], from the call to the first suspension. *)
Definition startStreamingSession (now : Z) (thrown : option Thrown)
  (w : World) : World :=
  let i := length (runs w) in
  match sessionTerminationPromise (vars w) with
  | Some p => set_runs (runs w ++ [Awaiting p]) w
  | None => startRun i now thrown (set_runs (runs w ++ [Over]) w)
  end.

(** [enqueueUserMessage(text)], from the call to its [await]. *)
Definition enqueueUserMessage (now : Z) (text : string)
  (thrown : option Thrown) (w : World) : World :=
  match enqueueHead now text (vars w) with
  | None => w
  | Some s =>
      let w := set_vars s w in
      let w :=
        if isSessionActive (vars w) then w
        else startStreamingSession now thrown w in
      set_calls (S (calls w))
        (set_vars (enqueueTail text (calls w) (vars w)) w)
  end.

(** [enqueueUserMessage(text)] of [agent-session.ts]. *)
Definition enqueueUserMessage_first (now : Z) (text : string)
  (thrown : option Thrown) (w : World) : World :=
  match enqueueHead_first now text (vars w) with
  | None => w
  | Some s =>
      let w := set_vars s w in
      let w :=
        if isSessionActive (vars w) then w
        else startStreamingSession now thrown w in
      set_calls (S (calls w))
        (set_vars (enqueueTail text (calls w) (vars w)) w)
  end.

(** [interruptCurrentResponse()], from the call to its [await] or to its
    [return]. *)
Definition interruptCurrentResponse (w : World) : World :=
  match querySession (vars w) with
  | None => set_answers (answers w ++ [false]) w
  | Some q =>
      if isInterruptingResponse (vars w)
      then set_answers (answers w ++ [true]) w
      else
        set_stops (stops w ++ [InFlight])
          (set_interrupts (interrupts w ++ [q])
             (set_vars (set_isInterruptingResponse true (vars w)) w))
  end.

(** The rest of [interruptCurrentResponse()], once the promise of
    [querySession.interrupt()] is settled: fulfilled when [ok], rejected
    otherwise. *)
Definition interruptSettled (k : nat) (now : Z) (ok : bool) (w : World)
  : World :=
  let w := set_stops (<[k := Settled]> (stops w)) w in
  if ok then
    let s := broadcast "chat:message-stopped" Jnull (vars w) in
    let s := handleMessageStopped now s in
    set_answers (answers w ++ [true])
      (set_vars (set_isInterruptingResponse false s) w)
  else set_vars (set_isInterruptingResponse false (vars w)) w.

(** The variables as the module declares them. *)
Definition pristine : State :=
  {| agentDir := ""; hasInitialPrompt := false; sessionState := idle;
     querySession := None; isProcessing := false;
     shouldAbortSession := false; sessionTerminationPromise := None;
     isInterruptingResponse := false; isStreamingMessage := false;
     messages := []; streamIndexToToolId := ∅; toolResultIndexToId := ∅;
     childToolToParent := ∅; messageSequence := 0; sessionId := "";
     logLines := []; systemInitInfo := None; messageQueue := [];
     sent := [] |}.

Definition boot : World :=
  {| vars := pristine; runs := []; terminated := []; resolved := [];
     calls := 0; interrupts := []; stops := []; answers := [] |}.

(** [Boolean(initialPrompt && initialPrompt.trim())]. *)
Definition hasPrompt (initialPrompt : option string) : bool :=
  match initialPrompt with
  | Some p => truthy p && truthy (trim p)
  | None => false
  end.

(** [initializeAgent(nextAgentDir, initialPrompt)]; [uuid] is what
    [randomUUID()] returns. *)
Definition initializeAgent (now : Z) (nextAgentDir : string)
  (initialPrompt : option string) (uuid : string) (thrown : option Thrown)
  (w : World) : World :=
  let s := vars w in
  let s := set_agentDir nextAgentDir s in
  let s := set_hasInitialPrompt (hasPrompt initialPrompt) s in
  let s := set_systemInitInfo None s in
  let s := set_messageSequence 0 s in
  let s := set_sessionId uuid s in
  let s := set_messages [] s in
  let s := set_messageQueue [] s in
  let s := set_childToolToParent ∅ s in
  let s := set_logLines [] s in
  let w := set_vars s w in
  if hasPrompt initialPrompt
  then enqueueUserMessage now (trim (nullish initialPrompt "")) thrown w
  else w.

(** [initializeAgent] of [agent-session.ts]. *)
Definition initializeAgent_first (now : Z) (nextAgentDir : string)
  (initialPrompt : option string) (thrown : option Thrown) (w : World)
  : World :=
  let s := vars w in
  let s := set_agentDir nextAgentDir s in
  let s := set_hasInitialPrompt (hasPrompt initialPrompt) s in
  let s := set_messageSequence 0 s in
  let w := set_vars s w in
  if hasPrompt initialPrompt
  then enqueueUserMessage_first now (trim (nullish initialPrompt "")) thrown w
  else w.

(** *** The HTTP commands, [src/server/index.ts] *)

(** The body of a request: not JSON, or a payload with or without
    [text]. *)
Inductive Body :=
| InvalidJson
| Payload_ (text : option string).

(** [jsonResponse({ success, error }, status)]. *)
Record Response := mkResponse {
  status : nat;
  success : bool;
  error_ : option string
}.

(** What the handler of [POST /chat/send] does until it answers or
    awaits [enqueueUserMessage]: the response when it answers at once, or
    the promise it awaits before answering [{ success: true }]. *)
Definition chatSend (now : Z) (body : Body) (thrown : option Thrown)
  (w : World) : (Response + nat) * World :=
  match body with
  | InvalidJson =>
      (inl {| status := 400; success := false;
              error_ := Some "Invalid JSON payload." |}, w)
  | Payload_ text =>
      let text := nullish (trim <$> text) "" in
      if truthy text
      then (inr (calls w), enqueueUserMessage now text thrown w)
      else (inl {| status := 400; success := false;
                   error_ := Some "Message cannot be empty." |}, w)
  end.

(** *** Steps *)

(** What can happen next: a command arrives, or a suspended invocation
    goes on. *)
Inductive Label :=
(** [enqueueUserMessage(text)] is called *)
| Enqueue (now : Z) (text : string) (thrown : option Thrown)
(** [POST /chat/send] *)
| Send (now : Z) (body : Body) (thrown : option Thrown)
(** invocation [i] of [startStreamingSession] goes on after its await *)
| Resume (i : nat) (now : Z) (thrown : option Thrown)
(** the runtime of session [i] asks the message generator for an item *)
| Feed (i : nat)
(** the runtime of session [i] resumes the generator after its yield *)
| FeedBack (i : nat)
(** session [i] yields an SDK message *)
| Sdk (i : nat) (now : Z) (m : SdkMessage)
(** the event stream of session [i] ends *)
| EndOfStream (i : nat)
(** the event stream of session [i] raises *)
| Raise (i : nat) (now : Z) (e : Thrown)
(** [interruptCurrentResponse()] is called *)
| Interrupt
(** the [interrupt()] awaited by invocation [k] settles *)
| InterruptSettled (k : nat) (now : Z) (ok : bool).

(** One step; [None] when the step cannot be taken in this world. *)
Definition step (w : World) (l : Label) : option World :=
  match l with
  | Enqueue now text thrown => Some (enqueueUserMessage now text thrown w)
  | Send now body thrown => Some (chatSend now body thrown w).2
  | Resume i now thrown =>
      match runs w !! i with
      | Some (Awaiting p) =>
          if bool_decide (p ∈ terminated w)
          then Some (startRun i now thrown w)
          else None
      | _ => None
      end
  | Feed i =>
      match runs w !! i, messageQueue (vars w) with
      | Some (Live None), item :: rest =>
          if shouldAbortSession (vars w) then None
          else
            Some (set_runs (<[i := Live (Some (item_resolve item))]> (runs w))
                    (set_vars (set_messageQueue rest (vars w)) w))
      | _, _ => None
      end
  | FeedBack i =>
      match runs w !! i with
      | Some (Live (Some r)) =>
          Some (set_resolved (resolved w ++ [r])
                  (set_runs (<[i := Live None]> (runs w)) w))
      | _ => None
      end
  | Sdk i now m =>
      match runs w !! i with
      | Some (Live _) =>
          let s := noteSdkMessage now m (vars w) in
          if shouldAbortSession s
          then Some (finishRun i (set_vars s w))
          else Some (set_vars (dispatchSdkMessage now m s) w)
      | _ => None
      end
  | EndOfStream i =>
      match runs w !! i with
      | Some (Live _) => Some (finishRun i w)
      | _ => None
      end
  | Raise i now e =>
      match runs w !! i with
      | Some (Live _) =>
          Some (finishRun i (set_vars (sessionCatch now e (vars w)) w))
      | _ => None
      end
  | Interrupt => Some (interruptCurrentResponse w)
  | InterruptSettled k now ok =>
      match stops w !! k with
      | Some InFlight => Some (interruptSettled k now ok w)
      | _ => None
      end
  end.

(** A trace, from the left. *)
Fixpoint exec (w : World) (ls : list Label) : option World :=
  match ls with
  | [] => Some w
  | l :: rest =>
      match step w l with
      | Some w' => exec w' rest
      | None => None
      end
  end.

(** The worlds the server can be in: [initializeAgent] runs once, from
    the variables as declared, and then steps are taken. *)
Inductive reachable : World -> Prop :=
| reach_init now dir prompt uuid thrown :
    reachable (initializeAgent now dir prompt uuid thrown boot)
| reach_step w l w' :
    reachable w -> step w l = Some w' -> reachable w'.

(** *** What the claims speak of *)

(** The assistant message the next delta would go to, if one is open. *)
Definition openAssistantMessage (s : State) : option MessageWire :=
  match last (messages s) with
  | Some m =>
      if bool_decide (msg_role m = assistant) && isStreamingMessage s
      then Some m else None
  | None => None
  end.

(** The text a message accumulates from text deltas: its content while
    it is a string, the text of its last block when that is a text
    block, and nothing otherwise. *)
Definition accumulatedText (m : MessageWire) : string :=
  match msg_content m with
  | CText t => t
  | CBlocks blocks =>
      match last blocks with
      | Some b =>
          if bool_decide (b_type b = T_text) then nullish (b_text b) ""
          else EmptyString
      | None => EmptyString
      end
  end.

Definition openText (s : State) : string :=
  match openAssistantMessage s with
  | Some m => accumulatedText m
  | None => EmptyString
  end.

(** The text deltas of the top level, [(now, text)], as SDK messages. *)
Definition textDeltaEvent (index : Z) (text : string) : SdkMessage :=
  stream_event None (content_block_delta index (text_delta text)).

(** A thinking block that is not completed. *)
Definition isOpenThinking (b : ContentBlock) : bool :=
  bool_decide (b_type b = T_thinking) && negb (nullish (b_isComplete b) false).

(** The blocks of the last message, when it has blocks. *)
Definition lastBlocks (s : State) : list ContentBlock :=
  match last (messages s) with
  | Some m =>
      match msg_content m with CBlocks bs => bs | CText _ => [] end
  | None => []
  end.

(** The sub-agent entries filed under tool [parent]. *)
Definition subagentCallsOf (parent : string) (s : State)
  : list SubagentToolCall :=
  match findToolBlockById parent s with
  | Some loc => nullish (toolAt loc s ≫= tool_subagentCalls) []
  | None => []
  end.

(** The sub-agent entry for [child] under [parent]. *)
Definition subagentCall (parent child : string) (s : State)
  : option SubagentToolCall :=
  let calls := subagentCallsOf parent s in
  k ← findIndex (isCall child) calls; calls !! k.

(** *** What the proofs speak of *)

(** The variables no handler of the consumption loop assigns. *)
Definition control (s : State) :=
  (agentDir s, hasInitialPrompt s, querySession s, isProcessing s,
   shouldAbortSession s, sessionTerminationPromise s,
   isInterruptingResponse s, messageQueue s, sessionId s).

(** The texts of a list of deltas [(now, index, text)], one after the
    other. *)
Fixpoint concatTexts (deltas : list (Z * Z * string)) : string :=
  match deltas with
  | [] => EmptyString
  | d :: rest => d.2 +:+ concatTexts rest
  end.

(** The steps in which session [i] yields the text deltas, in turn. *)
Definition textDeltaSteps (i : nat) (deltas : list (Z * Z * string))
  : list Label :=
  map (fun d => Sdk i d.1.1 (textDeltaEvent d.1.2 d.2)) deltas.

(** The body of the loop over the SDK messages [(now, m)] in turn, while
    the abort flag is down. *)
Definition consume (s : State) (events : list (Z * SdkMessage)) : State :=
  foldl (fun s e => dispatchSdkMessage e.1 e.2 (noteSdkMessage e.1 e.2 s))
    s events.

(** The parent a message names for the tool use [child] of a sub-agent,
    when it declares one: a [content_block_start] of a tool use, or a
    tool-use block of an assistant message, under a
    [parent_tool_use_id]. *)
Definition namesToolUse (m : SdkMessage) (child : string) : option string :=
  match m with
  | stream_event (Some p) (content_block_start _ (cb_tool_use id _ _)) =>
      if truthy p && String.eqb id child then Some p else None
  | assistant_message (Some p) content =>
      if truthy p && truthyVal content
         && existsb
              (fun block =>
                 isObject block && hasProp "type" block
                 && propIs "type" "tool_use" block && hasProp "id" block
                 && hasProp "name" block
                 && String.eqb (toStr (getProp "id" block)) child)
              (blocksOf content)
      then Some p else None
  | _ => None
  end.

(** A tool-result start for [toolUseId] in the stream of [parent]. *)
Definition resultStartEvent (parent : option string) (index : Z)
  (toolUseId : string) (content : JsVal) (is_error : option bool)
  : SdkMessage :=
  stream_event parent
    (content_block_start index (cb_tool_result toolUseId content is_error)).

(** A tool-result complete for [toolUseId]: a user message in the stream
    of [parent] with one [tool_result] block. *)
Definition resultCompleteEvent (parent : option string) (toolUseId : string)
  (content : JsVal) : SdkMessage :=
  user_message parent
    (VArr [VObj [("type", VStr "tool_result");
                 ("tool_use_id", VStr toolUseId); ("content", content)]]).

(** The tool-result deltas [(now, index, text)] for [toolUseId]: text
    deltas in the stream of that tool. *)
Definition resultDeltaEvents (toolUseId : string)
  (deltas : list (Z * Z * string)) : list (Z * SdkMessage) :=
  map (fun d =>
         (d.1.1,
          stream_event (Some toolUseId)
            (content_block_delta d.1.2 (text_delta d.2)))) deltas.

(** Child [c] is filed under parent [P]: the table sends [c] to [P], the
    tool block of [P] is at [loc], and its [subagentCalls] are [calls0],
    none of them for [c], followed by [entry], which is for [c]. *)
Definition filed (s : State) (P c : string) (loc : nat * nat)
  (calls0 : list SubagentToolCall) (entry : SubagentToolCall) : Prop :=
  childToolToParent s !! c = Some P
  /\ findToolBlockById P s = Some loc
  /\ toolAt loc s ≫= tool_subagentCalls = Some (calls0 ++ [entry])
  /\ findIndex (isCall c) calls0 = None
  /\ call_id entry = c.

(** What holds of the world between two steps: the live sessions are the
    one [querySession] holds, if it holds one; [isProcessing] is set
    exactly then; the abort flag is down; a resolved termination promise
    is the one of a run that is over; a start that waits, and the module,
    hold the promise of a run that was started; and the interrupt flag is
    up exactly when an interrupt is in flight, of which there is at most
    one. *)
Definition coherent (w : World) : Prop :=
  liveSessions w = option_list (querySession (vars w))
  /\ isProcessing (vars w) = bool_decide (is_Some (querySession (vars w)))
  /\ shouldAbortSession (vars w) = false
  /\ (forall p, p ∈ terminated w -> runs w !! p = Some Over)
  /\ (forall i p, runs w !! i = Some (Awaiting p) ->
        exists r, runs w !! p = Some r /\ forall q, r <> Awaiting q)
  /\ (forall p, sessionTerminationPromise (vars w) = Some p ->
        exists r, runs w !! p = Some r /\ forall q, r <> Awaiting q)
  /\ length (filter (fun st => st = InFlight) (stops w))
     = (if isInterruptingResponse (vars w) then 1 else 0).

End Scheduling.

Arguments control : simpl never.

(** A host for the examples: nothing parses, everything renders as an
    empty object. *)
Definition sampleHost : Host :=
  {| JSON_stringify2 := fun _ => "{}";
     JSON_parse := fun _ => None;
     parsePartialJson := fun _ => VUndefined;
     String_ := fun _ => "";
     toISOString := fun _ => "1970-01-01T00:00:00.000Z";
     sdkJson := fun _ => None;
     parseSystemInitInfo := fun _ => None;
     extractAgentError := fun _ => None |}.

(** The world after [initializeAgent] with the prompt [" hello "]: one
    session is live and the prompt waits in the queue. *)
Definition sampleWorld : World :=
  initializeAgent (host := sampleHost) 1000 "/agent" (Some " hello ")
    "00000000-0000-4000-8000-000000000000" None boot.

(** The transcript after the sample session has started the two tools
    [P1] and [P2]. *)
Definition twoTools : State :=
  consume (host := sampleHost) (vars sampleWorld)
    [(1001%Z,
      stream_event None
        (content_block_start 0 (cb_tool_use "P1" "Task" emptyObject)));
     (1002%Z,
      stream_event None
        (content_block_start 1 (cb_tool_use "P2" "Task" emptyObject)))].

(** The transcript after a sub-agent of [P1] has started the tool [c]. *)
Definition childFiled : State :=
  consume (host := sampleHost) twoTools
    [(1003%Z,
      stream_event (Some "P1")
        (content_block_start 2 (cb_tool_use "c" "Bash" emptyObject)))].

(** The same child declared again, by a sub-agent of [P2]. *)
Definition childFiledAgain : State :=
  consume (host := sampleHost) childFiled
    [(1004%Z,
      stream_event (Some "P2")
        (content_block_start 3 (cb_tool_use "c" "Bash" emptyObject)))].

(** The sample session starts to think, and an interrupt is asked for
    before the thinking block is closed. *)
Definition thinkingSteps : list Label :=
  [Sdk 0 1001%Z (stream_event None (content_block_start 0 cb_thinking));
   Sdk 0 1002%Z
     (stream_event None (content_block_delta 0 (thinking_delta "hm")));
   Interrupt].

(** The world after [thinkingSteps], and after the interrupt has then
    settled at 1500. *)
Definition thinkingWorld : World :=
  default sampleWorld (exec (host := sampleHost) sampleWorld thinkingSteps).

Definition thinkingClosed : World :=
  default thinkingWorld
    (step (host := sampleHost) thinkingWorld (InterruptSettled 0 1500 true)).

(** The world after [initializeAgent] without a prompt. *)
Definition idleWorld : World :=
  initializeAgent (host := sampleHost) 1000 "/agent" None
    "00000000-0000-4000-8000-000000000000" None boot.

(** A host whose SDK messages all render as [{}], so that every one of
    them is logged. *)
Definition loggingHost : Host :=
  {| JSON_stringify2 := fun _ => "{}";
     JSON_parse := fun _ => None;
     parsePartialJson := fun _ => VUndefined;
     String_ := fun _ => "";
     toISOString := fun _ => "1970-01-01T00:00:00.000Z";
     sdkJson := fun _ => Some "{}";
     parseSystemInitInfo := fun _ => None;
     extractAgentError := fun _ => None |}.

(** The sample world of that host. *)
Definition loggingWorld : World :=
  initializeAgent (host := loggingHost) 1000 "/agent" (Some " hello ")
    "00000000-0000-4000-8000-000000000000" None boot.

(** A turn of the sample session: a text, the result, and the end of the
    stream. *)
Definition turnSteps : list Label :=
  [Feed 0; FeedBack 0; Sdk 0 1001%Z (textDeltaEvent 0 "hi");
   Sdk 0 1002%Z result_message; EndOfStream 0].

(** A host whose [JSON.parse] takes the text of the empty object and
    nothing else. *)
Definition parsingHost : Host :=
  {| JSON_stringify2 := fun _ => "{}";
     JSON_parse :=
       fun text => if String.eqb text "{}" then Some emptyObject else None;
     parsePartialJson := fun _ => VUndefined;
     String_ := fun _ => "";
     toISOString := fun _ => "1970-01-01T00:00:00.000Z";
     sdkJson := fun _ => None;
     parseSystemInitInfo := fun _ => None;
     extractAgentError := fun _ => None |}.

(** A second message arrives while the sample session is live, and the
    session takes the two that wait, one after the other. *)
Definition queueSteps : list Label :=
  [Enqueue 1001%Z "again" None; Feed 0; FeedBack 0; Feed 0; FeedBack 0].

(** *** What a client can follow of the session *)

(** What the server never changes of a message once it is in the
    transcript: its id, its role and its timestamp. *)
Definition skeleton (m : MessageWire) : string * Role * string :=
  (msg_id m, msg_role m, msg_timestamp m).

(** The state a [chat:status] broadcast announces. *)
Definition statusOf (e : string * Payload) : option SessionState :=
  match e with
  | (name, Jobj [(_, Jstate st)]) =>
      if String.eqb name "chat:status" then Some st else None
  | _ => None
  end.

(** The states announced so far, oldest first. *)
Definition statuses (l : list (string * Payload)) : list SessionState :=
  omap statusOf l.

(** The line a [chat:log] broadcast carries. *)
Definition logOf (e : string * Payload) : option string :=
  match e with
  | (name, Jstr line) => if String.eqb name "chat:log" then Some line else None
  | _ => None
  end.

(** The lines broadcast so far, oldest first. *)
Definition logged (l : list (string * Payload)) : list string :=
  omap logOf l.

(** The part of the variables the moves below speak of. *)
Record Audit := mkAudit {
  a_skeletons : list (string * Role * string);
  a_sequence : nat;
  a_state : SessionState;
  a_sent : list (string * Payload);
  a_logLines : list string
}.

Definition audit (s : State) : Audit :=
  {| a_skeletons := skeleton <$> messages s;
     a_sequence := messageSequence s;
     a_state := sessionState s;
     a_sent := sent s;
     a_logLines := logLines s |}.

(** The data of a broadcast has the shape the renderer expects under
    the name of the event: a string under the names of [STRING_EVENTS],
    [null] under those of [NULL_EVENTS], an object under those of
    [JSON_EVENTS] or under [chat:system-init]. *)
Definition understood (event : string) (data : Payload) : bool :=
  match data with
  | Jstr _ => has Renderer.STRING_EVENTS event
  | Jnull => has Renderer.NULL_EVENTS event
  | Jobj _ =>
      has Renderer.JSON_EVENTS event || String.eqb event "chat:system-init"
  | _ => false
  end.

(** The four things the session module does that show in [Audit]:
    - it pushes a message whose id is [String(messageSequence++)];
    - [setSessionState] changes the state and broadcasts the new one;
    - [appendLogLine] keeps and broadcasts a line;
    - it broadcasts something else, of a shape the renderer expects. *)
Inductive move : Audit -> Audit -> Prop :=
| move_push a role timestamp :
    move a
      {| a_skeletons :=
           a_skeletons a ++ [(pretty (a_sequence a), role, timestamp)];
         a_sequence := S (a_sequence a); a_state := a_state a;
         a_sent := a_sent a; a_logLines := a_logLines a |}
| move_status a st :
    a_state a <> st ->
    move a
      {| a_skeletons := a_skeletons a; a_sequence := a_sequence a;
         a_state := st;
         a_sent :=
           a_sent a ++ [("chat:status", Jobj [("sessionState", Jstate st)])];
         a_logLines := a_logLines a |}
| move_log a line :
    move a
      {| a_skeletons := a_skeletons a; a_sequence := a_sequence a;
         a_state := a_state a;
         a_sent := a_sent a ++ [("chat:log", Jstr line)];
         a_logLines :=
           (let lines := a_logLines a ++ [line] in
            if 2000 <? length lines then tail lines else lines) |}
| move_say a event data :
    event <> "chat:status" -> event <> "chat:log" ->
    understood event data = true ->
    move a
      {| a_skeletons := a_skeletons a; a_sequence := a_sequence a;
         a_state := a_state a; a_sent := a_sent a ++ [(event, data)];
         a_logLines := a_logLines a |}.

(** The ids count up from 0, the last state announced is the state, and
    the log lines kept are the last 2000 broadcast. *)
Definition tidy (a : Audit) : Prop :=
  (fun k => k.1.1) <$> a_skeletons a = pretty <$> seq 0 (a_sequence a)
  /\ last (idle :: statuses (a_sent a)) = Some (a_state a)
  /\ (forall i st st',
        (idle :: statuses (a_sent a)) !! i = Some st ->
        (idle :: statuses (a_sent a)) !! S i = Some st' -> st <> st')
  /\ a_logLines a
     = drop (length (logged (a_sent a)) - 2000) (logged (a_sent a)).

(** *** The [stderr] callback *)

(** The [stderr] option [startStreamingSession] passes to [query]:
    [(message) => { if (process.env.DEBUG === '1') broadcast(...) }];
    [DEBUG] is [process.env.DEBUG]. *)
Definition onStderr (DEBUG : option string) (message : string) (s : State)
  : State :=
  if bool_decide (DEBUG = Some "1")
  then broadcast "chat:debug-message" (Jstr message) s
  else s.

(** The worlds the server can be in when the runtime's calls of the
    [stderr] callback are counted in.  The module does not say when the
    runtime calls it: here it may be called between any two steps. *)
Inductive onAir {host : Host} (DEBUG : option string) : World -> Prop :=
| air_init now dir prompt uuid thrown :
    onAir DEBUG (initializeAgent now dir prompt uuid thrown boot)
| air_step w l w' :
    onAir DEBUG w -> step w l = Some w' -> onAir DEBUG w'
| air_stderr w message :
    onAir DEBUG w ->
    onAir DEBUG (set_vars (onStderr DEBUG message (vars w)) w).

(** *** The order of the user messages *)

(** The promises of the items that wait in the queue, first to last. *)
Definition queueIds (w : World) : list nat :=
  item_resolve <$> messageQueue (vars w).

(** The promises are numbered in the order of the calls of
    [enqueueUserMessage].  Those resolved, followed by those that wait,
    go up; every one was made; and the item a message generator has
    yielded and not resolved yet comes after the ones resolved and before
    the ones that wait. *)
Definition inOrder (w : World) : Prop :=
  StronglySorted lt (resolved w ++ queueIds w)
  /\ Forall (fun r => r < calls w) (resolved w ++ queueIds w)
  /\ forall i h,
       runs w !! i = Some (Live (Some h)) ->
       h < calls w
       /\ Forall (fun r => r < h) (resolved w)
       /\ Forall (fun q => h < q) (queueIds w).

(** *** The blocks of the message being streamed *)

(** The content array the block handlers get from
    [ensureContentArray(ensureAssistantMessage())]: the blocks of the open
    assistant message, and none when the handlers would open one. *)
Definition openBlocks (s : State) : list ContentBlock :=
  match openAssistantMessage s with
  | Some m => contentArrayOf m
  | None => []
  end.

(** The texts of the deltas [(now, text)], one after the other. *)
Fixpoint concatDeltas (deltas : list (Z * string)) : string :=
  match deltas with
  | [] => EmptyString
  | d :: rest => d.2 +:+ concatDeltas rest
  end.

(** The events of a tool use at the top level: its start, the deltas of
    its input, and the stop of a block. *)
Definition toolUseStartEvent (index : Z) (id name : string) (input : JsVal)
  : SdkMessage :=
  stream_event None (content_block_start index (cb_tool_use id name input)).

Definition inputDeltaEvents (index : Z) (deltas : list (Z * string))
  : list (Z * SdkMessage) :=
  map (fun d =>
         (d.1, stream_event None
                 (content_block_delta index (input_json_delta d.2)))) deltas.

Definition thinkingDeltaEvents (index : Z) (deltas : list (Z * string))
  : list (Z * SdkMessage) :=
  map (fun d =>
         (d.1, stream_event None
                 (content_block_delta index (thinking_delta d.2)))) deltas.

Definition blockStopEvent (index : Z) : SdkMessage :=
  stream_event None (content_block_stop index).

(** A block [{ type: 'tool_use', tool }]. *)
Definition toolBlockOf (t : ToolUseState) : ContentBlock :=
  {| b_type := T_tool_use; b_text := None; b_tool := Some t;
     b_thinking := None; b_thinkingStartedAt := None;
     b_thinkingDurationMs := None; b_thinkingStreamIndex := None;
     b_isComplete := None |}.

(** The tool [handleToolUseStart] pushes. *)
Definition startedTool (id name : string) (input : JsVal) (index : Z)
  : ToolUseState :=
  {| tool_id := id; tool_name := name; tool_input := input;
     tool_streamIndex := index; tool_inputJson := Some EmptyString;
     tool_parsedInput := None; tool_result := None; tool_isLoading := None;
     tool_isError := None; tool_subagentCalls := None |}.

(** The tool use [id] of a sub-agent from its start to its stop, in the
    stream of the tool [parent]: the start, the deltas of the input
    [(now, text)], the stop. *)
Definition subagentToolUseStartEvent (parent : string) (index : Z)
  (id name : string) (input : JsVal) : SdkMessage :=
  stream_event (Some parent)
    (content_block_start index (cb_tool_use id name input)).

Definition subagentInputDeltaEvents (parent : string) (index : Z)
  (deltas : list (Z * string)) : list (Z * SdkMessage) :=
  map (fun d =>
         (d.1, stream_event (Some parent)
                 (content_block_delta index (input_json_delta d.2)))) deltas.

Definition subagentBlockStopEvent (parent : string) (index : Z)
  : SdkMessage :=
  stream_event (Some parent) (content_block_stop index).

(** The entry [handleSubagentToolUseStart] pushes. *)
Definition startedCall {host : Host} (id name : string) (input : JsVal)
  (index : Z) : SubagentToolCall :=
  {| call_id := id; call_name := name; call_input := input;
     call_streamIndex := Some index;
     call_inputJson := Some (JSON_stringify2 input);
     call_parsedInput := None; call_result := None;
     call_isLoading := Some true; call_isError := None |}.

(** A top-level assistant message with one block, which carries the
    result of the tool [toolUseId]. *)
Definition assistantResultEvent (toolUseId : string) (content : JsVal)
  (is_error : JsVal) : SdkMessage :=
  assistant_message None
    (VArr [VObj [("tool_use_id", VStr toolUseId); ("content", content);
                 ("is_error", is_error)]]).

(** The tool [t] is a top-level tool: its block is at [loc] and holds
    [tool], and the table has no parent for it. *)
Definition placed (s : State) (t : string) (loc : nat * nat)
  (tool : ToolUseState) : Prop :=
  findToolBlockById t s = Some loc /\ toolAt loc s = Some tool
  /\ childToolToParent s !! t = None.

(** The tool [t] with [result] and [isError] assigned. *)
Definition resultedTool (result : string) (isError : bool)
  (t : ToolUseState) : ToolUseState :=
  setIsError (Some isError) (setResult (Some result) t).

(** The state after a tool was started at index 0 in the sample
    session. *)
Definition toolStarted : State :=
  consume (host := sampleHost) (vars sampleWorld)
    [(1001%Z, toolUseStartEvent 0 "T1" "Bash" emptyObject)].

(** The state after a sub-agent of that tool has then started the tool
    use [C1] at index 1. *)
Definition callStarted : State :=
  consume (host := sampleHost) toolStarted
    [(1002%Z, subagentToolUseStartEvent "T1" 1 "C1" "Read" emptyObject)].

(** A thinking block with its text, started at [t0]. *)
Definition thinkingBlockOf (index t0 : Z) (text : string)
  (duration : option Z) (complete : option bool) : ContentBlock :=
  {| b_type := T_thinking; b_text := None; b_tool := None;
     b_thinking := Some text; b_thinkingStartedAt := Some t0;
     b_thinkingDurationMs := duration;
     b_thinkingStreamIndex := Some index; b_isComplete := complete |}.

End Session.

(* ===================================================================== *)
(** ** The clients of the event stream, [src/server/sse.ts] *)
(* ===================================================================== *)

Module Relay.
Import Js Sse Session.

(** What one call of [createSseClient] closes over, with what its
    [ReadableStream] was given:
    - [controller]: whether the variable [controller] holds the stream's
      controller (it is [null] before [start] and after [close] and
      [cancel]);
    - [started]: whether the stream has called [start];
    - [pending]: the array [pending];
    - [delivered]: the chunks enqueued on the controller, oldest first;
    - [streamClosed]: whether [controller.close()] was called;
    - [registered]: whether the variable [client] holds the client, which
      is then in the set [clients];
    - [onCloseCalls]: how often [onClose] was called. *)
Record Client := mkClient {
  controller : bool;
  started : bool;
  pending : list string;
  delivered : list string;
  streamClosed : bool;
  registered : bool;
  onCloseCalls : nat
}.

(** The client as [createSseClient] leaves it when the stream has not
    called [start] yet. *)
Definition fresh : Client :=
  {| controller := false; started := false; pending := []; delivered := [];
     streamClosed := false; registered := true; onCloseCalls := 0 |}.

(** [clients.delete(client); onClose(client); client = null], under
    [if (client)]. *)
Definition unregister (c : Client) : Client :=
  if registered c then
    {| controller := controller c; started := started c;
       pending := pending c; delivered := delivered c;
       streamClosed := streamClosed c; registered := false;
       onCloseCalls := S (onCloseCalls c) |}
  else c.

(** The [start] of the stream: the controller is kept and what waited in
    [pending] is enqueued, in order. *)
Definition start (c : Client) : Client :=
  {| controller := true; started := true; pending := [];
     delivered := delivered c ++ pending c;
     streamClosed := streamClosed c; registered := registered c;
     onCloseCalls := onCloseCalls c |}.

(** The [cancel] of the stream. *)
Definition cancel (c : Client) : Client :=
  unregister
    {| controller := false; started := started c; pending := pending c;
       delivered := delivered c; streamClosed := streamClosed c;
       registered := registered c; onCloseCalls := onCloseCalls c |}.

(** The body of [client.send] after [formatSse]: [payload] waits in
    [pending] when there is no controller, and is enqueued
    otherwise. *)
Definition push (payload : string) (c : Client) : Client :=
  if controller c then
    {| controller := controller c; started := started c;
       pending := pending c; delivered := delivered c ++ [payload];
       streamClosed := streamClosed c; registered := registered c;
       onCloseCalls := onCloseCalls c |}
  else
    {| controller := controller c; started := started c;
       pending := pending c ++ [payload]; delivered := delivered c;
       streamClosed := streamClosed c; registered := registered c;
       onCloseCalls := onCloseCalls c |}.

(** [client.close()]. *)
Definition close (c : Client) : Client :=
  if controller c then
    unregister
      {| controller := false; started := started c; pending := pending c;
         delivered := delivered c; streamClosed := true;
         registered := registered c; onCloseCalls := onCloseCalls c |}
  else c.

(** The set [clients], in the order of insertion, which is the order
    [for (const client of clients)] goes by; a client that was deleted
    stays in the list, not [registered]. *)
Abbreviation Hub := (list Client) (only parsing).

Section Relaying.

(** [JSON.stringify] of a payload that is neither [undefined], [null]
    nor a string. *)
Variable JSON_stringify : Payload -> string.

(** The [data] a payload is for [formatSse]. *)
Definition toData (p : Payload) : JsData Payload :=
  match p with
  | Jundefined => Undefined
  | Jnull => Null
  | Jstr s => Str s
  | _ => Other p
  end.

(** The chunk [formatSse(event, data)]. *)
Definition frame (e : string * Payload) : string :=
  formatSse JSON_stringify e.1 (toData e.2).

(** [client.send(event, data)]. *)
Definition send (event : string) (data : Payload) (c : Client) : Client :=
  push (frame (event, data)) c.

(** [broadcast(event, data)]. *)
Definition broadcast (event : string) (data : Payload) (hub : Hub) : Hub :=
  (fun c => if registered c then send event data c else c) <$> hub.

(** What happens to a client: the stream calls [start] or [cancel], or
    the server calls [send] or [close]. *)
Inductive Op :=
| Start
| Cancel
| Send (event : string) (data : Payload)
| Close.

(** One of them; the stream calls [start] once, and [cancel] only when
    it has started and was not closed. *)
Definition apply (c : Client) (op : Op) : option Client :=
  match op with
  | Start => if started c then None else Some (start c)
  | Cancel =>
      if started c && negb (streamClosed c) then Some (cancel c) else None
  | Send event data => Some (send event data c)
  | Close => Some (close c)
  end.

Fixpoint run (c : Client) (ops : list Op) : option Client :=
  match ops with
  | [] => Some c
  | op :: rest =>
      match apply c op with
      | Some c' => run c' rest
      | None => None
      end
  end.

(** The frames of the [send]s among [ops], in order. *)
Definition framesOf (ops : list Op) : list string :=
  omap (fun op =>
          match op with
          | Send event data => Some (frame (event, data))
          | _ => None
          end) ops.

(** Whether [ops] holds a [close] or a [cancel]. *)
Definition ends (ops : list Op) : bool :=
  existsb (fun op => match op with Close | Cancel => true | _ => false end)
    ops.

(** What the handler of [GET /chat/stream] sends the client it made:
    the state, the transcript message by message, and the log lines. *)
Definition greeting (s : State) : list (string * Payload) :=
  [("chat:init",
    Jobj [("agentDir", Jstr (agentDir s));
          ("sessionState", Jstate (sessionState s));
          ("hasInitialPrompt", Jbool (hasInitialPrompt s))])]
  ++ ((fun m => ("chat:message-replay", Jobj [("message", Jmessage m)]))
        <$> getMessages s)
  ++ [("chat:logs", Jobj [("lines", Jval (VArr (VStr <$> logLines s)))])].

(** The handler of [GET /chat/stream]: [createSseClient] and the sends;
    [c0] is the client [createSseClient] returns, [fresh] or
    [start fresh]. *)
Definition chatStream (c0 : Client) (s : State) (hub : Hub) : Hub :=
  hub ++ [foldl (fun c e => send e.1 e.2 c) c0 (greeting s)].

(** The broadcasts [events], in turn. *)
Definition relay (events : list (string * Payload)) (hub : Hub) : Hub :=
  foldl (fun h e => broadcast e.1 e.2 h) hub events.

(** What holds of a client however it was used: while the controller is
    held the stream has started and is open, nothing waits and the client
    is registered; before the start nothing was delivered and the client
    is registered; and [onClose] was called once when the client is no
    longer registered, and never otherwise. *)
Definition sound (c : Client) : Prop :=
  (controller c = true ->
   started c = true /\ pending c = [] /\ streamClosed c = false
   /\ registered c = true)
  /\ (started c = false ->
      delivered c = [] /\ registered c = true /\ streamClosed c = false)
  /\ onCloseCalls c = (if registered c then 0 else 1).

End Relaying.

(** A rendering for the examples: every object payload renders as
    [{}]. *)
Definition sampleJson (p : Payload) : string := "{}".

(** A client is sent a status before its stream starts and a chunk
    after. *)
Definition sampleOps : list Op :=
  [Send "chat:status" Jnull; Start; Send "chat:message-chunk" (Jstr "hi")].

End Relay.

(* ===================================================================== *)
(** ** The HTTP entry point, [src/server/index.ts] *)
(* ===================================================================== *)

Module Http.
Import Js.

(** *** The command line *)

(** [args.indexOf(flag)]; [None] for [-1]. *)
Fixpoint indexOf (flag : string) (args : list string) : option nat :=
  match args with
  | [] => None
  | a :: rest =>
      if String.eqb a flag then Some 0 else S <$> indexOf flag rest
  end.

(** [getArgValue(flag)] over [args]; [None] for [null]. *)
Definition getArgValue (args : list string) (flag : string) : option string :=
  match indexOf flag args with
  | None => None
  | Some index => args !! (index + 1)
  end.

Section CommandLine.

(** Numbers, [Number(text)] ([None] when it is [NaN]) and the number
    3000. *)
Variable Num : Type.
Variable Number_ : string -> option Num.
Variable n3000 : Num.

(** What [parseArgs] returns. *)
Record Args := mkArgs {
  arg_agentDir : string;
  arg_initialPrompt : option string;
  arg_port : Num
}.

(** [parseArgs(argv)]; [inl] is the message of the error thrown. *)
Definition parseArgs (argv : list string) : string + Args :=
  let args := drop 2 argv in
  let agentDir := nullish (getArgValue args "--agent-dir") "" in
  let initialPrompt := getArgValue args "--prompt" in
  let port :=
    match getArgValue args "--port" with
    | Some text => Number_ text
    | None => Some n3000
    end in
  if truthy agentDir then
    inr {| arg_agentDir := agentDir; arg_initialPrompt := initialPrompt;
           arg_port := nullish port n3000 |}
  else inl "Missing required argument: --agent-dir <path>".

End CommandLine.

Arguments arg_agentDir {Num} _.
Arguments arg_initialPrompt {Num} _.
Arguments arg_port {Num} _.

(** *** Files that can be previewed *)

(** [s.split(sep)] for a separator of one code unit. *)
Fixpoint splitOn (sep : ascii) (s : string) : list string :=
  match s with
  | EmptyString => [EmptyString]
  | String c rest =>
      if Ascii.eqb c sep then EmptyString :: splitOn sep rest
      else consHead c (splitOn sep rest)
  end.

(** [toLowerCase] on a code unit of the 8-bit range: the letters [A] to
    [Z], and the capital letters from 192 to 222 but for the
    multiplication sign, go 32 up. *)
Definition lowerChar (c : ascii) : ascii :=
  let n := Ascii.nat_of_ascii c in
  if ((65 <=? n) && (n <=? 90)
      || (192 <=? n) && (n <=? 222) && negb (n =? 215))%nat
  then Ascii.ascii_of_nat (n + 32)
  else c.

(** [s.toLowerCase()]. *)
Fixpoint toLowerCase (s : string) : string :=
  match s with
  | EmptyString => EmptyString
  | String c rest => String (lowerChar c) (toLowerCase rest)
  end.

(** [TEXT_EXTENSIONS]. *)
Definition TEXT_EXTENSIONS : list string :=
  ["md"; "markdown"; "txt"; "json"; "yaml"; "yml"; "log"; "csv"; "ts";
   "tsx"; "js"; "jsx"; "css"; "html"; "htm"; "xml"; "svg"; "env"; "toml";
   "ini"; "conf"; "sh"; "py"; "java"; "go"; "rs"; "rb"; "php"; "c"; "cpp";
   "h"; "hpp"; "sql"; "graphql"; "gql"].

(** [name.toLowerCase().split('.').pop() ?? '']. *)
Definition extensionOf (name : string) : string :=
  nullish (last (splitOn "."%char (toLowerCase name))) "".

(** [isPreviewableText(name, mimeType)]; [mimeType] is [None] when it is
    [undefined]. *)
Definition isPreviewableText (name : string) (mimeType : option string)
  : bool :=
  if truthyOpt mimeType
     && (String.prefix "text/" (nullish mimeType "")
         || has ["application/json"; "application/xml";
                 "application/x-yaml"] (nullish mimeType ""))
  then true
  else has TEXT_EXTENSIONS (extensionOf name).

(** A string without a dot. *)
Fixpoint noDot (s : string) : bool :=
  match s with
  | EmptyString => true
  | String c rest => negb (Ascii.eqb c "."%char) && noDot rest
  end.

(** *** The names of uploaded files *)

(** The nine code units of the class the upload handler replaces: the
    angle brackets, the colon, the double quote, the slash, the
    backslash, the bar, the question mark and the star. *)
Definition unsafeChar (c : ascii) : bool :=
  existsb (Nat.eqb (Ascii.nat_of_ascii c)) [60; 62; 58; 34; 47; 92; 124; 63; 42].

(** [file.name.replace(class, '_')] with the [g] flag: every code unit
    of the class becomes an underscore. *)
Fixpoint safeName (name : string) : string :=
  match name with
  | EmptyString => EmptyString
  | String c rest =>
      String (if unsafeChar c then "_"%char else c) (safeName rest)
  end.

(** Whether a code unit of the class is in a string. *)
Fixpoint hasUnsafe (s : string) : bool :=
  match s with
  | EmptyString => false
  | String c rest => unsafeChar c || hasUnsafe rest
  end.

(** A reading of numbers for the examples: [8080] is a number, nothing
    else is. *)
Definition sampleNumber (text : string) : option Z :=
  if String.eqb text "8080" then Some 8080%Z else None.

Definition sampleArgv : list string :=
  ["bun"; "index.ts"; "--port"; "8080"; "--agent-dir"; "/w"; "--agent-dir";
   "/other"].

End Http.

(* ===================================================================== *)
(** ** The directory tree, [src/server/dir-info.ts] *)
(* ===================================================================== *)

Module DirInfo.
Import Js.

(** What a directory entry, or [stat], says the thing is: [isDirectory()],
    [isFile()], or neither. *)
Inductive Kind := K_dir | K_file | K_other.

(** A [Dirent]. *)
Record Dirent := mkDirent {
  d_name : string;
  d_kind : Kind
}.

(** A [DirectoryTreeNode]: a file, or a directory with its children. *)
Inductive Node :=
| FileNode (id name path : string)
| DirNode (id name path : string) (children : list Node).

(** The variables [buildDirectoryTree] counts in. *)
Record Counters := mkCounters {
  totalFiles : nat;
  totalDirs : nat;
  truncated : bool;
  entriesCount : nat
}.

(** [totalDirs += 1; entriesCount += 1]. *)
Definition countDir (st : Counters) : Counters :=
  {| totalFiles := totalFiles st; totalDirs := S (totalDirs st);
     truncated := truncated st; entriesCount := S (entriesCount st) |}.

(** [totalFiles += 1; entriesCount += 1]. *)
Definition countFile (st : Counters) : Counters :=
  {| totalFiles := S (totalFiles st); totalDirs := totalDirs st;
     truncated := truncated st; entriesCount := S (entriesCount st) |}.

(** [truncated = true]. *)
Definition truncate (st : Counters) : Counters :=
  {| totalFiles := totalFiles st; totalDirs := totalDirs st;
     truncated := true; entriesCount := entriesCount st |}.

(** What [buildDirectoryTree] returns. *)
Record DirectoryTree := mkTree {
  tree_root : string;
  tree_totalFiles : nat;
  tree_totalDirs : nat;
  tree_tree : Node;
  tree_truncated : bool
}.

(** The files and the directories of a tree, the node itself
    included. *)
Fixpoint filesIn (n : Node) : nat :=
  match n with
  | FileNode _ _ _ => 1
  | DirNode _ _ _ children => foldr (fun c acc => filesIn c + acc) 0 children
  end.

Fixpoint dirsIn (n : Node) : nat :=
  match n with
  | FileNode _ _ _ => 0
  | DirNode _ _ _ children =>
      S (foldr (fun c acc => dirsIn c + acc) 0 children)
  end.

(** How deep the tree goes below the node. *)
Fixpoint height (n : Node) : nat :=
  match n with
  | FileNode _ _ _ => 0
  | DirNode _ _ _ children =>
      foldr (fun c acc => S (height c) `max` acc) 0 children
  end.

(** The [path] of a node, and its children. *)
Definition nodePath (n : Node) : string :=
  match n with
  | FileNode _ _ path => path
  | DirNode _ _ path _ => path
  end.

Definition childrenOf (n : Node) : list Node :=
  match n with
  | FileNode _ _ _ => []
  | DirNode _ _ _ children => children
  end.

Section Walk.

(** The options, the file system and the path functions. *)
Variable maxDepth maxEntries : nat.
(** [ignores.has(name)] *)
Variable ignores : string -> bool.
(** [readdir(dir, { withFileTypes: true })]; [None] when it throws *)
Variable readdir : string -> option (list Dirent).
(** [stat(path)]; [None] when it throws *)
Variable stat : string -> option Kind.
Variable join : string -> string -> string.
Variable resolve : string -> string -> string.
Variable basename : string -> string.
(** [a.localeCompare(b)] *)
Variable localeCompare : string -> string -> Z.
(** [resolve(root)] *)
Variable rootPath : string.

Definition isDirectory (e : Dirent) : bool :=
  match d_kind e with K_dir => true | _ => false end.

(** The comparison [sort] is given. *)
Definition compareEntries (a b : Dirent) : Z :=
  if isDirectory a && negb (isDirectory b) then (-1)%Z
  else if negb (isDirectory a) && isDirectory b then 1%Z
  else localeCompare (d_name a) (d_name b).

(** [entries.sort(compareEntries)]: the sort is stable, and for a
    comparison that is an order the result is the one of insertion, each
    entry going in front of the first one it is not after. *)
Fixpoint insertEntry (e : Dirent) (l : list Dirent) : list Dirent :=
  match l with
  | [] => [e]
  | x :: rest =>
      if (compareEntries e x <=? 0)%Z then e :: l
      else x :: insertEntry e rest
  end.

Fixpoint sortEntries (l : list Dirent) : list Dirent :=
  match l with
  | [] => []
  | e :: rest => insertEntry e (sortEntries rest)
  end.

(** The loop [for (const entry of sorted)] of [walk], with the children
    pushed so far; [walkChild] is [walk] one level down. *)
Fixpoint visit (walkChild : string -> string -> Counters -> Node * Counters)
  (relPath : string) (entries : list Dirent) (children : list Node)
  (st : Counters) : list Node * Counters :=
  match entries with
  | [] => (children, st)
  | entry :: rest =>
      if maxEntries <=? entriesCount st then (children, truncate st)
      else
        let childRelPath :=
          if truthy relPath then join relPath (d_name entry)
          else d_name entry in
        let fullPath := resolve rootPath childRelPath in
        let asDirectory :=
          let '(childNode, st) :=
            walkChild fullPath childRelPath (countDir st) in
          visit walkChild relPath rest (children ++ [childNode]) st in
        let asFile :=
          visit walkChild relPath rest
            (children ++ [FileNode childRelPath (d_name entry) childRelPath])
            (countFile st) in
        match d_kind entry with
        | K_dir => asDirectory
        | K_file => asFile
        | K_other =>
            match stat fullPath with
            | Some K_dir => asDirectory
            | Some K_file => asFile
            | _ => visit walkChild relPath rest children st
            end
        end
  end.

(** The path the loop of [walk] lists an entry of [relPath] under, when
    it lists it: when the entry, or else [stat], says it is a directory
    or a file. *)
Definition listed (relPath : string) (entry : Dirent) : option string :=
  let childRelPath :=
    if truthy relPath then join relPath (d_name entry) else d_name entry in
  match d_kind entry with
  | K_dir | K_file => Some childRelPath
  | K_other =>
      match stat (resolve rootPath childRelPath) with
      | Some K_dir | Some K_file => Some childRelPath
      | _ => None
      end
  end.

(** The node [walk] makes for [relPath]. *)
Definition dirNode (relPath : string) (children : list Node) : Node :=
  DirNode (if truthy relPath then relPath else "root")
    (if truthy relPath then basename relPath else ".") relPath children.

(** [walk(dir, relPath, depth)], where [levels] is [maxDepth - depth]. *)
Fixpoint walk (levels : nat) (dir relPath : string) (st : Counters)
  : Node * Counters :=
  match levels with
  | 0 => (dirNode relPath [], st)
  | S levels' =>
      if truncated st then (dirNode relPath [], st)
      else
        match readdir dir with
        | None => (dirNode relPath [], st)
        | Some dirEntries =>
            let sorted :=
              sortEntries
                (filter (fun entry => ignores (d_name entry) = false)
                   dirEntries) in
            let '(children, st) :=
              visit (walk levels') relPath sorted [] st in
            (dirNode relPath children, st)
        end
  end.

(** [buildDirectoryTree(root, options)]. *)
Definition buildDirectoryTree : DirectoryTree :=
  let '(tree, st) :=
    walk maxDepth rootPath ""
      {| totalFiles := 0; totalDirs := 0; truncated := false;
         entriesCount := 0 |} in
  {| tree_root := rootPath; tree_totalFiles := totalFiles st;
     tree_totalDirs := totalDirs st; tree_tree := tree;
     tree_truncated := truncated st |}.

(** What the counters keep: every entry counted is a file or a
    directory, there are at most [maxEntries], and [truncated] is only
    set when there are that many. *)
Definition bounded (st : Counters) : Prop :=
  entriesCount st = totalFiles st + totalDirs st
  /\ entriesCount st <= maxEntries
  /\ (truncated st = true -> entriesCount st = maxEntries).

End Walk.

(** *** The flat listing, [buildDirectoryInfo] *)

(** A [DirectoryEntry]; [entry_isDir] is whether its [type] is ['dir']
    (it is ['file'] otherwise). *)
Record DirectoryEntry := mkEntry {
  entry_path : string;
  entry_isDir : bool;
  entry_depth : nat
}.

(** The variables of [buildDirectoryInfo]: the entries, the two
    totals, [truncated], and the queue of directories to read with their
    depths. *)
Record Listing := mkListing {
  l_entries : list DirectoryEntry;
  l_totalFiles : nat;
  l_totalDirs : nat;
  l_truncated : bool;
  l_queue : list (string * nat)
}.

(** What [buildDirectoryInfo] returns. *)
Record DirectoryInfo := mkInfo {
  info_root : string;
  info_totalFiles : nat;
  info_totalDirs : nat;
  info_entries : list DirectoryEntry;
  info_truncated : bool
}.

Section Flat.

(** The options, the file system and the path functions. *)
Variable maxDepth maxEntries : nat.
Variable ignores : string -> bool.
Variable readdir : string -> option (list Dirent).
Variable stat : string -> option Kind.
Variable join : string -> string -> string.
Variable relative : string -> string -> string.
Variable root : string.

(** The branch for a directory: it is counted and listed, and queued
    when it is above [maxDepth]. *)
Definition listDir (fullPath relPath : string) (entryDepth : nat)
  (st : Listing) : Listing :=
  {| l_entries := l_entries st ++ [mkEntry relPath true entryDepth];
     l_totalFiles := l_totalFiles st; l_totalDirs := S (l_totalDirs st);
     l_truncated := l_truncated st;
     l_queue :=
       if entryDepth <? maxDepth then l_queue st ++ [(fullPath, entryDepth)]
       else l_queue st |}.

(** The branch for a file. *)
Definition listFile (relPath : string) (entryDepth : nat) (st : Listing)
  : Listing :=
  {| l_entries := l_entries st ++ [mkEntry relPath false entryDepth];
     l_totalFiles := S (l_totalFiles st); l_totalDirs := l_totalDirs st;
     l_truncated := l_truncated st; l_queue := l_queue st |}.

(** The loop [for (const entry of dirEntries)] for the directory [dir]
    at depth [depth]. *)
Fixpoint scan (dir : string) (depth : nat) (dirEntries : list Dirent)
  (st : Listing) : Listing :=
  match dirEntries with
  | [] => st
  | entry :: rest =>
      let name := d_name entry in
      if maxEntries <=? length (l_entries st) then
        {| l_entries := l_entries st; l_totalFiles := l_totalFiles st;
           l_totalDirs := l_totalDirs st; l_truncated := true;
           l_queue := l_queue st |}
      else if ignores name then scan dir depth rest st
      else
        let fullPath := join dir name in
        let relPath :=
          if truthy (relative root fullPath) then relative root fullPath
          else name in
        let entryDepth := depth + 1 in
        match d_kind entry with
        | K_dir => scan dir depth rest (listDir fullPath relPath entryDepth st)
        | K_file => scan dir depth rest (listFile relPath entryDepth st)
        | K_other =>
            match stat fullPath with
            | Some K_dir =>
                scan dir depth rest (listDir fullPath relPath entryDepth st)
            | Some K_file =>
                scan dir depth rest (listFile relPath entryDepth st)
            | _ => scan dir depth rest st
            end
        end
  end.

(** The loop [while (queue.length > 0 && entries.length < maxEntries)],
    for at most [fuel] rounds; [None] when the rounds do not
    suffice. *)
Fixpoint drain (fuel : nat) (st : Listing) : option Listing :=
  match l_queue st with
  | [] => Some st
  | (dir, depth) :: rest =>
      if maxEntries <=? length (l_entries st) then Some st
      else
        match fuel with
        | 0 => None
        | S fuel' =>
            let st :=
              {| l_entries := l_entries st; l_totalFiles := l_totalFiles st;
                 l_totalDirs := l_totalDirs st;
                 l_truncated := l_truncated st; l_queue := rest |} in
            match readdir dir with
            | None => drain fuel' st
            | Some dirEntries => drain fuel' (scan dir depth dirEntries st)
            end
        end
  end.

(** [buildDirectoryInfo(root, options)], the loop taking at most [fuel]
    rounds. *)
Definition buildDirectoryInfo (fuel : nat) : option DirectoryInfo :=
  st ← drain fuel
         {| l_entries := []; l_totalFiles := 0; l_totalDirs := 0;
            l_truncated := false; l_queue := [(root, 0)] |};
  Some {| info_root := root; info_totalFiles := l_totalFiles st;
          info_totalDirs := l_totalDirs st; info_entries := l_entries st;
          info_truncated :=
            if maxEntries <=? length (l_entries st) then true
            else l_truncated st |}.

(** What the loops keep: the totals count the entries by type, there are
    at most [maxEntries] of them, [truncated] is only set when there are
    that many, an entry is at depth 1 at least and, but for the ones of
    the root, [maxDepth] at most, and the directories queued are above
    [maxDepth]. *)
Definition orderly (st : Listing) : Prop :=
  l_totalDirs st = length (filter (fun e => entry_isDir e = true) (l_entries st))
  /\ l_totalFiles st
     = length (filter (fun e => entry_isDir e = false) (l_entries st))
  /\ length (l_entries st) <= maxEntries
  /\ (l_truncated st = true -> length (l_entries st) = maxEntries)
  /\ Forall (fun e => 1 <= entry_depth e <= 1 `max` maxDepth) (l_entries st)
  /\ Forall (fun q => q.2 < 1 `max` maxDepth) (l_queue st).

End Flat.

(** [DEFAULT_IGNORES]. *)
Definition DEFAULT_IGNORES : list string :=
  [".git"; "node_modules"; "out"; "dist"; "tmp"].

(** A directory for the examples: [/w] holds the file [b.txt], the
    directories [src] and [.git], and [link], which [stat] says is a
    file; [src] holds the file [a.ts]. *)
Definition sampleReaddir (dir : string) : option (list Dirent) :=
  if String.eqb dir "/w" then
    Some [mkDirent "b.txt" K_file; mkDirent "src" K_dir;
          mkDirent ".git" K_dir; mkDirent "link" K_other]
  else if String.eqb dir "/w/src" then Some [mkDirent "a.ts" K_file]
  else None.

Definition sampleStat (path : string) : option Kind :=
  if String.eqb path "/w/link" then Some K_file else None.

Definition sampleJoin (a b : string) : string := a +:+ "/" +:+ b.

(** [relative] for the examples: it drops the root and the slash. *)
Definition sampleRelative (root path : string) : string :=
  String.substring (S (String.length root))
    (String.length path - S (String.length root)) path.

Definition sampleCompare (a b : string) : Z :=
  match String.compare a b with
  | Lt => (-1)%Z
  | Eq => 0%Z
  | Gt => 1%Z
  end.

(** The tree of the sample directory, with the options as they default:
    6 levels and 2000 entries. *)
Definition sampleTree : DirectoryTree :=
  buildDirectoryTree 6 2000
    (fun name => existsb (String.eqb name) DEFAULT_IGNORES)
    sampleReaddir sampleStat sampleJoin sampleJoin (fun path => path)
    sampleCompare "/w".

(** The listing of the sample directory, with the options as they
    default: 3 levels and 500 entries. *)
Definition sampleInfo : option DirectoryInfo :=
  buildDirectoryInfo 3 500
    (fun name => existsb (String.eqb name) DEFAULT_IGNORES)
    sampleReaddir sampleStat sampleJoin sampleRelative "/w" 501.

End DirInfo.

(* ===================================================================== *)
(** ** The directory panel, [src/renderer/components/DirectoryPanel.tsx] *)
(* ===================================================================== *)

Module Panel.
Import Js Http DirInfo.

(** [getParentPath(path)]: the pieces between the slashes but for the
    last one, joined by slashes again. *)
Definition getParentPath (path : string) : string :=
  if truthy path
  then join "/" (removelast (splitOn "/"%char path))
  else "".

(** [selectedDirPath], where the upload goes: the path of the node
    selected when it is a directory, the parent path of its path when it
    is a file, and [getParentPath('')] when no node is selected. *)
Definition selectedDirPath (selectedNode : option Node) : string :=
  match selectedNode with
  | Some (DirNode _ _ path _) => path
  | Some (FileNode _ _ path) => getParentPath path
  | None => getParentPath ""
  end.

(** A string without the code unit [c]. *)
Fixpoint lacks (c : ascii) (s : string) : bool :=
  match s with
  | EmptyString => true
  | String x rest => negb (Ascii.eqb x c) && lacks c rest
  end.

(** Every node below [n] is under the directory that shows it: the
    parent path of its path is the path of that directory, and selecting
    it makes the upload go to that directory when it is a file, and to
    itself when it is a directory. *)
Fixpoint housed (n : Node) : Prop :=
  match n with
  | FileNode _ _ _ => True
  | DirNode _ _ path children =>
      foldr (fun c rest =>
               (getParentPath (nodePath c) = path
                /\ selectedDirPath (Some c)
                   = match c with
                     | FileNode _ _ _ => path
                     | DirNode _ _ own _ => own
                     end
                /\ housed c) /\ rest)
        True children
  end.

End Panel.
(* ===================================================================== *)
(** * Properties *)
(* ===================================================================== *)

(** ** Frames *)

Module SseFacts.
Import Js Sse.

Lemma app_cons c (a b : string) : String c a +:+ b = String c (a +:+ b).
Proof. reflexivity. Qed.

Lemma app_empty_l (a : string) : "" +:+ a = a.
Proof. reflexivity. Qed.

Lemma app_assoc_s (a b c : string) : (a +:+ b) +:+ c = a +:+ (b +:+ c).
Proof.
  induction a as [|x a IH]; [reflexivity|].
  rewrite !app_cons. by rewrite IH.
Qed.

Lemma app_empty_r (a : string) : a +:+ "" = a.
Proof.
  induction a as [|x a IH]; [reflexivity|]. rewrite app_cons. by rewrite IH.
Qed.

Lemma join_unlines (l : list string) :
  l <> [] -> join nl l +:+ nl = unlines l.
Proof.
  induction l as [|x [|y rest] IH]; intros Hne; [done| |].
  - reflexivity.
  - change (join nl (x :: y :: rest)) with (x +:+ nl +:+ join nl (y :: rest)).
    rewrite !app_assoc_s. rewrite IH by done. reflexivity.
Qed.

Lemma unlines_app (l1 l2 : list string) :
  unlines (l1 ++ l2) = unlines l1 +:+ unlines l2.
Proof.
  induction l1 as [|x l1 IH]; [reflexivity|].
  simpl. rewrite IH. by rewrite !app_assoc_s.
Qed.

Lemma noLF_consHead c l :
  Ascii.eqb c LF = false ->
  Forall (fun p => noLF p = true) l ->
  Forall (fun p => noLF p = true) (consHead c l).
Proof.
  intros Hc Hl. destruct Hl as [|h t Hh Ht]; simpl.
  - constructor; [|constructor]. simpl. by rewrite Hc.
  - constructor; [|done]. simpl. by rewrite Hc, Hh.
Qed.

Lemma splitLines_noLF_aux n :
  forall s, String.length s <= n ->
            Forall (fun p => noLF p = true) (splitLines s).
Proof.
  induction n as [|n IH]; intros s Hlen.
  - destruct s; simpl in *; [|lia]. by repeat constructor.
  - destruct s as [|c rest]; [by repeat constructor|].
    simpl in Hlen. simpl.
    destruct (Ascii.eqb c LF) eqn:Hc.
    + constructor; [done|]. apply IH. lia.
    + destruct rest as [|c' rest'].
      * simpl. constructor; [|constructor]. simpl. by rewrite Hc.
      * destruct (Ascii.eqb c CR && Ascii.eqb c' LF) eqn:Hcr.
        -- constructor; [done|]. apply IH. simpl in Hlen. lia.
        -- apply noLF_consHead; [done|]. apply IH. lia.
Qed.

Lemma splitLines_noLF s : Forall (fun p => noLF p = true) (splitLines s).
Proof. eapply splitLines_noLF_aux. reflexivity. Qed.

Lemma splitLines_nonempty s : splitLines s <> [].
Proof.
  destruct s as [|c rest]; simpl; [done|].
  destruct (Ascii.eqb c LF); [done|].
  destruct rest as [|c' rest']; [simpl; done|].
  destruct (Ascii.eqb c CR && Ascii.eqb c' LF); [done|].
  destruct (splitLines (String c' rest')); simpl; done.
Qed.

Lemma noLF_app a b : noLF (a +:+ b) = noLF a && noLF b.
Proof.
  induction a as [|x a IH]; [reflexivity|].
  rewrite app_cons. simpl. rewrite IH. by rewrite andb_assoc.
Qed.

(** Reading one line that has no line feed in it. *)
Lemma readFrames_line (l cur : string) acc rest :
  noLF l = true ->
  readFrames cur acc (l +:+ nl +:+ rest) =
  match cur +:+ l with
  | EmptyString => acc :: readFrames "" [] rest
  | line => readFrames "" (acc ++ [line]) rest
  end.
Proof.
  revert cur. induction l as [|c l IH]; intros cur Hl.
  - rewrite app_empty_l, app_empty_r. unfold nl. rewrite app_cons, app_empty_l.
    destruct cur; reflexivity.
  - simpl in Hl. apply andb_true_iff in Hl as [Hc Hl].
    rewrite app_cons. simpl. apply negb_true_iff in Hc. rewrite Hc.
    rewrite IH by done. rewrite app_assoc_s. reflexivity.
Qed.

Lemma readFrames_lines (ls : list string) acc rest :
  Forall (fun l => noLF l = true /\ l <> "") ls ->
  readFrames "" acc (unlines ls +:+ nl +:+ rest) =
  (acc ++ ls) :: readFrames "" [] rest.
Proof.
  revert acc. induction ls as [|l ls IH]; intros acc Hls.
  - rewrite app_nil_r.
    etrans; [apply (readFrames_line "" "" acc rest); done|]. reflexivity.
  - inversion Hls as [|? ? [Hl Hne] Hrest]; subst.
    simpl. rewrite !app_assoc_s. rewrite readFrames_line by done.
    rewrite app_empty_l. destruct l as [|c l]; [done|].
    rewrite IH by done. by rewrite <- app_assoc.
Qed.


Section Frames.
Variable JsVal : Type.
Variable JSON_stringify : JsVal -> string.

Lemma eventLines_filled (event : string) :
  Forall (fun l => l <> "") (eventLines event).
Proof.
  unfold eventLines. destruct (truthy event); repeat constructor. done.
Qed.

Lemma dataLines_filled (data : JsData JsVal) :
  Forall (fun l => l <> "") (dataLines JSON_stringify data).
Proof.
  destruct data as [| |s|v]; simpl; try (repeat constructor; done).
  apply Forall_map, Forall_true. done.
Qed.

Lemma eventLines_noLF (event : string) :
  noLF event = true -> Forall (fun l => noLF l = true) (eventLines event).
Proof.
  intros He. unfold eventLines. destruct (truthy event); repeat constructor.
  by rewrite noLF_app, He.
Qed.

Lemma dataLines_noLF (data : JsData JsVal) :
  dataNoLF JSON_stringify data = true ->
  Forall (fun l => noLF l = true) (dataLines JSON_stringify data).
Proof.
  destruct data as [| |s|v]; simpl; intros Hd; try (repeat constructor; done).
  - apply Forall_map. eapply Forall_impl; [apply splitLines_noLF|].
    intros p Hp. simpl. by rewrite noLF_app, Hp.
Qed.

Lemma formatSse_unlines (event : string) (data : JsData JsVal) :
  formatSse JSON_stringify event data =
  unlines (eventLines event ++ dataLines JSON_stringify data) +:+ nl.
Proof.
  unfold formatSse. rewrite app_assoc. rewrite join_unlines.
  - rewrite unlines_app. simpl. by rewrite app_empty_l, app_empty_r.
  - intros Heq. by apply app_eq_nil in Heq as [_ ?].
Qed.

(** A payload on one line is carried as it is. *)
Lemma splitLines_one_line (s : string) :
  noLF s = true -> splitLines s = [s].
Proof.
  induction s as [|c s IH]; [done|]. simpl. intros Hs.
  apply andb_true_iff in Hs as [Hc Hs]. apply negb_true_iff in Hc.
  rewrite Hc. rewrite (IH Hs).
  destruct s as [|c' s']; [done|].
  simpl in Hs. apply andb_true_iff in Hs as [Hc' _].
  apply negb_true_iff in Hc'. rewrite Hc'. by rewrite andb_false_r.
Qed.


End Frames.


End SseFacts.

(** ** The transcript and the loop *)

Module SessionFacts.
Import Js Session SseFacts.

Section Transcript.
Context {host : Host}.

Lemma alterLast_snoc {A} (f : A -> A) (l : list A) (x : A) :
  alterLast f (l ++ [x]) = l ++ [f x].
Proof.
  unfold alterLast. rewrite length_app. simpl.
  replace (length l + 1 - 1) with (length l + 0) by lia.
  rewrite alter_app_r. reflexivity.
Qed.

Lemma last_alterLast {A} (f : A -> A) (l : list A) :
  last (alterLast f l) = f <$> last l.
Proof.
  destruct l as [|x l] using rev_ind; [reflexivity|].
  rewrite alterLast_snoc. by rewrite !last_snoc.
Qed.

Lemma msg_role_appendTextTo chunk m :
  msg_role (appendTextTo chunk m) = msg_role m.
Proof.
  unfold appendTextTo. destruct (msg_content m) as [t|bs]; [done|].
  destruct (last bs) as [b|]; [|done].
  destruct (bool_decide (b_type b = T_text)); reflexivity.
Qed.

Lemma accumulatedText_appendTextTo chunk m :
  accumulatedText (appendTextTo chunk m) = accumulatedText m +:+ chunk.
Proof.
  unfold accumulatedText, appendTextTo.
  destruct (msg_content m) as [t|bs]; [done|].
  destruct (last bs) as [b|] eqn:Hb; simpl.
  - destruct (bool_decide (b_type b = T_text)) eqn:Ht; simpl.
    + rewrite last_alterLast, Hb. simpl. by rewrite Ht.
    + by rewrite last_snoc.
  - by rewrite last_snoc.
Qed.

Lemma openText_appendTextChunk now chunk s :
  openText (appendTextChunk now chunk s) = openText s +:+ chunk.
Proof.
  unfold appendTextChunk, openText, openAssistantMessage, ensureAssistantMessage.
  destruct (last (messages s)) as [m|] eqn:Hlast.
  - destruct (bool_decide (msg_role m = assistant) && isStreamingMessage s) eqn:Hopen.
    + simpl. rewrite last_alterLast, Hlast. simpl.
      rewrite msg_role_appendTextTo, Hopen.
      apply accumulatedText_appendTextTo.
    + simpl. rewrite alterLast_snoc, last_snoc. simpl. done.
  - simpl. rewrite alterLast_snoc, last_snoc. simpl. done.
Qed.

Lemma openAssistant_appendTextChunk now chunk s :
  is_Some (openAssistantMessage (appendTextChunk now chunk s)).
Proof.
  unfold appendTextChunk, openAssistantMessage, ensureAssistantMessage.
  destruct (last (messages s)) as [m|] eqn:Hlast.
  - destruct (bool_decide (msg_role m = assistant) && isStreamingMessage s) eqn:Hopen.
    + simpl. rewrite last_alterLast, Hlast. simpl.
      rewrite msg_role_appendTextTo, Hopen. eauto.
    + simpl. rewrite alterLast_snoc, last_snoc. simpl. eauto.
  - simpl. rewrite alterLast_snoc, last_snoc. simpl. eauto.
Qed.


(** *** The loop body assigns none of the control variables *)

Lemma control_broadcast e d s : control (broadcast e d s) = control s.
Proof. reflexivity. Qed.

Lemma control_setSessionState st s : control (setSessionState st s) = control s.
Proof. unfold setSessionState. by destruct (decide _). Qed.

Lemma control_ensureAssistantMessage now s :
  control (ensureAssistantMessage now s) = control s.
Proof.
  unfold ensureAssistantMessage. destruct (last (messages s)); [|done].
  by destruct (_ && _).
Qed.

Lemma control_onContentArray now f s :
  control (onContentArray now f s) = control s.
Proof. unfold onContentArray. simpl. apply control_ensureAssistantMessage. Qed.

Lemma control_appendTextChunk now c s :
  control (appendTextChunk now c s) = control s.
Proof. unfold appendTextChunk. simpl. apply control_ensureAssistantMessage. Qed.

Lemma control_alterToolAt loc f s : control (alterToolAt loc f s) = control s.
Proof. reflexivity. Qed.

Lemma control_alterCallAt loc f s : control (alterCallAt loc f s) = control s.
Proof. reflexivity. Qed.

Lemma control_handleSubagentToolUseStart p id name input si s :
  control (handleSubagentToolUseStart p id name input si s) = control s.
Proof. unfold handleSubagentToolUseStart. by destruct (findToolBlockById p s). Qed.

Lemma control_ensureSubagentToolPlaceholder p c s :
  control (ensureSubagentToolPlaceholder p c s) = control s.
Proof.
  unfold ensureSubagentToolPlaceholder. destruct (findToolBlockById p s); [|done].
  by destruct (findIndex _ _).
Qed.

Lemma control_handleSubagentToolInputDelta p c d s :
  control (handleSubagentToolInputDelta p c d s) = control s.
Proof. unfold handleSubagentToolInputDelta. by destruct (findToolBlockById p s). Qed.

Lemma control_finalizeSubagentToolInput p c s :
  control (finalizeSubagentToolInput p c s) = control s.
Proof. unfold finalizeSubagentToolInput. by destruct (findToolBlockById p s). Qed.

Lemma control_setToolResult id c e s :
  control (setToolResult id c e s) = control s.
Proof. unfold setToolResult. by destruct (findToolBlockById id s). Qed.

Lemma control_handleToolResultStart id c e s :
  control (handleToolResultStart id c e s) = control s.
Proof.
  unfold handleToolResultStart, handleSubagentToolResultStart.
  destruct (findSubagentCall id s); [done|]. apply control_setToolResult.
Qed.

Lemma control_handleToolResultComplete id c e s :
  control (handleToolResultComplete id c e s) = control s.
Proof.
  unfold handleToolResultComplete, handleSubagentToolResultComplete.
  destruct (findSubagentCall id s); [done|]. apply control_setToolResult.
Qed.

Lemma control_appendToolResultDelta id d s :
  control (appendToolResultDelta id d s) = control s.
Proof.
  unfold appendToolResultDelta, appendSubagentToolResultDelta.
  destruct (findSubagentCall id s); [done|].
  by destruct (findToolBlockById id s).
Qed.

Lemma control_announceResult se e id p f s :
  control (announceResult se e id p f s) = control s.
Proof.
  unfold announceResult. destruct (truthyOpt _); [|done].
  rewrite control_broadcast. destruct (bool_decide _); [done|].
  apply control_ensureSubagentToolPlaceholder.
Qed.

Lemma control_noteSdkMessage now m s :
  control (noteSdkMessage now m s) = control s.
Proof.
  unfold noteSdkMessage, appendLogLine.
  destruct (truthyOpt _), (parseSystemInitInfo m), (sdkJson m); reflexivity.
Qed.

Lemma control_foldl {A} (f : State -> A -> State) (l : list A) s :
  (forall s x, control (f s x) = control s) ->
  control (foldl f s l) = control s.
Proof.
  intros Hf. revert s. induction l as [|x l IH]; intros s; [done|].
  simpl. by rewrite IH, Hf.
Qed.

Lemma control_userBlock p s b : control (userBlock p s b) = control s.
Proof.
  unfold userBlock. destruct (_ && _); [|done].
  by rewrite control_handleToolResultComplete, control_announceResult.
Qed.

Lemma control_assistantToolUseBlock p s b :
  control (assistantToolUseBlock p s b) = control s.
Proof.
  unfold assistantToolUseBlock. destruct (_ && _); [|done].
  by rewrite control_handleSubagentToolUseStart.
Qed.

Lemma control_assistantResultBlock p s b :
  control (assistantResultBlock p s b) = control s.
Proof.
  unfold assistantResultBlock. destruct (_ && _); [|done].
  by rewrite control_handleToolResultComplete, control_announceResult.
Qed.

Lemma control_onDelta now p i d s : control (onDelta now p i d s) = control s.
Proof.
  destruct d as [t|t|j|]; simpl; [| | |done].
  - destruct (truthyOpt p).
    + rewrite control_appendToolResultDelta.
      destruct (childToolToParent s !! _) as [q|]; [|done]. by destruct (truthy q).
    + by rewrite control_appendTextChunk.
  - unfold handleThinkingChunk. by rewrite control_onContentArray.
  - destruct (truthyOpt p).
    + by rewrite control_handleSubagentToolInputDelta.
    + unfold handleToolInputDelta. by rewrite control_onContentArray.
Qed.

Lemma control_onBlockStart now p i b s :
  control (onBlockStart now p i b s) = control s.
Proof.
  destruct b as [|id name input|id c e|]; simpl; [| | |done].
  - unfold handleThinkingStart. by rewrite control_onContentArray.
  - destruct (truthyOpt p).
    + by rewrite control_handleSubagentToolUseStart.
    + unfold handleToolUseStart. by rewrite control_onContentArray.
  - destruct (truthy _); [|done].
    by rewrite control_handleToolResultStart, control_announceResult.
Qed.

Lemma control_finalizeSubagentToolResult id s :
  control (finalizeSubagentToolResult id s).2 = control s.
Proof.
  unfold finalizeSubagentToolResult. by destruct (findSubagentCall id s).
Qed.

Lemma control_onBlockStop now p i s :
  control (onBlockStop now p i s) = control s.
Proof.
  unfold onBlockStop. destruct (truthyOpt p).
  - set (s1 := if truthyOpt (streamIndexToToolId s !! i) then _ else s).
    assert (control s1 = control s) as H1.
    { subst s1. destruct (truthyOpt _); [|done].
      apply control_finalizeSubagentToolInput. }
    destruct (truthyOpt (toolResultIndexToId s1 !! i)); [|exact H1].
    match goal with
    | |- context [finalizeSubagentToolResult ?id ?s0] =>
        pose proof (control_finalizeSubagentToolResult id s0) as H2;
        destruct (finalizeSubagentToolResult id s0) as [[] s2]
    end; simpl in H2; [|by rewrite H2].
    cbv zeta. destruct (truthyOpt (childToolToParent s2 !! _));
      [rewrite control_broadcast|]; by rewrite H2.
  - unfold handleContentBlockStop. by rewrite control_onContentArray.
Qed.

Lemma control_dispatchSdkMessage now m s :
  control (dispatchSdkMessage now m s) = control s.
Proof.
  destruct m as [p ev|p c|p c| |]; simpl; [| | | |done].
  - destruct ev; [apply control_onDelta|apply control_onBlockStart
                  |apply control_onBlockStop|done].
  - destruct (_ && _); [|done]. apply control_foldl, control_userBlock.
  - set (s1 := if truthyOpt p && truthyVal c then _ else s).
    assert (control s1 = control s) as H1.
    { subst s1. destruct (_ && _); [|done].
      apply control_foldl, control_assistantToolUseBlock. }
    set (s2 := if truthyOpt p then _ else s1).
    assert (control s2 = control s1) as H2.
    { subst s2. destruct (truthyOpt p); [|done]. destruct (truthy _); [|done].
      unfold appendToolResultContent. simpl.
      by rewrite control_broadcast, control_setToolResult. }
    destruct (truthyVal c); [|congruence].
    rewrite control_foldl; [congruence|]. apply control_assistantResultBlock.
  - unfold handleMessageComplete. by rewrite control_setSessionState.
Qed.


End Transcript.

End SessionFacts.

(** ** Runs, promises and interrupts *)

Module WorldFacts.
Import Js Session SseFacts SessionFacts.

Section World.
Context {host : Host}.

(** *** The live sessions of a list of runs *)

Lemma liveFrom_snoc k (rs : list Run) (r : Run) :
  liveFrom k (rs ++ [r]) =
  liveFrom k rs ++ match r with Live _ => [k + length rs] | _ => [] end.
Proof.
  revert k. induction rs as [|r0 rs IH]; intros k; simpl.
  - destruct r; simpl; try done. by rewrite Nat.add_0_r.
  - rewrite IH. replace (S k + length rs) with (k + S (length rs)) by lia.
    by destruct r0.
Qed.

Lemma elem_of_liveFrom k rs q :
  q ∈ liveFrom k rs <-> exists j h, q = k + j /\ rs !! j = Some (Live h).
Proof.
  revert k. induction rs as [|r0 rs IH]; intros k; simpl.
  - split; [by intros ?%elem_of_nil|]. by intros (j & h & _ & ?).
  - assert (q ∈ liveFrom (S k) rs <->
            exists j h, q = k + S j /\ rs !! j = Some (Live h)) as IH'.
    { rewrite IH. split; intros (j & h & -> & ?); exists j, h; split; [lia|done|lia|done]. }
    destruct r0 as [p|h0|].
    + rewrite IH'. split.
      * intros (j & h & -> & ?). by exists (S j), h.
      * intros ([|j] & h & -> & Hj); [done|]. by exists j, h.
    + rewrite elem_of_cons, IH'. split.
      * intros [->|(j & h & -> & ?)]; [exists 0, h0; split; [lia|done]|by exists (S j), h].
      * intros ([|j] & h & -> & Hj); [left; lia|right; by exists j, h].
    + rewrite IH'. split.
      * intros (j & h & -> & ?). by exists (S j), h.
      * intros ([|j] & h & -> & Hj); [done|]. by exists j, h.
Qed.

Lemma liveFrom_nil k rs :
  liveFrom k rs = [] <-> forall j h, rs !! j <> Some (Live h).
Proof.
  split.
  - intros Hnil j h Hj.
    assert (k + j ∈ liveFrom k rs) as Hin by (apply elem_of_liveFrom; eauto).
    rewrite Hnil in Hin. by apply elem_of_nil in Hin.
  - intros Hno. destruct (liveFrom k rs) as [|q l] eqn:Hl; [done|].
    assert (q ∈ liveFrom k rs) as Hin by (rewrite Hl; left).
    apply elem_of_liveFrom in Hin as (j & h & _ & Hj). by destruct (Hno j h).
Qed.

(** Replacing a run that is not live by one that is not live, or a live
    one by a live one, leaves the live sessions as they are. *)
Lemma liveFrom_insert_idle k rs i r r' :
  rs !! i = Some r -> (forall h, r <> Live h) -> (forall h, r' <> Live h) ->
  liveFrom k (<[i := r']> rs) = liveFrom k rs.
Proof.
  revert k i. induction rs as [|r0 rs IH]; intros k i Hi Hr Hr'; [done|].
  destruct i as [|i]; simpl in *.
  - injection Hi as ->.
    destruct r as [?|h|]; [|by destruct (Hr h)|];
      (destruct r' as [?|h'|]; [reflexivity|by destruct (Hr' h')|reflexivity]).
  - rewrite (IH _ _ Hi Hr Hr'). done.
Qed.

Lemma liveFrom_insert_live_live k rs i h h' :
  rs !! i = Some (Live h) ->
  liveFrom k (<[i := Live h']> rs) = liveFrom k rs.
Proof.
  revert k i. induction rs as [|r0 rs IH]; intros k i Hi; [done|].
  destruct i as [|i]; simpl in *.
  - by injection Hi as ->.
  - by rewrite (IH _ _ Hi).
Qed.

Lemma liveFrom_insert_start k rs i r h :
  rs !! i = Some r -> liveFrom k rs = [] ->
  liveFrom k (<[i := Live h]> rs) = [k + i].
Proof.
  revert k i. induction rs as [|r0 rs IH]; intros k i Hi Hnil; [done|].
  destruct i as [|i]; simpl in *.
  - rewrite Nat.add_0_r. destruct r0; simpl in Hnil; try done;
      by rewrite Hnil.
  - replace (k + S i) with (S k + i) by lia.
    destruct r0; try done; by apply IH.
Qed.

Lemma liveFrom_insert_stop k rs i h q :
  rs !! i = Some (Live h) -> liveFrom k rs = [q] ->
  liveFrom k (<[i := Over]> rs) = [] /\ q = k + i.
Proof.
  revert k i. induction rs as [|r0 rs IH]; intros k i Hi Hq; [done|].
  destruct i as [|i]; simpl in *.
  - injection Hi as ->. injection Hq as <- Hnil. split; [done|lia].
  - replace (k + S i) with (S k + i) by lia. destruct r0; try by apply IH.
    injection Hq as _ Hnil. exfalso.
    by apply (proj1 (liveFrom_nil _ _) Hnil i h).
Qed.


(** *** What the commands do to the control variables *)

(** A run that was started: it is live or over. *)
Local Abbreviation started rs p :=
  (exists r, rs !! p = Some r /\ forall q, r <> Awaiting q).

(** The five variables [coherent] reads. *)
Local Abbreviation sameFlags s' s :=
  (querySession s' = querySession s
   /\ isProcessing s' = isProcessing s
   /\ shouldAbortSession s' = shouldAbortSession s
   /\ sessionTerminationPromise s' = sessionTerminationPromise s
   /\ isInterruptingResponse s' = isInterruptingResponse s).

Lemma control_flags s s' : control s' = control s -> sameFlags s' s.
Proof. unfold control. intros [=]. by repeat split. Qed.

Lemma enqueueHead_flags now text s s' :
  enqueueHead now text s = Some s' -> sameFlags s' s.
Proof.
  unfold enqueueHead. destruct (truthy (trim text)); [|done]. intros [= <-].
  unfold setSessionState.
  destruct (hasInitialPrompt s); destruct (decide _); by repeat split.
Qed.

Lemma enqueueHead_first_flags now text s s' :
  enqueueHead_first now text s = Some s' -> sameFlags s' s.
Proof.
  unfold enqueueHead_first. destruct (truthy (trim text)); [|done].
  intros [= <-]. unfold setSessionState. destruct (decide _); by repeat split.
Qed.

Lemma control_handleMessageStopped now s :
  control (handleMessageStopped now s) = control s.
Proof.
  unfold handleMessageStopped.
  set (s1 := setSessionState idle (set_isStreamingMessage false s)).
  assert (control s1 = control s) as H1
    by (subst s1; by rewrite control_setSessionState).
  destruct (last (messages s1)) as [m|]; [|done].
  destruct (msg_role m); [done|]. by destruct (msg_content m).
Qed.

Lemma control_handleMessageError now e s :
  control (handleMessageError now e s) = control s.
Proof.
  unfold handleMessageError.
  change (control (setSessionState idle (set_isStreamingMessage false s))
          = control s).
  by rewrite control_setSessionState.
Qed.

Lemma control_sessionCatch now e s :
  control (sessionCatch now e s) = control s.
Proof.
  unfold sessionCatch.
  by rewrite control_setSessionState, control_handleMessageError.
Qed.

Lemma sessionFinally_flags s :
  querySession (sessionFinally s) = None
  /\ isProcessing (sessionFinally s) = false
  /\ shouldAbortSession (sessionFinally s) = shouldAbortSession s
  /\ sessionTerminationPromise (sessionFinally s)
     = sessionTerminationPromise s
  /\ isInterruptingResponse (sessionFinally s) = isInterruptingResponse s.
Proof.
  unfold sessionFinally, setSessionState.
  destruct (decide _); [done|]. by destruct (decide _).
Qed.

Lemma startHead_Some p s s' :
  startHead p s = Some s' ->
  isProcessing s = false /\ querySession s = None
  /\ querySession s' = None /\ isProcessing s' = true
  /\ shouldAbortSession s' = false
  /\ sessionTerminationPromise s' = Some p
  /\ isInterruptingResponse s' = isInterruptingResponse s.
Proof.
  unfold startHead. destruct (isProcessing s) eqn:Hp; [done|].
  destruct (querySession s) as [q|] eqn:Hq; [done|]. simpl.
  intros [= <-]. unfold setSessionState. destruct (decide _); by repeat split.
Qed.

Lemma startHead_None p s :
  startHead p s = None ->
  isProcessing s = true \/ is_Some (querySession s).
Proof.
  unfold startHead. destruct (isProcessing s); [by left|].
  destruct (querySession s); [right; eauto|done].
Qed.

(** *** Runs that were started stay started *)

Lemma started_insert (rs : list Run) (i : nat) (r' : Run) (p : nat) :
  (forall q, r' <> Awaiting q) -> started rs p -> started (<[i := r']> rs) p.
Proof.
  intros Hr' (r & Hp & Hr). destruct (decide (i = p)) as [->|Hne].
  - exists r'. split; [|done]. apply list_lookup_insert_eq.
    by eapply lookup_lt_Some.
  - exists r. split; [|done]. by rewrite list_lookup_insert_ne.
Qed.

Lemma started_snoc (rs : list Run) (r' : Run) (p : nat) :
  started rs p -> started (rs ++ [r']) p.
Proof.
  intros (r & Hp & Hr). exists r. split; [|done].
  by apply lookup_app_l_Some.
Qed.

Lemma awaiting_insert (rs : list Run) (i : nat) (r' : Run) :
  (forall q, r' <> Awaiting q) ->
  (forall j p, rs !! j = Some (Awaiting p) -> started rs p) ->
  forall j p, <[i := r']> rs !! j = Some (Awaiting p) ->
              started (<[i := r']> rs) p.
Proof.
  intros Hr' Hrs j p Hj. apply started_insert; [done|].
  destruct (decide (i = j)) as [->|Hne].
  - destruct (decide (j < length rs)) as [Hlt|Hge].
    + rewrite list_lookup_insert_eq in Hj by done.
      injection Hj as ->. by destruct (Hr' p).
    + rewrite list_insert_ge in Hj by lia. eauto.
  - rewrite list_lookup_insert_ne in Hj by done. eauto.
Qed.

Lemma awaiting_snoc (rs : list Run) (r' : Run) :
  (forall q, r' = Awaiting q -> started rs q) ->
  (forall j p, rs !! j = Some (Awaiting p) -> started rs p) ->
  forall j p, (rs ++ [r']) !! j = Some (Awaiting p) ->
              started (rs ++ [r']) p.
Proof.
  intros Hr' Hrs j p Hj. apply started_snoc.
  apply lookup_app_Some in Hj as [Hj|[_ Hj]]; [eauto|].
  destruct (j - length rs); [|done]. injection Hj as ->. eauto.
Qed.

Lemma terminated_insert (rs : list Run) (ts : list nat) (i : nat) (r' : Run) :
  (r' = Over \/ i ∉ ts) ->
  (forall p, p ∈ ts -> rs !! p = Some Over) ->
  forall p, p ∈ ts -> <[i := r']> rs !! p = Some Over.
Proof.
  intros Hr' Hts p Hp. destruct (decide (i = p)) as [->|Hne].
  - destruct Hr' as [->|Hnot]; [|done].
    apply list_lookup_insert_eq. eapply lookup_lt_Some; eauto.
  - rewrite list_lookup_insert_ne by done. eauto.
Qed.

Lemma count_inflight_snoc (l : list Stop) (x : Stop) :
  length (filter (fun st => st = InFlight) (l ++ [x]))
  = length (filter (fun st => st = InFlight) l)
    + (if decide (x = InFlight) then 1 else 0).
Proof.
  rewrite filter_app, length_app. f_equal.
  rewrite filter_cons. by destruct (decide _).
Qed.

Lemma count_inflight_settle (l : list Stop) (k : nat) :
  l !! k = Some InFlight ->
  length (filter (fun st => st = InFlight) l)
  = S (length (filter (fun st => st = InFlight) (<[k := Settled]> l))).
Proof.
  revert k. induction l as [|x l IH]; intros k Hk; [done|].
  destruct k as [|k]; simpl in *.
  - injection Hk as ->. rewrite !filter_cons.
    destruct (decide (InFlight = InFlight)); [|done].
    destruct (decide (Settled = InFlight)); [done|]. done.
  - rewrite !filter_cons. destruct (decide (x = InFlight)); simpl;
      by rewrite (IH _ Hk).
Qed.


(** *** Every step keeps the world coherent *)



(** Assignments that leave the five variables alone keep the world
    coherent. *)
Lemma coherent_set_vars w s' :
  coherent w -> sameFlags s' (vars w) -> coherent (set_vars s' w).
Proof.
  intros (Hl & Hp & Ha & Ht & Hw & Hpr & Hs) (Eq & Ep & Ea & Et & Ei).
  unfold coherent, liveSessions in *. simpl.
  rewrite Eq, Ep, Ea, Et, Ei. by repeat split.
Qed.

(** The end of a live run. *)
Lemma coherent_finishRun i h w :
  coherent w -> runs w !! i = Some (Live h) -> coherent (finishRun i w).
Proof.
  intros (Hl & Hp & Ha & Ht & Hw & Hpr & Hs) Hi.
  destruct (sessionFinally_flags (vars w)) as (Fq & Fp & Fa & Ft & Fi).
  unfold coherent, liveSessions, finishRun in *. simpl.
  rewrite Fq, Fp, Fa, Ft, Fi.
  assert (i < length (runs w)) as Hlt by (by eapply lookup_lt_Some).
  assert (forall q, Over <> Awaiting q) as Hover by done.
  split.
  { assert (i ∈ liveFrom 0 (runs w)) as Hin
      by (apply elem_of_liveFrom; exists i, h; split; [lia|done]).
    rewrite Hl in Hin. destruct (querySession (vars w)) as [q|];
      [|by apply elem_of_nil in Hin].
    simpl in Hl. by destruct (liveFrom_insert_stop 0 _ i h q Hi Hl) as [-> _]. }
  split; [done|]. split; [done|]. split.
  { intros p [Hp'|Hp']%elem_of_app.
    - apply terminated_insert with (ts := terminated w); auto.
    - apply list_elem_of_singleton in Hp' as ->.
      by apply list_lookup_insert_eq. }
  split; [by apply awaiting_insert|].
  split; [|done]. intros p Hp'. apply started_insert; auto.
Qed.

(** [startStreamingSession] past its await, for an invocation that is
    not live and whose promise, if it makes one, is not resolved yet. *)
Lemma coherent_startRun i now thrown r w :
  coherent w -> runs w !! i = Some r -> (forall h, r <> Live h) ->
  i ∉ terminated w -> coherent (startRun i now thrown w).
Proof.
  intros Hc Hi Hr Hnt. pose proof Hc as (Hl & Hp & Ha & Ht & Hw & Hpr & Hs).
  assert (i < length (runs w)) as Hlt by (by eapply lookup_lt_Some).
  assert (forall q, Over <> Awaiting q) as Hover by done.
  unfold startRun. destruct (startHead i (vars w)) as [s1|] eqn:Hhead.
  - apply startHead_Some in Hhead as (Ep & Eq & Eq1 & Ep1 & Ea1 & Et1 & Ei1).
    assert (liveFrom 0 (runs w) = []) as Hnil
      by (unfold liveSessions in Hl; by rewrite Hl, Eq).
    destruct thrown as [e|].
    + (* [query] throws: catch and finally *)
      destruct (sessionFinally_flags (sessionCatch now e s1))
        as (Fq & Fp & Fa & Ft & Fi).
      destruct (control_flags _ _ (control_sessionCatch now e s1))
        as (Cq & Cp & Ca & Ct & Ci).
      unfold coherent, liveSessions, finishRun. simpl.
      rewrite Fq, Fp, Fa, Ft, Fi, Ca, Ct, Ci, Ea1, Et1, Ei1.
      split; [by rewrite (liveFrom_insert_idle 0 _ i r Over)|].
      split; [done|]. split; [done|]. split.
      { intros p [Hp'|Hp']%elem_of_app.
        - apply terminated_insert with (ts := terminated w); auto.
        - apply list_elem_of_singleton in Hp' as ->.
          by apply list_lookup_insert_eq. }
      split; [by apply awaiting_insert|].
      split; [|done]. intros p [= <-]. exists Over.
      split; [by apply list_lookup_insert_eq|done].
    + (* the session is live *)
      unfold coherent, liveSessions. simpl.
      rewrite Ep1, Ea1, Et1, Ei1.
      split; [by rewrite (liveFrom_insert_start 0 _ i r)|].
      split; [done|]. split; [done|]. split.
      { apply terminated_insert; auto. }
      split; [by apply awaiting_insert|].
      split; [|done]. intros p [= <-]. exists (Live None).
      split; [by apply list_lookup_insert_eq|done].
  - (* a session is live already *)
    unfold coherent, liveSessions. simpl.
    split; [by rewrite (liveFrom_insert_idle 0 _ i r Over)|].
    split; [done|]. split; [done|]. split.
    { apply terminated_insert; auto. }
    split; [by apply awaiting_insert|].
    split; [|done]. intros p Hp'. apply started_insert; auto.
Qed.

(** A new invocation at the end of [runs]. *)
Lemma coherent_snoc r w :
  coherent w ->
  (forall h, r <> Live h) ->
  (forall q, r = Awaiting q -> sessionTerminationPromise (vars w) = Some q) ->
  coherent (set_runs (runs w ++ [r]) w)
  /\ length (runs w) ∉ terminated w.
Proof.
  intros (Hl & Hp & Ha & Ht & Hw & Hpr & Hs) Hr Hq. split.
  - unfold coherent, liveSessions in *. simpl.
    split.
    { rewrite liveFrom_snoc, Hl. destruct r as [?|h|];
        [by rewrite app_nil_r|by destruct (Hr h)|by rewrite app_nil_r]. }
    split; [done|]. split; [done|]. split.
    { intros p Hp'. apply lookup_app_l_Some. auto. }
    split; [apply awaiting_snoc; [|done]; intros q ->; eauto|].
    split; [|done]. intros p Hp'. apply started_snoc. eauto.
  - intros Hin. apply Ht in Hin. apply lookup_lt_Some in Hin. lia.
Qed.

Lemma coherent_startStreamingSession now thrown w :
  coherent w -> isSessionActive (vars w) = false ->
  coherent (startStreamingSession now thrown w).
Proof.
  intros Hc Hact. unfold startStreamingSession.
  destruct (sessionTerminationPromise (vars w)) as [p|] eqn:Hprom.
  - apply coherent_snoc; [done|done|]. by intros q [= ->].
  - destruct (coherent_snoc Over w Hc) as [Hc' Hnt]; [done|done|].
    apply (coherent_startRun _ _ _ Over); [done| |done|done].
    simpl. by rewrite lookup_app_r, Nat.sub_diag.
Qed.

Lemma coherent_enqueueUserMessage now text thrown w :
  coherent w -> coherent (enqueueUserMessage now text thrown w).
Proof.
  intros Hc. unfold enqueueUserMessage.
  destruct (enqueueHead now text (vars w)) as [s|] eqn:Hhead; [|done].
  apply enqueueHead_flags in Hhead.
  pose proof (coherent_set_vars w s Hc Hhead) as Hc1.
  set (w1 := set_vars s w) in *.
  set (w2 := if isSessionActive (vars w1) then w1 else _).
  assert (coherent w2) as Hc2.
  { subst w2. destruct (isSessionActive (vars w1)) eqn:Hact; [done|].
    by apply coherent_startStreamingSession. }
  apply (coherent_set_vars (set_calls _ w2)); [exact Hc2|].
  by repeat split.
Qed.

Lemma coherent_interruptCurrentResponse w :
  coherent w -> coherent (interruptCurrentResponse w).
Proof.
  intros Hc. unfold interruptCurrentResponse.
  destruct (querySession (vars w)) as [q|] eqn:Hq; [|exact Hc].
  destruct (isInterruptingResponse (vars w)) eqn:Hi; [exact Hc|].
  destruct Hc as (Hl & Hp & Ha & Ht & Hw & Hpr & Hs).
  unfold coherent, liveSessions in *. simpl. rewrite Hi in Hs.
  repeat split; try done. rewrite count_inflight_snoc, Hs. done.
Qed.

Lemma coherent_interruptSettled k now ok w :
  coherent w -> stops w !! k = Some InFlight ->
  coherent (interruptSettled k now ok w).
Proof.
  intros Hc Hk. pose proof Hc as (Hl & Hp & Ha & Ht & Hw & Hpr & Hs).
  pose proof (count_inflight_settle _ _ Hk) as Hcount.
  assert (isInterruptingResponse (vars w) = true) as Hflag.
  { destruct (isInterruptingResponse (vars w)); [done|].
    rewrite Hs in Hcount. discriminate Hcount. }
  rewrite Hflag in Hs. rewrite Hs in Hcount. injection Hcount as Hcount.
  unfold interruptSettled. destruct ok.
  - destruct (control_flags _ _
                (control_handleMessageStopped now
                   (broadcast "chat:message-stopped" Jnull (vars w))))
      as (Cq & Cp & Ca & Ct & Ci).
    unfold coherent, liveSessions in *. simpl.
    rewrite Cq, Cp, Ca, Ct. by repeat split.
  - unfold coherent, liveSessions in *. simpl. by repeat split.
Qed.

Lemma coherent_step w l w' :
  coherent w -> step w l = Some w' -> coherent w'.
Proof.
  intros Hc Hstep. pose proof Hc as (Hl & Hp & Ha & Ht & Hw & Hpr & Hs).
  destruct l as [now text thrown|now body thrown|i now thrown|i|i|i now m
                |i|i now e| |k now ok]; simpl in Hstep.
  - injection Hstep as <-. by apply coherent_enqueueUserMessage.
  - injection Hstep as <-. unfold chatSend.
    destruct body as [|text]; [done|].
    destruct (truthy _); [|done]. by apply coherent_enqueueUserMessage.
  - destruct (runs w !! i) as [[p|h|]|] eqn:Hi; try done.
    destruct (bool_decide (p ∈ terminated w)); [|done].
    injection Hstep as <-.
    apply (coherent_startRun _ _ _ (Awaiting p)); [done|done|done|].
    intros Hin. apply Ht in Hin. rewrite Hi in Hin. discriminate Hin.
  - destruct (runs w !! i) as [[p|[r|]|]|] eqn:Hi; try done.
    destruct (messageQueue (vars w)) as [|item rest] eqn:Hq; [done|].
    rewrite Ha in Hstep. injection Hstep as <-.
    unfold coherent, liveSessions in *. simpl.
    assert (forall q, Live (Some (item_resolve item)) <> Awaiting q) by done.
    split; [by rewrite (liveFrom_insert_live_live 0 _ i None)|].
    split; [done|]. split; [done|]. split.
    { apply terminated_insert; [|done]. right. intros Hin.
      apply Ht in Hin. rewrite Hi in Hin. discriminate Hin. }
    split; [by apply awaiting_insert|].
    split; [|done]. intros p Hp'. apply started_insert; auto.
  - destruct (runs w !! i) as [[p|[r|]|]|] eqn:Hi; try done.
    injection Hstep as <-.
    unfold coherent, liveSessions in *. simpl.
    assert (forall q, Live None <> Awaiting q) by done.
    split; [by rewrite (liveFrom_insert_live_live 0 _ i (Some r))|].
    split; [done|]. split; [done|]. split.
    { apply terminated_insert; [|done]. right. intros Hin.
      apply Ht in Hin. rewrite Hi in Hin. discriminate Hin. }
    split; [by apply awaiting_insert|].
    split; [|done]. intros p Hp'. apply started_insert; auto.
  - destruct (runs w !! i) as [[p|h|]|] eqn:Hi; try done.
    destruct (shouldAbortSession (noteSdkMessage now m (vars w))) eqn:Hab.
    + injection Hstep as <-. apply (coherent_finishRun i h); [|done].
      apply coherent_set_vars; [done|].
      apply control_flags, control_noteSdkMessage.
    + injection Hstep as <-. apply coherent_set_vars; [done|].
      apply control_flags.
      by rewrite control_dispatchSdkMessage, control_noteSdkMessage.
  - destruct (runs w !! i) as [[p|h|]|] eqn:Hi; try done.
    injection Hstep as <-. by apply (coherent_finishRun i h).
  - destruct (runs w !! i) as [[p|h|]|] eqn:Hi; try done.
    injection Hstep as <-. apply (coherent_finishRun i h); [|done].
    apply coherent_set_vars; [done|].
    apply control_flags, control_sessionCatch.
  - injection Hstep as <-. by apply coherent_interruptCurrentResponse.
  - destruct (stops w !! k) as [[|]|] eqn:Hk; try done.
    injection Hstep as <-. by apply coherent_interruptSettled.
Qed.

Lemma coherent_boot_vars s :
  sameFlags s pristine ->
  coherent {| vars := s; runs := []; terminated := []; resolved := [];
              calls := 0; interrupts := []; stops := []; answers := [] |}.
Proof.
  intros (Eq & Ep & Ea & Et & Ei). unfold coherent, liveSessions. simpl.
  rewrite Eq, Ep, Ea, Et, Ei. simpl. repeat split; try done.
  - intros p Hp. by apply elem_of_nil in Hp.
Qed.

Lemma coherent_initializeAgent now dir prompt uuid thrown :
  coherent (initializeAgent now dir prompt uuid thrown boot).
Proof.
  unfold initializeAgent.
  match goal with
  | |- coherent (if _ then enqueueUserMessage _ _ _ ?w else _) =>
      assert (coherent w) as Hc by (apply coherent_boot_vars; by repeat split)
  end.
  destruct (hasPrompt prompt); [|exact Hc].
  by apply coherent_enqueueUserMessage.
Qed.

Lemma reachable_coherent w : reachable w -> coherent w.
Proof.
  induction 1 as [now dir prompt uuid thrown|w l w' _ IH Hstep].
  - apply coherent_initializeAgent.
  - by eapply coherent_step.
Qed.


(** *** Every step starts or ends at most one session *)

(** What a step does to the live sessions: nothing, or it ends the one
    there is, or it starts one when there is none. *)
Local Abbreviation liveChange w w' :=
  (liveSessions w' = liveSessions w
   \/ liveSessions w' = []
   \/ (liveSessions w = [] /\ querySession (vars w) = None
       /\ isProcessing (vars w) = false
       /\ exists i, liveSessions w' = [i])).

Lemma live_finishRun i h w :
  coherent w -> runs w !! i = Some (Live h) ->
  liveSessions (finishRun i w) = [].
Proof.
  intros Hc Hi. apply (coherent_finishRun i h) in Hc as (Hl & _); [|done].
  rewrite Hl. unfold finishRun. simpl.
  by destruct (sessionFinally_flags (vars w)) as (-> & _).
Qed.

Lemma live_startRun i now thrown r w :
  coherent w -> runs w !! i = Some r -> (forall h, r <> Live h) ->
  liveSessions (startRun i now thrown w) = liveSessions w
  \/ (liveSessions w = [] /\ querySession (vars w) = None
      /\ isProcessing (vars w) = false
      /\ liveSessions (startRun i now thrown w) = [i]).
Proof.
  intros (Hl & _) Hi Hr. unfold startRun, liveSessions in *.
  destruct (startHead i (vars w)) as [s1|] eqn:Hhead.
  - apply startHead_Some in Hhead as (Ep & Eq & _).
    assert (liveFrom 0 (runs w) = []) as Hnil by (by rewrite Hl, Eq).
    destruct thrown as [e|]; simpl.
    + left. by rewrite (liveFrom_insert_idle 0 _ i r Over).
    + right. by rewrite (liveFrom_insert_start 0 _ i r).
  - left. simpl. by rewrite (liveFrom_insert_idle 0 _ i r Over).
Qed.

Lemma live_enqueueUserMessage now text thrown w :
  coherent w ->
  liveSessions (enqueueUserMessage now text thrown w) = liveSessions w
  \/ (liveSessions w = [] /\ querySession (vars w) = None
      /\ isProcessing (vars w) = false
      /\ liveSessions (enqueueUserMessage now text thrown w)
         = [length (runs w)]).
Proof.
  intros Hc. unfold enqueueUserMessage.
  destruct (enqueueHead now text (vars w)) as [s|] eqn:Hhead; [|by left].
  apply enqueueHead_flags in Hhead. pose proof Hhead as (Eq & Ep & _).
  pose proof (coherent_set_vars w s Hc Hhead) as Hc1.
  change (liveSessions (set_calls ?c (set_vars ?v ?w0)))
    with (liveSessions w0).
  change (liveSessions w) with (liveSessions (set_vars s w)).
  rewrite <- Eq, <- Ep.
  change (querySession s) with (querySession (vars (set_vars s w))).
  change (isProcessing s) with (isProcessing (vars (set_vars s w))).
  change (length (runs w)) with (length (runs (set_vars s w))).
  set (w1 := set_vars s w) in *. clearbody w1.
  destruct (isSessionActive (vars w1)); [by left|].
  unfold startStreamingSession.
  destruct (sessionTerminationPromise (vars w1)) as [p|] eqn:Hprom.
  - left. unfold liveSessions. simpl. by rewrite liveFrom_snoc, app_nil_r.
  - destruct (coherent_snoc Over w1 Hc1) as [Hc' Hnt]; [done|done|].
    destruct (live_startRun (length (runs w1)) now thrown Over _ Hc')
      as [Hsame|Hnew]; [|done| |].
    + simpl. by rewrite lookup_app_r, Nat.sub_diag.
    + left. rewrite Hsame. unfold liveSessions. simpl.
      by rewrite liveFrom_snoc, app_nil_r.
    + right. destruct Hnew as (Hnil & Hq & Hp & Hlive).
      unfold liveSessions in Hnil. simpl in Hnil.
      rewrite liveFrom_snoc, app_nil_r in Hnil. done.
Qed.

Lemma live_step w l w' :
  coherent w -> step w l = Some w' -> liveChange w w'.
Proof.
  intros Hc Hstep. pose proof Hc as (Hl & Hp & Ha & Ht & Hw & Hpr & Hs).
  destruct l as [now text thrown|now body thrown|i now thrown|i|i|i now m
                |i|i now e| |k now ok]; simpl in Hstep.
  - injection Hstep as <-.
    destruct (live_enqueueUserMessage now text thrown w Hc)
      as [?|(? & ? & ? & ?)]; [by left|].
    right; right. repeat split; try done. by exists (length (runs w)).
  - injection Hstep as <-. unfold chatSend. destruct body as [|text]; [by left|].
    destruct (truthy _); [|by left]. simpl.
    destruct (live_enqueueUserMessage now (nullish (trim <$> text) "")
                thrown w Hc) as [?|(? & ? & ? & ?)]; [by left|].
    right; right. repeat split; try done. by exists (length (runs w)).
  - destruct (runs w !! i) as [[p|h|]|] eqn:Hi; try done.
    destruct (bool_decide (p ∈ terminated w)); [|done].
    injection Hstep as <-.
    destruct (live_startRun i now thrown (Awaiting p) w Hc Hi)
      as [?|(? & ? & ? & ?)]; [done|by left|].
    right; right. repeat split; try done. by exists i.
  - destruct (runs w !! i) as [[p|[r|]|]|] eqn:Hi; try done.
    destruct (messageQueue (vars w)) as [|item rest] eqn:Hq; [done|].
    rewrite Ha in Hstep. injection Hstep as <-. left.
    unfold liveSessions. simpl.
    by rewrite (liveFrom_insert_live_live 0 _ i None).
  - destruct (runs w !! i) as [[p|[r|]|]|] eqn:Hi; try done.
    injection Hstep as <-. left. unfold liveSessions. simpl.
    by rewrite (liveFrom_insert_live_live 0 _ i (Some r)).
  - destruct (runs w !! i) as [[p|h|]|] eqn:Hi; try done.
    destruct (shouldAbortSession (noteSdkMessage now m (vars w))) eqn:Hab.
    + injection Hstep as <-. right; left.
      apply (live_finishRun i h); [|done]. apply coherent_set_vars; [done|].
      apply control_flags, control_noteSdkMessage.
    + injection Hstep as <-. by left.
  - destruct (runs w !! i) as [[p|h|]|] eqn:Hi; try done.
    injection Hstep as <-. right; left. by apply (live_finishRun i h).
  - destruct (runs w !! i) as [[p|h|]|] eqn:Hi; try done.
    injection Hstep as <-. right; left.
    apply (live_finishRun i h); [|done]. apply coherent_set_vars; [done|].
    apply control_flags, control_sessionCatch.
  - injection Hstep as <-. left. unfold interruptCurrentResponse.
    destruct (querySession (vars w)); [|done].
    by destruct (isInterruptingResponse (vars w)).
  - destruct (stops w !! k) as [[|]|] eqn:Hk; try done.
    injection Hstep as <-. left. unfold interruptSettled. by destruct ok.
Qed.

Lemma enqueueHead_messages now text s :
  trim text <> "" ->
  exists s', enqueueHead now text s = Some s'
    /\ messages s' = messages s ++ [userMessageOf now (trim text) s]
    /\ messageQueue s' = messageQueue s
    /\ hasInitialPrompt s' = true.
Proof.
  intros Hne. unfold enqueueHead.
  destruct (trim text) as [|c t] eqn:Ht; [done|]. simpl.
  eexists. split; [reflexivity|]. unfold setSessionState, userMessageOf.
  destruct (hasInitialPrompt s) eqn:Hh; destruct (decide _); simpl; done.
Qed.


End World.

End WorldFacts.

(** ** The session reducer *)

Module ReducerFacts.
Import Js Session SseFacts SessionFacts WorldFacts.

Section Reducer.
Context {host : Host}.

Lemma openText_frame s s' :
  messages s' = messages s -> isStreamingMessage s' = isStreamingMessage s ->
  openText s' = openText s
  /\ openAssistantMessage s' = openAssistantMessage s.
Proof.
  intros Hm Hs. unfold openText, openAssistantMessage. by rewrite Hm, Hs.
Qed.

Lemma noteSdkMessage_transcript now m s :
  messages (noteSdkMessage now m s) = messages s
  /\ isStreamingMessage (noteSdkMessage now m s) = isStreamingMessage s
  /\ childToolToParent (noteSdkMessage now m s) = childToolToParent s.
Proof.
  unfold noteSdkMessage, appendLogLine.
  destruct (truthyOpt _), (parseSystemInitInfo m), (sdkJson m); done.
Qed.

Lemma step_text_delta w i now index text w' :
  coherent w -> step w (Sdk i now (textDeltaEvent index text)) = Some w' ->
  openText (vars w') = openText (vars w) +:+ text
  /\ is_Some (openAssistantMessage (vars w')).
Proof.
  intros (_ & _ & Ha & _) Hstep. simpl in Hstep.
  destruct (runs w !! i) as [[p|h|]|]; try done.
  destruct (control_flags _ _ (control_noteSdkMessage now (textDeltaEvent index text) (vars w)))
    as (_ & _ & Hab & _).
  rewrite Hab, Ha in Hstep. injection Hstep as <-. simpl.
  destruct (noteSdkMessage_transcript now (textDeltaEvent index text) (vars w))
    as (Hm & Hs & _).
  split.
  - rewrite openText_appendTextChunk. f_equal.
    apply (openText_frame (vars w)); simpl; done.
  - apply openAssistant_appendTextChunk.
Qed.

(** C2.  The text deltas of the top level, consumed in the order in
    which session [i] yields them, add up: the text the open assistant
    message has accumulated afterwards is the text it had, followed by
    the deltas one after the other.  The accumulated text is the content
    while it is a string and the text of the last block once the content
    is an array.  So when the deltas start a message, or start the last
    text block, that text is their concatenation; and after a first delta
    there is an open assistant message. *)
Theorem text_deltas_concatenate (w w' : World) (i : nat)
  (deltas : list (Z * Z * string)) :
  reachable w ->
  exec w (textDeltaSteps i deltas) = Some w' ->
  openText (vars w') = openText (vars w) +:+ concatTexts deltas
  /\ (openText (vars w) = "" -> openText (vars w') = concatTexts deltas)
  /\ (deltas <> [] -> is_Some (openAssistantMessage (vars w'))).
Proof.
  intros Hr%reachable_coherent Hex.
  assert (openText (vars w') = openText (vars w) +:+ concatTexts deltas
          /\ (deltas <> [] -> is_Some (openAssistantMessage (vars w'))))
    as [Htext Hopen].
  { revert w Hr Hex. induction deltas as [|[[now index] text] deltas IH];
      intros w Hc Hex.
    - injection Hex as <-. simpl. by rewrite app_empty_r.
    - cbn [textDeltaSteps map exec] in Hex. cbn [fst snd] in Hex.
      destruct (step w (Sdk i now (textDeltaEvent index text)))
        as [w1|] eqn:Hstep; [|done].
      pose proof (coherent_step _ _ _ Hc Hstep) as Hc1.
      destruct (step_text_delta _ _ _ _ _ _ Hc Hstep) as [Ht1 Ho1].
      destruct (IH w1 Hc1 Hex) as [Ht Ho]. split.
      + rewrite Ht, Ht1. simpl. by rewrite app_assoc_s.
      + intros _. destruct deltas as [|d deltas]; [|by apply Ho].
        by injection Hex as <-. }
  split; [done|]. split; [|done]. intros Hempty.
  by rewrite Htext, Hempty.
Qed.

(** C3.  An error raised by the event stream of a live session is caught:
    one assistant message is pushed, the string [Error: ] followed by the
    error message; the messages there were stay as they were;
    [chat:message-error] is broadcast with the error message, then the
    status; the session ends in state [error], its handle released and
    its termination promise resolved. *)
Theorem runtime_error_becomes_message (w w' : World) (i : nat) (now : Z)
  (e : Thrown) :
  step w (Raise i now e) = Some w' ->
  messages (vars w')
  = messages (vars w) ++
    [{| msg_id := pretty (messageSequence (vars w)); msg_role := assistant;
        msg_content := CText ("Error: " +:+ errorMessageOf e);
        msg_timestamp := toISOString now |}]
  /\ sent (vars w')
     = sent (vars w) ++
       [("chat:message-error", Jstr (errorMessageOf e))] ++
       (if decide (sessionState (vars w) = idle) then []
        else [("chat:status", Jobj [("sessionState", Jstate idle)])]) ++
       [("chat:status", Jobj [("sessionState", Jstate error)])]
  /\ sessionState (vars w') = error
  /\ isStreamingMessage (vars w') = false
  /\ querySession (vars w') = None
  /\ isProcessing (vars w') = false
  /\ runs w' !! i = Some Over
  /\ i ∈ terminated w'.
Proof.
  intros Hstep. simpl in Hstep.
  destruct (runs w !! i) as [[p|h|]|] eqn:Hi; try done.
  injection Hstep as <-. apply lookup_lt_Some in Hi.
  unfold finishRun, sessionFinally, sessionCatch, handleMessageError,
    setSessionState, broadcast. simpl.
  destruct (decide (sessionState (vars w) = idle)) as [Hidle|Hidle]; simpl.
  - rewrite Hidle. simpl. repeat split; try done.
    + by rewrite <- !app_assoc.
    + by apply list_lookup_insert_eq.
    + apply elem_of_app. right. by left.
  - repeat split; try done.
    + by rewrite <- !app_assoc.
    + by apply list_lookup_insert_eq.
    + apply elem_of_app. right. by left.
Qed.

(** C4.  With no runtime handle, [interruptCurrentResponse] returns
    [false] and does nothing else.  With a handle and an interrupt in
    flight it returns [true] and does nothing else: the variables, and so
    the transcript and what was broadcast, are the same, and no interrupt
    is asked of the runtime.  So a call that follows, before it settles,
    the call that asked the runtime returns [true] without acting; and in
    a world the server can be in, an interrupt in flight means the flag is
    up. *)
Theorem interrupt_fails_idle_and_is_idempotent (w : World) :
  (querySession (vars w) = None ->
   interruptCurrentResponse w = set_answers (answers w ++ [false]) w)
  /\ (forall q, querySession (vars w) = Some q ->
        isInterruptingResponse (vars w) = true ->
        interruptCurrentResponse w = set_answers (answers w ++ [true]) w)
  /\ (forall q, querySession (vars w) = Some q ->
        isInterruptingResponse (vars w) = false ->
        let w1 := interruptCurrentResponse w in
        interrupts w1 = interrupts w ++ [q]
        /\ stops w1 = stops w ++ [InFlight]
        /\ answers w1 = answers w
        /\ interruptCurrentResponse w1 = set_answers (answers w1 ++ [true]) w1)
  /\ (reachable w -> forall k q,
        stops w !! k = Some InFlight -> querySession (vars w) = Some q ->
        interruptCurrentResponse w = set_answers (answers w ++ [true]) w).
Proof.
  split; [|split; [|split]].
  - intros Hq. unfold interruptCurrentResponse. by rewrite Hq.
  - intros q Hq Hi. unfold interruptCurrentResponse. by rewrite Hq, Hi.
  - intros q Hq Hi. unfold interruptCurrentResponse. rewrite Hq, Hi. simpl.
    rewrite Hq. done.
  - intros (_ & _ & _ & _ & _ & _ & Hs)%reachable_coherent k q Hk Hq.
    pose proof (count_inflight_settle _ _ Hk) as Hcount.
    unfold interruptCurrentResponse. rewrite Hq.
    destruct (isInterruptingResponse (vars w)); [done|].
    rewrite Hs in Hcount. discriminate Hcount.
Qed.

(** C8.  A text that is empty once trimmed is turned away: the handler
    of [POST /chat/send] answers 400 without calling
    [enqueueUserMessage], and [enqueueUserMessage] itself returns at
    once; either way the world is the one before, so no message, no
    change of state, no broadcast and nothing queued. *)
Theorem blank_text_is_rejected (w : World) (now : Z) (text : string)
  (thrown : option Thrown) :
  trim text = "" ->
  enqueueUserMessage now text thrown w = w
  /\ enqueueUserMessage_first now text thrown w = w
  /\ chatSend now (Payload_ (Some text)) thrown w
     = (inl {| status := 400; success := false;
               error_ := Some "Message cannot be empty." |}, w)
  /\ step w (Enqueue now text thrown) = Some w
  /\ step w (Send now (Payload_ (Some text)) thrown) = Some w.
Proof.
  intros Hblank.
  assert (enqueueUserMessage now text thrown w = w) as He.
  { unfold enqueueUserMessage, enqueueHead. by rewrite Hblank. }
  assert (chatSend now (Payload_ (Some text)) thrown w
          = (inl {| status := 400; success := false;
                    error_ := Some "Message cannot be empty." |}, w)) as Hc.
  { unfold chatSend. simpl. by rewrite Hblank. }
  split; [done|]. split.
  { unfold enqueueUserMessage_first, enqueueHead_first. by rewrite Hblank. }
  split; [done|]. split; unfold step; [by rewrite He|by rewrite Hc].
Qed.


Lemma enqueueUserMessage_effect now text thrown w :
  trim text <> "" ->
  let w' := enqueueUserMessage now text thrown w in
  (exists tail,
      messages (vars w')
      = messages (vars w) ++
        userMessageOf now (trim text) (vars w) :: tail)
  /\ messageQueue (vars w')
     = messageQueue (vars w) ++
       [{| item_text := trim text; item_resolve := calls w |}]
  /\ calls w' = S (calls w)
  /\ resolved w' = resolved w
  /\ hasInitialPrompt (vars w') = true
  /\ (isSessionActive (vars w) = true -> runs w' = runs w).
Proof.
  intros Hne.
  destruct (enqueueHead_messages now text (vars w) Hne)
    as (s & Hhead & Hm & Hq & Hh).
  pose proof (enqueueHead_flags _ _ _ _ Hhead) as (Eq & Ep & _).
  unfold enqueueUserMessage. rewrite Hhead. cbv zeta.
  assert (isSessionActive (vars (set_vars s w)) = isSessionActive (vars w))
    as Hact by (unfold isSessionActive; simpl; by rewrite Eq, Ep).
  destruct (isSessionActive (vars (set_vars s w))) eqn:Hact1.
  - simpl. rewrite Hm, Hq. repeat split; try done. by exists [].
  - unfold startStreamingSession. simpl.
    destruct (sessionTerminationPromise s) as [p|].
    + simpl. rewrite Hm, Hq. repeat split; try done; [by exists []|].
      intros Ht. by rewrite Ht in Hact.
    + unfold startRun. simpl.
      destruct (startHead (length (runs w)) s) as [s1|] eqn:Hs1.
      * assert (messages s1 = messages s /\ messageQueue s1 = messageQueue s
                /\ hasInitialPrompt s1 = hasInitialPrompt s) as (Hm1 & Hq1 & Hh1).
        { revert Hs1. unfold startHead, setSessionState.
          destruct (_ || _); [done|]. intros [= <-].
          by destruct (decide _). }
        destruct thrown as [e|]; simpl.
        -- unfold finishRun, sessionFinally, sessionCatch, handleMessageError,
             setSessionState. simpl.
           repeat (destruct (decide _); simpl);
             rewrite ?Hm1, ?Hq1, ?Hh1, ?Hm, ?Hq, ?Hh;
             (repeat split; try done; try (eexists; rewrite <- app_assoc; reflexivity));
             intros Ht; by rewrite Ht in Hact.
        -- rewrite Hm1, Hq1, Hh1, Hm, Hq, Hh.
           repeat split; try done; [by exists []|].
           intros Ht; by rewrite Ht in Hact.
      * simpl. rewrite Hm, Hq. repeat split; try done; [by exists []|].
        intros Ht; by rewrite Ht in Hact.
Qed.


Lemma control_hasInitialPrompt s s' :
  control s' = control s -> hasInitialPrompt s' = hasInitialPrompt s.
Proof. unfold control. by intros [=]. Qed.

Lemma step_keeps_flag w l w' :
  step w l = Some w' ->
  hasInitialPrompt (vars w) = true -> hasInitialPrompt (vars w') = true.
Proof.
  pose proof control_hasInitialPrompt as Hctl.
  assert (forall s, hasInitialPrompt (sessionFinally s) = hasInitialPrompt s)
    as Hfin.
  { intros s. unfold sessionFinally, setSessionState.
    destruct (decide _); [done|]. by destruct (decide _). }
  assert (forall i now thrown w0,
             hasInitialPrompt (vars (startRun i now thrown w0))
             = hasInitialPrompt (vars w0)) as Hstart.
  { intros i now thrown w0. unfold startRun.
    destruct (startHead i (vars w0)) as [s1|] eqn:Hs1; [|done].
    assert (hasInitialPrompt s1 = hasInitialPrompt (vars w0)) as H1.
    { revert Hs1. unfold startHead, setSessionState.
      destruct (_ || _); [done|]. intros [= <-]. by destruct (decide _). }
    destruct thrown as [e|]; simpl; [|done].
    by rewrite Hfin, (Hctl _ _ (control_sessionCatch now e s1)). }
  assert (forall now text thrown,
             hasInitialPrompt (vars (enqueueUserMessage now text thrown w))
             = hasInitialPrompt (vars w) || truthy (trim text)) as Henq.
  { intros now text thrown. unfold enqueueUserMessage, enqueueHead.
    destruct (truthy (trim text)); [|by rewrite orb_false_r].
    cbv zeta. set (s := broadcast _ _ _).
    assert (hasInitialPrompt s = true) as Hs.
    { subst s. unfold setSessionState.
      destruct (hasInitialPrompt (vars w)) eqn:Hh;
        destruct (decide _); simpl; done. }
    rewrite orb_true_r. destruct (isSessionActive _); [done|].
    simpl. unfold startStreamingSession.
    destruct (sessionTerminationPromise _); [done|].
    simpl. by rewrite Hstart. }
  intros Hstep Hflag.
  destruct l as [now text thrown|now body thrown|i now thrown|i|i|i now m
                |i|i now e| |k now ok]; simpl in Hstep.
  - injection Hstep as <-. by rewrite Henq, Hflag.
  - injection Hstep as <-. unfold chatSend. destruct body; [done|].
    destruct (truthy _); [|done]. simpl. by rewrite Henq, Hflag.
  - destruct (runs w !! i) as [[p|h|]|]; try done.
    destruct (bool_decide _); [|done]. injection Hstep as <-.
    by rewrite Hstart.
  - destruct (runs w !! i) as [[p|[r|]|]|]; try done.
    destruct (messageQueue (vars w)); [done|].
    destruct (shouldAbortSession (vars w)); [done|]. by injection Hstep as <-.
  - destruct (runs w !! i) as [[p|[r|]|]|]; try done. by injection Hstep as <-.
  - destruct (runs w !! i) as [[p|h|]|]; try done.
    destruct (shouldAbortSession _); injection Hstep as <-; simpl.
    + by rewrite Hfin, (Hctl _ _ (control_noteSdkMessage now m (vars w))).
    + by rewrite (Hctl _ _ (control_dispatchSdkMessage now m _)),
        (Hctl _ _ (control_noteSdkMessage now m (vars w))).
  - destruct (runs w !! i) as [[p|h|]|]; try done.
    injection Hstep as <-. simpl. by rewrite Hfin.
  - destruct (runs w !! i) as [[p|h|]|]; try done.
    injection Hstep as <-. simpl.
    by rewrite Hfin, (Hctl _ _ (control_sessionCatch now e (vars w))).
  - injection Hstep as <-. unfold interruptCurrentResponse.
    destruct (querySession (vars w)); [|done].
    by destruct (isInterruptingResponse (vars w)).
  - destruct (stops w !! k) as [[|]|]; try done. injection Hstep as <-.
    unfold interruptSettled. destruct ok; simpl; [|done].
    by rewrite (Hctl _ _ (control_handleMessageStopped now _)).
Qed.

(** C9.  Once [enqueueUserMessage] has been called with a text that is
    not blank, [getAgentState().hasInitialPrompt] is true, and it is
    true after every step taken from there. *)
Theorem seed_prompt_flag_stays (w w' : World) (now : Z) (text : string)
  (thrown : option Thrown) (ls : list Label) :
  trim text <> "" ->
  exec (enqueueUserMessage now text thrown w) ls = Some w' ->
  (getAgentState (vars (enqueueUserMessage now text thrown w))).2 = true
  /\ (getAgentState (vars w')).2 = true.
Proof.
  intros Hne Hex.
  destruct (enqueueUserMessage_effect now text thrown w Hne)
    as (_ & _ & _ & _ & Hflag & _).
  split; [done|]. unfold getAgentState. simpl.
  revert Hex Hflag. generalize (enqueueUserMessage now text thrown w).
  induction ls as [|l ls IH]; intros w0 Hex Hflag.
  - by injection Hex as <-.
  - simpl in Hex. destruct (step w0 l) as [w1|] eqn:Hstep; [|done].
    apply (IH w1 Hex). by eapply step_keeps_flag.
Qed.

(** The earlier revision: [enqueueUserMessage] of [agent-session.ts]
    leaves the flag as [initializeAgent] set it. *)
Lemma enqueue_first_leaves_flag now text thrown w :
  hasInitialPrompt (vars (enqueueUserMessage_first now text thrown w))
  = hasInitialPrompt (vars w).
Proof.
  assert (forall s, hasInitialPrompt (sessionFinally s) = hasInitialPrompt s)
    as Hfin.
  { intros s. unfold sessionFinally, setSessionState.
    destruct (decide _); [done|]. by destruct (decide _). }
  unfold enqueueUserMessage_first, enqueueHead_first.
  destruct (truthy (trim text)); [|done]. cbv zeta. unfold setSessionState.
  set (s := broadcast _ _ _).
  assert (hasInitialPrompt s = hasInitialPrompt (vars w)) as Hs
    by (subst s; by destruct (decide _)).
  clearbody s. destruct (isSessionActive _); [done|].
  simpl. unfold startStreamingSession.
  destruct (sessionTerminationPromise _); [done|]. simpl.
  unfold startRun. simpl.
  destruct (startHead _ s) as [s1|] eqn:Hs1; [|done].
  assert (hasInitialPrompt s1 = hasInitialPrompt s) as H1.
  { revert Hs1. unfold startHead, setSessionState.
    destruct (_ || _); [done|]. intros [= <-]. by destruct (decide _). }
  destruct thrown as [e|]; simpl; [|by rewrite H1].
  by rewrite Hfin, (control_hasInitialPrompt _ _
                      (control_sessionCatch now e s1)), H1.
Qed.


Lemma lookup_map_list {A B} (f : A -> B) (l : list A) (i : nat) :
  map f l !! i = f <$> l !! i.
Proof.
  revert i. induction l as [|x l IH]; intros [|i]; simpl; try done.
Qed.

Lemma isOpenThinking_stopBlock now b :
  isOpenThinking (stopBlock now b) = false.
Proof.
  unfold stopBlock, isOpenThinking.
  destruct (bool_decide (b_type b = T_thinking)) eqn:Ht; simpl.
  - destruct (nullish (b_isComplete b) false) eqn:Hc; simpl.
    + by rewrite Ht, Hc.
    + rewrite Ht. simpl. done.
  - by rewrite Ht.
Qed.

Lemma stopBlock_open now b :
  isOpenThinking b = true ->
  stopBlock now b = closeThinking (thinkingDuration now b) b.
Proof. unfold stopBlock, isOpenThinking. by intros ->. Qed.

Lemma handleMessageStopped_blocks now s m blocks :
  last (messages s) = Some m -> msg_role m = assistant ->
  msg_content m = CBlocks blocks ->
  lastBlocks (handleMessageStopped now s) = map (stopBlock now) blocks
  /\ isStreamingMessage (handleMessageStopped now s) = false
  /\ sessionState (handleMessageStopped now s) = idle.
Proof.
  intros Hlast Hrole Hcontent. unfold handleMessageStopped, lastBlocks.
  cbv zeta. set (s1 := setSessionState idle (set_isStreamingMessage false s)).
  assert (messages s1 = messages s /\ isStreamingMessage s1 = false
          /\ sessionState s1 = idle) as (Hm & Hs & Hst).
  { subst s1. unfold setSessionState. by destruct (decide _). }
  rewrite Hm, Hlast, Hrole, Hcontent. simpl.
  rewrite last_alterLast, Hlast. simpl. by rewrite Hs, Hst.
Qed.



End Reducer.

End ReducerFacts.

(** ** Sub-agent tool calls *)

Module SubagentFacts.
Import Js Session SseFacts SessionFacts WorldFacts ReducerFacts.

Section Subagents.
Context {host : Host}.

(** *** Which handlers write [childToolToParent] *)

Lemma parents_setSessionState st s :
  childToolToParent (setSessionState st s) = childToolToParent s.
Proof. unfold setSessionState. by destruct (decide _). Qed.

Lemma parents_ensureAssistantMessage now s :
  childToolToParent (ensureAssistantMessage now s) = childToolToParent s.
Proof.
  unfold ensureAssistantMessage. destruct (last (messages s)); [|done].
  by destruct (_ && _).
Qed.

Lemma parents_onContentArray now f s :
  childToolToParent (onContentArray now f s) = childToolToParent s.
Proof. unfold onContentArray. simpl. apply parents_ensureAssistantMessage. Qed.

Lemma parents_appendTextChunk now c s :
  childToolToParent (appendTextChunk now c s) = childToolToParent s.
Proof. unfold appendTextChunk. simpl. apply parents_ensureAssistantMessage. Qed.

Lemma parents_handleSubagentToolInputDelta p c d s :
  childToolToParent (handleSubagentToolInputDelta p c d s)
  = childToolToParent s.
Proof.
  unfold handleSubagentToolInputDelta. by destruct (findToolBlockById p s).
Qed.

Lemma parents_finalizeSubagentToolInput p c s :
  childToolToParent (finalizeSubagentToolInput p c s) = childToolToParent s.
Proof.
  unfold finalizeSubagentToolInput. by destruct (findToolBlockById p s).
Qed.

Lemma parents_setToolResult id c e s :
  childToolToParent (setToolResult id c e s) = childToolToParent s.
Proof. unfold setToolResult. by destruct (findToolBlockById id s). Qed.

Lemma parents_handleToolResultStart id c e s :
  childToolToParent (handleToolResultStart id c e s) = childToolToParent s.
Proof.
  unfold handleToolResultStart, handleSubagentToolResultStart.
  destruct (findSubagentCall id s); [done|]. apply parents_setToolResult.
Qed.

Lemma parents_handleToolResultComplete id c e s :
  childToolToParent (handleToolResultComplete id c e s)
  = childToolToParent s.
Proof.
  unfold handleToolResultComplete, handleSubagentToolResultComplete.
  destruct (findSubagentCall id s); [done|]. apply parents_setToolResult.
Qed.

Lemma parents_appendToolResultDelta id d s :
  childToolToParent (appendToolResultDelta id d s) = childToolToParent s.
Proof.
  unfold appendToolResultDelta, appendSubagentToolResultDelta.
  destruct (findSubagentCall id s); [done|].
  by destruct (findToolBlockById id s).
Qed.

Lemma parents_finalizeSubagentToolResult id s :
  childToolToParent (finalizeSubagentToolResult id s).2 = childToolToParent s.
Proof.
  unfold finalizeSubagentToolResult. by destruct (findSubagentCall id s).
Qed.

(** The two handlers that write the table write one entry. *)
Lemma parents_handleSubagentToolUseStart p id name input si s :
  childToolToParent (handleSubagentToolUseStart p id name input si s)
  = childToolToParent s
  \/ childToolToParent (handleSubagentToolUseStart p id name input si s)
     = <[id := p]> (childToolToParent s).
Proof.
  unfold handleSubagentToolUseStart.
  destruct (findToolBlockById p s); [by right|by left].
Qed.

Lemma parents_ensureSubagentToolPlaceholder p c s :
  childToolToParent (ensureSubagentToolPlaceholder p c s)
  = childToolToParent s
  \/ childToolToParent (ensureSubagentToolPlaceholder p c s)
     = <[c := p]> (childToolToParent s).
Proof.
  unfold ensureSubagentToolPlaceholder.
  destruct (findToolBlockById p s); [|by left].
  destruct (findIndex _ _); [by left|by right].
Qed.

(** A tool result leaves the parent of a child that has one alone. *)
Lemma parents_announceResult se e id p f s child q :
  childToolToParent s !! child = Some q ->
  childToolToParent (announceResult se e id p f s) !! child = Some q.
Proof.
  intros Hq. unfold announceResult. destruct (truthyOpt _); [|done].
  change (childToolToParent (broadcast ?a ?b ?s0)) with (childToolToParent s0).
  destruct (bool_decide (is_Some (childToolToParent s !! id))) eqn:Hknown;
    [done|].
  apply bool_decide_eq_false in Hknown.
  destruct (parents_ensureSubagentToolPlaceholder (nullish (parentOf id p s) "")
              id s) as [-> | ->]; [done|].
  rewrite lookup_insert_ne; [done|]. intros ->. apply Hknown. eauto.
Qed.

Lemma parents_userBlock p s b child q :
  childToolToParent s !! child = Some q ->
  childToolToParent (userBlock p s b) !! child = Some q.
Proof.
  intros Hq. unfold userBlock. destruct (_ && _); [|done].
  rewrite parents_handleToolResultComplete. by apply parents_announceResult.
Qed.

Lemma parents_assistantResultBlock p s b child q :
  childToolToParent s !! child = Some q ->
  childToolToParent (assistantResultBlock p s b) !! child = Some q.
Proof.
  intros Hq. unfold assistantResultBlock. destruct (_ && _); [|done].
  rewrite parents_handleToolResultComplete. by apply parents_announceResult.
Qed.

Lemma parents_foldl {A} (f : State -> A -> State) (l : list A) s child q :
  (forall s x, childToolToParent s !! child = Some q ->
               childToolToParent (f s x) !! child = Some q) ->
  childToolToParent s !! child = Some q ->
  childToolToParent (foldl f s l) !! child = Some q.
Proof.
  intros Hf. revert s. induction l as [|x l IH]; intros s Hq; [done|].
  simpl. apply IH. by apply Hf.
Qed.

(** A tool-use block of an assistant message under [p] leaves the parent
    of [child] alone, or it declares [child] and writes [p]. *)
Lemma parents_assistantToolUseBlock p s b child q :
  childToolToParent s !! child = Some q ->
  childToolToParent (assistantToolUseBlock p s b) !! child = Some q
  \/ (isObject b && hasProp "type" b && propIs "type" "tool_use" b
      && hasProp "id" b && hasProp "name" b
      && String.eqb (toStr (getProp "id" b)) child = true
      /\ childToolToParent (assistantToolUseBlock p s b) !! child = Some p).
Proof.
  intros Hq. unfold assistantToolUseBlock.
  destruct (isObject b && hasProp "type" b && propIs "type" "tool_use" b
            && hasProp "id" b && hasProp "name" b) eqn:Hb; [|by left].
  cbv zeta.
  match goal with
  | |- context [handleSubagentToolUseStart ?p0 ?id ?n ?i ?si ?s0] =>
      destruct (parents_handleSubagentToolUseStart p0 id n i si s0)
        as [-> | ->]
  end; [by left|].
  change (childToolToParent (broadcast ?a ?b0 ?s0))
    with (childToolToParent s0).
  destruct (String.eqb (toStr (getProp "id" b)) child) eqn:Heq.
  - apply String.eqb_eq in Heq as ->. right. split; [done|].
    by rewrite lookup_insert_eq.
  - apply String.eqb_neq in Heq. left. by rewrite lookup_insert_ne.
Qed.

Lemma parents_assistantToolUse_foldl p (blocks : list JsVal) s child q :
  childToolToParent s !! child = Some q ->
  childToolToParent (foldl (assistantToolUseBlock p) s blocks) !! child
  = Some q
  \/ (existsb
        (fun b =>
           isObject b && hasProp "type" b && propIs "type" "tool_use" b
           && hasProp "id" b && hasProp "name" b
           && String.eqb (toStr (getProp "id" b)) child) blocks = true
      /\ childToolToParent (foldl (assistantToolUseBlock p) s blocks)
         !! child = Some p).
Proof.
  revert s q. induction blocks as [|b blocks IH]; intros s q Hq; [by left|].
  simpl.
  destruct (parents_assistantToolUseBlock p s b child q Hq) as [Hb|[Hb Hp]].
  - destruct (IH _ _ Hb) as [?|[He ?]]; [by left|right].
    split; [|done]. by rewrite He, orb_true_r.
  - destruct (IH _ _ Hp) as [?|[He ?]]; right;
      (split; [by rewrite Hb|done]).
Qed.


(** *** Finding a tool block, and what an update of a tool leaves of it *)

Lemma alter_cons_0 {A} (h : A -> A) (x : A) (l : list A) :
  alter h 0 (x :: l) = h x :: l.
Proof. reflexivity. Qed.

Lemma alter_cons_S {A} (h : A -> A) (j : nat) (x : A) (l : list A) :
  alter h (S j) (x :: l) = x :: alter h j l.
Proof. reflexivity. Qed.

Lemma findIndex_alter {A} (p : A -> bool) (h : A -> A) (j : nat)
  (l : list A) :
  (forall x, p (h x) = p x) -> findIndex p (alter h j l) = findIndex p l.
Proof.
  intros Hp. revert j. induction l as [|x l IH]; intros j; [done|].
  destruct j as [|j].
  - rewrite alter_cons_0. cbn [findIndex]. by rewrite Hp.
  - rewrite alter_cons_S. cbn [findIndex]. by rewrite IH.
Qed.

Lemma findIndex_Some {A} (p : A -> bool) (l : list A) (j : nat) :
  findIndex p l = Some j -> exists x, l !! j = Some x /\ p x = true.
Proof.
  revert j. induction l as [|x l IH]; intros j; [done|]. simpl.
  destruct (p x) eqn:Hx.
  - intros [= <-]. by exists x.
  - destruct (findIndex p l) as [k|]; [|done]. intros [= <-]. by apply IH.
Qed.

Lemma findIndex_snoc {A} (p : A -> bool) (l : list A) (x : A) :
  findIndex p l = None ->
  findIndex p (l ++ [x]) = if p x then Some (length l) else None.
Proof.
  induction l as [|y l IH]; simpl.
  - intros _. by destruct (p x).
  - destruct (p y); [done|]. destruct (findIndex p l); [done|].
    intros _. rewrite IH by done. by destruct (p x).
Qed.

Lemma alter_snoc_last {A} (g : A -> A) (l : list A) (x : A) :
  alter g (length l) (l ++ [x]) = l ++ [g x].
Proof.
  replace (length l) with (length l + 0) by lia. by rewrite alter_app_r.
Qed.

(** The update [alterToolAt] makes to a message. *)
Local Abbreviation toolEdit j f :=
  (fun m : MessageWire =>
     match msg_content m with
     | CBlocks blocks =>
         setContent
           (CBlocks (alter (fun b => setTool (f <$> b_tool b) b) j blocks)) m
     | CText _ => m
     end).

Lemma isToolBlock_setTool id (f : ToolUseState -> ToolUseState) b :
  (forall t, tool_id (f t) = tool_id t) ->
  isToolBlock id (setTool (f <$> b_tool b) b) = isToolBlock id b.
Proof.
  intros Hf. unfold isToolBlock. simpl.
  destruct (b_tool b) as [t|]; simpl; [|done]. by rewrite Hf.
Qed.

Lemma findToolFrom_alter id i k j (f : ToolUseState -> ToolUseState)
  (ms : list MessageWire) :
  (forall t, tool_id (f t) = tool_id t) ->
  findToolFrom id i (alter (toolEdit j f) k ms) = findToolFrom id i ms.
Proof.
  intros Hf. revert i k. induction ms as [|m ms IH]; intros i k; [done|].
  destruct k as [|k].
  - rewrite alter_cons_0. cbn [findToolFrom].
    destruct (findToolFrom id (S i) ms); [done|].
    destruct (msg_content m) as [t|blocks] eqn:Hc; [by rewrite Hc|].
    cbn [setContent msg_role msg_content].
    destruct (msg_role m); [done|].
    rewrite (findIndex_alter (isToolBlock id)); [done|].
    intros b. by apply isToolBlock_setTool.
  - rewrite alter_cons_S. cbn [findToolFrom]. by rewrite IH.
Qed.

Lemma findToolBlockById_alterToolAt id loc f s :
  (forall t, tool_id (f t) = tool_id t) ->
  findToolBlockById id (alterToolAt loc f s) = findToolBlockById id s.
Proof. intros Hf. unfold findToolBlockById. simpl. by apply findToolFrom_alter. Qed.

Lemma toolAt_alterToolAt loc f s :
  toolAt loc (alterToolAt loc f s) = f <$> toolAt loc s.
Proof.
  unfold toolAt, alterToolAt. simpl. rewrite list_lookup_alter_eq.
  destruct (messages s !! loc.1) as [m|]; simpl; [|done].
  destruct (msg_content m) as [t|blocks] eqn:Hc; simpl; [by rewrite Hc|].
  rewrite list_lookup_alter_eq. by destruct (blocks !! loc.2) as [b|].
Qed.

Lemma findToolFrom_Some id i ms a j :
  findToolFrom id i ms = Some (a, j) ->
  exists m blocks b t,
    i <= a /\ ms !! (a - i) = Some m /\ msg_content m = CBlocks blocks
    /\ blocks !! j = Some b /\ b_tool b = Some t.
Proof.
  revert i. induction ms as [|m ms IH]; intros i; [done|]. simpl.
  destruct (findToolFrom id (S i) ms) as [[a' j']|] eqn:Hrest.
  - intros [= -> ->].
    destruct (IH _ Hrest) as (m' & blocks & b & t & Hle & Hm & Hrest').
    exists m', blocks, b, t. split; [lia|]. split; [|done].
    replace (a - i) with (S (a - S i)) by lia. done.
  - destruct (msg_role m); [done|].
    destruct (msg_content m) as [?|blocks] eqn:Hc; [done|].
    destruct (findIndex (isToolBlock id) blocks) as [j'|] eqn:Hj; [|done].
    intros [= <- <-]. apply findIndex_Some in Hj as (b & Hb & Hp).
    unfold isToolBlock in Hp. apply andb_true_iff in Hp as [_ Hp].
    destruct (b_tool b) as [t|] eqn:Ht; [|done].
    exists m, blocks, b, t. rewrite Nat.sub_diag. by repeat split.
Qed.

Lemma findToolBlockById_toolAt id s loc :
  findToolBlockById id s = Some loc -> is_Some (toolAt loc s).
Proof.
  destruct loc as [a j]. intros Hf.
  apply findToolFrom_Some in Hf as (m & blocks & b & t & _ & Hm & Hc & Hb & Ht).
  rewrite Nat.sub_0_r in Hm. unfold toolAt. simpl.
  rewrite Hm. simpl. rewrite Hc, Hb. simpl. eauto.
Qed.


(** *** A sub-agent entry filed under its parent *)

Lemma isCall_refl c entry : call_id entry = c -> isCall c entry = true.
Proof. intros <-. unfold isCall. apply String.eqb_refl. Qed.

Lemma filed_findSubagentCall s P c loc calls0 entry :
  truthy P = true -> filed s P c loc calls0 entry ->
  findSubagentCall c s = Some (loc, length calls0).
Proof.
  unfold filed.
  intros HP (Hmap & Hfind & Hcalls & Hnone & Hid). unfold findSubagentCall.
  rewrite Hmap. simpl. rewrite HP, Hfind. simpl. rewrite Hcalls. simpl.
  rewrite findIndex_snoc by done. by rewrite isCall_refl.
Qed.

Lemma filed_subagentCall s P c loc calls0 entry :
  filed s P c loc calls0 entry -> subagentCall P c s = Some entry.
Proof.
  unfold filed.
  intros (Hmap & Hfind & Hcalls & Hnone & Hid).
  unfold subagentCall, subagentCallsOf. rewrite Hfind, Hcalls. simpl.
  rewrite findIndex_snoc by done. rewrite isCall_refl by done. simpl.
  by rewrite lookup_app_r, Nat.sub_diag.
Qed.

(** Assignments to the transcript that keep the messages and the table
    keep the filing. *)
Lemma filed_frame s s' P c loc calls0 entry :
  messages s' = messages s -> childToolToParent s' = childToolToParent s ->
  filed s P c loc calls0 entry -> filed s' P c loc calls0 entry.
Proof.
  unfold filed.
  intros Hm Hp (Hmap & Hfind & Hcalls & Hnone & Hid).
  unfold findToolBlockById, toolAt in *. rewrite Hm, Hp. done.
Qed.

(** An update of the entry that keeps its id. *)
Lemma filed_alterCallAt s P c loc calls0 entry g :
  call_id (g entry) = call_id entry ->
  filed s P c loc calls0 entry ->
  filed (alterCallAt (loc, length calls0) g s) P c loc calls0 (g entry).
Proof.
  unfold filed.
  intros Hg (Hmap & Hfind & Hcalls & Hnone & Hid). unfold alterCallAt.
  cbn [fst snd]. split; [done|]. split.
  { rewrite findToolBlockById_alterToolAt; done. }
  split.
  { rewrite toolAt_alterToolAt.
    destruct (toolAt loc s) as [t|]; [|done]. simpl in *.
    rewrite Hcalls. simpl. by rewrite alter_snoc_last. }
  split; [done|]. by rewrite Hg.
Qed.

Lemma filed_handleToolResultStart s P c loc calls0 entry content isError :
  truthy P = true -> filed s P c loc calls0 entry ->
  filed (handleToolResultStart c content isError s) P c loc calls0
    (setCallIsLoading (Some true)
       (setCallIsError (Some isError) (setCallResult (Some content) entry))).
Proof.
  unfold filed.
  intros HP Hf. unfold handleToolResultStart, handleSubagentToolResultStart.
  rewrite (filed_findSubagentCall _ _ _ _ _ _ HP Hf).
  by apply (filed_alterCallAt s P c loc calls0 entry
              (fun c0 => setCallIsLoading (Some true)
                 (setCallIsError (Some isError)
                    (setCallResult (Some content) c0)))).
Qed.

Lemma filed_handleToolResultComplete s P c loc calls0 entry content :
  truthy P = true -> filed s P c loc calls0 entry ->
  filed (handleToolResultComplete c content None s) P c loc calls0
    (setCallIsLoading (Some false) (setCallResult (Some content) entry)).
Proof.
  unfold filed.
  intros HP Hf.
  unfold handleToolResultComplete, handleSubagentToolResultComplete.
  rewrite (filed_findSubagentCall _ _ _ _ _ _ HP Hf).
  by apply (filed_alterCallAt s P c loc calls0 entry
              (fun c0 => setCallIsLoading (Some false)
                           (setCallResult (Some content) c0))).
Qed.

Lemma filed_appendToolResultDelta s P c loc calls0 entry delta :
  truthy P = true -> filed s P c loc calls0 entry ->
  filed (appendToolResultDelta c delta s) P c loc calls0
    (setCallIsLoading (Some true)
       (setCallResult (Some (nullish (call_result entry) "" +:+ delta))
          entry)).
Proof.
  unfold filed.
  intros HP Hf. unfold appendToolResultDelta, appendSubagentToolResultDelta.
  rewrite (filed_findSubagentCall _ _ _ _ _ _ HP Hf).
  by apply (filed_alterCallAt s P c loc calls0 entry
              (fun c0 => setCallIsLoading (Some true)
                 (setCallResult
                    (Some (nullish (call_result c0) "" +:+ delta)) c0))).
Qed.

(** The placeholder: announcing a result for a child the table does not
    know, under a parent whose tool block is there, files the
    placeholder. *)
Lemma filed_announceResult se e c P fields s loc :
  truthy P = true ->
  findToolBlockById P s = Some loc ->
  childToolToParent s !! c = None ->
  subagentCall P c s = None ->
  filed (announceResult se e c (Some P) fields s) P c loc
    (subagentCallsOf P s) (placeholderCall c).
Proof.
  intros HP Hfind Hmap Hnone. unfold announceResult, parentOf.
  rewrite Hmap. cbn [truthyOpt nullish]. rewrite HP.
  rewrite bool_decide_eq_false_2 by (by intros [? ?]).
  apply (filed_frame (ensureSubagentToolPlaceholder P c s)); [done|done|].
  unfold filed, ensureSubagentToolPlaceholder. rewrite Hfind.
  unfold subagentCall, subagentCallsOf in *. rewrite Hfind in *.
  set (calls := nullish (toolAt loc s ≫= tool_subagentCalls) []) in *.
  destruct (findIndex (isCall c) calls) as [k|] eqn:Hk.
  { simpl in Hnone. apply findIndex_Some in Hk as (x & Hx & _).
    by rewrite Hx in Hnone. }
  split; [by simpl; rewrite lookup_insert_eq|].
  split; [by rewrite findToolBlockById_alterToolAt|].
  split; [|done].
  rewrite toolAt_alterToolAt.
  destruct (findToolBlockById_toolAt _ _ _ Hfind) as [t Ht].
  change (toolAt loc (set_childToolToParent ?m s)) with (toolAt loc s).
  by rewrite Ht.
Qed.


Lemma filed_noteSdkMessage now m s P c loc calls0 entry :
  filed s P c loc calls0 entry ->
  filed (noteSdkMessage now m s) P c loc calls0 entry.
Proof.
  destruct (noteSdkMessage_transcript now m s) as (Hm & _ & Hp).
  by apply filed_frame.
Qed.

(** A tool-result delta for a filed child goes to its entry. *)
Lemma filed_delta now index text s P c loc calls0 entry :
  truthy P = true -> truthy c = true -> filed s P c loc calls0 entry ->
  filed
    (dispatchSdkMessage now
       (stream_event (Some c) (content_block_delta index (text_delta text)))
       s)
    P c loc calls0
    (setCallIsLoading (Some true)
       (setCallResult (Some (nullish (call_result entry) "" +:+ text))
          entry)).
Proof.
  intros HP Hc Hf. cbn [dispatchSdkMessage onDelta truthyOpt nullish].
  rewrite Hc. apply filed_appendToolResultDelta; [done|].
  destruct (childToolToParent s !! c) as [q|]; [destruct (truthy q)|];
    by apply (filed_frame s).
Qed.

Lemma filed_deltas deltas s P c loc calls0 entry r :
  truthy P = true -> truthy c = true -> filed s P c loc calls0 entry ->
  call_result entry = Some r ->
  exists entry',
    filed (consume s (resultDeltaEvents c deltas)) P c loc calls0 entry'
    /\ call_result entry' = Some (r +:+ concatTexts deltas)
    /\ call_name entry' = call_name entry
    /\ call_input entry' = call_input entry
    /\ call_inputJson entry' = call_inputJson entry
    /\ call_isError entry' = call_isError entry
    /\ (deltas <> [] -> call_isLoading entry' = Some true).
Proof.
  intros HP Hc. revert s entry r.
  induction deltas as [|[[now index] text] deltas IH]; intros s entry r Hf Hr.
  - exists entry. simpl. rewrite app_empty_r.
    split; [exact Hf|]. by repeat split.
  - cbn [resultDeltaEvents map consume foldl fst snd].
    pose proof (filed_delta now index text _ _ _ _ _ _ HP Hc
                  (filed_noteSdkMessage now
                     (stream_event (Some c)
                        (content_block_delta index (text_delta text)))
                     _ _ _ _ _ _ Hf)) as Hf1.
    destruct (IH _ _ (r +:+ text) Hf1) as (entry' & Hf' & Hr' & Hn & Hi & Hj & He & Hl).
    { simpl. by rewrite Hr. }
    exists entry'. split; [exact Hf'|]. split.
    { rewrite Hr'. simpl. by rewrite app_assoc_s. }
    repeat split; try done.
    intros _. destruct deltas as [|d deltas]; [|by apply Hl].
    destruct Hf' as (_ & _ & Hcalls' & _). destruct Hf1 as (_ & _ & Hcalls1 & _).
    cbn [resultDeltaEvents map consume foldl] in Hcalls'.
    rewrite Hcalls1 in Hcalls'.
    injection Hcalls' as Heq. apply app_inj_tail in Heq as [_ <-]. done.
Qed.

(** A tool-result start under a known parent files the placeholder and
    stores the content on it. *)
Lemma filed_start now index content is_error s P c loc :
  truthy P = true ->
  findToolBlockById P s = Some loc ->
  childToolToParent s !! c = None ->
  subagentCall P c s = None ->
  truthy (startedResultText content) = true ->
  filed
    (dispatchSdkMessage now (resultStartEvent (Some P) index c content is_error)
       s)
    P c loc (subagentCallsOf P s)
    (setCallIsLoading (Some true)
       (setCallIsError (Some (nullish is_error false))
          (setCallResult (Some (startedResultText content))
             (placeholderCall c)))).
Proof.
  intros HP Hfind Hmap Hnone Htext.
  cbn [dispatchSdkMessage resultStartEvent onBlockStart]. rewrite Htext.
  apply filed_handleToolResultStart; [done|].
  by apply (filed_announceResult _ _ c P _
              (set_toolResultIndexToId
                 (<[index := c]> (toolResultIndexToId s)) s) loc).
Qed.

(** A tool-result complete under a known parent files the placeholder and
    stores the content on it. *)
Lemma filed_complete now content s P c loc :
  truthy P = true ->
  findToolBlockById P s = Some loc ->
  childToolToParent s !! c = None ->
  subagentCall P c s = None ->
  filed (dispatchSdkMessage now (resultCompleteEvent (Some P) c content) s)
    P c loc (subagentCallsOf P s)
    (setCallIsLoading (Some false)
       (setCallResult (Some (userResultText content)) (placeholderCall c))).
Proof.
  intros HP Hfind Hmap Hnone.
  cbn [dispatchSdkMessage resultCompleteEvent truthyOpt truthyVal blocksOf].
  rewrite HP. cbn [andb foldl]. unfold userBlock.
  change (isObject _ && hasProp "type" _ && propIs "type" "tool_result" _
          && hasProp "tool_use_id" _) with true.
  cbv iota zeta.
  change (toStr (getProp "tool_use_id" _)) with c.
  change (getProp "content" _) with content.
  apply filed_handleToolResultComplete; [done|].
  by apply filed_announceResult.
Qed.

(** Without a parent whose tool block is there, a tool-result start for
    a tool that was never started changes neither the transcript nor the
    table. *)
Lemma dropped_start now index content is_error s c parent :
  childToolToParent s !! c = None ->
  findToolBlockById c s = None ->
  (truthyOpt parent = false
   \/ findToolBlockById (nullish parent "") s = None) ->
  let s' :=
    dispatchSdkMessage now (resultStartEvent parent index c content is_error)
      s in
  messages s' = messages s /\ childToolToParent s' = childToolToParent s.
Proof.
  intros Hmap Hfind Hparent.
  cbn [dispatchSdkMessage resultStartEvent onBlockStart]. cbv zeta.
  destruct (truthy (startedResultText content)); [|done].
  set (s0 := set_toolResultIndexToId _ s).
  assert (messages (announceResult "chat:subagent-tool-result-start"
                      "chat:tool-result-start" c parent
                      [("content", Jstr (startedResultText content));
                       ("isError", Jbool (nullish is_error false))] s0)
          = messages s
          /\ childToolToParent
               (announceResult "chat:subagent-tool-result-start"
                  "chat:tool-result-start" c parent
                  [("content", Jstr (startedResultText content));
                   ("isError", Jbool (nullish is_error false))] s0)
             = childToolToParent s) as [Hm Hp].
  { unfold announceResult, parentOf.
    change (childToolToParent s0) with (childToolToParent s).
    rewrite Hmap. destruct (truthyOpt parent) eqn:Ht; [|done].
    destruct Hparent as [?|Hnone]; [done|].
    rewrite bool_decide_eq_false_2 by (by intros [? ?]).
    unfold ensureSubagentToolPlaceholder.
    change (findToolBlockById ?p s0) with (findToolBlockById p s).
    by rewrite Hnone. }
  set (s1 := announceResult _ _ _ _ _ _) in *.
  unfold handleToolResultStart, handleSubagentToolResultStart,
    findSubagentCall, setToolResult.
  rewrite Hp, Hmap. simpl. unfold findToolBlockById in *.
  rewrite Hm, Hfind. done.
Qed.

(** A tool-result delta for a tool that was never started, and has no
    entry, changes neither the transcript nor the table. *)
Lemma dropped_delta now index text s c :
  truthy c = true ->
  childToolToParent s !! c = None ->
  findToolBlockById c s = None ->
  let s' :=
    dispatchSdkMessage now
      (stream_event (Some c) (content_block_delta index (text_delta text)))
      s in
  messages s' = messages s /\ childToolToParent s' = childToolToParent s.
Proof.
  intros Hc Hmap Hfind.
  cbn [dispatchSdkMessage onDelta truthyOpt nullish]. rewrite Hc, Hmap.
  cbv zeta. unfold appendToolResultDelta, appendSubagentToolResultDelta,
    findSubagentCall.
  change (childToolToParent (broadcast ?a ?b s)) with (childToolToParent s).
  rewrite Hmap. simpl.
  change (findToolBlockById c (broadcast ?a ?b s))
    with (findToolBlockById c s).
  by rewrite Hfind.
Qed.

Lemma dropped_deltas deltas s c :
  truthy c = true ->
  childToolToParent s !! c = None ->
  findToolBlockById c s = None ->
  messages (consume s (resultDeltaEvents c deltas)) = messages s
  /\ childToolToParent (consume s (resultDeltaEvents c deltas))
     = childToolToParent s.
Proof.
  intros Hc. revert s.
  induction deltas as [|[[now index] text] deltas IH]; intros s Hmap Hfind;
    [done|].
  cbn [resultDeltaEvents map consume foldl fst snd].
  destruct (noteSdkMessage_transcript now
              (stream_event (Some c)
                 (content_block_delta index (text_delta text))) s)
    as (Hm0 & _ & Hp0).
  destruct (dropped_delta now index text
              (noteSdkMessage now
                 (stream_event (Some c)
                    (content_block_delta index (text_delta text))) s) c Hc)
    as [Hm1 Hp1].
  { by rewrite Hp0. }
  { unfold findToolBlockById in *. by rewrite Hm0. }
  set (m := stream_event (Some c)
              (content_block_delta index (text_delta text))) in *.
  destruct (IH (dispatchSdkMessage now m (noteSdkMessage now m s)))
    as [Hm2 Hp2].
  { by rewrite Hp1, Hp0. }
  { unfold findToolBlockById in *. by rewrite Hm1, Hm0. }
  split.
  - etrans; [exact Hm2|]. by rewrite Hm1.
  - etrans; [exact Hp2|]. by rewrite Hp1.
Qed.


Lemma parents_onDelta now p i d s :
  childToolToParent (onDelta now p i d s) = childToolToParent s.
Proof.
  destruct d as [t|t|j|]; cbn [onDelta]; [| | |done].
  - cbv zeta. destruct (truthyOpt p).
    + rewrite parents_appendToolResultDelta.
      destruct (childToolToParent s !! _) as [q|]; [|done].
      by destruct (truthy q).
    + by rewrite parents_appendTextChunk.
  - unfold handleThinkingChunk. by rewrite parents_onContentArray.
  - cbv zeta. destruct (truthyOpt p).
    + by rewrite parents_handleSubagentToolInputDelta.
    + unfold handleToolInputDelta. by rewrite parents_onContentArray.
Qed.

Lemma parents_onBlockStop now p i s :
  childToolToParent (onBlockStop now p i s) = childToolToParent s.
Proof.
  unfold onBlockStop. destruct (truthyOpt p).
  - set (s1 := if truthyOpt (streamIndexToToolId s !! i) then _ else s).
    assert (childToolToParent s1 = childToolToParent s) as H1.
    { subst s1. destruct (truthyOpt _); [|done].
      apply parents_finalizeSubagentToolInput. }
    destruct (truthyOpt (toolResultIndexToId s1 !! i)); [|exact H1].
    match goal with
    | |- context [finalizeSubagentToolResult ?id ?s0] =>
        pose proof (parents_finalizeSubagentToolResult id s0) as H2;
        destruct (finalizeSubagentToolResult id s0) as [[] s2]
    end; cbn [snd] in H2; [|by rewrite H2].
    cbv zeta. destruct (truthyOpt (childToolToParent s2 !! _));
      [change (childToolToParent (broadcast ?a ?b s2))
         with (childToolToParent s2)|]; by rewrite H2.
  - unfold handleContentBlockStop. by rewrite parents_onContentArray.
Qed.

(** One message of the loop leaves the parent of a child that has one
    alone, unless it declares the child as a tool use of a sub-agent: then
    the parent is the one the message names. *)
Lemma parents_dispatchSdkMessage now m s child q :
  childToolToParent s !! child = Some q ->
  childToolToParent (dispatchSdkMessage now m s) !! child = Some q
  \/ exists p, namesToolUse m child = Some p
               /\ childToolToParent (dispatchSdkMessage now m s) !! child
                  = Some p.
Proof.
  intros Hq.
  destruct m as [p ev|p c|p c| |]; cbn [dispatchSdkMessage]; [| | | |by left].
  - destruct ev as [i d|i b|i|]; [| | |by left].
    + left. by rewrite parents_onDelta.
    + destruct b as [|id name input|id c e|]; cbn [onBlockStart];
        [| | |by left].
      * left. unfold handleThinkingStart. by rewrite parents_onContentArray.
      * cbv zeta. destruct p as [p|]; cbn [truthyOpt nullish namesToolUse];
          [|left; unfold handleToolUseStart; by rewrite parents_onContentArray].
        destruct (truthy p) eqn:Hp; cbn [andb];
          [|left; unfold handleToolUseStart; by rewrite parents_onContentArray].
        match goal with
        | |- context [handleSubagentToolUseStart ?p0 ?id0 ?n ?i0 ?si ?s0] =>
            destruct (parents_handleSubagentToolUseStart p0 id0 n i0 si s0)
              as [-> | ->]
        end; [by left|].
        change (childToolToParent (broadcast ?a ?b0 ?s0))
          with (childToolToParent s0).
        change (childToolToParent (set_streamIndexToToolId ?a s))
          with (childToolToParent s).
        destruct (String.eqb id child) eqn:Heq.
        -- apply String.eqb_eq in Heq as ->. right. exists p.
           split; [done|]. by rewrite lookup_insert_eq.
        -- apply String.eqb_neq in Heq. left. by rewrite lookup_insert_ne.
      * left. cbv zeta. destruct (truthy _); [|done].
        rewrite parents_handleToolResultStart.
        by apply parents_announceResult.
    + left. by rewrite parents_onBlockStop.
  - left. destruct (_ && _); [|done].
    apply parents_foldl; [|done]. intros. by apply parents_userBlock.
  - set (s1 := if truthyOpt p && truthyVal c then _ else s).
    assert (childToolToParent s1 !! child = Some q
            \/ exists p', namesToolUse (assistant_message p c) child = Some p'
                          /\ childToolToParent s1 !! child = Some p') as H1.
    { subst s1. destruct p as [p|]; [|by left]. cbn [truthyOpt nullish].
      destruct (truthy p) eqn:Hp; [|by left]. cbn [andb].
      destruct (truthyVal c) eqn:Hc; [|by left].
      destruct (parents_assistantToolUse_foldl p (blocksOf c) s child q Hq)
        as [?|[He Hp']]; [by left|right].
      exists p. cbn [namesToolUse]. rewrite Hp, Hc. cbn [andb].
      by rewrite He. }
    set (s2 := if truthyOpt p then _ else s1).
    assert (childToolToParent s2 = childToolToParent s1) as H2.
    { subst s2. destruct (truthyOpt p); [|done]. destruct (truthy _); [|done].
      unfold appendToolResultContent.
      change (childToolToParent (broadcast ?a ?b0 ?s0))
        with (childToolToParent s0).
      by rewrite parents_setToolResult. }
    clearbody s1 s2.
    assert (forall q', childToolToParent s2 !! child = Some q' ->
              childToolToParent
                (if truthyVal c
                 then foldl (assistantResultBlock p) s2 (blocksOf c)
                 else s2) !! child = Some q') as H3.
    { intros q' Hq'. destruct (truthyVal c); [|done].
      apply parents_foldl; [|done]. intros. by apply parents_assistantResultBlock. }
    destruct H1 as [H1|(p' & Hn & H1)].
    + left. apply H3. by rewrite H2.
    + right. exists p'. split; [done|]. apply H3. by rewrite H2.
  - left. unfold handleMessageComplete. by rewrite parents_setSessionState.
Qed.

Lemma consume_cons s now m events :
  consume s ((now, m) :: events)
  = consume (dispatchSdkMessage now m (noteSdkMessage now m s)) events.
Proof. reflexivity. Qed.


Lemma frame_lookups s s' P c :
  messages s' = messages s ->
  findToolBlockById P s' = findToolBlockById P s
  /\ subagentCallsOf P s' = subagentCallsOf P s
  /\ subagentCall P c s' = subagentCall P c s.
Proof.
  intros Hm. unfold subagentCall, subagentCallsOf, findToolBlockById, toolAt.
  by rewrite Hm.
Qed.



End Subagents.

End SubagentFacts.

(** ** The properties at work *)

Module Examples.
Import Js Session SseFacts SessionFacts WorldFacts ReducerFacts SubagentFacts.

Lemma sampleWorld_reachable : reachable (host := sampleHost) sampleWorld.
Proof. apply (reach_init (host := sampleHost)). Qed.


(** Two deltas, [Hel] and [lo], make [Hello]. *)
Lemma text_deltas_concatenate_witness :
  exists w',
    exec (host := sampleHost) sampleWorld
      (textDeltaSteps 0 [(1001, 0, "Hel"); (1002, 0, "lo")]%Z) = Some w'
    /\ openText (vars w') = "Hello".
Proof.
  eexists. split; [vm_compute; reflexivity|].
  eapply (text_deltas_concatenate (host := sampleHost) sampleWorld _ 0
            [(1001, 0, "Hel"); (1002, 0, "lo")]%Z).
  - apply (reach_init (host := sampleHost)).
  - vm_compute. reflexivity.
  - reflexivity.
Defined.

(** The stream of the sample session raises [boom]. *)
Lemma runtime_error_becomes_message_witness :
  exists w',
    step (host := sampleHost) sampleWorld (Raise 0 1005 (ErrorObject "boom"))
    = Some w'
    /\ sessionState (vars w') = error
    /\ last (messages (vars w'))
       = Some {| msg_id := "1"; msg_role := assistant;
                 msg_content := CText "Error: boom";
                 msg_timestamp := toISOString (Host := sampleHost) 1005 |}.
Proof.
  exists (finishRun 0
            (set_vars
               (sessionCatch (host := sampleHost) 1005 (ErrorObject "boom")
                  (vars sampleWorld)) sampleWorld)).
  split; [reflexivity|].
  destruct (runtime_error_becomes_message (host := sampleHost) sampleWorld _ 0
              1005 (ErrorObject "boom") eq_refl)
    as (Hm & _ & Hs & _).
  split; [exact Hs|]. rewrite Hm. by rewrite last_snoc.
Defined.

(** No session: [false].  A second call while the first is in flight:
    [true], and nothing else. *)
Lemma interrupt_fails_idle_and_is_idempotent_witness :
  interruptCurrentResponse idleWorld
  = set_answers (answers idleWorld ++ [false]) idleWorld
  /\ interruptCurrentResponse (interruptCurrentResponse sampleWorld)
     = set_answers
         (answers (interruptCurrentResponse sampleWorld) ++ [true])
         (interruptCurrentResponse sampleWorld).
Proof.
  split.
  - destruct (interrupt_fails_idle_and_is_idempotent (host := sampleHost)
                idleWorld) as (Hidle & _).
    by apply Hidle.
  - destruct (interrupt_fails_idle_and_is_idempotent (host := sampleHost)
                sampleWorld) as (_ & _ & Hagain & _).
    by destruct (Hagain 0 eq_refl eq_refl) as (_ & _ & _ & Htrue).
Defined.


(** A text of blanks and a line feed. *)
Lemma blank_text_is_rejected_witness :
  trim (" " +:+ nl +:+ "  ") = ""
  /\ enqueueUserMessage (host := sampleHost) 1001 (" " +:+ nl +:+ "  ") None
       sampleWorld = sampleWorld.
Proof.
  split; [reflexivity|].
  by apply (blank_text_is_rejected (host := sampleHost) sampleWorld 1001
              (" " +:+ nl +:+ "  ") None).
Defined.

(** Started without a prompt, the flag is down; after one message it is
    up, also once the session has answered and ended. *)
Lemma seed_prompt_flag_stays_witness :
  (getAgentState (vars idleWorld)).2 = false
  /\ exists w',
       exec (host := sampleHost)
         (enqueueUserMessage (host := sampleHost) 1001 "hi" None idleWorld)
         [Feed 0; Sdk 0 1002 (textDeltaEvent 0 "hello"); Sdk 0 1003 result_message;
          EndOfStream 0] = Some w'
       /\ (getAgentState (vars w')).2 = true.
Proof.
  split; [reflexivity|]. eexists. split; [vm_compute; reflexivity|].
  by apply (seed_prompt_flag_stays (host := sampleHost) idleWorld _ 1001 "hi"
              None
              [Feed 0; Sdk 0 1002 (textDeltaEvent 0 "hello");
               Sdk 0 1003 result_message; EndOfStream 0]).
Defined.

(** In [agent-session.ts] the flag stays down after the same message. *)
Lemma enqueue_first_flag_example :
  hasInitialPrompt
    (vars (enqueueUserMessage_first (host := sampleHost) 1001 "hi" None
             idleWorld)) = false.
Proof. by rewrite (enqueue_first_leaves_flag (host := sampleHost)). Qed.





End Examples.

(** ** What a client can follow: ids, states and log lines *)

Module AuditFacts.
Import Js Session SseFacts SessionFacts WorldFacts.

Section Audit.
Context {host : Host}.

(** Several moves in a row. *)
Local Abbreviation moves := (rtc move).

Lemma skeleton_alter (f : MessageWire -> MessageWire) (i : nat)
  (l : list MessageWire) :
  (forall m, skeleton (f m) = skeleton m) ->
  skeleton <$> alter f i l = skeleton <$> l.
Proof.
  intros Hf. revert i. induction l as [|m l IH]; intros [|i]; simpl; [done..| |].
  - by rewrite Hf.
  - f_equal. apply IH.
Qed.

Lemma audit_alter f i s :
  (forall m, skeleton (f m) = skeleton m) ->
  audit (set_messages (alter f i (messages s)) s) = audit s.
Proof. intros Hf. unfold audit. simpl. by rewrite skeleton_alter. Qed.

Lemma audit_alterLast f s :
  (forall m, skeleton (f m) = skeleton m) ->
  audit (set_messages (alterLast f (messages s)) s) = audit s.
Proof. apply audit_alter. Qed.

Lemma skeleton_setContent c m : skeleton (setContent c m) = skeleton m.
Proof. reflexivity. Qed.

Lemma audit_alterToolAt loc f s : audit (alterToolAt loc f s) = audit s.
Proof.
  unfold alterToolAt. apply audit_alter. intros m.
  by destruct (msg_content m).
Qed.

Lemma audit_alterCallAt loc f s : audit (alterCallAt loc f s) = audit s.
Proof. apply audit_alterToolAt. Qed.

(** *** The handlers, as moves *)

Lemma moves_eq a b : a = b -> moves a b.
Proof. by intros ->. Qed.

Lemma moves_broadcast e d s :
  e <> "chat:status" -> e <> "chat:log" -> understood e d = true ->
  moves (audit s) (audit (broadcast e d s)).
Proof.
  intros H1 H2 H3. apply rtc_once. by apply (move_say (audit s) e d).
Qed.

Lemma moves_setSessionState st s :
  moves (audit s) (audit (setSessionState st s)).
Proof.
  unfold setSessionState. destruct (decide _) as [|Hne]; [done|].
  apply rtc_once. by apply (move_status (audit s) st).
Qed.

Lemma moves_appendLogLine line s :
  moves (audit s) (audit (appendLogLine line s)).
Proof. apply rtc_once. apply (move_log (audit s) line). Qed.

Lemma moves_push role c ts s f :
  (forall s', audit (f s') = audit s') ->
  moves (audit s)
    (audit
       (f (set_messages
             (messages s ++
              [{| msg_id := pretty (messageSequence s); msg_role := role;
                  msg_content := c; msg_timestamp := ts |}])
             (set_messageSequence (S (messageSequence s)) s)))).
Proof.
  intros Hf. rewrite Hf. apply rtc_once.
  pose proof (move_push (audit s) role ts) as Hm.
  unfold audit in *. simpl in *. by rewrite fmap_app.
Qed.

Lemma moves_ensureAssistantMessage now s :
  moves (audit s) (audit (ensureAssistantMessage now s)).
Proof.
  unfold ensureAssistantMessage.
  destruct (last (messages s)) as [m|];
    [destruct (_ && _); [done|]|];
    by apply (moves_push assistant (CText "") (toISOString now) s
                (set_isStreamingMessage true)).
Qed.

Lemma moves_onContentArray now f s :
  moves (audit s) (audit (onContentArray now f s)).
Proof.
  unfold onContentArray. cbv zeta. rewrite audit_alterLast; [|done].
  apply moves_ensureAssistantMessage.
Qed.

Lemma skeleton_appendTextTo c m : skeleton (appendTextTo c m) = skeleton m.
Proof.
  unfold appendTextTo. destruct (msg_content m) as [t|bs]; [done|].
  destruct (last bs) as [b|]; [|done]. by destruct (bool_decide _).
Qed.

Lemma moves_appendTextChunk now c s :
  moves (audit s) (audit (appendTextChunk now c s)).
Proof.
  unfold appendTextChunk. cbv zeta.
  rewrite audit_alterLast; [|apply skeleton_appendTextTo].
  apply moves_ensureAssistantMessage.
Qed.

Lemma audit_set_childToolToParent v s :
  audit (set_childToolToParent v s) = audit s.
Proof. reflexivity. Qed.

Lemma audit_handleSubagentToolUseStart p id name input si s :
  audit (handleSubagentToolUseStart p id name input si s) = audit s.
Proof.
  unfold handleSubagentToolUseStart. destruct (findToolBlockById p s); [|done].
  by rewrite audit_alterToolAt.
Qed.

Lemma audit_ensureSubagentToolPlaceholder p c s :
  audit (ensureSubagentToolPlaceholder p c s) = audit s.
Proof.
  unfold ensureSubagentToolPlaceholder. destruct (findToolBlockById p s); [|done].
  cbv zeta. destruct (findIndex _ _); by rewrite audit_alterToolAt.
Qed.

Lemma audit_handleSubagentToolInputDelta p c d s :
  audit (handleSubagentToolInputDelta p c d s) = audit s.
Proof.
  unfold handleSubagentToolInputDelta. destruct (findToolBlockById p s); [|done].
  apply audit_alterToolAt.
Qed.

Lemma audit_finalizeSubagentToolInput p c s :
  audit (finalizeSubagentToolInput p c s) = audit s.
Proof.
  unfold finalizeSubagentToolInput. destruct (findToolBlockById p s); [|done].
  apply audit_alterToolAt.
Qed.

Lemma audit_setToolResult id c e s : audit (setToolResult id c e s) = audit s.
Proof.
  unfold setToolResult. destruct (findToolBlockById id s); [|done].
  apply audit_alterToolAt.
Qed.

Lemma audit_handleToolResultStart id c e s :
  audit (handleToolResultStart id c e s) = audit s.
Proof.
  unfold handleToolResultStart, handleSubagentToolResultStart.
  destruct (findSubagentCall id s); [apply audit_alterCallAt|].
  apply audit_setToolResult.
Qed.

Lemma audit_handleToolResultComplete id c e s :
  audit (handleToolResultComplete id c e s) = audit s.
Proof.
  unfold handleToolResultComplete, handleSubagentToolResultComplete.
  destruct (findSubagentCall id s); [apply audit_alterCallAt|].
  apply audit_setToolResult.
Qed.

Lemma audit_appendToolResultDelta id d s :
  audit (appendToolResultDelta id d s) = audit s.
Proof.
  unfold appendToolResultDelta, appendSubagentToolResultDelta.
  destruct (findSubagentCall id s); [apply audit_alterCallAt|].
  destruct (findToolBlockById id s); [|done]. apply audit_alterToolAt.
Qed.

Lemma audit_finalizeSubagentToolResult id s :
  audit (finalizeSubagentToolResult id s).2 = audit s.
Proof.
  unfold finalizeSubagentToolResult.
  destruct (findSubagentCall id s); [apply audit_alterCallAt|done].
Qed.

Lemma moves_announceResult se e id p f s :
  se <> "chat:status" -> se <> "chat:log" ->
  e <> "chat:status" -> e <> "chat:log" ->
  (forall fields, understood se (Jobj fields) = true) ->
  (forall fields, understood e (Jobj fields) = true) ->
  moves (audit s) (audit (announceResult se e id p f s)).
Proof.
  intros H1 H2 H3 H4 H5 H6. unfold announceResult. cbv zeta.
  destruct (truthyOpt _); [|by apply moves_broadcast].
  etrans; [|by apply moves_broadcast].
  destruct (bool_decide _); [done|].
  by rewrite audit_ensureSubagentToolPlaceholder.
Qed.

Lemma moves_noteSdkMessage now m s :
  moves (audit s) (audit (noteSdkMessage now m s)).
Proof.
  unfold noteSdkMessage. cbv zeta.
  set (s1 := match sdkJson m with Some _ => _ | None => s end).
  assert (moves (audit s) (audit s1)) as H1.
  { subst s1. destruct (sdkJson m); [apply moves_appendLogLine|done]. }
  set (s2 := match parseSystemInitInfo m with Some _ => _ | None => s1 end).
  assert (moves (audit s1) (audit s2)) as H2.
  { subst s2. destruct (parseSystemInitInfo m); [|done].
    by apply (moves_broadcast _ _ (set_systemInitInfo _ s1)). }
  etrans; [exact H1|]. etrans; [exact H2|].
  destruct (truthyOpt _); [by apply moves_broadcast|done].
Qed.

Lemma moves_foldl {A} (f : State -> A -> State) (l : list A) s :
  (forall s x, moves (audit s) (audit (f s x))) ->
  moves (audit s) (audit (foldl f s l)).
Proof.
  intros Hf. revert s. induction l as [|x l IH]; intros s; [done|].
  simpl. etrans; [apply Hf|apply IH].
Qed.

Lemma moves_userBlock p s b : moves (audit s) (audit (userBlock p s b)).
Proof.
  unfold userBlock. destruct (_ && _); [|done]. cbv zeta.
  rewrite audit_handleToolResultComplete. by apply moves_announceResult.
Qed.

Lemma moves_assistantToolUseBlock p s b :
  moves (audit s) (audit (assistantToolUseBlock p s b)).
Proof.
  unfold assistantToolUseBlock. destruct (_ && _); [|done]. cbv zeta.
  rewrite audit_handleSubagentToolUseStart. by apply moves_broadcast.
Qed.

Lemma moves_assistantResultBlock p s b :
  moves (audit s) (audit (assistantResultBlock p s b)).
Proof.
  unfold assistantResultBlock. destruct (_ && _); [|done]. cbv zeta.
  rewrite audit_handleToolResultComplete. by apply moves_announceResult.
Qed.

Lemma moves_onDelta now p i d s :
  moves (audit s) (audit (onDelta now p i d s)).
Proof.
  destruct d as [t|t|j|]; cbn [onDelta]; cbv zeta; [| | |done].
  - destruct (truthyOpt p).
    + rewrite audit_appendToolResultDelta.
      destruct (childToolToParent s !! _) as [q|];
        [destruct (truthy q)|]; by apply moves_broadcast.
    + etrans; [|apply moves_appendTextChunk]. by apply moves_broadcast.
  - unfold handleThinkingChunk.
    etrans; [|apply moves_onContentArray]. by apply moves_broadcast.
  - destruct (truthyOpt p).
    + rewrite audit_handleSubagentToolInputDelta. by apply moves_broadcast.
    + unfold handleToolInputDelta.
      etrans; [|apply moves_onContentArray]. by apply moves_broadcast.
Qed.

Lemma moves_onBlockStart now p i b s :
  moves (audit s) (audit (onBlockStart now p i b s)).
Proof.
  destruct b as [|id name input|id c e|]; cbn [onBlockStart]; cbv zeta;
    [| | |done].
  - unfold handleThinkingStart.
    etrans; [|apply moves_onContentArray]. by apply moves_broadcast.
  - destruct (truthyOpt p).
    + rewrite audit_handleSubagentToolUseStart.
      by apply (moves_broadcast _ _ (set_streamIndexToToolId _ s)).
    + unfold handleToolUseStart.
      etrans; [|apply moves_onContentArray].
      by apply (moves_broadcast _ _ (set_streamIndexToToolId _ s)).
  - destruct (truthy _); [|done].
    rewrite audit_handleToolResultStart.
    by apply (moves_announceResult _ _ _ _ _ (set_toolResultIndexToId _ s)).
Qed.

Lemma moves_onBlockStop now p i s :
  moves (audit s) (audit (onBlockStop now p i s)).
Proof.
  unfold onBlockStop. cbv zeta. destruct (truthyOpt p).
  - set (s1 := if truthyOpt (streamIndexToToolId s !! i) then _ else s).
    assert (audit s1 = audit s) as H1.
    { subst s1. destruct (truthyOpt _); [|done].
      apply audit_finalizeSubagentToolInput. }
    clearbody s1. rewrite <- H1.
    destruct (truthyOpt (toolResultIndexToId s1 !! i)); [|done].
    match goal with
    | |- context [finalizeSubagentToolResult ?id ?s0] =>
        pose proof (audit_finalizeSubagentToolResult id s0) as H2;
        destruct (finalizeSubagentToolResult id s0) as [[] s2]
    end; simpl in H2.
    + destruct (truthyOpt (childToolToParent s2 !! _)).
      * etrans; [|by apply moves_broadcast]. by rewrite H2.
      * by rewrite H2.
    + by rewrite H2.
  - unfold handleContentBlockStop.
    etrans; [|apply moves_onContentArray]. by apply moves_broadcast.
Qed.

Lemma moves_dispatchSdkMessage now m s :
  moves (audit s) (audit (dispatchSdkMessage now m s)).
Proof.
  destruct m as [p ev|p c|p c| |]; cbn [dispatchSdkMessage]; cbv zeta;
    [| | | |done].
  - destruct ev; [apply moves_onDelta|apply moves_onBlockStart
                  |apply moves_onBlockStop|done].
  - destruct (_ && _); [|done]. apply moves_foldl, moves_userBlock.
  - set (s1 := if truthyOpt p && truthyVal c then _ else s).
    assert (moves (audit s) (audit s1)) as H1.
    { subst s1. destruct (_ && _); [|done].
      apply moves_foldl, moves_assistantToolUseBlock. }
    clearbody s1. etrans; [exact H1|].
    set (s2 := if truthyOpt p then _ else s1).
    assert (moves (audit s1) (audit s2)) as H2.
    { subst s2. destruct (truthyOpt p); [|done]. destruct (truthy _); [|done].
      unfold appendToolResultContent. cbv zeta.
      etrans; [|by apply moves_broadcast]. by rewrite audit_setToolResult. }
    clearbody s2. etrans; [exact H2|].
    destruct (truthyVal c); [|done].
    apply moves_foldl, moves_assistantResultBlock.
  - unfold handleMessageComplete.
    etrans; [|apply moves_setSessionState].
    by apply (moves_broadcast _ _ s).
Qed.

(** *** The commands and the ends of a run, as moves *)

Lemma moves_enqueueHead now text s s' :
  enqueueHead now text s = Some s' -> moves (audit s) (audit s').
Proof.
  unfold enqueueHead. destruct (truthy _); [|done]. cbv zeta. intros [= <-].
  set (s1 := if hasInitialPrompt s then s else _).
  assert (audit s1 = audit s) as H1 by (subst s1; by destruct (hasInitialPrompt s)).
  clearbody s1. rewrite <- H1. etrans; [apply moves_setSessionState|].
  etrans; [|by apply moves_broadcast].
  by apply (moves_push user _ _ _ (fun s => s)).
Qed.

Lemma moves_enqueueHead_first now text s s' :
  enqueueHead_first now text s = Some s' -> moves (audit s) (audit s').
Proof.
  unfold enqueueHead_first. destruct (truthy _); [|done]. cbv zeta.
  intros [= <-]. etrans; [apply moves_setSessionState|].
  etrans; [|by apply moves_broadcast].
  by apply (moves_push user _ _ _ (fun s => s)).
Qed.

Lemma moves_startHead p s s' :
  startHead p s = Some s' -> moves (audit s) (audit s').
Proof.
  unfold startHead. destruct (_ || _); [done|]. cbv zeta. intros [= <-].
  apply (moves_setSessionState running
           (set_streamIndexToToolId ∅
              (set_isProcessing true (set_shouldAbortSession false s)))).
Qed.

Lemma moves_handleMessageError now e s :
  moves (audit s) (audit (handleMessageError now e s)).
Proof.
  unfold handleMessageError. cbv zeta.
  etrans; [apply (moves_setSessionState idle (set_isStreamingMessage false s))|].
  by apply (moves_push assistant _ _ _ (fun s => s)).
Qed.

Lemma moves_sessionCatch now e s :
  moves (audit s) (audit (sessionCatch now e s)).
Proof.
  unfold sessionCatch. cbv zeta.
  etrans; [|apply moves_setSessionState].
  etrans; [|apply moves_handleMessageError]. by apply moves_broadcast.
Qed.

Lemma moves_sessionFinally s : moves (audit s) (audit (sessionFinally s)).
Proof.
  unfold sessionFinally. cbv zeta. destruct (decide _); [done|].
  apply (moves_setSessionState idle
           (set_querySession None (set_isProcessing false s))).
Qed.

Lemma moves_handleMessageStopped now s :
  moves (audit s) (audit (handleMessageStopped now s)).
Proof.
  unfold handleMessageStopped. cbv zeta.
  set (s1 := setSessionState idle _).
  assert (moves (audit s) (audit s1)) as H1
    by apply (moves_setSessionState idle (set_isStreamingMessage false s)).
  clearbody s1. destruct (last (messages s1)) as [m|]; [|done].
  destruct (msg_role m); [done|]. destruct (msg_content m); [done|].
  by rewrite audit_alterLast.
Qed.

Lemma moves_finishRun i w :
  moves (audit (vars w)) (audit (vars (finishRun i w))).
Proof. apply moves_sessionFinally. Qed.

Lemma moves_startRun i now thrown w :
  moves (audit (vars w)) (audit (vars (startRun i now thrown w))).
Proof.
  unfold startRun. destruct (startHead i (vars w)) as [s|] eqn:Hs; [|done].
  apply moves_startHead in Hs. etrans; [exact Hs|].
  destruct thrown as [e|]; [|done].
  etrans; [apply moves_sessionCatch|]. apply moves_sessionFinally.
Qed.

Lemma moves_startStreamingSession now thrown w :
  moves (audit (vars w)) (audit (vars (startStreamingSession now thrown w))).
Proof.
  unfold startStreamingSession. cbv zeta.
  destruct (sessionTerminationPromise (vars w)); [done|].
  apply (moves_startRun _ _ _ (set_runs _ w)).
Qed.

Lemma moves_enqueueUserMessage now text thrown w :
  moves (audit (vars w))
    (audit (vars (enqueueUserMessage now text thrown w))).
Proof.
  unfold enqueueUserMessage.
  destruct (enqueueHead now text (vars w)) as [s|] eqn:Hs; [|done].
  apply moves_enqueueHead in Hs. cbv zeta. etrans; [exact Hs|].
  cbn [vars set_vars set_calls].
  destruct (isSessionActive s); [done|].
  apply (moves_startStreamingSession _ _ (set_vars s w)).
Qed.

Lemma moves_enqueueUserMessage_first now text thrown w :
  moves (audit (vars w))
    (audit (vars (enqueueUserMessage_first now text thrown w))).
Proof.
  unfold enqueueUserMessage_first.
  destruct (enqueueHead_first now text (vars w)) as [s|] eqn:Hs; [|done].
  apply moves_enqueueHead_first in Hs. cbv zeta. etrans; [exact Hs|].
  cbn [vars set_vars set_calls].
  destruct (isSessionActive s); [done|].
  apply (moves_startStreamingSession _ _ (set_vars s w)).
Qed.

Lemma moves_interruptSettled k now ok w :
  moves (audit (vars w)) (audit (vars (interruptSettled k now ok w))).
Proof.
  unfold interruptSettled. cbv zeta. destruct ok; [|done].
  cbn [vars set_vars set_answers set_stops].
  etrans; [|apply (moves_handleMessageStopped now)].
  by apply moves_broadcast.
Qed.

Lemma moves_step w l w' :
  step w l = Some w' -> moves (audit (vars w)) (audit (vars w')).
Proof.
  destruct l as [now text thrown|now body thrown|i now thrown|i|i|i now m|i
                 |i now e| |k now ok]; simpl; intros Hstep.
  - injection Hstep as <-. apply moves_enqueueUserMessage.
  - injection Hstep as <-. unfold chatSend. destruct body as [|text]; [done|].
    cbv zeta. destruct (truthy _); [|done]. apply moves_enqueueUserMessage.
  - destruct (runs w !! i) as [[p|h|]|]; try done.
    destruct (bool_decide _); [|done]. injection Hstep as <-.
    apply moves_startRun.
  - destruct (runs w !! i) as [[p|[h|]|]|]; try done.
    destruct (messageQueue (vars w)) as [|item rest]; [done|].
    destruct (shouldAbortSession (vars w)); [done|]. by injection Hstep as <-.
  - destruct (runs w !! i) as [[p|[h|]|]|]; try done. by injection Hstep as <-.
  - destruct (runs w !! i) as [[p|h|]|]; try done. cbv zeta in Hstep.
    destruct (shouldAbortSession _); injection Hstep as <-.
    + etrans; [apply (moves_noteSdkMessage now m)|].
      apply (moves_finishRun i (set_vars _ w)).
    + etrans; [apply (moves_noteSdkMessage now m)|].
      apply moves_dispatchSdkMessage.
  - destruct (runs w !! i) as [[p|h|]|]; try done. injection Hstep as <-.
    apply moves_finishRun.
  - destruct (runs w !! i) as [[p|h|]|]; try done. injection Hstep as <-.
    etrans; [apply (moves_sessionCatch now e)|].
    apply (moves_finishRun i (set_vars _ w)).
  - injection Hstep as <-. unfold interruptCurrentResponse.
    destruct (querySession (vars w)); [|done].
    by destruct (isInterruptingResponse (vars w)).
  - destruct (stops w !! k) as [[|]|]; try done. injection Hstep as <-.
    apply moves_interruptSettled.
Qed.

Lemma moves_exec ls : forall w w',
  exec w ls = Some w' -> moves (audit (vars w)) (audit (vars w')).
Proof.
  induction ls as [|l ls IH]; intros w w'; simpl.
  - by intros [= <-].
  - destruct (step w l) as [w1|] eqn:Hstep; [|done]. intros Hexec.
    etrans; [by apply (moves_step w l w1)|by apply IH].
Qed.

Lemma moves_initializeAgent now dir prompt uuid thrown :
  moves (audit pristine)
    (audit (vars (initializeAgent now dir prompt uuid thrown boot))).
Proof.
  unfold initializeAgent. cbv zeta. destruct (hasPrompt prompt); [|done].
  etrans; [|apply moves_enqueueUserMessage]. by apply moves_eq.
Qed.

Lemma moves_reachable w :
  reachable w -> moves (audit pristine) (audit (vars w)).
Proof.
  induction 1 as [now dir prompt uuid thrown|w l w' _ IH Hstep].
  - apply moves_initializeAgent.
  - etrans; [exact IH|by apply (moves_step w l)].
Qed.

(** *** What the moves keep *)

Lemma statuses_snoc l e :
  statuses (l ++ [e]) = statuses l ++ option_list (statusOf e).
Proof.
  unfold statuses. rewrite omap_app. simpl. by destruct (statusOf e).
Qed.

Lemma logged_snoc l e :
  logged (l ++ [e]) = logged l ++ option_list (logOf e).
Proof.
  unfold logged. rewrite omap_app. simpl. by destruct (logOf e).
Qed.

Lemma statusOf_other e d : e <> "chat:status" -> statusOf (e, d) = None.
Proof.
  intros He. unfold statusOf. destruct d as [| | | | | | | |[|[k [ | | | | | |st| |]] [|]]];
    try done.
  destruct (String.eqb e "chat:status") eqn:Heq; [|done].
  by apply String.eqb_eq in Heq.
Qed.

Lemma logOf_other e d : e <> "chat:log" -> logOf (e, d) = None.
Proof.
  intros He. unfold logOf. destruct d; try done.
  destruct (String.eqb e "chat:log") eqn:Heq; [|done].
  by apply String.eqb_eq in Heq.
Qed.

Lemma tidy_pristine : tidy (audit pristine).
Proof.
  by repeat split.
Qed.

Lemma drop_window {A} (l : list A) (x : A) n :
  (let lines := drop (length l - n) l ++ [x] in
   if n <? length lines then tail lines else lines)
  = drop (length (l ++ [x]) - n) (l ++ [x]).
Proof.
  cbv zeta. rewrite !length_app, length_drop. simpl.
  destruct (Nat.ltb_spec n (length l - (length l - n) + 1)) as [Hlt|Hge].
  - assert (n <= length l) as Hn by lia.
    replace (length l + 1 - n) with (S (length l - n)) by lia.
    destruct (decide (n = 0)) as [->|Hpos].
    + rewrite Nat.sub_0_r, drop_all. simpl.
      rewrite drop_ge; [done|]. rewrite length_app. simpl. lia.
    + rewrite drop_app_le by lia.
      destruct (drop (length l - n) l) as [|y t] eqn:Hd.
      * apply (f_equal length) in Hd. rewrite length_drop in Hd. simpl in Hd.
        lia.
      * change (S (length l - n)) with (1 + (length l - n)).
        rewrite Nat.add_comm, <- drop_drop, Hd. simpl. by rewrite drop_0.
  - replace (length l - n) with 0 by lia.
    replace (length l + 1 - n) with 0 by lia. by rewrite !drop_0.
Qed.

Lemma tidy_move a b : tidy a -> move a b -> tidy b.
Proof.
  intros (Hids & Hlast & Hadj & Hlog) Hm.
  destruct Hm as [a role ts|a st Hne|a line|a e d He1 He2]; unfold tidy;
    cbn [a_skeletons a_sequence a_state a_sent a_logLines].
  - repeat split; try done.
    rewrite fmap_app, Hids, seq_S, fmap_app. done.
  - rewrite statuses_snoc. simpl.
    rewrite logged_snoc. simpl. rewrite app_nil_r.
    repeat split; try done.
    + by rewrite app_comm_cons, last_snoc.
    + intros i x y Hx Hy. rewrite app_comm_cons in Hx.
      destruct (decide (i < length (statuses (a_sent a)))) as [Hlt|Hge].
      * rewrite lookup_app_l in Hx by (simpl; lia).
        rewrite lookup_app_l in Hy by lia. by apply (Hadj i).
      * assert (i = length (statuses (a_sent a))) as Hi.
        { apply lookup_lt_Some in Hy. rewrite length_app in Hy. simpl in *. lia. }
        rewrite lookup_app_r in Hy by lia. rewrite Hi, Nat.sub_diag in Hy.
        injection Hy as <-.
        rewrite lookup_app_l in Hx by (simpl; lia).
        rewrite last_lookup in Hlast. simpl in Hlast. rewrite Hi in Hx.
        congruence.
  - rewrite statuses_snoc, logged_snoc. simpl. rewrite app_nil_r.
    repeat split; try done. rewrite Hlog. apply (drop_window _ _ 2000).
  - rewrite statuses_snoc, logged_snoc, statusOf_other, logOf_other by done.
    simpl. rewrite !app_nil_r. by repeat split.
Qed.

Lemma tidy_moves a b : tidy a -> moves a b -> tidy b.
Proof. intros Ha Hm. induction Hm as [|a b c Hab _ IH]; [done|]. eauto using tidy_move. Qed.

Lemma tidy_reachable w : reachable w -> tidy (audit (vars w)).
Proof. intros Hw. eapply tidy_moves; [apply tidy_pristine|by apply moves_reachable]. Qed.

(** No move takes a message away or changes one's id, role or
    timestamp. *)
Lemma moves_prefix a b : moves a b -> a_skeletons a `prefix_of` a_skeletons b.
Proof.
  induction 1 as [|a b c Hab _ IH]; [done|]. etrans; [|exact IH].
  destruct Hab; simpl; try done. by apply prefix_app_r.
Qed.

Lemma reachable_exec ls : forall w w',
  reachable w -> exec w ls = Some w' -> reachable w'.
Proof.
  induction ls as [|l ls IH]; intros w w' Hw; simpl.
  - by intros [= <-].
  - destruct (step w l) as [w1|] eqn:Hstep; [|done].
    apply IH. by apply (reach_step w l).
Qed.

(** *** With the [stderr] callback counted in *)

Lemma moves_onStderr DEBUG message s :
  moves (audit s) (audit (onStderr DEBUG message s)).
Proof.
  unfold onStderr. destruct (bool_decide _); [|done]. by apply moves_broadcast.
Qed.

Lemma reachable_onAir DEBUG w : reachable w -> onAir DEBUG w.
Proof.
  induction 1 as [now dir prompt uuid thrown|w l w' _ IH Hstep].
  - apply air_init.
  - by apply (air_step DEBUG w l).
Qed.

Lemma moves_onAir DEBUG w :
  onAir DEBUG w -> moves (audit pristine) (audit (vars w)).
Proof.
  induction 1 as [now dir prompt uuid thrown|w l w' _ IH Hstep
                 |w message _ IH].
  - apply moves_initializeAgent.
  - etrans; [exact IH|by apply (moves_step w l)].
  - etrans; [exact IH|]. apply (moves_onStderr DEBUG message (vars w)).
Qed.

Lemma tidy_onAir DEBUG w : onAir DEBUG w -> tidy (audit (vars w)).
Proof.
  intros Hw. eapply tidy_moves; [apply tidy_pristine|].
  by apply (moves_onAir DEBUG).
Qed.

(** Every move broadcasts in a shape the renderer expects. *)
Lemma understood_moves a b :
  moves a b ->
  Forall (fun e => understood e.1 e.2 = true) (a_sent a) ->
  Forall (fun e => understood e.1 e.2 = true) (a_sent b).
Proof.
  induction 1 as [|a b c Hab _ IH]; [done|]. intros Ha. apply IH.
  destruct Hab as [a role ts|a st Hne|a line|a event data H1 H2 H3];
    cbn [a_sent]; [done| | |]; apply Forall_app; (split; [done|]);
    by apply Forall_singleton.
Qed.

Lemma understood_onAir DEBUG w :
  onAir DEBUG w ->
  Forall (fun e => understood e.1 e.2 = true) (sent (vars w)).
Proof.
  intros Hw. apply (understood_moves _ _ (moves_onAir DEBUG w Hw)).
  apply Forall_nil_2.
Qed.

(** X1.  The ids of the transcript count up from 0: in every world the
    server can be in, the message at position [i] has the id [String(i)],
    [messageSequence] is the number of messages, and so no two messages
    share an id. *)
Theorem message_ids_count_up (w : World) :
  reachable w ->
  msg_id <$> messages (vars w)
  = pretty <$> seq 0 (length (messages (vars w)))
  /\ messageSequence (vars w) = length (messages (vars w))
  /\ NoDup (msg_id <$> messages (vars w)).
Proof.
  intros Hw. destruct (tidy_reachable w Hw) as (Hids & _).
  unfold audit in Hids. cbn [a_skeletons a_sequence] in Hids.
  rewrite <- list_fmap_compose in Hids.
  assert (messageSequence (vars w) = length (messages (vars w))) as Hlen.
  { apply (f_equal length) in Hids.
    by rewrite !length_fmap, length_seq in Hids. }
  rewrite Hlen in Hids.
  assert (msg_id <$> messages (vars w)
          = pretty <$> seq 0 (length (messages (vars w)))) as Heq
    by exact Hids.
  split; [exact Heq|]. split; [exact Hlen|].
  rewrite Heq. apply NoDup_fmap_2; [apply _|apply NoDup_seq].
Qed.

(** X2.  A client that follows [chat:status] knows the state: in every
    world the server can be in, the calls of the [stderr] callback
    counted in, the state is the one the last [chat:status] broadcast
    announced ([idle] when there was none), and no broadcast announces
    the state the one before it announced. *)
Theorem status_broadcasts_track_state (DEBUG : option string) (w : World) :
  onAir DEBUG w ->
  last (idle :: statuses (sent (vars w))) = Some (sessionState (vars w))
  /\ (forall i st st',
        (idle :: statuses (sent (vars w))) !! i = Some st ->
        (idle :: statuses (sent (vars w))) !! S i = Some st' -> st <> st').
Proof.
  intros Hw. destruct (tidy_onAir DEBUG w Hw) as (_ & Hlast & Hadj & _).
  split; [exact Hlast|exact Hadj].
Qed.

(** X3.  The log lines kept are the last 2000 that were broadcast as
    [chat:log], in their order; there are never more than 2000.  This
    holds in every world the server can be in, the calls of the [stderr]
    callback counted in. *)
Theorem log_lines_are_last_2000 (DEBUG : option string) (w : World) :
  onAir DEBUG w ->
  logLines (vars w)
  = drop (length (logged (sent (vars w))) - 2000) (logged (sent (vars w)))
  /\ length (logLines (vars w)) <= 2000
  /\ logLines (vars w) `suffix_of` logged (sent (vars w)).
Proof.
  intros Hw. destruct (tidy_onAir DEBUG w Hw) as (_ & _ & _ & Hlog).
  cbn [audit a_logLines a_sent] in Hlog. split; [exact Hlog|].
  rewrite Hlog. split; [rewrite length_drop; lia|apply suffix_drop].
Qed.

(** X4.  The transcript only grows, and a message keeps its id, its role
    and its timestamp: after any steps, the message at each position that
    was filled before is still there with the three as they were. *)
Theorem transcript_is_append_only (w w' : World) (ls : list Label) :
  exec w ls = Some w' ->
  length (messages (vars w)) <= length (messages (vars w'))
  /\ forall i m,
       messages (vars w) !! i = Some m ->
       exists m',
         messages (vars w') !! i = Some m'
         /\ msg_id m' = msg_id m /\ msg_role m' = msg_role m
         /\ msg_timestamp m' = msg_timestamp m.
Proof.
  intros Hexec. apply moves_exec, moves_prefix in Hexec.
  cbn [audit a_skeletons] in Hexec. destruct Hexec as [k Hk]. split.
  - apply (f_equal length) in Hk.
    rewrite length_app, !length_fmap in Hk. lia.
  - intros i m Hi.
    assert ((skeleton <$> messages (vars w')) !! i = Some (skeleton m)) as Hs.
    { rewrite Hk. apply lookup_app_l_Some. by rewrite list_lookup_fmap, Hi. }
    rewrite list_lookup_fmap in Hs.
    destruct (messages (vars w') !! i) as [m'|]; [|done].
    exists m'. injection Hs as H1 H2 H3. done.
Qed.

End Audit.

End AuditFacts.

(** ** The user messages are taken in the order they came *)

Module QueueFacts.
Import Js Session SseFacts SessionFacts WorldFacts.

Section Queue.
Context {host : Host}.

(** A run that holds an item held it before, whenever the run put in its
    place holds none. *)
Lemma held_insert (rs : list Run) i r j h :
  (forall h0, r <> Live (Some h0)) ->
  <[i := r]> rs !! j = Some (Live (Some h)) ->
  rs !! j = Some (Live (Some h)).
Proof.
  intros Hr Hj. destruct (decide (i = j)) as [->|Hne].
  - destruct (decide (j < length rs)) as [Hlt|Hge].
    + rewrite list_lookup_insert_eq in Hj by done. injection Hj as ->.
      by destruct (Hr h).
    + rewrite list_insert_ge in Hj by lia. done.
  - by rewrite list_lookup_insert_ne in Hj.
Qed.

Lemma held_snoc (rs : list Run) r j h :
  (forall h0, r <> Live (Some h0)) ->
  (rs ++ [r]) !! j = Some (Live (Some h)) ->
  rs !! j = Some (Live (Some h)).
Proof.
  intros Hr Hj. apply lookup_app_Some in Hj as [Hj|[_ Hj]]; [done|].
  apply list_lookup_singleton_Some in Hj as [_ ->]. by destruct (Hr h).
Qed.

Lemma queue_control s s' :
  control s' = control s -> messageQueue s' = messageQueue s.
Proof. unfold control. intros [=]. assumption. Qed.

Lemma queue_sessionFinally s :
  messageQueue (sessionFinally s) = messageQueue s.
Proof.
  unfold sessionFinally, setSessionState. cbv zeta.
  by repeat (destruct (decide _); simpl).
Qed.

Lemma queue_startHead p s s' :
  startHead p s = Some s' -> messageQueue s' = messageQueue s.
Proof.
  unfold startHead, setSessionState. destruct (_ || _); [done|].
  cbv zeta. intros [= <-]. by destruct (decide _).
Qed.

(** What the end and the start of a run leave alone. *)
Lemma finishRun_queue i w :
  resolved (finishRun i w) = resolved w /\ calls (finishRun i w) = calls w
  /\ queueIds (finishRun i w) = queueIds w
  /\ runs (finishRun i w) = <[i := Over]> (runs w).
Proof.
  unfold queueIds, finishRun. simpl. by rewrite queue_sessionFinally.
Qed.

Lemma startRun_queue i now thrown w :
  resolved (startRun i now thrown w) = resolved w
  /\ calls (startRun i now thrown w) = calls w
  /\ queueIds (startRun i now thrown w) = queueIds w
  /\ forall j h, runs (startRun i now thrown w) !! j = Some (Live (Some h)) ->
                 runs w !! j = Some (Live (Some h)).
Proof.
  unfold startRun. destruct (startHead i (vars w)) as [s|] eqn:Hs.
  - apply queue_startHead in Hs. destruct thrown as [e|].
    + destruct (finishRun_queue i (set_vars (sessionCatch now e s) w))
        as (-> & -> & -> & ->).
      unfold queueIds. simpl.
      rewrite (queue_control _ _ (control_sessionCatch now e s)), Hs.
      repeat split; try done. intros j h. by apply held_insert.
    + unfold queueIds. simpl. rewrite Hs. repeat split; try done.
      intros j h. by apply held_insert.
  - simpl. repeat split; try done. intros j h. by apply held_insert.
Qed.

Lemma startStreamingSession_queue now thrown w :
  resolved (startStreamingSession now thrown w) = resolved w
  /\ calls (startStreamingSession now thrown w) = calls w
  /\ queueIds (startStreamingSession now thrown w) = queueIds w
  /\ forall j h,
       runs (startStreamingSession now thrown w) !! j = Some (Live (Some h)) ->
       runs w !! j = Some (Live (Some h)).
Proof.
  unfold startStreamingSession. cbv zeta.
  destruct (sessionTerminationPromise (vars w)) as [p|].
  - simpl. repeat split; try done. intros j h. by apply held_snoc.
  - destruct (startRun_queue (length (runs w)) now thrown
                (set_runs (runs w ++ [Over]) w)) as (-> & -> & -> & Hheld).
    repeat split; try done. intros j h Hj. apply Hheld in Hj.
    by apply held_snoc in Hj.
Qed.

(** A call of [enqueueUserMessage] returns at once, or puts one item at
    the end of the queue, for the promise it makes. *)
Lemma enqueueUserMessage_queue now text thrown w :
  let w' := enqueueUserMessage now text thrown w in
  (w' = w
   \/ (resolved w' = resolved w /\ calls w' = S (calls w)
       /\ queueIds w' = queueIds w ++ [calls w]))
  /\ forall j h, runs w' !! j = Some (Live (Some h)) ->
                 runs w !! j = Some (Live (Some h)).
Proof.
  cbv zeta. unfold enqueueUserMessage.
  destruct (enqueueHead now text (vars w)) as [s|] eqn:Hs; [|by split; [left|]].
  assert (messageQueue s = messageQueue (vars w)) as Hq.
  { revert Hs. unfold enqueueHead, setSessionState. destruct (truthy _); [|done].
    cbv zeta. intros [= <-].
    by destruct (hasInitialPrompt (vars w)); destruct (decide _). }
  cbv zeta. cbn [vars set_vars].
  destruct (isSessionActive s).
  - split; [right|done]. unfold queueIds, enqueueTail. simpl.
    rewrite fmap_app, Hq. done.
  - destruct (startStreamingSession_queue now thrown (set_vars s w))
      as (Hr & Hc & Hi & Hheld).
    split; [right|exact Hheld]. unfold queueIds in *. simpl in *.
    unfold enqueueTail. simpl. rewrite fmap_app, Hi, Hc, Hr, Hq. done.
Qed.

(** At most one run is live, so at most one holds an item. *)
Lemma live_unique w i j h h' :
  coherent w -> runs w !! i = Some (Live h) -> runs w !! j = Some (Live h') ->
  i = j.
Proof.
  intros (Hl & _) Hi Hj. unfold liveSessions in Hl.
  assert (i ∈ liveFrom 0 (runs w)) as Hi'
    by (apply elem_of_liveFrom; by exists i, h).
  assert (j ∈ liveFrom 0 (runs w)) as Hj'
    by (apply elem_of_liveFrom; by exists j, h').
  rewrite Hl in Hi', Hj'. destruct (querySession (vars w)); simpl in *.
  - apply list_elem_of_singleton in Hi', Hj'. congruence.
  - by apply elem_of_nil in Hi'.
Qed.

Lemma inOrder_frame w w' :
  resolved w' = resolved w -> calls w' = calls w -> queueIds w' = queueIds w ->
  (forall j h, runs w' !! j = Some (Live (Some h)) ->
               runs w !! j = Some (Live (Some h))) ->
  inOrder w -> inOrder w'.
Proof.
  intros Hr Hc Hq Hheld (Hs & Hb & Hh). unfold inOrder.
  rewrite Hr, Hc, Hq. repeat split; try done; by apply (Hh i), Hheld.
Qed.

Lemma inOrder_enqueueUserMessage now text thrown w :
  inOrder w -> inOrder (enqueueUserMessage now text thrown w).
Proof.
  intros Hw.
  destruct (enqueueUserMessage_queue now text thrown w) as ([->|Hq] & Hheld);
    [done|].
  destruct Hq as (Hr & Hc & Hq). destruct Hw as (Hs & Hb & Hh).
  unfold inOrder. rewrite Hr, Hc, Hq, !(assoc_L (++)).
  split; [|split].
  - apply StronglySorted_app_2; [|done|repeat constructor].
    intros x y Hx ->%list_elem_of_singleton.
    by apply (proj1 (Forall_forall _ _) Hb).
  - apply Forall_app. split; [|repeat constructor].
    eapply Forall_impl; [exact Hb|]. simpl. lia.
  - intros i h Hi. apply Hheld, Hh in Hi as (H1 & H2 & H3).
    split; [lia|]. split; [done|]. apply Forall_app. split; [done|].
    by repeat constructor.
Qed.

Lemma inOrder_step w l w' :
  coherent w -> inOrder w -> step w l = Some w' -> inOrder w'.
Proof.
  intros Hc Hw Hstep.
  destruct l as [now text thrown|now body thrown|i now thrown|i|i|i now m|i
                 |i now e| |k now ok]; simpl in Hstep.
  - injection Hstep as <-. by apply inOrder_enqueueUserMessage.
  - injection Hstep as <-. unfold chatSend. destruct body as [|text]; [done|].
    cbv zeta. destruct (truthy _); [|done]. by apply inOrder_enqueueUserMessage.
  - destruct (runs w !! i) as [[p|h|]|]; try done.
    destruct (bool_decide _); [|done]. injection Hstep as <-.
    destruct (startRun_queue i now thrown w) as (Hr & Hcl & Hq & Hheld).
    by apply (inOrder_frame w).
  - destruct (runs w !! i) as [[p|[h|]|]|] eqn:Hi; try done.
    destruct (messageQueue (vars w)) as [|item rest] eqn:Hq; [done|].
    destruct (shouldAbortSession (vars w)); [done|]. injection Hstep as <-.
    destruct Hw as (Hs & Hb & Hh). unfold inOrder, queueIds in *. simpl.
    rewrite Hq in Hs, Hb, Hh. simpl in *.
    apply StronglySorted_app in Hs as (Hs3 & Hs1 & Hs2).
    apply StronglySorted_cons in Hs2 as (Hs4 & Hs2).
    apply Forall_app in Hb as (Hb1 & Hb2).
    apply Forall_cons in Hb2 as (Hb2 & Hb3).
    split; [|split].
    + apply StronglySorted_app_2; [|done..].
      intros x y Hx Hy. apply Hs3; [done|by right].
    + by apply Forall_app.
    + intros j h Hj.
      destruct (decide (i = j)) as [<-|Hne].
      * rewrite list_lookup_insert_eq in Hj by (by eapply lookup_lt_Some).
        injection Hj as <-. split; [done|]. split; [|done].
        apply Forall_forall. intros x Hx. apply Hs3; [done|by left].
      * rewrite list_lookup_insert_ne in Hj by done.
        by destruct (Hne (live_unique w i j _ _ Hc Hi Hj)).
  - destruct (runs w !! i) as [[p|[h|]|]|] eqn:Hi; try done.
    injection Hstep as <-.
    destruct Hw as (Hs & Hb & Hh). unfold inOrder, queueIds in *. simpl.
    destruct (Hh i h Hi) as (H1 & H2 & H3).
    apply StronglySorted_app in Hs as (Hs3 & Hs1 & Hs2).
    apply Forall_app in Hb as (Hb1 & Hb2).
    split; [|split].
    + rewrite <- (assoc_L (++)). apply StronglySorted_app_2; [|done|].
      * intros x y Hx [->|Hy]%elem_of_cons; [|by apply Hs3].
        by apply (proj1 (Forall_forall _ _) H2).
      * simpl. by constructor.
    + rewrite <- (assoc_L (++)). apply Forall_app. split; [done|].
      simpl. by constructor.
    + intros j h' Hj.
      destruct (decide (i = j)) as [<-|Hne].
      * by rewrite list_lookup_insert_eq in Hj by (by eapply lookup_lt_Some).
      * rewrite list_lookup_insert_ne in Hj by done.
        by destruct (Hne (live_unique w i j _ _ Hc Hi Hj)).
  - destruct (runs w !! i) as [[p|h|]|]; try done. cbv zeta in Hstep.
    destruct (shouldAbortSession _); injection Hstep as <-.
    + destruct (finishRun_queue i (set_vars (noteSdkMessage now m (vars w)) w))
        as (Hr & Hcl & Hq & Hruns).
      apply (inOrder_frame w); try done.
      * rewrite Hq. unfold queueIds. simpl.
        by rewrite (queue_control _ _ (control_noteSdkMessage now m (vars w))).
      * rewrite Hruns. intros j h'. by apply held_insert.
    + apply (inOrder_frame w); try done. unfold queueIds. simpl.
      rewrite (queue_control _ _ (control_dispatchSdkMessage now m _)).
      by rewrite (queue_control _ _ (control_noteSdkMessage now m (vars w))).
  - destruct (runs w !! i) as [[p|h|]|]; try done. injection Hstep as <-.
    destruct (finishRun_queue i w) as (Hr & Hcl & Hq & Hruns).
    apply (inOrder_frame w); try done.
    rewrite Hruns. intros j h'. by apply held_insert.
  - destruct (runs w !! i) as [[p|h|]|]; try done. injection Hstep as <-.
    destruct (finishRun_queue i (set_vars (sessionCatch now e (vars w)) w))
      as (Hr & Hcl & Hq & Hruns).
    apply (inOrder_frame w); try done.
    + rewrite Hq. unfold queueIds. simpl.
      by rewrite (queue_control _ _ (control_sessionCatch now e (vars w))).
    + rewrite Hruns. intros j h'. by apply held_insert.
  - injection Hstep as <-. unfold interruptCurrentResponse.
    destruct (querySession (vars w)); [|done].
    by destruct (isInterruptingResponse (vars w)).
  - destruct (stops w !! k) as [[|]|]; try done. injection Hstep as <-.
    apply (inOrder_frame w); try done; unfold interruptSettled; cbv zeta;
      destruct ok; try done.
    unfold queueIds. simpl.
    by rewrite (queue_control _ _ (control_handleMessageStopped now _)).
Qed.

Lemma inOrder_reachable w : reachable w -> inOrder w.
Proof.
  induction 1 as [now dir prompt uuid thrown|w l w' Hw IH Hstep].
  - unfold initializeAgent. cbv zeta.
    assert (inOrder (set_vars
              (set_logLines []
                 (set_childToolToParent ∅
                    (set_messageQueue []
                       (set_messages []
                          (set_sessionId uuid
                             (set_messageSequence 0
                                (set_systemInitInfo None
                                   (set_hasInitialPrompt (hasPrompt prompt)
                                      (set_agentDir dir (vars boot)))))))))) boot))
      as H0.
    { unfold inOrder, queueIds. simpl. repeat split; try constructor.
      all: by rewrite lookup_nil in H. }
    destruct (hasPrompt prompt); [|exact H0].
    by apply inOrder_enqueueUserMessage.
  - eapply inOrder_step; [by apply reachable_coherent|exact IH|exact Hstep].
Qed.

(** X5.  The promises of [enqueueUserMessage] are resolved in the order
    of the calls: numbered by call, the ones resolved so far go up, and
    the ones of the items that still wait in the queue follow them,
    going up too.  So none is resolved twice, none is both resolved and
    waiting, and none is resolved that was not made. *)
Theorem promises_resolve_in_call_order (w : World) :
  reachable w ->
  StronglySorted lt (resolved w ++ queueIds w)
  /\ NoDup (resolved w ++ queueIds w)
  /\ Forall (fun r => r < calls w) (resolved w ++ queueIds w).
Proof.
  intros Hw. destruct (inOrder_reachable w Hw) as (Hs & Hb & _).
  split; [exact Hs|]. split; [|exact Hb].
  clear Hb. induction Hs as [|x l Hs IH Hx]; [constructor|].
  constructor; [|exact IH]. intros Hin.
  apply (proj1 (Forall_forall _ _) Hx) in Hin. lia.
Qed.

End Queue.

End QueueFacts.

(** ** The blocks of the message being streamed *)

Module BlockFacts.
Import Js Session SseFacts SessionFacts WorldFacts ReducerFacts SubagentFacts.

Section Blocks.
Context {host : Host}.

(** The block handlers act on the open blocks: [onContentArray f] is
    [f] on them, and leaves an open assistant message. *)
Lemma openBlocks_onContentArray now f s :
  openBlocks (onContentArray now f s) = f (openBlocks s)
  /\ is_Some (openAssistantMessage (onContentArray now f s)).
Proof.
  unfold openBlocks, onContentArray, openAssistantMessage,
    ensureAssistantMessage. cbv zeta.
  destruct (last (messages s)) as [m|] eqn:Hlast.
  - destruct (bool_decide (msg_role m = assistant) && isStreamingMessage s)
      eqn:Hopen.
    + simpl. rewrite last_alterLast, Hlast. simpl. rewrite Hopen. eauto.
    + simpl. rewrite alterLast_snoc, last_snoc. simpl. eauto.
  - simpl. rewrite alterLast_snoc, last_snoc. simpl. eauto.
Qed.

Lemma openBlocks_frame s s' :
  messages s' = messages s -> isStreamingMessage s' = isStreamingMessage s ->
  openBlocks s' = openBlocks s.
Proof.
  intros Hm Hs. unfold openBlocks, openAssistantMessage. by rewrite Hm, Hs.
Qed.

Lemma openBlocks_noteSdkMessage now m s :
  openBlocks (noteSdkMessage now m s) = openBlocks s.
Proof.
  destruct (noteSdkMessage_transcript now m s) as (Hm & Hs & _).
  by apply openBlocks_frame.
Qed.

Lemma streamIndex_onContentArray now f s :
  streamIndexToToolId (onContentArray now f s) = streamIndexToToolId s.
Proof.
  unfold onContentArray, ensureAssistantMessage. cbv zeta.
  destruct (last (messages s)); [destruct (_ && _)|]; done.
Qed.

Lemma streamIndex_noteSdkMessage now m s :
  streamIndexToToolId (noteSdkMessage now m s) = streamIndexToToolId s.
Proof.
  unfold noteSdkMessage, appendLogLine.
  destruct (truthyOpt _), (parseSystemInitInfo m), (sdkJson m); done.
Qed.

Lemma alterFirst_snoc {A} (p : A -> bool) (g : A -> A) (l : list A) (x : A) :
  findIndex p l = None -> p x = true ->
  alterFirst p g (l ++ [x]) = l ++ [g x].
Proof.
  intros Hl Hx. unfold alterFirst. rewrite (findIndex_snoc p l x Hl), Hx.
  apply alter_snoc_last.
Qed.

Lemma alterFirst_None {A} (p : A -> bool) (g : A -> A) (l : list A) :
  findIndex p l = None -> alterFirst p g l = l.
Proof. intros Hl. unfold alterFirst. by rewrite Hl. Qed.

(** *** A tool use, from its start to its stop *)

Lemma tool_start_blocks now i t name input s :
  let s1 :=
    dispatchSdkMessage now (toolUseStartEvent i t name input)
      (noteSdkMessage now (toolUseStartEvent i t name input) s) in
  openBlocks s1
  = openBlocks s ++
    [toolBlockOf
       (startedTool t name (if truthyVal input then input else emptyObject) i)]
  /\ streamIndexToToolId s1 !! i = Some t.
Proof.
  cbv zeta. unfold toolUseStartEvent. cbn [dispatchSdkMessage onBlockStart].
  cbv zeta. cbn [truthyOpt]. unfold handleToolUseStart.
  destruct (openBlocks_onContentArray now
              (fun contentArray =>
                 contentArray ++
                 [toolBlockOf
                    (startedTool t name
                       (if truthyVal input then input else emptyObject) i)])
              (broadcast "chat:tool-use-start"
                 (toolPayload t name
                    (if truthyVal input then input else emptyObject) (Some i))
                 (set_streamIndexToToolId
                    (<[i := t]>
                       (streamIndexToToolId
                          (noteSdkMessage now
                             (stream_event None
                                (content_block_start i
                                   (cb_tool_use t name input))) s)))
                    (noteSdkMessage now
                       (stream_event None
                          (content_block_start i (cb_tool_use t name input)))
                       s)))) as (Hb & _).
  split.
  - etrans; [exact Hb|]. f_equal.
    apply (openBlocks_noteSdkMessage now _ s).
  - rewrite streamIndex_onContentArray. simpl. apply lookup_insert_eq.
Qed.

Lemma tool_delta_blocks now i t d pre tool s :
  openBlocks s = pre ++ [toolBlockOf tool] ->
  findIndex (isToolBlock t) pre = None -> tool_id tool = t ->
  streamIndexToToolId s !! i = Some t ->
  let m := stream_event None (content_block_delta i (input_json_delta d)) in
  let s1 := dispatchSdkMessage now m (noteSdkMessage now m s) in
  openBlocks s1 = pre ++ [toolBlockOf (growInputJson d tool)]
  /\ streamIndexToToolId s1 !! i = Some t.
Proof.
  intros Hblocks Hpre Hid Hi. cbv zeta.
  cbn [dispatchSdkMessage onDelta]. cbv zeta. cbn [truthyOpt].
  rewrite streamIndex_noteSdkMessage, Hi. cbn [nullish].
  unfold handleToolInputDelta.
  match goal with
  | |- context [onContentArray now ?f ?s0] =>
      destruct (openBlocks_onContentArray now f s0) as (Hb & _)
  end.
  split.
  - etrans; [exact Hb|].
    change (openBlocks (broadcast ?e ?p ?s0)) with (openBlocks s0).
    rewrite openBlocks_noteSdkMessage, Hblocks.
    rewrite alterFirst_snoc; [done|done|].
    unfold isToolBlock. simpl. rewrite Hid. by rewrite String.eqb_refl.
  - rewrite streamIndex_onContentArray. simpl.
    by rewrite streamIndex_noteSdkMessage.
Qed.

Lemma growInputJson_fields d tool :
  tool_id (growInputJson d tool) = tool_id tool
  /\ tool_name (growInputJson d tool) = tool_name tool
  /\ tool_input (growInputJson d tool) = tool_input tool
  /\ tool_streamIndex (growInputJson d tool) = tool_streamIndex tool
  /\ tool_result (growInputJson d tool) = tool_result tool
  /\ tool_inputJson (growInputJson d tool)
     = Some (nullish (tool_inputJson tool) "" +:+ d).
Proof. unfold growInputJson. cbv zeta. by destruct (truthyVal _). Qed.

Lemma tool_deltas_blocks i t deltas : forall pre tool j s,
  openBlocks s = pre ++ [toolBlockOf tool] ->
  findIndex (isToolBlock t) pre = None -> tool_id tool = t ->
  tool_inputJson tool = Some j ->
  streamIndexToToolId s !! i = Some t ->
  exists tool',
    openBlocks (consume s (inputDeltaEvents i deltas))
    = pre ++ [toolBlockOf tool']
    /\ streamIndexToToolId (consume s (inputDeltaEvents i deltas)) !! i
       = Some t
    /\ tool_id tool' = t /\ tool_name tool' = tool_name tool
    /\ tool_input tool' = tool_input tool
    /\ tool_streamIndex tool' = tool_streamIndex tool
    /\ tool_result tool' = tool_result tool
    /\ tool_inputJson tool' = Some (j +:+ concatDeltas deltas).
Proof.
  induction deltas as [|[now d] deltas IH]; intros pre tool j s Hb Hpre Hid Hj Hi.
  - exists tool. simpl. rewrite app_empty_r. by repeat split.
  - change (inputDeltaEvents i ((now, d) :: deltas))
      with ((now, stream_event None
                    (content_block_delta i (input_json_delta d)))
            :: inputDeltaEvents i deltas).
    rewrite consume_cons.
    destruct (tool_delta_blocks now i t d pre tool s Hb Hpre Hid Hi)
      as (Hb1 & Hi1).
    destruct (growInputJson_fields d tool) as (G1 & G2 & G3 & G4 & G5 & G6).
    rewrite Hj in G6. simpl in G6.
    destruct (IH pre (growInputJson d tool) (j +:+ d) _ Hb1 Hpre
                ltac:(congruence) G6 Hi1)
      as (tool' & H1 & H2 & H3 & H4 & H5 & H6 & H7 & H8).
    exists tool'. cbn [concatDeltas snd]. rewrite <- app_assoc_s.
    repeat split; congruence.
Qed.

(** X6.  The input of a tool use streams into its block.  After the
    start of the tool use [t] at stream index [i], the deltas of its
    input and the stop of the block, the open message has one more
    block, the one of [t]: its [inputJson] is the deltas one after the
    other, and when that text is not empty and [JSON.parse] takes it,
    [parsedInput] is what it parses to.  This is for a [t] no block of
    the open message has yet, and when no thinking block with the index
    [i] is open. *)
Theorem tool_input_streams_into_block (s : State) (now now' i : Z)
  (t name : string) (input : JsVal) (deltas : list (Z * string)) :
  truthy t = true ->
  findIndex (isToolBlock t) (openBlocks s) = None ->
  findIndex (isOpenThinkingAt i) (openBlocks s) = None ->
  let s' :=
    consume s
      ((now, toolUseStartEvent i t name input)
       :: inputDeltaEvents i deltas ++ [(now', blockStopEvent i)]) in
  exists tool,
    openBlocks s' = openBlocks s ++ [toolBlockOf tool]
    /\ tool_id tool = t /\ tool_name tool = name
    /\ tool_input tool = (if truthyVal input then input else emptyObject)
    /\ tool_streamIndex tool = i
    /\ tool_inputJson tool = Some (concatDeltas deltas)
    /\ tool_result tool = None
    /\ (forall v, concatDeltas deltas <> "" ->
                  JSON_parse (concatDeltas deltas) = Some v ->
                  tool_parsedInput tool = Some v).
Proof.
  intros Ht Hpre Hthink. cbv zeta. rewrite consume_cons.
  destruct (tool_start_blocks now i t name input s) as (Hb0 & Hi0).
  cbv zeta in Hb0, Hi0. unfold consume at 1. rewrite foldl_app.
  fold (consume (dispatchSdkMessage now (toolUseStartEvent i t name input)
                   (noteSdkMessage now (toolUseStartEvent i t name input) s))
          (inputDeltaEvents i deltas)).
  destruct (tool_deltas_blocks i t deltas (openBlocks s) _ "" _ Hb0 Hpre
              eq_refl eq_refl Hi0)
    as (tool & Hb & Hi & H1 & H2 & H3 & H4 & H5 & H6).
  simpl in H2, H3, H4, H5. rewrite app_empty_l in H6.
  set (s1 := consume _ (inputDeltaEvents i deltas)) in *. clearbody s1.
  cbn [foldl fst snd]. unfold blockStopEvent.
  cbn [dispatchSdkMessage]. unfold onBlockStop. cbv zeta. cbn [truthyOpt].
  rewrite streamIndex_noteSdkMessage, Hi. cbn [truthyOpt]. rewrite Ht.
  unfold handleContentBlockStop.
  match goal with
  | |- context [onContentArray now' ?f ?s0] =>
      destruct (openBlocks_onContentArray now' f s0) as (Hb' & _)
  end.
  exists (reconcileInput tool). split.
  - etrans; [exact Hb'|].
    change (openBlocks (broadcast ?e ?p ?s0)) with (openBlocks s0).
    rewrite openBlocks_noteSdkMessage, Hb.
    rewrite (findIndex_snoc _ _ _ Hthink).
    change (isOpenThinkingAt i (toolBlockOf tool)) with false.
    cbn [truthyOpt nullish].
    rewrite Ht. rewrite alterFirst_snoc; [done|done|].
    unfold isToolBlock. simpl. rewrite H1. by rewrite String.eqb_refl.
  - unfold reconcileInput. rewrite H6. cbn [truthyOpt nullish].
    destruct (truthy (concatDeltas deltas)) eqn:Hc.
    + destruct (JSON_parse (concatDeltas deltas)) as [v|] eqn:Hp;
        [|destruct (truthyVal (parsePartialJson (concatDeltas deltas)))];
        repeat split; try done;
        intros v' _ Hv; congruence.
    + repeat split; try done. intros v Hne.
      by destruct (concatDeltas deltas).
Qed.

(** *** A thinking block, from its start to its stop *)

Lemma isOpenThinkingAt_fresh i t0 text :
  isOpenThinkingAt i (thinkingBlockOf i t0 text None None) = true.
Proof.
  unfold isOpenThinkingAt. simpl. by rewrite !bool_decide_true.
Qed.

Lemma thinking_delta_blocks now i d pre t0 text s :
  openBlocks s = pre ++ [thinkingBlockOf i t0 text None None] ->
  findIndex (isOpenThinkingAt i) pre = None ->
  let m := stream_event None (content_block_delta i (thinking_delta d)) in
  openBlocks (dispatchSdkMessage now m (noteSdkMessage now m s))
  = pre ++ [thinkingBlockOf i t0 (text +:+ d) None None].
Proof.
  intros Hblocks Hpre. cbv zeta. cbn [dispatchSdkMessage onDelta].
  unfold handleThinkingChunk.
  match goal with
  | |- context [onContentArray now ?f ?s0] =>
      destruct (openBlocks_onContentArray now f s0) as (Hb & _)
  end.
  etrans; [exact Hb|].
  change (openBlocks (broadcast ?e ?p ?s0)) with (openBlocks s0).
  rewrite openBlocks_noteSdkMessage, Hblocks.
  rewrite alterFirst_snoc; [done|done|apply isOpenThinkingAt_fresh].
Qed.

Lemma thinking_deltas_blocks i t0 deltas : forall pre text s,
  openBlocks s = pre ++ [thinkingBlockOf i t0 text None None] ->
  findIndex (isOpenThinkingAt i) pre = None ->
  openBlocks (consume s (thinkingDeltaEvents i deltas))
  = pre ++ [thinkingBlockOf i t0 (text +:+ concatDeltas deltas) None None].
Proof.
  induction deltas as [|[now d] deltas IH]; intros pre text s Hb Hpre.
  - simpl. by rewrite app_empty_r.
  - change (thinkingDeltaEvents i ((now, d) :: deltas))
      with ((now, stream_event None
                    (content_block_delta i (thinking_delta d)))
            :: thinkingDeltaEvents i deltas).
    rewrite consume_cons.
    pose proof (thinking_delta_blocks now i d pre t0 text s Hb Hpre) as Hb1.
    cbv zeta in Hb1. rewrite (IH pre (text +:+ d) _ Hb1 Hpre).
    cbn [concatDeltas snd]. by rewrite app_assoc_s.
Qed.

(** X7.  A thinking block from its start to its stop.  After the start
    of a thinking block at stream index [i] at time [t0], its deltas and
    the stop of the block at time [t1], the open message has one more
    block: a thinking block whose text is the deltas one after the
    other, which is complete and lasted [t1 - t0].  This is when no
    thinking block with the index [i] was open before, and for a clock
    that does not read 0. *)
Theorem thinking_block_streams_and_closes (s : State) (t0 t1 i : Z)
  (deltas : list (Z * string)) :
  findIndex (isOpenThinkingAt i) (openBlocks s) = None ->
  t0 <> 0%Z ->
  let s' :=
    consume s
      ((t0, stream_event None (content_block_start i cb_thinking))
       :: thinkingDeltaEvents i deltas ++ [(t1, blockStopEvent i)]) in
  openBlocks s'
  = openBlocks s ++
    [thinkingBlockOf i t0 (concatDeltas deltas) (Some (t1 - t0)%Z)
       (Some true)]
  /\ findIndex (isOpenThinkingAt i) (openBlocks s') = None.
Proof.
  intros Hpre Ht0. cbv zeta.
  set (s' := consume s _).
  assert (openBlocks s'
          = openBlocks s ++
            [thinkingBlockOf i t0 (concatDeltas deltas) (Some (t1 - t0)%Z)
               (Some true)]) as Hfinal;
    [|split; [exact Hfinal|]; rewrite Hfinal, (findIndex_snoc _ _ _ Hpre);
      unfold isOpenThinkingAt; simpl; by rewrite andb_false_r].
  subst s'. rewrite consume_cons.
  assert (openBlocks
            (dispatchSdkMessage t0
               (stream_event None (content_block_start i cb_thinking))
               (noteSdkMessage t0
                  (stream_event None (content_block_start i cb_thinking)) s))
          = openBlocks s ++ [thinkingBlockOf i t0 "" None None]) as Hb0.
  { cbn [dispatchSdkMessage onBlockStart]. unfold handleThinkingStart.
    match goal with
    | |- context [onContentArray t0 ?f ?s0] =>
        destruct (openBlocks_onContentArray t0 f s0) as (Hb & _)
    end.
    etrans; [exact Hb|].
    change (openBlocks (broadcast ?e ?p ?s0)) with (openBlocks s0).
    by rewrite openBlocks_noteSdkMessage. }
  unfold consume at 1. rewrite foldl_app.
  match goal with
  | |- context [foldl ?f ?s0 (thinkingDeltaEvents i deltas)] =>
      change (foldl f s0 (thinkingDeltaEvents i deltas))
        with (consume s0 (thinkingDeltaEvents i deltas))
  end.
  pose proof (thinking_deltas_blocks i t0 deltas (openBlocks s) "" _ Hb0 Hpre)
    as Hb. rewrite app_empty_l in Hb.
  set (s1 := consume _ (thinkingDeltaEvents i deltas)) in *. clearbody s1.
  cbn [foldl fst snd]. unfold blockStopEvent.
  cbn [dispatchSdkMessage]. unfold onBlockStop. cbv zeta. cbn [truthyOpt].
  unfold handleContentBlockStop.
  match goal with
  | |- context [onContentArray t1 ?f ?s0] =>
      destruct (openBlocks_onContentArray t1 f s0) as (Hb' & _)
  end.
  assert (forall s0,
            openBlocks (broadcast "chat:content-block-stop" s0
                          (noteSdkMessage t1
                             (stream_event None (content_block_stop i)) s1))
            = openBlocks s ++
              [thinkingBlockOf i t0 (concatDeltas deltas) None None]) as Hb1.
  { intros s0.
    change (openBlocks (broadcast ?e ?p ?s2)) with (openBlocks s2).
    by rewrite openBlocks_noteSdkMessage. }
  set (sf := onContentArray t1 _ _) in *. clearbody sf. rewrite Hb1 in Hb'.
  rewrite (findIndex_snoc _ _ _ Hpre), isOpenThinkingAt_fresh in Hb'.
  rewrite alter_snoc_last in Hb'. unfold thinkingDuration in Hb'.
  simpl in Hb'.
  destruct (t0 =? 0)%Z eqn:Hz; [by apply Z.eqb_eq in Hz|].
  exact Hb'.
Qed.

(** *** The end of a turn *)

Lemma noteSdkMessage_sequence now m s :
  messageSequence (noteSdkMessage now m s) = messageSequence s.
Proof.
  unfold noteSdkMessage, appendLogLine.
  destruct (truthyOpt _), (parseSystemInitInfo m), (sdkJson m); done.
Qed.

(** X8.  A result closes the message being streamed.  The text delta that
    comes after a result message does not go to the message that was
    open: it opens a new assistant message, with the next id, whose
    content is that text; the messages there were are as they were. *)
Theorem text_after_result_opens_new_message (s : State) (t0 t1 i : Z)
  (text : string) :
  let s' := consume s [(t0, result_message); (t1, textDeltaEvent i text)] in
  messages s'
  = messages s ++
    [{| msg_id := pretty (messageSequence s); msg_role := assistant;
        msg_content := CText text; msg_timestamp := toISOString t1 |}]
  /\ messageSequence s' = S (messageSequence s)
  /\ sessionState s' = idle.
Proof.
  cbv zeta. rewrite !consume_cons. cbn [consume foldl].
  set (s1 := dispatchSdkMessage t0 result_message
               (noteSdkMessage t0 result_message s)).
  assert (messages s1 = messages s /\ isStreamingMessage s1 = false
          /\ messageSequence s1 = messageSequence s
          /\ sessionState s1 = idle) as (Hm & Hs & Hq & Hst).
  { subst s1. cbn [dispatchSdkMessage]. unfold handleMessageComplete.
    destruct (noteSdkMessage_transcript t0 result_message s) as (Hm & _).
    pose proof (noteSdkMessage_sequence t0 result_message s) as Hq.
    unfold setSessionState. destruct (decide _) as [Hidle|]; simpl;
      by rewrite ?Hm, ?Hq. }
  clearbody s1.
  destruct (noteSdkMessage_transcript t1 (textDeltaEvent i text) s1)
    as (Hm1 & Hs1 & _).
  pose proof (noteSdkMessage_sequence t1 (textDeltaEvent i text) s1) as Hq1.
  assert (sessionState (noteSdkMessage t1 (textDeltaEvent i text) s1)
          = sessionState s1) as Hst1.
  { unfold noteSdkMessage, appendLogLine.
    destruct (truthyOpt _), (parseSystemInitInfo _), (sdkJson _); done. }
  set (s2 := noteSdkMessage t1 (textDeltaEvent i text) s1) in *.
  clearbody s2. unfold textDeltaEvent. cbn [dispatchSdkMessage onDelta].
  cbn [truthyOpt]. unfold appendTextChunk, ensureAssistantMessage. cbv zeta.
  cbn [messages isStreamingMessage broadcast set_sent messageSequence].
  rewrite Hs1, Hs.
  destruct (last (messages s2)); rewrite ?andb_false_r; simpl;
    rewrite alterLast_snoc; simpl; by rewrite Hm1, Hm, Hq1, Hq, Hst1, Hst.
Qed.

End Blocks.

End BlockFacts.

(** ** The result of a top-level tool *)

Module ResultFacts.
Import Js Session SseFacts SessionFacts WorldFacts ReducerFacts SubagentFacts
  AuditFacts.

Section Results.
Context {host : Host}.

Lemma placed_frame s s' t loc tool :
  messages s' = messages s -> childToolToParent s' = childToolToParent s ->
  placed s t loc tool -> placed s' t loc tool.
Proof.
  intros Hm Hp (Hf & Ht & Hc). unfold placed, findToolBlockById, toolAt in *.
  by rewrite Hm, Hp.
Qed.

Lemma placed_alter s t loc tool (f : ToolUseState -> ToolUseState) :
  (forall x, tool_id (f x) = tool_id x) ->
  placed s t loc tool ->
  placed (alterToolAt loc f s) t loc (f tool)
  /\ skeleton <$> messages (alterToolAt loc f s) = skeleton <$> messages s.
Proof.
  intros Hid (Hf & Ht & Hc). split; [split; [|split]|].
  - by rewrite findToolBlockById_alterToolAt.
  - by rewrite toolAt_alterToolAt, Ht.
  - exact Hc.
  - exact (f_equal a_skeletons (audit_alterToolAt loc f s)).
Qed.

Lemma placed_findSubagentCall s t loc tool :
  placed s t loc tool -> findSubagentCall t s = None.
Proof. intros (_ & _ & Hc). unfold findSubagentCall. by rewrite Hc. Qed.

Lemma getToolResult_at s t loc tool r :
  findToolBlockById t s = Some loc -> toolAt loc s = Some tool ->
  tool_result tool = Some r -> getToolResult t s = Some r.
Proof.
  intros Hf Ht Hr. unfold getToolResult. rewrite Hf.
  cbn [mbind option_bind]. rewrite Ht. exact Hr.
Qed.

(** A tool-result start in the top-level stream sets the result and the
    error flag of the tool. *)
Lemma placed_start now index content is_error s t loc tool :
  placed s t loc tool ->
  truthy (startedResultText content) = true ->
  let s' :=
    dispatchSdkMessage now (resultStartEvent None index t content is_error)
      s in
  placed s' t loc
    (resultedTool (startedResultText content) (nullish is_error false) tool)
  /\ skeleton <$> messages s' = skeleton <$> messages s.
Proof.
  intros Hpl Htext.
  cbn [dispatchSdkMessage resultStartEvent onBlockStart]. cbv zeta.
  rewrite Htext.
  set (s0 := set_toolResultIndexToId _ s).
  assert (placed s0 t loc tool) as Hpl0 by (by apply (placed_frame s)).
  unfold announceResult, parentOf. cbv zeta.
  destruct Hpl0 as (Hf0 & Ht0 & Hc0). rewrite Hc0. cbn [truthyOpt].
  set (s1 := broadcast _ _ s0).
  assert (placed s1 t loc tool) as Hpl1 by (by apply (placed_frame s0)).
  unfold handleToolResultStart, handleSubagentToolResultStart.
  rewrite (placed_findSubagentCall s1 t loc tool Hpl1).
  unfold setToolResult. destruct Hpl1 as (Hf1 & Ht1 & Hc1). rewrite Hf1.
  apply (placed_alter s1 t loc tool); [done|done].
Qed.

(** A tool-result delta is added to the result of the tool. *)
Lemma placed_delta now index text s t loc tool :
  truthy t = true ->
  placed s t loc tool ->
  let s' :=
    dispatchSdkMessage now
      (stream_event (Some t) (content_block_delta index (text_delta text)))
      s in
  placed s' t loc
    (setResult (Some (nullish (tool_result tool) "" +:+ text)) tool)
  /\ skeleton <$> messages s' = skeleton <$> messages s.
Proof.
  intros Htruthy Hpl.
  cbn [dispatchSdkMessage onDelta truthyOpt nullish]. rewrite Htruthy.
  cbv zeta. destruct Hpl as (Hf & Ht & Hc). rewrite Hc.
  set (s1 := broadcast _ _ s).
  assert (placed s1 t loc tool) as Hpl1 by (by apply (placed_frame s)).
  unfold appendToolResultDelta, appendSubagentToolResultDelta.
  rewrite (placed_findSubagentCall s1 t loc tool Hpl1).
  destruct Hpl1 as (Hf1 & Ht1 & Hc1). rewrite Hf1.
  destruct (placed_alter s1 t loc tool
              (fun x => setResult (Some (nullish (tool_result x) "" +:+ text))
                          x)) as [Hp Hs]; done.
Qed.

Lemma placed_deltas deltas : forall s t loc tool r,
  truthy t = true ->
  placed s t loc tool -> tool_result tool = Some r ->
  let s' := consume s (resultDeltaEvents t deltas) in
  placed s' t loc (setResult (Some (r +:+ concatTexts deltas)) tool)
  /\ skeleton <$> messages s' = skeleton <$> messages s.
Proof.
  induction deltas as [|[[now index] text] deltas IH];
    intros s t loc tool r Htruthy Hpl Hr.
  - cbn [resultDeltaEvents map consume foldl concatTexts].
    rewrite app_empty_r. split; [|done].
    replace (setResult (Some r) tool) with tool; [done|].
    destruct tool. simpl in Hr. by rewrite Hr.
  - cbn [resultDeltaEvents map fst snd concatTexts].
    rewrite consume_cons.
    set (m := stream_event (Some t)
                (content_block_delta index (text_delta text))).
    destruct (noteSdkMessage_transcript now m s) as (Hm0 & _ & Hp0).
    assert (placed (noteSdkMessage now m s) t loc tool) as Hpl0
      by (by apply (placed_frame s)).
    destruct (placed_delta now index text _ t loc tool Htruthy Hpl0)
      as [Hpl1 Hs1].
    rewrite Hr in Hpl1. cbn [nullish] in Hpl1.
    destruct (IH _ t loc _ (r +:+ text) Htruthy Hpl1 eq_refl) as [Hpl2 Hs2].
    split.
    + rewrite <- app_assoc_s. exact Hpl2.
    + etrans; [exact Hs2|]. etrans; [exact Hs1|]. by rewrite Hm0.
Qed.

(** A top-level assistant message with a tool-result block sets the
    result and the error flag of the tool. *)
Lemma placed_complete now content is_error s t loc tool :
  placed s t loc tool ->
  let s' := dispatchSdkMessage now (assistantResultEvent t content is_error)
              s in
  placed s' t loc
    (resultedTool (assistantResultText content) (truthyVal is_error) tool)
  /\ skeleton <$> messages s' = skeleton <$> messages s.
Proof.
  intros Hpl.
  cbn [dispatchSdkMessage assistantResultEvent truthyOpt andb truthyVal
       blocksOf foldl]. cbv zeta.
  unfold assistantResultBlock. cbn. cbv zeta.
  unfold announceResult, parentOf. cbv zeta.
  destruct Hpl as (Hf & Ht & Hc). rewrite Hc. cbn [truthyOpt].
  set (s1 := broadcast _ _ s).
  assert (placed s1 t loc tool) as Hpl1 by (by apply (placed_frame s)).
  unfold handleToolResultComplete, handleSubagentToolResultComplete.
  rewrite (placed_findSubagentCall s1 t loc tool Hpl1).
  unfold setToolResult. destruct Hpl1 as (Hf1 & Ht1 & Hc1). rewrite Hf1.
  apply (placed_alter s1 t loc tool); [done|done].
Qed.


End Results.

End ResultFacts.

(** ** The clients of the event stream *)

Module RelayFacts.
Import Js Sse Session Relay.

Section Relaying.
Variable JSON_stringify : Payload -> string.

Local Abbreviation apply := (Relay.apply JSON_stringify).
Local Abbreviation run := (Relay.run JSON_stringify).
Local Abbreviation send := (Relay.send JSON_stringify).
Local Abbreviation frame := (Relay.frame JSON_stringify).
Local Abbreviation framesOf := (Relay.framesOf JSON_stringify).
Local Abbreviation broadcast := (Relay.broadcast JSON_stringify).
Local Abbreviation relay := (Relay.relay JSON_stringify).
Local Abbreviation chatStream := (Relay.chatStream JSON_stringify).

(** Case analysis on the fields of a client. *)
Ltac client_cases c :=
  destruct c as [ctl st pe de cl re oc];
  unfold sound, Relay.send, push, start, cancel, close, unregister in *;
  simpl in *;
  destruct ctl, st, cl, re; simpl in *.

Lemma sound_fresh : sound fresh.
Proof. by repeat split. Qed.

Lemma sound_push p c : sound c -> sound (push p c).
Proof. client_cases c; intuition congruence. Qed.

Lemma sound_apply c op c' : sound c -> apply c op = Some c' -> sound c'.
Proof.
  destruct op as [| |e d|]; cbn [Relay.apply];
    client_cases c; intros Hc [= <-]; simpl; intuition congruence.
Qed.

Lemma sound_run ops : forall c c', sound c -> run c ops = Some c' -> sound c'.
Proof.
  induction ops as [|op ops IH]; intros c c' Hc; simpl.
  - by intros [= <-].
  - destruct (apply c op) as [c1|] eqn:H1; [|done].
    apply IH. by apply (sound_apply c op).
Qed.

(** What was sent is what was delivered followed by what waits. *)
Lemma sent_apply c op c' :
  sound c -> apply c op = Some c' ->
  delivered c' ++ pending c' = delivered c ++ pending c ++ framesOf [op].
Proof.
  destruct op as [| |e d|]; cbn [Relay.apply Relay.framesOf omap];
    client_cases c; intros Hc [= <-]; simpl; rewrite ?app_nil_r; try done.
  all: destruct Hc as (Hc & _); destruct (Hc eq_refl) as (_ & -> & _).
  all: by rewrite !app_nil_r.
Qed.

Lemma framesOf_cons op ops : framesOf (op :: ops) = framesOf [op] ++ framesOf ops.
Proof. unfold Relay.framesOf. simpl. by destruct op. Qed.

Lemma sent_run ops : forall c c',
  sound c -> run c ops = Some c' ->
  delivered c' ++ pending c' = delivered c ++ pending c ++ framesOf ops.
Proof.
  induction ops as [|op ops IH]; intros c c' Hc; cbn [Relay.run].
  - intros [= <-]. simpl. by rewrite !app_nil_r.
  - destruct (apply c op) as [c1|] eqn:H1; [|done]. intros Hrun.
    rewrite (IH c1 c' (sound_apply c op c1 Hc H1) Hrun).
    rewrite (assoc_L (++) (delivered c1)), (sent_apply c op c1 Hc H1).
    rewrite (framesOf_cons op ops). by rewrite <- !(assoc_L (++)).
Qed.

(** While nothing ends the stream, its controller stays once it has
    started. *)
Lemma open_run ops : forall c c',
  sound c -> run c ops = Some c' -> ends ops = false ->
  (started c = true -> controller c = true) ->
  (started c' = true -> controller c' = true)
  /\ (started c = true -> started c' = true).
Proof.
  induction ops as [|op ops IH]; intros c c' Hc; simpl.
  - by intros [= <-].
  - destruct (apply c op) as [c1|] eqn:H1; [|done]. intros Hrun Hends Hopen.
    apply orb_false_iff in Hends as (Hop & Hends).
    assert ((started c1 = true -> controller c1 = true)
            /\ (started c = true -> started c1 = true)) as (Hopen1 & Hst1).
    { destruct op as [| |e d|]; simpl in *; try done.
      - destruct (started c); [done|]. by injection H1 as <-.
      - injection H1 as <-. unfold Relay.send, push.
        by destruct (controller c). }
    destruct (IH c1 c' (sound_apply c op c1 Hc H1) Hrun Hends Hopen1)
      as (H2 & H3).
    split; [exact H2|]. auto.
Qed.

(** X9.  What a client is sent reaches its stream in the order it was
    sent, once.  However a new client is used, the chunks enqueued on
    its stream followed by the chunks that wait in [pending] are the
    frames of the [send]s, in the order of the calls.  As long as the
    stream is neither closed nor cancelled, once it has started nothing
    waits: the stream was given every frame, those sent before the start
    too. *)
Theorem frames_reach_stream_in_order (ops : list Op) (c : Client) :
  run fresh ops = Some c ->
  delivered c ++ pending c = framesOf ops
  /\ (ends ops = false -> started c = true ->
      delivered c = framesOf ops /\ pending c = []).
Proof.
  intros Hrun.
  pose proof (sent_run ops fresh c sound_fresh Hrun) as Hsent.
  simpl in Hsent. split; [exact Hsent|]. intros Hends Hst.
  destruct (open_run ops fresh c sound_fresh Hrun Hends) as (Hctl & _);
    [done|].
  destruct (sound_run ops fresh c sound_fresh Hrun) as (Hc & _).
  destruct (Hc (Hctl Hst)) as (_ & Hp & _).
  rewrite Hp, app_nil_r in Hsent. by split.
Qed.

(** A client that is not registered keeps what its stream was given. *)
Lemma gone_apply c op c' :
  sound c -> registered c = false -> apply c op = Some c' ->
  registered c' = false /\ delivered c' = delivered c
  /\ streamClosed c' = streamClosed c.
Proof.
  intros (Hctl & Hs & Ho) Hr.
  assert (controller c = false) as Ec.
  { destruct (controller c) eqn:Ec; [|done].
    destruct (Hctl eq_refl) as (_ & _ & _ & Hr'). congruence. }
  assert (started c = true) as Es.
  { destruct (started c) eqn:Es; [done|].
    destruct (Hs eq_refl) as (_ & Hr' & _). congruence. }
  destruct op as [| |e d|]; simpl; rewrite ?Es; try done.
  - destruct (negb _); [|done]. intros [= <-].
    unfold cancel, unregister. simpl. by rewrite Hr.
  - intros [= <-]. unfold Relay.send, push. by rewrite Ec.
  - intros [= <-]. unfold close. by rewrite Ec.
Qed.

Lemma gone_run ops : forall c c',
  sound c -> registered c = false -> run c ops = Some c' ->
  registered c' = false /\ delivered c' = delivered c
  /\ streamClosed c' = streamClosed c.
Proof.
  induction ops as [|op ops IH]; intros c c' Hc Hr; simpl.
  - by intros [= <-].
  - destruct (apply c op) as [c1|] eqn:H1; [|done]. intros Hrun.
    destruct (gone_apply c op c1 Hc Hr H1) as (Hr1 & Hd1 & Hcl1).
    destruct (IH c1 c' (sound_apply c op c1 Hc H1) Hr1 Hrun)
      as (Hr' & Hd' & Hcl').
    repeat split; congruence.
Qed.

(** X10.  A client is closed once.  However a new client is used,
    [onClose] was called once when the client is no longer registered
    and never before, so it is never called twice; a [close] before the
    stream has started does nothing at all; and once the client is no
    longer registered, nothing more is enqueued on its stream, whatever
    is done with it, and a broadcast leaves it as it is. *)
Theorem client_is_closed_once (ops : list Op) (c : Client) :
  run fresh ops = Some c ->
  onCloseCalls c = (if registered c then 0 else 1)
  /\ close fresh = fresh
  /\ (registered c = false ->
      (forall event data, broadcast event data [c] = [c])
      /\ forall ops' c',
           run c ops' = Some c' ->
           delivered c' = delivered c /\ registered c' = false
           /\ onCloseCalls c' = 1).
Proof.
  intros Hrun. pose proof (sound_run ops fresh c sound_fresh Hrun) as Hc.
  split; [apply Hc|]. split; [done|]. intros Hr. split.
  - intros e d. unfold Relay.broadcast. simpl. by rewrite Hr.
  - intros ops' c' Hrun'.
    destruct (gone_run ops' c c' Hc Hr Hrun') as (Hr' & Hd' & _).
    destruct (sound_run ops' c c' Hc Hrun') as (_ & _ & Ho').
    rewrite Hr' in Ho'. by repeat split.
Qed.

(** *** Broadcasts *)

Lemma relay_nil hub : relay [] hub = hub.
Proof. reflexivity. Qed.

Lemma relay_length events : forall hub, length (relay events hub) = length hub.
Proof.
  induction events as [|e events IH]; intros hub; [done|]. simpl.
  rewrite IH. unfold Relay.broadcast. by rewrite length_fmap.
Qed.

Lemma relay_cons e events hub :
  relay (e :: events) hub = relay events (broadcast e.1 e.2 hub).
Proof. reflexivity. Qed.

Lemma relay_lookup events : forall hub i c,
  hub !! i = Some c ->
  relay events hub !! i
  = Some (if registered c
          then foldl (fun c e => send e.1 e.2 c) c events
          else c).
Proof.
  induction events as [|e events IH]; intros hub i c Hi.
  - rewrite relay_nil, Hi. by destruct (registered c).
  - rewrite relay_cons.
    rewrite (IH (broadcast e.1 e.2 hub) i
               (if registered c then send e.1 e.2 c else c)).
    + destruct (registered c) eqn:Hr; [|by rewrite Hr].
      assert (registered (send e.1 e.2 c) = true) as ->; [|done].
      unfold Relay.send, push. by destruct (controller c).
    + unfold Relay.broadcast. by rewrite list_lookup_fmap, Hi.
Qed.

Lemma sends_run events : forall c,
  run c ((fun e => Send e.1 e.2) <$> events)
  = Some (foldl (fun c e => send e.1 e.2 c) c events).
Proof. induction events as [|e events IH]; intros c; [done|]. simpl. apply IH. Qed.

Lemma framesOf_sends events :
  framesOf ((fun e => Send e.1 e.2) <$> events) = frame <$> events.
Proof.
  induction events as [|[e d] events IH]; [done|].
  rewrite fmap_cons, framesOf_cons, IH. done.
Qed.

Lemma sends_registered events : forall c,
  registered (foldl (fun c e => send e.1 e.2 c) c events) = registered c
  /\ controller (foldl (fun c e => send e.1 e.2 c) c events) = controller c.
Proof.
  induction events as [|e events IH]; intros c; [done|].
  cbn [foldl]. destruct (IH (send e.1 e.2 c)) as (-> & ->).
  unfold Relay.send, push. by destruct (controller c).
Qed.

Lemma sends_sent events c :
  sound c ->
  sound (foldl (fun c e => send e.1 e.2 c) c events)
  /\ delivered (foldl (fun c e => send e.1 e.2 c) c events)
     ++ pending (foldl (fun c e => send e.1 e.2 c) c events)
     = delivered c ++ pending c ++ (frame <$> events).
Proof.
  intros Hc. pose proof (sends_run events c) as Hrun. split.
  - by apply (sound_run _ _ _ Hc Hrun).
  - rewrite (sent_run _ _ _ Hc Hrun). by rewrite framesOf_sends.
Qed.

(** X11.  A client that connects gets the state, then the transcript,
    then the log lines, then what is broadcast, in that order.  After the
    handler of [GET /chat/stream] has run in state [s] and the events
    [events] were broadcast, the stream of the new client was given the
    frame of [chat:init] with the state of [s], one [chat:message-replay]
    frame for each message of the transcript of [s] in order, the
    [chat:logs] frame, and the frames of [events] in order; when its
    stream has started nothing waits.  A client that was connected
    before was given the frames of [events] in addition when it is
    registered, and nothing when it is not. *)
Theorem connected_client_gets_greeting_then_broadcasts (hub : Hub)
  (s : State) (events : list (string * Payload)) (c0 : Client) :
  c0 = fresh \/ c0 = start fresh ->
  Forall sound hub ->
  let hub' := relay events (chatStream c0 s hub) in
  (exists c,
      hub' !! length hub = Some c
      /\ delivered c ++ pending c = frame <$> (greeting s ++ events)
      /\ (c0 = start fresh ->
          delivered c = frame <$> (greeting s ++ events) /\ pending c = []))
  /\ forall i c,
       hub !! i = Some c ->
       exists c',
         hub' !! i = Some c'
         /\ delivered c' ++ pending c'
            = delivered c ++ pending c ++
              (if registered c then frame <$> events else []).
Proof.
  intros Hc0 Hhub. cbv zeta. unfold Relay.chatStream. split.
  - assert (sound c0 /\ registered c0 = true
            /\ delivered c0 ++ pending c0 = []) as (Hs0 & Hr0 & Hd0).
    { destruct Hc0 as [->| ->]; [by split; [apply sound_fresh|]|].
      split; [|done]. by apply (sound_apply fresh Start). }
    destruct (sends_registered (greeting s) c0) as (Hr1 & _).
    rewrite Hr0 in Hr1.
    exists (foldl (fun c e => send e.1 e.2 c) c0 (greeting s ++ events)).
    destruct (sends_sent (greeting s ++ events) c0 Hs0) as (Hs2 & Hsent).
    rewrite (assoc_L (++)), Hd0, app_nil_l in Hsent.
    split; [|split; [exact Hsent|]].
    + rewrite (relay_lookup events _ (length hub)
                 (foldl (fun c e => send e.1 e.2 c) c0 (greeting s))).
      * by rewrite Hr1, foldl_app.
      * by rewrite lookup_app_r, Nat.sub_diag.
    + intros Hst.
      destruct (sends_registered (greeting s ++ events) c0) as (_ & Hctl).
      assert (controller c0 = true) as Hctl0 by (by rewrite Hst).
      rewrite Hctl0 in Hctl.
      destruct Hs2 as (Hopen & _). destruct (Hopen Hctl) as (_ & Hp & _).
      rewrite Hp, app_nil_r in Hsent. by split.
  - intros i c Hi.
    assert (sound c) as Hc
      by (eapply (proj1 (Forall_forall _ _) Hhub), list_elem_of_lookup_2, Hi).
    rewrite (relay_lookup events _ i c)
      by (by apply lookup_app_l_Some).
    eexists. split; [reflexivity|].
    destruct (registered c); [|by rewrite app_nil_r].
    by destruct (sends_sent events c Hc) as (_ & ->).
Qed.

End Relaying.

End RelayFacts.

(** ** The input of a sub-agent's tool use *)

Module CallFacts.
Import Js Session SseFacts SessionFacts WorldFacts ReducerFacts SubagentFacts
  AuditFacts BlockFacts.

Section Calls.
Context {host : Host}.

Lemma toolResultIndex_noteSdkMessage now m s :
  toolResultIndexToId (noteSdkMessage now m s) = toolResultIndexToId s.
Proof.
  unfold noteSdkMessage, appendLogLine.
  destruct (truthyOpt _), (parseSystemInitInfo m), (sdkJson m); done.
Qed.

(** An update of the entry for [c] through [find], as the handlers of
    the input do it. *)
Lemma filed_alterFirst s P c loc calls0 entry
  (g : SubagentToolCall -> SubagentToolCall) :
  call_id (g entry) = call_id entry ->
  filed s P c loc calls0 entry ->
  filed
    (alterToolAt loc
       (fun t =>
          match tool_subagentCalls t with
          | None => t
          | Some calls =>
              setSubagentCalls (Some (alterFirst (isCall c) g calls)) t
          end) s)
    P c loc calls0 (g entry).
Proof.
  unfold filed. intros Hg (Hmap & Hfind & Hcalls & Hnone & Hid).
  split; [done|]. split.
  { rewrite findToolBlockById_alterToolAt; [done|].
    intros t. by destruct (tool_subagentCalls t). }
  split.
  { rewrite toolAt_alterToolAt.
    destruct (toolAt loc s) as [t|]; [|done]. simpl in *.
    rewrite Hcalls. simpl.
    rewrite alterFirst_snoc; [done|done|by apply isCall_refl]. }
  split; [done|]. by rewrite Hg.
Qed.

(** The start of the tool use files the entry under the parent. *)
Lemma filed_toolUseStart now i name input s P c loc :
  truthy P = true ->
  findToolBlockById P s = Some loc ->
  findIndex (isCall c) (subagentCallsOf P s) = None ->
  let s' :=
    dispatchSdkMessage now (subagentToolUseStartEvent P i c name input) s in
  filed s' P c loc (subagentCallsOf P s)
    (startedCall c name (if truthyVal input then input else emptyObject) i)
  /\ streamIndexToToolId s' !! i = Some c
  /\ toolResultIndexToId s' = toolResultIndexToId s.
Proof.
  intros HP Hfind Hnone.
  cbn [dispatchSdkMessage subagentToolUseStartEvent onBlockStart truthyOpt
       nullish]. cbv zeta. rewrite HP.
  unfold handleSubagentToolUseStart.
  match goal with
  | |- context [findToolBlockById P ?s0] =>
      change (findToolBlockById P s0) with (findToolBlockById P s)
  end.
  rewrite Hfind. cbv zeta.
  destruct (findToolBlockById_toolAt P s loc Hfind) as [t Ht].
  assert (subagentCallsOf P s = nullish (tool_subagentCalls t) []) as Hcalls.
  { unfold subagentCallsOf. rewrite Hfind, Ht. done. }
  split; [|split].
  - unfold filed. split; [exact (lookup_insert_eq _ c P)|]. split.
    { rewrite findToolBlockById_alterToolAt; [done|].
      intros x. cbv beta.
      destruct (findIndex (isCall c) (nullish (tool_subagentCalls x) []));
        reflexivity. }
    split.
    { rewrite toolAt_alterToolAt.
      match goal with
      | |- context [toolAt loc ?s0] =>
          change (toolAt loc s0) with (toolAt loc s)
      end.
      rewrite Ht. cbn [fmap option_fmap option_map mbind option_bind].
      rewrite <- Hcalls, Hnone. done. }
    split; [done|done].
  - exact (lookup_insert_eq _ i c).
  - done.
Qed.

(** A delta of the input is added to the [inputJson] of the entry. *)
Lemma filed_inputDelta now i text s P c loc calls0 entry :
  truthy P = true ->
  filed s P c loc calls0 entry ->
  streamIndexToToolId s !! i = Some c ->
  let s' :=
    dispatchSdkMessage now
      (stream_event (Some P) (content_block_delta i (input_json_delta text)))
      s in
  exists entry',
    filed s' P c loc calls0 entry'
    /\ streamIndexToToolId s' = streamIndexToToolId s
    /\ toolResultIndexToId s' = toolResultIndexToId s
    /\ call_inputJson entry'
       = Some (nullish (call_inputJson entry) "" +:+ text)
    /\ call_name entry' = call_name entry
    /\ call_input entry' = call_input entry
    /\ call_streamIndex entry' = call_streamIndex entry
    /\ call_result entry' = call_result entry.
Proof.
  intros HP Hf Hi.
  cbn [dispatchSdkMessage onDelta truthyOpt nullish]. cbv zeta.
  rewrite HP, Hi. cbn [nullish].
  set (s1 := broadcast _ _ s).
  assert (filed s1 P c loc calls0 entry) as Hf1 by (by apply (filed_frame s)).
  unfold handleSubagentToolInputDelta.
  destruct Hf1 as (Hmap & Hfind & Hrest). rewrite Hfind.
  eexists. split.
  { apply (filed_alterFirst s1 P c loc calls0 entry); [|by split].
    cbv zeta. by destruct (truthyVal _). }
  cbv zeta. by destruct (truthyVal _).
Qed.

Lemma filed_inputDeltas deltas : forall i s P c loc calls0 entry j,
  truthy P = true ->
  filed s P c loc calls0 entry ->
  streamIndexToToolId s !! i = Some c ->
  call_inputJson entry = Some j ->
  let s' := consume s (subagentInputDeltaEvents P i deltas) in
  exists entry',
    filed s' P c loc calls0 entry'
    /\ streamIndexToToolId s' = streamIndexToToolId s
    /\ toolResultIndexToId s' = toolResultIndexToId s
    /\ call_inputJson entry' = Some (j +:+ concatDeltas deltas)
    /\ call_name entry' = call_name entry
    /\ call_input entry' = call_input entry
    /\ call_streamIndex entry' = call_streamIndex entry
    /\ call_result entry' = call_result entry.
Proof.
  induction deltas as [|[now text] deltas IH];
    intros i s P c loc calls0 entry j HP Hf Hi Hj.
  - cbn [subagentInputDeltaEvents map consume foldl concatDeltas].
    exists entry. rewrite app_empty_r. split; [exact Hf|]. by repeat split.
  - cbn [subagentInputDeltaEvents map fst snd concatDeltas].
    rewrite consume_cons.
    set (m := stream_event (Some P)
                (content_block_delta i (input_json_delta text))).
    destruct (noteSdkMessage_transcript now m s) as (Hm0 & _ & Hp0).
    assert (filed (noteSdkMessage now m s) P c loc calls0 entry) as Hf0
      by (by apply (filed_frame s)).
    assert (streamIndexToToolId (noteSdkMessage now m s) !! i = Some c) as Hi0
      by (by rewrite streamIndex_noteSdkMessage).
    destruct (filed_inputDelta now i text _ P c loc calls0 entry HP Hf0 Hi0)
      as (e1 & Hf1 & Hi1 & Hr1 & Hj1 & Hn1 & Hin1 & Hs1 & Hres1).
    rewrite Hj in Hj1. cbn [nullish] in Hj1.
    destruct (IH i _ P c loc calls0 e1 (j +:+ text) HP Hf1) as
      (e2 & Hf2 & Hi2 & Hr2 & Hj2 & Hn2 & Hin2 & Hs2 & Hres2);
      [by rewrite Hi1|exact Hj1|].
    subst m. exists e2. split; [exact Hf2|].
    split;
      [etrans; [exact Hi2|]; by rewrite Hi1, streamIndex_noteSdkMessage|].
    split;
      [etrans; [exact Hr2|];
       by rewrite Hr1, toolResultIndex_noteSdkMessage|].
    split; [by rewrite Hj2, app_assoc_s|].
    split; [congruence|]. split; [congruence|]. split; congruence.
Qed.

(** The stop of the block parses the [inputJson] of the entry. *)
Lemma filed_blockStop now i s P c loc calls0 entry j :
  truthy P = true -> truthy c = true ->
  filed s P c loc calls0 entry ->
  streamIndexToToolId s !! i = Some c ->
  toolResultIndexToId s !! i = None ->
  call_inputJson entry = Some j ->
  let s' := dispatchSdkMessage now (subagentBlockStopEvent P i) s in
  exists entry',
    filed s' P c loc calls0 entry'
    /\ call_inputJson entry' = Some j
    /\ call_name entry' = call_name entry
    /\ call_input entry' = call_input entry
    /\ call_streamIndex entry' = call_streamIndex entry
    /\ call_result entry' = call_result entry
    /\ (forall v, truthy j = true -> JSON_parse j = Some v ->
                  call_parsedInput entry' = Some v).
Proof.
  intros HP Hc Hf Hi Hr Hj.
  cbn [dispatchSdkMessage subagentBlockStopEvent]. unfold onBlockStop.
  cbv zeta. cbn [truthyOpt nullish]. rewrite HP, Hi. cbn [truthyOpt nullish].
  rewrite Hc. unfold finalizeSubagentToolInput.
  destruct Hf as (Hmap & Hfind & Hrest). rewrite Hfind.
  match goal with
  | |- context [toolResultIndexToId (alterToolAt ?l ?f ?s0)] =>
      change (toolResultIndexToId (alterToolAt l f s0))
        with (toolResultIndexToId s0)
  end.
  rewrite Hr. cbn [truthyOpt].
  eexists. split.
  { apply (filed_alterFirst s P c loc calls0 entry); [|by split].
    cbv zeta. destruct (truthyOpt _); [|done].
    destruct (JSON_parse _); [done|]. by destruct (truthyVal _). }
  cbv zeta. rewrite Hj. cbn [truthyOpt nullish].
  destruct (truthy j) eqn:Htj.
  - destruct (JSON_parse j) as [v|] eqn:Hparse.
    + by repeat split.
    + destruct (truthyVal _); by repeat split.
  - by repeat split.
Qed.

(** X20.  The input of a sub-agent's tool use.  Take a tool [P] whose
    block is in the transcript and that has no sub-agent call [c] yet.
    After the start of the tool use [c] in the stream of [P], the deltas
    of its input and the stop of the block, [c] is filed under [P] as
    the last of its calls, with the name and the input of the start.
    Its [inputJson] is [JSON.stringify(input, null, 2)] followed by the
    deltas, one after the other: unlike a top-level tool, whose
    [inputJson] starts empty, the call starts from the text of the input
    the start came with.  When that text is not empty and [JSON.parse]
    takes it, [parsedInput] is what it parses to.  This is when no tool
    result is open at the stream index. *)
Theorem subagent_tool_input_streams_into_call (s : State) (now now' i : Z)
  (P c name : string) (input : JsVal) (deltas : list (Z * string))
  (loc : nat * nat) :
  truthy P = true -> truthy c = true ->
  findToolBlockById P s = Some loc ->
  findIndex (isCall c) (subagentCallsOf P s) = None ->
  toolResultIndexToId s !! i = None ->
  let input' := if truthyVal input then input else emptyObject in
  let json := JSON_stringify2 input' +:+ concatDeltas deltas in
  let s' :=
    consume s
      ((now, subagentToolUseStartEvent P i c name input)
       :: subagentInputDeltaEvents P i deltas
       ++ [(now', subagentBlockStopEvent P i)]) in
  childToolToParent s' !! c = Some P
  /\ exists entry,
       subagentCallsOf P s' = subagentCallsOf P s ++ [entry]
       /\ subagentCall P c s' = Some entry
       /\ call_id entry = c /\ call_name entry = name
       /\ call_input entry = input'
       /\ call_streamIndex entry = Some i
       /\ call_inputJson entry = Some json
       /\ call_result entry = None
       /\ (forall v, truthy json = true -> JSON_parse json = Some v ->
                     call_parsedInput entry = Some v).
Proof.
  intros HP Hc Hfind Hnone Hr. cbv zeta. rewrite consume_cons.
  set (m := subagentToolUseStartEvent P i c name input).
  destruct (noteSdkMessage_transcript now m s) as (Hm0 & _ & Hp0).
  assert (findToolBlockById P (noteSdkMessage now m s) = Some loc) as Hfind0.
  { unfold findToolBlockById in *. by rewrite Hm0. }
  assert (subagentCallsOf P (noteSdkMessage now m s) = subagentCallsOf P s)
    as Hcalls0.
  { unfold subagentCallsOf, findToolBlockById, toolAt. by rewrite Hm0. }
  pose proof (toolResultIndex_noteSdkMessage now m s) as Hr0.
  destruct (filed_toolUseStart now i name input (noteSdkMessage now m s) P c
              loc HP Hfind0) as (Hf1 & Hi1 & Hr1).
  { by rewrite Hcalls0. }
  rewrite Hcalls0 in Hf1. fold m in Hf1, Hi1, Hr1.
  set (s1 := dispatchSdkMessage now m (noteSdkMessage now m s)) in *.
  unfold consume. rewrite foldl_app.
  fold (consume s1 (subagentInputDeltaEvents P i deltas)).
  destruct (filed_inputDeltas deltas i s1 P c loc _ _ _ HP Hf1 Hi1 eq_refl)
    as (e2 & Hf2 & Hi2 & Hr2 & Hj2 & Hn2 & Hin2 & Hs2 & Hres2).
  set (s2 := consume s1 (subagentInputDeltaEvents P i deltas)) in *.
  cbn [foldl fst snd].
  set (m' := subagentBlockStopEvent P i).
  destruct (noteSdkMessage_transcript now' m' s2) as (Hm3 & _ & Hp3).
  assert (filed (noteSdkMessage now' m' s2) P c loc (subagentCallsOf P s) e2)
    as Hf3 by (by apply (filed_frame s2)).
  assert (toolResultIndexToId (noteSdkMessage now' m' s2) !! i = None) as Hr3.
  { by rewrite toolResultIndex_noteSdkMessage, Hr2, Hr1, Hr0. }
  destruct (filed_blockStop now' i _ P c loc _ e2
              (JSON_stringify2 (if truthyVal input then input else emptyObject)
               +:+ concatDeltas deltas) HP Hc Hf3)
    as (e3 & Hf4 & Hj4 & Hn4 & Hin4 & Hs4 & Hres4 & Hparse);
    [by rewrite streamIndex_noteSdkMessage, Hi2|exact Hr3|exact Hj2|].
  fold m' in Hf4.
  pose proof (filed_subagentCall _ _ _ _ _ _ Hf4) as Hsub.
  destruct Hf4 as (Hmap4 & Hfind4 & Hcalls4 & _ & Hid4).
  split; [exact Hmap4|]. exists e3. split.
  { unfold subagentCallsOf at 1. rewrite Hfind4. by rewrite Hcalls4. }
  split; [exact Hsub|]. split; [exact Hid4|].
  split; [by rewrite Hn4, Hn2|]. split; [by rewrite Hin4, Hin2|].
  split; [by rewrite Hs4, Hs2|]. split; [exact Hj4|].
  split; [by rewrite Hres4, Hres2|]. exact Hparse.
Qed.


(** *** The result of a sub-agent's tool use, from its start to its stop *)

(** The two tables of stream indexes; the handlers of the text deltas
    write neither. *)
Lemma indexes_alterCallAt at_ g s :
  streamIndexToToolId (alterCallAt at_ g s) = streamIndexToToolId s
  /\ toolResultIndexToId (alterCallAt at_ g s) = toolResultIndexToId s.
Proof. done. Qed.

Lemma indexes_resultDelta now index text s c :
  let s' :=
    dispatchSdkMessage now
      (stream_event (Some c) (content_block_delta index (text_delta text)))
      s in
  streamIndexToToolId s' = streamIndexToToolId s
  /\ toolResultIndexToId s' = toolResultIndexToId s.
Proof.
  cbn [dispatchSdkMessage onDelta truthyOpt nullish]. cbv zeta.
  destruct (truthy c).
  - set (s1 := match childToolToParent s !! c with
               | Some _ => _ | None => _ end).
    assert (streamIndexToToolId s1 = streamIndexToToolId s
            /\ toolResultIndexToId s1 = toolResultIndexToId s) as [H1 H2].
    { subst s1. destruct (childToolToParent s !! c) as [q|];
        [destruct (truthy q)|]; done. }
    rewrite <- H1, <- H2. clearbody s1.
    unfold appendToolResultDelta, appendSubagentToolResultDelta.
    destruct (findSubagentCall c s1); [done|].
    by destruct (findToolBlockById c s1).
  - unfold appendTextChunk. cbn.
    unfold ensureAssistantMessage. cbn.
    destruct (last (messages s)) as [m|]; [|done].
    by destruct (bool_decide _ && _).
Qed.

Lemma indexes_resultDeltas deltas : forall s c,
  let s' := consume s (resultDeltaEvents c deltas) in
  streamIndexToToolId s' = streamIndexToToolId s
  /\ toolResultIndexToId s' = toolResultIndexToId s.
Proof.
  induction deltas as [|[[now index] text] deltas IH]; intros s c; [done|].
  cbn [resultDeltaEvents map fst snd]. rewrite consume_cons.
  destruct (IH (dispatchSdkMessage now
                  (stream_event (Some c)
                     (content_block_delta index (text_delta text)))
                  (noteSdkMessage now
                     (stream_event (Some c)
                        (content_block_delta index (text_delta text))) s)) c)
    as [H1 H2].
  destruct (indexes_resultDelta now index text
              (noteSdkMessage now
                 (stream_event (Some c)
                    (content_block_delta index (text_delta text))) s) c)
    as [H3 H4].
  split.
  - etrans; [exact H1|]. etrans; [exact H3|].
    apply streamIndex_noteSdkMessage.
  - etrans; [exact H2|]. etrans; [exact H4|].
    apply toolResultIndex_noteSdkMessage.
Qed.

(** A tool-result start for a child that is filed stores the text on
    its entry, whatever parent the message names. *)
Lemma filed_resultStart now i content is_error parent s P c loc calls0 entry :
  truthy P = true ->
  filed s P c loc calls0 entry ->
  truthy (startedResultText content) = true ->
  let s' :=
    dispatchSdkMessage now (resultStartEvent parent i c content is_error) s in
  filed s' P c loc calls0
    (setCallIsLoading (Some true)
       (setCallIsError (Some (nullish is_error false))
          (setCallResult (Some (startedResultText content)) entry)))
  /\ streamIndexToToolId s' = streamIndexToToolId s
  /\ toolResultIndexToId s' !! i = Some c.
Proof.
  intros HP Hf Htext.
  cbn [dispatchSdkMessage resultStartEvent onBlockStart]. cbv zeta.
  rewrite Htext.
  set (s0 := set_toolResultIndexToId _ s).
  assert (filed s0 P c loc calls0 entry) as Hf0 by (by apply (filed_frame s)).
  set (s1 := announceResult _ _ _ _ _ s0).
  assert (messages s1 = messages s0
          /\ childToolToParent s1 = childToolToParent s0
          /\ streamIndexToToolId s1 = streamIndexToToolId s0
          /\ toolResultIndexToId s1 = toolResultIndexToId s0)
    as (Hm1 & Hp1 & Hi1 & Hr1).
  { subst s1. unfold announceResult, parentOf. cbv zeta.
    destruct Hf0 as (Hmap0 & _). rewrite Hmap0. cbn [truthyOpt]. rewrite HP.
    rewrite bool_decide_eq_true_2 by eauto. done. }
  assert (filed s1 P c loc calls0 entry) as Hf1 by (by apply (filed_frame s0)).
  split; [by apply filed_handleToolResultStart|].
  unfold handleToolResultStart, handleSubagentToolResultStart.
  rewrite (filed_findSubagentCall _ _ _ _ _ _ HP Hf1).
  split.
  - etrans; [apply indexes_alterCallAt|]. by rewrite Hi1.
  - replace (toolResultIndexToId (alterCallAt _ _ s1))
      with (toolResultIndexToId s0) by (symmetry; exact Hr1).
    exact (lookup_insert_eq _ i c).
Qed.

(** The stop of the block closes the result and tells the clients what
    it is. *)
Lemma filed_resultStop now i p s P c loc calls0 entry r :
  truthy P = true -> truthy c = true -> truthy p = true ->
  filed s P c loc calls0 entry ->
  streamIndexToToolId s !! i = None ->
  toolResultIndexToId s !! i = Some c ->
  call_result entry = Some r ->
  let s' := dispatchSdkMessage now (subagentBlockStopEvent p i) s in
  filed s' P c loc calls0 (setCallIsLoading (Some false) entry)
  /\ toolResultIndexToId s' !! i = None
  /\ sent s'
     = sent s
       ++ [("chat:subagent-tool-result-complete",
            Jobj [("parentToolUseId", Jstr P); ("toolUseId", Jstr c);
                  ("content", Jstr r)])].
Proof.
  intros HP Hc Hp Hf Hi Hr Hres.
  cbn [dispatchSdkMessage subagentBlockStopEvent]. unfold onBlockStop.
  cbv zeta. cbn [truthyOpt nullish]. rewrite Hp, Hi. cbn [truthyOpt].
  rewrite Hr. cbn [truthyOpt nullish]. rewrite Hc.
  set (s0 := set_toolResultIndexToId _ s).
  assert (filed s0 P c loc calls0 entry) as Hf0 by (by apply (filed_frame s)).
  unfold finalizeSubagentToolResult.
  rewrite (filed_findSubagentCall _ _ _ _ _ _ HP Hf0).
  pose proof (filed_alterCallAt s0 P c loc calls0 entry
                (setCallIsLoading (Some false)) eq_refl Hf0) as Hf1.
  set (s1 := alterCallAt _ _ s0) in *.
  assert (getSubagentToolResult c s1 = Some r) as Hget.
  { unfold getSubagentToolResult.
    rewrite (filed_findSubagentCall _ _ _ _ _ _ HP Hf1).
    cbn [mbind option_bind]. unfold callAt. cbn [fst snd].
    destruct Hf1 as (_ & _ & Hcalls & _). rewrite Hcalls.
    cbn [mbind option_bind]. rewrite lookup_app_r, Nat.sub_diag by done.
    exact Hres. }
  rewrite Hget. destruct Hf1 as (Hmap1 & Hrest1). rewrite Hmap1.
  cbn [truthyOpt nullish JstrOpt]. rewrite HP.
  split; [by apply (filed_frame s1); [done|done|split]|].
  split; [|done].
  exact (lookup_delete_eq _ i).
Qed.


End Calls.

End CallFacts.

(** ** The HTTP entry point: command line, previews and uploads *)

Module HttpFacts.
Import Js Http SseFacts.

(** *** The command line *)

Lemma indexOf_None flag args :
  indexOf flag args = None <-> flag ∉ args.
Proof.
  induction args as [|a args IH]; simpl.
  - split; [intros _; apply not_elem_of_nil|done].
  - rewrite not_elem_of_cons. destruct (String.eqb a flag) eqn:Ha.
    + apply String.eqb_eq in Ha as ->. split; [done|by intros [? _]].
    + apply String.eqb_neq in Ha. destruct (indexOf flag args); simpl.
      * split; [done|]. intros [_ Hn]. by apply IH in Hn.
      * split; [|done]. intros _. split; [done|]. by apply IH.
Qed.

Lemma indexOf_first flag pre rest :
  flag ∉ pre -> indexOf flag (pre ++ flag :: rest) = Some (length pre).
Proof.
  induction pre as [|a pre IH]; simpl.
  - intros _. by rewrite String.eqb_refl.
  - intros [Hne Hpre]%not_elem_of_cons.
    destruct (String.eqb a flag) eqn:Ha;
      [by apply String.eqb_eq in Ha as ->|].
    by rewrite IH.
Qed.

(** The value of a flag is the argument after its first occurrence. *)
Lemma getArgValue_first flag pre v rest :
  flag ∉ pre -> getArgValue (pre ++ flag :: v :: rest) flag = Some v.
Proof.
  intros Hpre. unfold getArgValue. rewrite indexOf_first by done.
  rewrite lookup_app_r by lia.
  by replace (length pre + 1 - length pre) with 1 by lia.
Qed.

Lemma getArgValue_last flag pre :
  flag ∉ pre -> getArgValue (pre ++ [flag]) flag = None.
Proof.
  intros Hpre. unfold getArgValue. rewrite indexOf_first by done.
  apply lookup_ge_None. rewrite length_app. simpl. lia.
Qed.

Lemma getArgValue_absent flag args :
  flag ∉ args -> getArgValue args flag = None.
Proof.
  intros Hn. unfold getArgValue. by apply indexOf_None in Hn as ->.
Qed.

Section CommandLine.
Variable Num : Type.
Variable Number_ : string -> option Num.
Variable n3000 : Num.

Local Abbreviation parseArgs := (Http.parseArgs Num Number_ n3000).

(** X12.  The command line.  [parseArgs] skips the first two arguments
    and reads each flag at its first occurrence: its value is the
    argument that follows, whatever that argument is.  With a value of
    [--agent-dir] that is not empty it returns that directory, the value
    of [--prompt] when there is one, and as port the number the value of
    [--port] reads as, or 3000 when there is no [--port] or its value is
    not a number.  It throws when [--agent-dir] is missing, is the last
    argument, or has the empty value. *)
Theorem parseArgs_reads_first_occurrence (argv : list string) :
  let args := drop 2 argv in
  (forall pre v rest,
      args = pre ++ "--agent-dir" :: v :: rest -> "--agent-dir" ∉ pre ->
      v <> "" ->
      exists r,
        parseArgs argv = inr r /\ arg_agentDir r = v
        /\ arg_initialPrompt r = getArgValue args "--prompt"
        /\ ("--prompt" ∉ args -> arg_initialPrompt r = None)
        /\ (forall pre' p rest',
               args = pre' ++ "--prompt" :: p :: rest' -> "--prompt" ∉ pre' ->
               arg_initialPrompt r = Some p)
        /\ ("--port" ∉ args -> arg_port r = n3000)
        /\ (forall pre' p rest',
               args = pre' ++ "--port" :: p :: rest' -> "--port" ∉ pre' ->
               arg_port r = nullish (Number_ p) n3000))
  /\ ("--agent-dir" ∉ args
      \/ (exists pre, args = pre ++ ["--agent-dir"] /\ "--agent-dir" ∉ pre)
      \/ (exists pre rest,
             args = pre ++ "--agent-dir" :: "" :: rest
             /\ "--agent-dir" ∉ pre) ->
      parseArgs argv = inl "Missing required argument: --agent-dir <path>").
Proof.
  cbv zeta. set (args := drop 2 argv). split.
  - intros pre v rest Hargs Hpre Hv.
    assert (getArgValue args "--agent-dir" = Some v) as Hdir
      by (rewrite Hargs; by apply getArgValue_first).
    unfold Http.parseArgs. cbv zeta. fold args. rewrite Hdir.
    cbn [nullish]. destruct v as [|c v]; [done|]. cbn [truthy].
    eexists. split; [reflexivity|].
    cbn [arg_agentDir arg_initialPrompt arg_port].
    split; [done|]. split; [done|]. split; [|split; [|split]].
    + intros Hn. by apply getArgValue_absent.
    + intros pre' p rest' Heq Hn. rewrite Heq. by apply getArgValue_first.
    + intros Hn. by rewrite getArgValue_absent.
    + intros pre' p rest' Heq Hn. rewrite Heq. by rewrite getArgValue_first.
  - unfold Http.parseArgs. cbv zeta. fold args.
    intros [Hn|[(pre & Heq & Hpre)|(pre & rest & Heq & Hpre)]].
    + by rewrite (getArgValue_absent _ _ Hn).
    + by rewrite Heq, (getArgValue_last _ _ Hpre).
    + by rewrite Heq, (getArgValue_first _ _ _ _ Hpre).
Qed.

End CommandLine.

(** *** Files that can be previewed *)

Lemma lowerChar_dot c :
  Ascii.eqb (lowerChar c) "."%char = Ascii.eqb c "."%char.
Proof.
  destruct c as [[] [] [] [] [] [] [] []]; reflexivity.
Qed.

Lemma lowerChar_idem c : lowerChar (lowerChar c) = lowerChar c.
Proof.
  destruct c as [[] [] [] [] [] [] [] []]; reflexivity.
Qed.

Lemma toLowerCase_idem s : toLowerCase (toLowerCase s) = toLowerCase s.
Proof.
  induction s as [|c s IH]; [done|]. simpl. by rewrite lowerChar_idem, IH.
Qed.

Lemma toLowerCase_app a b :
  toLowerCase (a +:+ b) = toLowerCase a +:+ toLowerCase b.
Proof.
  induction a as [|c a IH]; [done|]. rewrite app_cons. simpl.
  by rewrite IH, app_cons.
Qed.

Lemma noDot_toLowerCase s : noDot (toLowerCase s) = noDot s.
Proof.
  induction s as [|c s IH]; [done|]. simpl. by rewrite lowerChar_dot, IH.
Qed.

Lemma length_consHead c l : l <> [] -> length (consHead c l) = length l.
Proof. by destruct l. Qed.

Lemma last_consHead c l : 2 <= length l -> last (consHead c l) = last l.
Proof. destruct l as [|h [|h' t]]; simpl; [lia|lia|done]. Qed.

Lemma splitOn_nonempty sep s : splitOn sep s <> [].
Proof.
  destruct s as [|c s]; [done|]. simpl. destruct (Ascii.eqb c sep); [done|].
  by destruct (splitOn sep s).
Qed.

(** A string without dot is one piece. *)
Lemma splitOn_noDot s : noDot s = true -> splitOn "."%char s = [s].
Proof.
  induction s as [|c s IH]; [done|]. simpl.
  destruct (Ascii.eqb c ".") eqn:Hc; [done|]. simpl. intros Hs.
  by rewrite (IH Hs).
Qed.

Lemma splitOn_dot_length a e :
  2 <= length (splitOn "."%char (a +:+ String "."%char e)).
Proof.
  induction a as [|c a IH].
  - rewrite app_empty_l. simpl.
    pose proof (splitOn_nonempty "."%char e). destruct (splitOn "." e); [done|].
    simpl. lia.
  - rewrite app_cons. simpl. destruct (Ascii.eqb c "."); [simpl; lia|].
    rewrite length_consHead; [done|apply splitOn_nonempty].
Qed.

(** The last piece of [a.e] is [e] when [e] has no dot. *)
Lemma last_splitOn_dot a e :
  noDot e = true ->
  last (splitOn "."%char (a +:+ String "."%char e)) = Some e.
Proof.
  intros He. induction a as [|c a IH].
  - rewrite app_empty_l. simpl. by rewrite (splitOn_noDot e He).
  - rewrite app_cons. simpl.
    pose proof (splitOn_dot_length a e) as Hlen.
    destruct (Ascii.eqb c ".").
    + destruct (splitOn "." (a +:+ String "." e)); [simpl in Hlen; lia|].
      exact IH.
    + by rewrite last_consHead.
Qed.

(** X13.  What can be previewed.  A file whose MIME type starts with
    [text/] can be previewed whatever it is called.  Without a MIME type
    that decides, only the text after the last dot of the name counts,
    in lower case: [base.ext] can be previewed exactly when [ext], in
    lower case, is one of [TEXT_EXTENSIONS], and a name without a dot is
    taken whole as its extension.  The case of the name makes no
    difference. *)
Theorem previewable_by_last_extension (name base ext mime : string)
  (mimeType : option string) :
  noDot ext = true ->
  String.prefix "text/" mime = true ->
  isPreviewableText name (Some mime) = true
  /\ isPreviewableText (base +:+ String "."%char ext) None
     = has TEXT_EXTENSIONS (toLowerCase ext)
  /\ isPreviewableText ext None = has TEXT_EXTENSIONS (toLowerCase ext)
  /\ isPreviewableText (toLowerCase name) mimeType
     = isPreviewableText name mimeType.
Proof.
  intros Hext Hmime. split; [|split; [|split]].
  - unfold isPreviewableText. cbn [truthyOpt nullish]. rewrite Hmime.
    by destruct mime.
  - unfold isPreviewableText, extensionOf. cbn [truthyOpt andb].
    rewrite toLowerCase_app. cbn [toLowerCase].
    change (lowerChar ".") with "."%char.
    rewrite last_splitOn_dot by (by rewrite noDot_toLowerCase). done.
  - unfold isPreviewableText, extensionOf. cbn [truthyOpt andb].
    rewrite splitOn_noDot by (by rewrite noDot_toLowerCase). done.
  - unfold isPreviewableText, extensionOf. by rewrite toLowerCase_idem.
Qed.

(** *** The names of uploaded files *)

Lemma unsafeChar_underscore : unsafeChar "_"%char = false.
Proof. reflexivity. Qed.

(** X14.  The name an uploaded file is saved under has as many code units
    as the name sent, and none of them is a slash, a backslash or
    another of the nine code units the handler replaces; cleaning a name
    twice is cleaning it once, and a name without any of them is kept as
    it is. *)
Theorem safeName_has_no_separator (name : string) :
  hasUnsafe (safeName name) = false
  /\ String.length (safeName name) = String.length name
  /\ safeName (safeName name) = safeName name
  /\ (hasUnsafe name = false -> safeName name = name).
Proof.
  induction name as [|c name (IH1 & IH2 & IH3 & IH4)]; [done|]. simpl.
  destruct (unsafeChar c) eqn:Hc; simpl.
  - rewrite IH1, IH2, IH3. done.
  - rewrite Hc, IH1, IH2, IH3. simpl. repeat split; try done.
    intros Hn. by rewrite IH4.
Qed.

End HttpFacts.

(** ** The directory tree *)

Module DirInfoFacts.
Import Js DirInfo.

Section Walk.
Variable maxDepth maxEntries : nat.
Variable ignores : string -> bool.
Variable readdir : string -> option (list Dirent).
Variable stat : string -> option Kind.
Variable join : string -> string -> string.
Variable resolve : string -> string -> string.
Variable basename : string -> string.
Variable localeCompare : string -> string -> Z.
Variable rootPath : string.

Local Abbreviation bounded := (DirInfo.bounded maxEntries).
Local Abbreviation visit :=
  (DirInfo.visit maxEntries stat join resolve rootPath).
Local Abbreviation walk :=
  (DirInfo.walk maxEntries ignores readdir stat join resolve basename
     localeCompare rootPath).
Local Abbreviation dirNode := (DirInfo.dirNode basename).

(** The files, the directories and the height of a list of children. *)
Local Abbreviation sumFiles l := (foldr (fun c acc => filesIn c + acc) 0 l).
Local Abbreviation sumDirs l := (foldr (fun c acc => dirsIn c + acc) 0 l).
Local Abbreviation maxHeight l :=
  (foldr (fun c acc => S (height c) `max` acc) 0 l).

Lemma sumFiles_snoc l x : sumFiles (l ++ [x]) = sumFiles l + filesIn x.
Proof. induction l as [|y l IH]; simpl; [lia|]. rewrite IH. lia. Qed.

Lemma sumDirs_snoc l x : sumDirs (l ++ [x]) = sumDirs l + dirsIn x.
Proof. induction l as [|y l IH]; simpl; [lia|]. rewrite IH. lia. Qed.

Lemma maxHeight_snoc l x :
  maxHeight (l ++ [x]) = maxHeight l `max` S (height x).
Proof. induction l as [|y l IH]; simpl; [lia|]. rewrite IH. lia. Qed.

(** What a walk does to the counters: they stay bounded, and they grow
    by the files and by the directories below the node it returns,
    which is no higher than [levels]. *)
Local Abbreviation walks levels walkChild :=
  (forall dir relPath st,
      bounded st ->
      bounded (walkChild dir relPath st).2
      /\ totalFiles (walkChild dir relPath st).2
         = totalFiles st + filesIn (walkChild dir relPath st).1
      /\ S (totalDirs (walkChild dir relPath st).2)
         = totalDirs st + dirsIn (walkChild dir relPath st).1
      /\ height (walkChild dir relPath st).1 <= levels).

Lemma bounded_countDir st :
  bounded st -> entriesCount st < maxEntries -> bounded (countDir st).
Proof.
  intros (H1 & H2 & H3) Hlt. unfold DirInfo.bounded. simpl.
  split; [lia|]. split; [lia|]. intros Ht. apply H3 in Ht. lia.
Qed.

Lemma bounded_countFile st :
  bounded st -> entriesCount st < maxEntries -> bounded (countFile st).
Proof.
  intros (H1 & H2 & H3) Hlt. unfold DirInfo.bounded. simpl.
  split; [lia|]. split; [lia|]. intros Ht. apply H3 in Ht. lia.
Qed.

Lemma bounded_truncate st :
  bounded st -> maxEntries <= entriesCount st -> bounded (truncate st).
Proof.
  intros (H1 & H2 & H3) Hge. unfold DirInfo.bounded. simpl.
  split; [lia|]. split; [lia|]. intros _. lia.
Qed.

Lemma visit_counts levels walkChild :
  walks levels walkChild ->
  forall entries relPath children st,
    bounded st ->
    bounded (visit walkChild relPath entries children st).2
    /\ totalFiles (visit walkChild relPath entries children st).2
       + sumFiles children
       = totalFiles st
         + sumFiles (visit walkChild relPath entries children st).1
    /\ totalDirs (visit walkChild relPath entries children st).2
       + sumDirs children
       = totalDirs st
         + sumDirs (visit walkChild relPath entries children st).1
    /\ maxHeight (visit walkChild relPath entries children st).1
       <= maxHeight children `max` S levels.
Proof.
  intros Hwalks entries relPath.
  induction entries as [|entry rest IH]; intros children st Hb.
  - simpl. split; [exact Hb|]. repeat split; lia.
  - cbn [DirInfo.visit].
    destruct (Nat.leb_spec maxEntries (entriesCount st)) as [Hge|Hlt].
    + cbn [fst snd]. split; [by apply bounded_truncate|]. simpl.
      repeat split; lia.
    + cbv zeta.
      set (childRelPath :=
             if truthy relPath then join relPath (d_name entry)
             else d_name entry).
      set (fullPath := resolve rootPath childRelPath).
      assert (forall r,
                r = (let '(childNode, st0) :=
                       walkChild fullPath childRelPath (countDir st) in
                     visit walkChild relPath rest (children ++ [childNode])
                       st0) ->
                bounded r.2
                /\ totalFiles r.2 + sumFiles children
                   = totalFiles st + sumFiles r.1
                /\ totalDirs r.2 + sumDirs children
                   = totalDirs st + sumDirs r.1
                /\ maxHeight r.1 <= maxHeight children `max` S levels)
        as HasDir.
      { intros r ->.
        destruct (Hwalks fullPath childRelPath (countDir st)
                    (bounded_countDir st Hb Hlt)) as (W1 & W2 & W3 & W4).
        destruct (walkChild fullPath childRelPath (countDir st))
          as [childNode st1]. cbn [fst snd] in W1, W2, W3, W4.
        destruct (IH (children ++ [childNode]) st1 W1) as (I1 & I2 & I3 & I4).
        rewrite sumFiles_snoc in I2. rewrite sumDirs_snoc in I3.
        rewrite maxHeight_snoc in I4. simpl in W2, W3.
        split; [exact I1|]. split; [lia|]. split; [lia|lia]. }
      assert (forall r,
                r = visit walkChild relPath rest
                      (children ++
                       [FileNode childRelPath (d_name entry) childRelPath])
                      (countFile st) ->
                bounded r.2
                /\ totalFiles r.2 + sumFiles children
                   = totalFiles st + sumFiles r.1
                /\ totalDirs r.2 + sumDirs children
                   = totalDirs st + sumDirs r.1
                /\ maxHeight r.1 <= maxHeight children `max` S levels)
        as HasFile.
      { intros r ->.
        destruct (IH (children ++
                      [FileNode childRelPath (d_name entry) childRelPath])
                    (countFile st) (bounded_countFile st Hb Hlt))
          as (I1 & I2 & I3 & I4).
        rewrite sumFiles_snoc in I2. rewrite sumDirs_snoc in I3.
        rewrite maxHeight_snoc in I4. simpl in I2, I3, I4.
        split; [exact I1|]. split; [lia|]. split; [lia|lia]. }
      destruct (d_kind entry).
      * by apply HasDir.
      * by apply HasFile.
      * destruct (stat fullPath) as [[| |]|];
          [by apply HasDir|by apply HasFile|by apply IH|by apply IH].
Qed.

Lemma walk_walks levels : walks levels (walk levels).
Proof.
  induction levels as [|levels IH]; intros dir relPath st Hb.
  - simpl. split; [exact Hb|]. repeat split; lia.
  - cbn [DirInfo.walk]. destruct (truncated st) eqn:Ht.
    { simpl. split; [exact Hb|]. repeat split; lia. }
    destruct (readdir dir) as [dirEntries|].
    2: { simpl. split; [exact Hb|]. repeat split; lia. }
    cbv zeta.
    match goal with
    | |- context [DirInfo.visit _ _ _ _ _ ?w relPath ?es [] st] =>
        destruct (visit_counts levels w IH es relPath [] st Hb)
          as (V1 & V2 & V3 & V4);
        destruct (DirInfo.visit maxEntries stat join resolve rootPath w
                    relPath es [] st) as [children st1]
    end.
    cbn [fst snd] in *. simpl in V2, V3, V4.
    unfold DirInfo.dirNode. cbn [filesIn dirsIn height].
    split; [exact V1|]. split; [lia|]. split; [lia|lia].
Qed.

(** X15.  The directory tree is counted and bounded.  The summary of
    [buildDirectoryTree] counts the tree it returns: [totalFiles] is the
    number of file nodes and [totalDirs] the number of directory nodes
    below the root.  Together they are at most [maxEntries], and exactly
    [maxEntries] when [truncated] is set; and no node is more than
    [maxDepth] levels below the root. *)
Theorem directory_tree_is_counted_and_bounded :
  let t :=
    buildDirectoryTree maxDepth maxEntries ignores readdir stat join resolve
      basename localeCompare rootPath in
  tree_totalFiles t = filesIn (tree_tree t)
  /\ S (tree_totalDirs t) = dirsIn (tree_tree t)
  /\ tree_totalFiles t + tree_totalDirs t <= maxEntries
  /\ (tree_truncated t = true ->
      tree_totalFiles t + tree_totalDirs t = maxEntries)
  /\ height (tree_tree t) <= maxDepth.
Proof.
  cbv zeta. unfold buildDirectoryTree.
  assert (bounded {| totalFiles := 0; totalDirs := 0; truncated := false;
                     entriesCount := 0 |}) as Hb0.
  { unfold DirInfo.bounded. simpl. split; [done|]. split; [lia|done]. }
  destruct (walk_walks maxDepth rootPath "" _ Hb0)
    as ((B1 & B2 & B3) & W2 & W3 & W4).
  destruct (walk maxDepth rootPath "" _) as [tree st].
  cbn [fst snd] in *. simpl in W2, W3. simpl.
  split; [done|]. split; [done|]. split; [lia|]. split; [|done].
  intros Ht. apply B3 in Ht. lia.
Qed.

(** *** The order of the entries *)

Local Abbreviation compareEntries := (DirInfo.compareEntries localeCompare).
Local Abbreviation insertEntry := (DirInfo.insertEntry localeCompare).
Local Abbreviation sortEntries := (DirInfo.sortEntries localeCompare).

(** No entry that is not a directory is in front of one that is. *)
Local Abbreviation dirsFirst l :=
  (forall i j a b,
      l !! i = Some a -> l !! j = Some b -> i < j ->
      isDirectory b = true -> isDirectory a = true).

Lemma insertEntry_perm e l : insertEntry e l ≡ₚ e :: l.
Proof.
  induction l as [|x l IH]; [done|]. simpl.
  destruct (_ <=? _)%Z; [done|]. rewrite IH. apply Permutation_swap.
Qed.

Lemma dirsFirst_cons x l :
  dirsFirst l -> (isDirectory x = false -> Forall (fun y => isDirectory y = false) l) ->
  dirsFirst (x :: l).
Proof.
  intros Hl Hx [|i] [|j] a b Ha Hb Hij Hdir; simpl in *; try lia.
  - injection Ha as <-. destruct (isDirectory x) eqn:Ex; [done|].
    pose proof (proj1 (Forall_forall _ _) (Hx eq_refl) b
                  (list_elem_of_lookup_2 _ _ _ Hb)) as Hb'.
    simpl in Hb'. congruence.
  - apply (Hl i j a b); try done. lia.
Qed.

Lemma dirsFirst_tail x l : dirsFirst (x :: l) -> dirsFirst l.
Proof. intros Hl i j a b Ha Hb Hij. apply (Hl (S i) (S j) a b); simpl; try done. lia. Qed.

Lemma dirsFirst_head x l :
  dirsFirst (x :: l) -> isDirectory x = false ->
  Forall (fun y => isDirectory y = false) l.
Proof.
  intros Hl Hx. apply Forall_forall. intros y Hy.
  apply list_elem_of_lookup_1 in Hy as [j Hj].
  destruct (isDirectory y) eqn:Ey; [|done].
  pose proof (Hl 0 (S j) x y eq_refl Hj ltac:(lia) Ey). congruence.
Qed.

Lemma insertEntry_dirsFirst e l : dirsFirst l -> dirsFirst (insertEntry e l).
Proof.
  induction l as [|x l IH]; intros Hl.
  - intros [|i] [|j] a b Ha Hb Hij; simpl in *; try lia; done.
  - simpl. destruct (_ <=? _)%Z eqn:Hcmp.
    + apply dirsFirst_cons; [done|]. intros He.
      unfold DirInfo.compareEntries in Hcmp. rewrite He in Hcmp. simpl in Hcmp.
      destruct (isDirectory x) eqn:Ex; [done|].
      constructor; [done|]. by apply (dirsFirst_head x l).
    + apply dirsFirst_cons; [by apply IH, (dirsFirst_tail x)|]. intros Ex.
      rewrite insertEntry_perm. constructor; [|by apply (dirsFirst_head x l)].
      unfold DirInfo.compareEntries in Hcmp. rewrite Ex in Hcmp.
      destruct (isDirectory e); [done|done].
Qed.

(** X16.  Directories come first.  Whatever [localeCompare] answers, the
    entries [walk] sorts are the entries it was given, each as often as
    before, and after the sort no entry that is not a directory is in
    front of one that is. *)
Theorem sorted_entries_list_directories_first (l : list Dirent) :
  sortEntries l ≡ₚ l
  /\ forall i j a b,
       sortEntries l !! i = Some a -> sortEntries l !! j = Some b -> i < j ->
       isDirectory b = true -> isDirectory a = true.
Proof.
  induction l as [|e l (IHp & IHd)].
  - split; [done|]. by intros [|i] [|j].
  - split.
    + simpl. by rewrite insertEntry_perm, IHp.
    + simpl. by apply insertEntry_dirsFirst.
Qed.

(** *** A listing that is not truncated *)

Lemma truncated_visit walkChild :
  (forall dir relPath st,
      truncated st = true -> truncated (walkChild dir relPath st).2 = true) ->
  forall entries relPath children st,
    truncated st = true ->
    truncated (visit walkChild relPath entries children st).2 = true.
Proof.
  intros Hw entries relPath.
  induction entries as [|entry rest IH]; intros children st Ht; [done|].
  cbn [DirInfo.visit]. destruct (_ <=? _); [done|]. cbv zeta.
  assert (forall dir rel,
            truncated
              (let '(childNode, st0) := walkChild dir rel (countDir st) in
               visit walkChild relPath rest (children ++ [childNode]) st0).2
            = true) as HasDir.
  { intros dir rel. pose proof (Hw dir rel (countDir st) Ht) as H1.
    destruct (walkChild dir rel (countDir st)) as [n st1]. by apply IH. }
  destruct (d_kind entry); [apply HasDir|by apply IH|].
  destruct (stat _) as [[| |]|]; [apply HasDir|by apply IH..].
Qed.

Lemma truncated_walk levels : forall dir relPath st,
  truncated st = true -> truncated (walk levels dir relPath st).2 = true.
Proof.
  induction levels as [|levels IH]; intros dir relPath st Ht; [done|].
  cbn [DirInfo.walk]. by rewrite Ht.
Qed.

Lemma listed_eq relPath entry :
  listed stat join resolve rootPath relPath entry
  = match d_kind entry with
    | K_dir | K_file =>
        Some (if truthy relPath then join relPath (d_name entry)
              else d_name entry)
    | K_other =>
        match
          stat (resolve rootPath
                  (if truthy relPath then join relPath (d_name entry)
                   else d_name entry))
        with
        | Some K_dir | Some K_file =>
            Some (if truthy relPath then join relPath (d_name entry)
                  else d_name entry)
        | _ => None
        end
    end.
Proof. reflexivity. Qed.

(** A loop that does not end truncated has listed every entry. *)
Lemma visit_complete walkChild :
  (forall dir relPath st,
      truncated st = true -> truncated (walkChild dir relPath st).2 = true) ->
  (forall dir relPath st, nodePath (walkChild dir relPath st).1 = relPath) ->
  forall entries relPath children st,
    truncated (visit walkChild relPath entries children st).2 = false ->
    nodePath <$> (visit walkChild relPath entries children st).1
    = (nodePath <$> children)
      ++ omap (listed stat join resolve rootPath relPath) entries.
Proof.
  intros Hw Hp entries relPath.
  induction entries as [|entry rest IH]; intros children st.
  - simpl. by rewrite app_nil_r.
  - cbn [DirInfo.visit].
    change (omap ?f (entry :: rest))
      with (match f entry with
            | Some y => y :: omap f rest
            | None => omap f rest
            end).
    rewrite listed_eq.
    destruct (_ <=? _); [done|]. cbv zeta.
    set (childRelPath :=
           if truthy relPath then join relPath (d_name entry)
           else d_name entry).
    set (fullPath := resolve rootPath childRelPath).
    assert (truncated
              (let '(childNode, st0) :=
                 walkChild fullPath childRelPath (countDir st) in
               visit walkChild relPath rest (children ++ [childNode]) st0).2
            = false ->
            nodePath <$>
              (let '(childNode, st0) :=
                 walkChild fullPath childRelPath (countDir st) in
               visit walkChild relPath rest (children ++ [childNode]) st0).1
            = (nodePath <$> children)
              ++ childRelPath
                 :: omap (listed stat join resolve rootPath relPath) rest)
      as HasDir.
    { pose proof (Hp fullPath childRelPath (countDir st)) as H1.
      destruct (walkChild fullPath childRelPath (countDir st)) as [n st1].
      intros Ht. rewrite (IH _ _ Ht), fmap_app. simpl in *. rewrite H1.
      by rewrite <- (assoc_L (++)). }
    assert (truncated
              (visit walkChild relPath rest
                 (children ++
                  [FileNode childRelPath (d_name entry) childRelPath])
                 (countFile st)).2 = false ->
            nodePath <$>
              (visit walkChild relPath rest
                 (children ++
                  [FileNode childRelPath (d_name entry) childRelPath])
                 (countFile st)).1
            = (nodePath <$> children)
              ++ childRelPath
                 :: omap (listed stat join resolve rootPath relPath) rest)
      as HasFile.
    { intros Ht. rewrite (IH _ _ Ht), fmap_app. simpl.
      by rewrite <- (assoc_L (++)). }
    destruct (d_kind entry); [exact HasDir|exact HasFile|].
    destruct (stat fullPath) as [[| |]|];
      [exact HasDir|exact HasFile|apply IH|apply IH].
Qed.

Lemma nodePath_walk levels dir relPath st :
  nodePath (walk levels dir relPath st).1 = relPath.
Proof.
  destruct levels as [|levels]; [done|]. cbn [DirInfo.walk].
  destruct (truncated st); [done|]. destruct (readdir dir); [|done].
  cbv zeta. by destruct (DirInfo.visit _ _ _ _ _ _ _ _ _ _).
Qed.

(** X17.  A listing that is not marked truncated shows the whole root
    directory.  When [buildDirectoryTree] returns with [truncated] not
    set, for a [maxDepth] of 1 or more and a root that can be read, the
    children of the root are, in sorted order, the entries of the root
    that are not ignored and that are a directory or a file, by what the
    entry says or else by what [stat] says; each under its name as
    path. *)
Theorem untruncated_tree_lists_whole_root (entries : list Dirent) :
  0 < maxDepth ->
  readdir rootPath = Some entries ->
  let t :=
    buildDirectoryTree maxDepth maxEntries ignores readdir stat join resolve
      basename localeCompare rootPath in
  tree_truncated t = false ->
  nodePath <$> childrenOf (tree_tree t)
  = omap (listed stat join resolve rootPath "")
      (sortEntries
         (filter (fun entry => ignores (d_name entry) = false) entries)).
Proof.
  intros Hdepth Hread. cbv zeta. unfold buildDirectoryTree.
  destruct maxDepth as [|levels]; [lia|]. cbn [DirInfo.walk truncated].
  rewrite Hread. cbv zeta.
  pose proof (visit_complete (walk levels) (truncated_walk levels)
                (nodePath_walk levels)
                (sortEntries
                   (filter (fun entry => ignores (d_name entry) = false)
                      entries)) "" []
                {| totalFiles := 0; totalDirs := 0; truncated := false;
                   entriesCount := 0 |}) as Hv.
  destruct (DirInfo.visit _ _ _ _ _ _ _ _ _ _) as [children st].
  simpl in *. exact Hv.
Qed.

End Walk.

(** *** The flat listing *)

Section Flat.
Variable maxDepth maxEntries : nat.
Variable ignores : string -> bool.
Variable readdir : string -> option (list Dirent).
Variable stat : string -> option Kind.
Variable join : string -> string -> string.
Variable relative : string -> string -> string.
Variable root : string.

Local Abbreviation orderly := (DirInfo.orderly maxDepth maxEntries).
Local Abbreviation listDir := (DirInfo.listDir maxDepth).
Local Abbreviation scan :=
  (DirInfo.scan maxDepth maxEntries ignores stat join relative root).
Local Abbreviation drain :=
  (DirInfo.drain maxDepth maxEntries ignores readdir stat join relative root).

(** What is left to do: the directories queued and the entries that may
    still be listed. *)
Local Abbreviation todo st :=
  (length (l_queue st) + (maxEntries - length (l_entries st))).

Lemma orderly_listDir fullPath relPath depth st :
  orderly st -> length (l_entries st) < maxEntries ->
  depth < 1 `max` maxDepth ->
  orderly (listDir fullPath relPath (depth + 1) st)
  /\ todo (listDir fullPath relPath (depth + 1) st) <= todo st.
Proof.
  intros (Hd & Hf & Hle & Ht & He & Hq) Hlt Hdepth.
  unfold DirInfo.orderly, DirInfo.listDir. cbn [l_entries l_totalFiles
    l_totalDirs l_truncated l_queue].
  destruct (Nat.ltb_spec (depth + 1) maxDepth) as [Hdeep|Hflat];
    rewrite !filter_app, !length_app; cbn.
  - split; [|lia].
    split; [rewrite Hd; simpl; lia|]. split; [rewrite Hf; simpl; lia|].
    split; [lia|]. split; [intros Htr; specialize (Ht Htr); lia|].
    split.
    + apply Forall_app. split; [done|]. apply Forall_singleton. simpl. lia.
    + apply Forall_app. split; [done|]. apply Forall_singleton. simpl. lia.
  - split; [|lia].
    split; [rewrite Hd; simpl; lia|]. split; [rewrite Hf; simpl; lia|].
    split; [lia|]. split; [intros Htr; specialize (Ht Htr); lia|].
    split; [|done].
    apply Forall_app. split; [done|]. apply Forall_singleton. simpl. lia.
Qed.

Lemma orderly_listFile relPath depth st :
  orderly st -> length (l_entries st) < maxEntries ->
  depth < 1 `max` maxDepth ->
  orderly (listFile relPath (depth + 1) st)
  /\ todo (listFile relPath (depth + 1) st) <= todo st.
Proof.
  intros (Hd & Hf & Hle & Ht & He & Hq) Hlt Hdepth.
  unfold DirInfo.orderly, listFile. cbn [l_entries l_totalFiles
    l_totalDirs l_truncated l_queue].
  rewrite !filter_app, !length_app. cbn.
  split; [|lia].
  split; [rewrite Hd; simpl; lia|]. split; [rewrite Hf; simpl; lia|].
  split; [lia|]. split; [intros Htr; specialize (Ht Htr); lia|].
  split; [|done].
  apply Forall_app. split; [done|]. apply Forall_singleton. simpl. lia.
Qed.

Lemma orderly_scan dir depth dirEntries : forall st,
  orderly st -> depth < 1 `max` maxDepth ->
  orderly (scan dir depth dirEntries st)
  /\ todo (scan dir depth dirEntries st) <= todo st.
Proof.
  induction dirEntries as [|entry rest IH]; intros st Hst Hdepth; [done|].
  cbn [DirInfo.scan]. cbv zeta.
  destruct (Nat.leb_spec maxEntries (length (l_entries st))) as [Hfull|Hroom].
  { destruct Hst as (Hd & Hf & Hle & Ht & He & Hq).
    split; [|done]. unfold DirInfo.orderly. simpl.
    repeat split; try done. intros _. lia. }
  destruct (ignores (d_name entry)); [by apply IH|].
  set (fullPath := join dir (d_name entry)).
  set (relPath := if truthy (relative root fullPath)
                  then relative root fullPath else d_name entry).
  assert (orderly
            (scan dir depth rest (listDir fullPath relPath (depth + 1) st))
          /\ todo (scan dir depth rest
                     (listDir fullPath relPath (depth + 1) st)) <= todo st)
    as HasDir.
  { destruct (orderly_listDir fullPath relPath depth st Hst Hroom Hdepth)
      as [H1 H2].
    destruct (IH _ H1 Hdepth) as [H3 H4]. split; [exact H3|lia]. }
  assert (orderly (scan dir depth rest (listFile relPath (depth + 1) st))
          /\ todo (scan dir depth rest (listFile relPath (depth + 1) st))
             <= todo st) as HasFile.
  { destruct (orderly_listFile relPath depth st Hst Hroom Hdepth) as [H1 H2].
    destruct (IH _ H1 Hdepth) as [H3 H4]. split; [exact H3|lia]. }
  destruct (d_kind entry); [exact HasDir|exact HasFile|].
  destruct (stat fullPath) as [[| |]|];
    [exact HasDir|exact HasFile|by apply IH|by apply IH].
Qed.

(** The loop ends within as many rounds as there is left to do. *)
Lemma drain_ends fuel : forall st,
  orderly st -> todo st <= fuel ->
  exists st',
    drain fuel st = Some st' /\ orderly st'
    /\ (l_queue st' = [] \/ length (l_entries st') = maxEntries).
Proof.
  induction fuel as [|fuel IH]; intros st Hst Hfuel.
  - destruct (l_queue st) as [|[dir depth] rest] eqn:Hq.
    + exists st. cbn [DirInfo.drain]. rewrite Hq.
      split; [done|]. split; [done|]. by left.
    + exfalso. rewrite ?Hq in Hfuel. simpl in Hfuel. lia.
  - destruct (l_queue st) as [|[dir depth] rest] eqn:Hq.
    + exists st. cbn [DirInfo.drain]. rewrite Hq.
      split; [done|]. split; [done|]. by left.
    + cbn [DirInfo.drain]. rewrite Hq.
      destruct (Nat.leb_spec maxEntries (length (l_entries st))) as [Hfull|Hroom].
      { exists st. split; [done|]. split; [done|]. right.
        destruct Hst as (_ & _ & Hle & _). lia. }
      set (st0 := {| l_entries := l_entries st;
                     l_totalFiles := l_totalFiles st;
                     l_totalDirs := l_totalDirs st;
                     l_truncated := l_truncated st; l_queue := rest |}).
      assert (orderly st0 /\ depth < 1 `max` maxDepth /\ todo st0 <= fuel)
        as (Hst0 & Hdepth & Htodo).
      { destruct Hst as (Hd & Hf & Hle & Ht & He & Hqs). rewrite Hq in Hqs.
        apply Forall_cons in Hqs as [Hdepth Hqs].
        split; [by repeat split|]. split; [exact Hdepth|].
        rewrite ?Hq in Hfuel. simpl in *. lia. }
      destruct (readdir dir) as [dirEntries|].
      * destruct (orderly_scan dir depth dirEntries st0 Hst0 Hdepth)
          as [H1 H2].
        apply IH; [exact H1|lia].
      * apply IH; [exact Hst0|lia].
Qed.

(** X22.  The flat listing ends and is counted and bounded.  The loop of
    [buildDirectoryInfo] ends within [maxEntries + 1] rounds, whatever
    the directories hold and however they are linked.  What it returns
    has at most [maxEntries] entries; [totalDirs] and [totalFiles] are
    the numbers of its entries of type [dir] and of type [file];
    [truncated] is set exactly when there are [maxEntries] entries,
    whether or not something was left out; and every entry is at depth 1
    at least and at [maxDepth] at most, or at depth 1 when [maxDepth] is
    0: the entries of the root are listed whatever [maxDepth] is. *)
Theorem directory_info_ends_counted_and_bounded (extra : nat) :
  exists info,
    buildDirectoryInfo maxDepth maxEntries ignores readdir stat join relative
      root (S maxEntries + extra) = Some info
    /\ length (info_entries info) <= maxEntries
    /\ info_totalDirs info
       = length (filter (fun e => entry_isDir e = true) (info_entries info))
    /\ info_totalFiles info
       = length (filter (fun e => entry_isDir e = false) (info_entries info))
    /\ info_truncated info
       = bool_decide (length (info_entries info) = maxEntries)
    /\ Forall (fun e => 1 <= entry_depth e <= 1 `max` maxDepth)
         (info_entries info).
Proof.
  unfold buildDirectoryInfo.
  destruct (drain_ends (S maxEntries + extra)
              {| l_entries := []; l_totalFiles := 0; l_totalDirs := 0;
                 l_truncated := false; l_queue := [(root, 0)] |})
    as (st & Hdrain & (Hd & Hf & Hle & Ht & He & Hq) & Hend).
  { unfold DirInfo.orderly. simpl. repeat split; try done; try lia.
    apply Forall_singleton. simpl. lia. }
  { simpl. lia. }
  rewrite Hdrain. cbn [mbind option_bind]. eexists. split; [done|].
  cbn [info_entries info_totalDirs info_totalFiles info_truncated].
  split; [exact Hle|]. split; [exact Hd|]. split; [exact Hf|].
  split; [|exact He].
  destruct (Nat.leb_spec maxEntries (length (l_entries st))) as [Hfull|Hroom].
  - symmetry. apply bool_decide_eq_true_2. lia.
  - destruct (l_truncated st) eqn:Htr; [specialize (Ht eq_refl); lia|].
    symmetry. apply bool_decide_eq_false_2. lia.
Qed.

End Flat.

End DirInfoFacts.

(** ** What the server sends and what the renderer makes of it *)

Module RendererFacts.
Import Js Renderer Session Relay AuditFacts.

Section Decoding.
Context {host : Host}.
Variable Parsed : Type.
Variable JSON_parse : string -> option Parsed.

Lemma has_elem_of (l : list string) (x : string) : has l x = true -> x ∈ l.
Proof.
  unfold has. intros H. apply existsb_exists in H as (y & Hy & Heq).
  apply String.eqb_eq in Heq as ->. by apply list_elem_of_In.
Qed.

Ltac names H :=
  repeat (apply elem_of_cons in H as [->|H]); [..|by apply elem_of_nil in H].

(** A string goes out under a name the renderer keeps the text of, [null]
    under a name it emits [null] for, an object under a name it parses the
    text of, or under [chat:system-init]. *)
Lemma understood_dispatchEvent event data text :
  understood event data = true ->
  match data with
  | Jstr _ => dispatchEvent JSON_parse event text = Some (event, E_data text)
  | Jnull => dispatchEvent JSON_parse event text = Some (event, E_null)
  | Jobj _ =>
      if String.eqb event "chat:system-init"
      then dispatchEvent JSON_parse event text = None
      else
        dispatchEvent JSON_parse event text
        = Some (event,
                match JSON_parse text with
                | Some parsed => E_parsed parsed
                | None => E_null
                end)
  | _ => False
  end.
Proof.
  destruct data as [| |b|n|s|v|st|m|fields]; cbn [understood]; try done.
  - intros H. apply has_elem_of in H. unfold NULL_EVENTS in H. names H;
      reflexivity.
  - intros H. apply has_elem_of in H. unfold STRING_EVENTS in H. names H;
      reflexivity.
  - intros H. apply orb_true_iff in H as [H|H].
    + apply has_elem_of in H. unfold JSON_EVENTS in H. names H;
        cbn [String.eqb Ascii.eqb Bool.eqb]; unfold dispatchEvent, handleEvent;
        cbn; by destruct (JSON_parse text).
    + apply String.eqb_eq in H as ->. reflexivity.
Qed.

Lemma understood_greeting s :
  Forall (fun e => understood e.1 e.2 = true) (greeting s).
Proof.
  unfold greeting. apply Forall_app. split; [by apply Forall_singleton|].
  apply Forall_app. split; [|by apply Forall_singleton].
  apply Forall_fmap. by apply Forall_true.
Qed.


End Decoding.

End RendererFacts.

(** ** The paths of the tree and the directory panel *)

Module PanelFacts.
Import Js Http DirInfo Panel SseFacts DirInfoFacts.

(** *** Splitting at a code unit and joining again *)

Lemma splitOn_filled c s : splitOn c s <> [].
Proof.
  destruct s as [|x s]; simpl; [done|].
  destruct (Ascii.eqb x c); [done|]. by destruct (splitOn c s).
Qed.

Lemma join_consHead c x l :
  l <> [] -> join (String c "") (consHead x l) = String x (join (String c "") l).
Proof. destruct l as [|h [|h' t]]; [done|done|done]. Qed.

Lemma join_cons_filled sep x l :
  l <> [] -> join sep (x :: l) = x +:+ sep +:+ join sep l.
Proof. by destruct l. Qed.

(** [s.split(c).join(c)] is [s]. *)
Lemma join_splitOn c s : join (String c "") (splitOn c s) = s.
Proof.
  induction s as [|x s IH]; [done|]. cbn [splitOn].
  destruct (Ascii.eqb_spec x c) as [->|Hne].
  - rewrite join_cons_filled by apply splitOn_filled. by rewrite IH.
  - rewrite join_consHead by apply splitOn_filled. by rewrite IH.
Qed.

Lemma splitOn_lacks c s : lacks c s = true -> splitOn c s = [s].
Proof.
  induction s as [|x s IH]; [done|]. cbn [lacks splitOn].
  intros H. apply andb_true_iff in H as [Hx Hs].
  apply negb_true_iff in Hx. rewrite Hx, (IH Hs). done.
Qed.

Lemma consHead_app x l l' : l <> [] -> consHead x (l ++ l') = consHead x l ++ l'.
Proof. by destruct l. Qed.

Lemma splitOn_app c a b :
  splitOn c (a +:+ String c b) = splitOn c a ++ splitOn c b.
Proof.
  induction a as [|x a IH].
  - rewrite app_empty_l. cbn [splitOn]. by rewrite Ascii.eqb_refl.
  - rewrite app_cons. cbn [splitOn]. rewrite IH.
    destruct (Ascii.eqb x c); [done|].
    apply consHead_app, splitOn_filled.
Qed.

Lemma truthy_app a b : truthy a = true -> truthy (a +:+ b) = true.
Proof. by destruct a. Qed.

(** The parent path of a name is the root's, and the parent path of a
    path extended by a name is that path. *)
Lemma getParentPath_name name :
  lacks "/" name = true -> getParentPath name = "".
Proof.
  intros H. unfold getParentPath. destruct (truthy name); [|done].
  by rewrite (splitOn_lacks _ _ H).
Qed.

Lemma getParentPath_child rel name :
  truthy rel = true -> lacks "/" name = true ->
  getParentPath (rel +:+ "/" +:+ name) = rel.
Proof.
  intros Hrel Hname. unfold getParentPath. rewrite (truthy_app _ _ Hrel).
  change (rel +:+ "/" +:+ name) with (rel +:+ String "/" name).
  rewrite splitOn_app, (splitOn_lacks _ _ Hname), removelast_last.
  apply (join_splitOn "/").
Qed.

(** *** The tree *)

Section Tree.
Variable maxDepth maxEntries : nat.
Variable ignores : string -> bool.
Variable readdir : string -> option (list Dirent).
Variable stat : string -> option Kind.
Variable join : string -> string -> string.
Variable resolve : string -> string -> string.
Variable basename : string -> string.
Variable localeCompare : string -> string -> Z.
Variable rootPath : string.

(** [join] puts a slash between a path and a name, and no name has a
    slash in it. *)
Hypothesis join_slash :
  forall a b, truthy a = true -> join a b = a +:+ "/" +:+ b.
Hypothesis names_plain :
  forall dir entries,
    readdir dir = Some entries ->
    Forall (fun e => lacks "/" (d_name e) = true) entries.

Local Abbreviation visit :=
  (DirInfo.visit maxEntries stat join resolve rootPath).
Local Abbreviation walk :=
  (DirInfo.walk maxEntries ignores readdir stat join resolve basename
     localeCompare rootPath).
Local Abbreviation sortEntries := (DirInfo.sortEntries localeCompare).
Local Abbreviation insertEntry := (DirInfo.insertEntry localeCompare).

(** What [housed] asks of a child of the directory at [path]. *)
Local Abbreviation under path :=
  (fun c =>
     getParentPath (nodePath c) = path
     /\ selectedDirPath (Some c)
        = match c with
          | FileNode _ _ _ => path
          | DirNode _ _ own _ => own
          end
     /\ housed c).

Lemma housed_DirNode id name path children :
  housed (DirNode id name path children) <-> Forall (under path) children.
Proof.
  cbn [housed]. induction children as [|c children IH]; simpl.
  - split; [intros _; apply Forall_nil_2|done].
  - rewrite Forall_cons, <- IH. done.
Qed.

Lemma plain_insertEntry e l :
  lacks "/" (d_name e) = true ->
  Forall (fun e => lacks "/" (d_name e) = true) l ->
  Forall (fun e => lacks "/" (d_name e) = true) (insertEntry e l).
Proof.
  intros He. induction l as [|x l IH]; intros Hl; simpl.
  - by apply Forall_singleton.
  - destruct (_ <=? 0)%Z; [by apply Forall_cons|].
    apply Forall_cons in Hl as [Hx Hl]. apply Forall_cons. by split; [|apply IH].
Qed.

Lemma plain_sortEntries l :
  Forall (fun e => lacks "/" (d_name e) = true) l ->
  Forall (fun e => lacks "/" (d_name e) = true) (sortEntries l).
Proof.
  induction l as [|e l IH]; intros Hl; simpl; [done|].
  apply Forall_cons in Hl as [He Hl]. by apply plain_insertEntry; [|apply IH].
Qed.

(** The path an entry of [relPath] is listed under. *)
Lemma childRelPath_parent relPath entry :
  lacks "/" (d_name entry) = true ->
  getParentPath
    (if truthy relPath then join relPath (d_name entry) else d_name entry)
  = relPath.
Proof.
  intros He. destruct (truthy relPath) eqn:Hrel.
  - rewrite join_slash by done. by apply getParentPath_child.
  - destruct relPath; [|done]. by apply getParentPath_name.
Qed.

Lemma visit_housed (walkChild : string -> string -> Counters -> Node * Counters) :
  (forall dir relPath st,
      housed (walkChild dir relPath st).1
      /\ exists id name children,
           (walkChild dir relPath st).1 = DirNode id name relPath children) ->
  forall entries relPath children st,
    Forall (fun e => lacks "/" (d_name e) = true) entries ->
    Forall (under relPath) children ->
    Forall (under relPath) (visit walkChild relPath entries children st).1.
Proof.
  intros Hchild entries relPath.
  induction entries as [|entry rest IH]; intros children st Hplain Hin;
    [done|].
  apply Forall_cons in Hplain as [He Hrest].
  cbn [DirInfo.visit]. destruct (maxEntries <=? entriesCount st); [done|].
  cbv zeta.
  pose proof (childRelPath_parent relPath entry He) as Hparent.
  set (childRelPath :=
         if truthy relPath then join relPath (d_name entry)
         else d_name entry) in *.
  set (fullPath := resolve rootPath childRelPath).
  assert (Forall (under relPath)
            (let '(childNode, st0) :=
               walkChild fullPath childRelPath (countDir st) in
             visit walkChild relPath rest (children ++ [childNode]) st0).1)
    as HasDir.
  { destruct (Hchild fullPath childRelPath (countDir st))
      as (Hh & id & name & cs & Heq).
    destruct (walkChild fullPath childRelPath (countDir st))
      as [childNode st1]. cbn [fst] in Hh, Heq. subst childNode.
    apply IH; [done|]. apply Forall_app. split; [done|].
    apply Forall_singleton. by repeat split. }
  assert (Forall (under relPath)
            (visit walkChild relPath rest
               (children ++ [FileNode childRelPath (d_name entry) childRelPath])
               (countFile st)).1) as HasFile.
  { apply IH; [done|]. apply Forall_app. split; [done|].
    apply Forall_singleton. by repeat split. }
  destruct (d_kind entry); [exact HasDir|exact HasFile|].
  destruct (stat fullPath) as [[| |]|];
    [exact HasDir|exact HasFile|by apply IH|by apply IH].
Qed.

Lemma walk_housed levels : forall dir relPath st,
  housed (walk levels dir relPath st).1
  /\ exists id name children,
       (walk levels dir relPath st).1 = DirNode id name relPath children.
Proof.
  induction levels as [|levels IH]; intros dir relPath st.
  - cbn [DirInfo.walk fst]. unfold dirNode. split; [done|eauto].
  - cbn [DirInfo.walk].
    destruct (truncated st); [unfold dirNode; split; [done|eauto]|].
    destruct (readdir dir) as [dirEntries|] eqn:Hread;
      [|unfold dirNode; split; [done|eauto]].
    cbv zeta.
    pose proof (visit_housed (walk levels) IH
                  (sortEntries
                     (filter (fun entry => ignores (d_name entry) = false)
                        dirEntries)) relPath [] st) as Hv.
    destruct (DirInfo.visit _ _ _ _ _ _ _ _ _ _) as [children st1].
    cbn [fst] in *. unfold dirNode. split; [|eauto].
    apply housed_DirNode. apply Hv; [|apply Forall_nil_2].
    apply plain_sortEntries. pose proof (names_plain dir _ Hread) as Hplain.
    rewrite Forall_forall in Hplain. apply Forall_forall. intros e He.
    apply list_elem_of_filter in He as [_ He]. by apply Hplain.
Qed.

(** X23.  The paths of the tree name the directories that show them.
    When [join] puts a slash between a path and a name and no entry has a
    slash in its name, in the tree [buildDirectoryTree] returns the
    parent path the panel computes of the path of a node is the path of
    the directory node that holds it, at every level; the root has the
    empty path.  So an upload with a file selected goes to the directory
    that shows the file, and with a directory selected to that
    directory. *)
Theorem tree_paths_name_their_directory :
  let t :=
    buildDirectoryTree maxDepth maxEntries ignores readdir stat join resolve
      basename localeCompare rootPath in
  housed (tree_tree t)
  /\ nodePath (tree_tree t) = ""
  /\ Forall
       (fun c =>
          selectedDirPath (Some c)
          = match c with
            | FileNode _ _ _ => ""
            | DirNode _ _ own _ => own
            end)
       (childrenOf (tree_tree t)).
Proof.
  cbv zeta. unfold buildDirectoryTree.
  destruct (walk_housed maxDepth rootPath ""
              {| totalFiles := 0; totalDirs := 0; truncated := false;
                 entriesCount := 0 |}) as (Hh & id & name & children & Heq).
  destruct (DirInfo.walk _ _ _ _ _ _ _ _ _ _ _ _ _) as [tree st].
  cbn [fst tree_tree] in *. subst tree. split; [exact Hh|]. split; [done|].
  apply housed_DirNode in Hh. cbn [childrenOf].
  eapply Forall_impl; [exact Hh|]. by intros c (_ & Hsel & _).
Qed.

End Tree.

End PanelFacts.

(** ** The further properties at work *)

Module MoreExamples.
Import Js Sse Renderer Session Relay Http DirInfo Panel SseFacts SessionFacts
  WorldFacts AuditFacts QueueFacts BlockFacts ResultFacts CallFacts
  RelayFacts HttpFacts DirInfoFacts RendererFacts PanelFacts.

Lemma message_ids_count_up_witness :
  msg_id <$> messages (vars thinkingWorld) = ["0"; "1"]
  /\ NoDup (msg_id <$> messages (vars thinkingWorld)).
Proof.
  destruct (message_ids_count_up (host := sampleHost) thinkingWorld)
    as (Hids & _ & Hdup).
  { apply (reachable_exec (host := sampleHost) thinkingSteps sampleWorld);
      [apply (reach_init (host := sampleHost))|vm_compute; reflexivity]. }
  split; [|exact Hdup]. rewrite Hids. vm_compute. reflexivity.
Defined.

Lemma status_broadcasts_track_state_witness :
  statuses (sent (vars thinkingClosed)) = [running; idle]
  /\ sessionState (vars thinkingClosed) = idle.
Proof.
  destruct (status_broadcasts_track_state (host := sampleHost) (Some "1")
              thinkingClosed) as (Hlast & _).
  { apply (reachable_onAir (host := sampleHost)).
    apply (reachable_exec (host := sampleHost)
             (thinkingSteps ++ [InterruptSettled 0 1500 true]) sampleWorld);
      [apply (reach_init (host := sampleHost))|vm_compute; reflexivity]. }
  assert (statuses (sent (vars thinkingClosed)) = [running; idle]) as Hst
    by (vm_compute; reflexivity).
  split; [exact Hst|]. rewrite Hst in Hlast.
  change (Some idle = Some (sessionState (vars thinkingClosed))) in Hlast.
  apply (inj Some). symmetry. exact Hlast.
Defined.

Lemma log_lines_are_last_2000_witness :
  exists w,
    exec (host := loggingHost) loggingWorld turnSteps = Some w
    /\ logLines (vars w) = logged (sent (vars w))
    /\ length (logLines (vars w)) = 2.
Proof.
  assert (exists w, exec (host := loggingHost) loggingWorld turnSteps = Some w)
    as [w Hw] by (eexists; vm_compute; reflexivity).
  exists w. split; [exact Hw|].
  destruct (log_lines_are_last_2000 (host := loggingHost) (Some "1") w)
    as (Hlog & _).
  { apply (reachable_onAir (host := loggingHost)).
    apply (reachable_exec (host := loggingHost) turnSteps loggingWorld);
      [apply (reach_init (host := loggingHost))|exact Hw]. }
  revert Hlog Hw. vm_compute. intros Hlog [= <-]. by split.
Defined.

Lemma transcript_is_append_only_witness :
  exists m',
    messages (vars thinkingWorld) !! 0 = Some m'
    /\ msg_id m' = "0" /\ msg_role m' = user.
Proof.
  destruct (transcript_is_append_only (host := sampleHost) sampleWorld
              thinkingWorld thinkingSteps) as (_ & Hkept).
  { vm_compute. reflexivity. }
  destruct (Hkept 0
              {| msg_id := "0"; msg_role := user; msg_content := CText "hello";
                 msg_timestamp := toISOString (Host := sampleHost) 1000 |})
    as (m' & Hm & Hid & Hrole & _); [vm_compute; reflexivity|].
  by exists m'.
Defined.

Lemma promises_resolve_in_call_order_witness :
  exists w,
    exec (host := sampleHost) sampleWorld queueSteps = Some w
    /\ resolved w = [0; 1]
    /\ NoDup (resolved w ++ queueIds w).
Proof.
  assert (exists w, exec (host := sampleHost) sampleWorld queueSteps = Some w)
    as [w Hw] by (eexists; vm_compute; reflexivity).
  exists w. split; [exact Hw|].
  destruct (promises_resolve_in_call_order (host := sampleHost) w)
    as (_ & Hdup & _).
  { apply (reachable_exec (host := sampleHost) queueSteps sampleWorld);
      [apply (reach_init (host := sampleHost))|exact Hw]. }
  split; [|exact Hdup]. revert Hw. vm_compute. by intros [= <-].
Defined.

Lemma tool_input_streams_into_block_witness :
  exists tool,
    openBlocks
      (consume (host := parsingHost) (vars sampleWorld)
         ((1001%Z, toolUseStartEvent 0 "T1" "Bash" emptyObject)
          :: inputDeltaEvents 0 [(1002%Z, "{"); (1003%Z, "}")]
          ++ [(1004%Z, blockStopEvent 0)]))
    = [toolBlockOf tool]
    /\ tool_inputJson tool = Some "{}"
    /\ tool_parsedInput tool = Some emptyObject.
Proof.
  destruct (tool_input_streams_into_block (host := parsingHost)
              (vars sampleWorld) 1001 1004 0 "T1" "Bash" emptyObject
              [(1002%Z, "{"); (1003%Z, "}")])
    as (tool & Hb & _ & _ & _ & _ & Hj & _ & Hp);
    [reflexivity|vm_compute; reflexivity|vm_compute; reflexivity|].
  exists tool. split; [exact Hb|]. split; [exact Hj|].
  by apply Hp.
Defined.

Lemma thinking_block_streams_and_closes_witness :
  openBlocks
    (consume (host := sampleHost) (vars sampleWorld)
       ((1001%Z, stream_event None (content_block_start 0 cb_thinking))
        :: thinkingDeltaEvents 0 [(1002%Z, "h"); (1003%Z, "m")]
        ++ [(1500%Z, blockStopEvent 0)]))
  = [thinkingBlockOf 0 1001 "hm" (Some 499%Z) (Some true)].
Proof.
  destruct (thinking_block_streams_and_closes (host := sampleHost)
              (vars sampleWorld) 1001 1500 0 [(1002%Z, "h"); (1003%Z, "m")])
    as (Hb & _); [vm_compute; reflexivity|done|].
  exact Hb.
Defined.

Lemma frames_reach_stream_in_order_witness :
  exists c,
    run sampleJson fresh sampleOps = Some c
    /\ delivered c
       = [formatSse sampleJson "chat:status" Null;
          formatSse sampleJson "chat:message-chunk" (Str "hi")]
    /\ pending c = [].
Proof.
  assert (exists c, run sampleJson fresh sampleOps = Some c) as [c Hc]
    by (eexists; reflexivity).
  exists c. split; [exact Hc|].
  destruct (frames_reach_stream_in_order sampleJson sampleOps c Hc)
    as (_ & Hopen).
  destruct Hopen as (Hd & Hp); [reflexivity|by injection Hc as <-|].
  by split.
Defined.

Lemma client_is_closed_once_witness :
  exists c,
    run sampleJson fresh (sampleOps ++ [Close]) = Some c
    /\ registered c = false /\ onCloseCalls c = 1
    /\ forall c',
         run sampleJson c [Send "chat:log" (Jstr "late"); Close] = Some c' ->
         delivered c' = delivered c /\ onCloseCalls c' = 1.
Proof.
  assert (exists c, run sampleJson fresh (sampleOps ++ [Close]) = Some c)
    as [c Hc] by (eexists; reflexivity).
  exists c. split; [exact Hc|].
  assert (registered c = false) as Hr by (by injection Hc as <-).
  destruct (client_is_closed_once sampleJson (sampleOps ++ [Close]) c Hc)
    as (Hcalls & _ & Hgone).
  rewrite Hr in Hcalls. split; [exact Hr|]. split; [exact Hcalls|].
  intros c' Hc'. destruct (Hgone Hr) as (_ & Hlater).
  by destruct (Hlater _ c' Hc') as (Hd & _ & Ho).
Defined.

Lemma connected_client_gets_greeting_then_broadcasts_witness :
  exists c,
    relay sampleJson [("chat:message-chunk", Jstr "hi")]
      (chatStream sampleJson (start fresh) (vars sampleWorld) []) !! 0
    = Some c
    /\ length (delivered c) = 4 /\ pending c = [].
Proof.
  destruct (connected_client_gets_greeting_then_broadcasts sampleJson []
              (vars sampleWorld) [("chat:message-chunk", Jstr "hi")]
              (start fresh)) as ((c & Hc & _ & Hstarted) & _);
    [by right|constructor|].
  exists c. split; [exact Hc|].
  destruct (Hstarted eq_refl) as (Hd & Hp). split; [|exact Hp].
  rewrite Hd. vm_compute. reflexivity.
Defined.

(** A string is none of the strings of a list. *)
Ltac absent :=
  repeat (apply not_elem_of_cons; split; [done|]); apply not_elem_of_nil.

Lemma parseArgs_reads_first_occurrence_witness :
  exists r,
    parseArgs Z sampleNumber 3000%Z sampleArgv = inr r
    /\ arg_agentDir r = "/w" /\ arg_port r = 8080%Z
    /\ arg_initialPrompt r = None.
Proof.
  destruct (parseArgs_reads_first_occurrence Z sampleNumber 3000%Z sampleArgv)
    as (Hfirst & _).
  destruct (Hfirst ["--port"; "8080"] "/w" ["--agent-dir"; "/other"])
    as (r & Hr & Hdir & _ & Hprompt & _ & _ & Hport);
    [reflexivity|absent|done|].
  exists r. split; [exact Hr|]. split; [exact Hdir|]. split.
  - by apply (Hport [] "8080" ["--agent-dir"; "/w"; "--agent-dir"; "/other"]);
      [|absent].
  - apply Hprompt. absent.
Defined.

Lemma previewable_by_last_extension_witness :
  isPreviewableText "notes.draft.MD" None = true
  /\ isPreviewableText "archive.tar.gz" None = false
  /\ isPreviewableText "photo.png" (Some "text/plain") = true.
Proof.
  destruct (previewable_by_last_extension "photo.png" "notes.draft" "MD"
              "text/plain" None eq_refl eq_refl) as (Hmime & Hmd & _).
  destruct (previewable_by_last_extension "photo.png" "archive.tar" "gz"
              "text/plain" None eq_refl eq_refl) as (_ & Hgz & _).
  split; [exact Hmd|]. split; [exact Hgz|exact Hmime].
Defined.

Lemma untruncated_tree_lists_whole_root_witness :
  tree_truncated sampleTree = false
  /\ nodePath <$> childrenOf (tree_tree sampleTree) = ["src"; "b.txt"; "link"].
Proof.
  split; [reflexivity|]. unfold sampleTree.
  rewrite (untruncated_tree_lists_whole_root 6 2000
             (fun name => existsb (String.eqb name) DEFAULT_IGNORES)
             sampleReaddir sampleStat sampleJoin sampleJoin
             (fun path => path) sampleCompare "/w"
             [mkDirent "b.txt" K_file; mkDirent "src" K_dir;
              mkDirent ".git" K_dir; mkDirent "link" K_other]);
    [vm_compute; reflexivity|lia|reflexivity|vm_compute; reflexivity].
Defined.


Lemma subagent_tool_input_streams_into_call_witness :
  exists entry,
    subagentCall "T1" "C1"
      (consume (host := sampleHost) toolStarted
         ((1002%Z, subagentToolUseStartEvent "T1" 1 "C1" "Read" emptyObject)
          :: subagentInputDeltaEvents "T1" 1 [(1003%Z, "{"); (1004%Z, "}")]
          ++ [(1005%Z, subagentBlockStopEvent "T1" 1)]))
    = Some entry
    /\ call_name entry = "Read"
    /\ call_inputJson entry
       = Some (JSON_stringify2 (Host := sampleHost) emptyObject +:+ "{}").
Proof.
  destruct (subagent_tool_input_streams_into_call (host := sampleHost)
              toolStarted 1002 1005 1 "T1" "C1" "Read" emptyObject
              [(1003%Z, "{"); (1004%Z, "}")] (1, 0))
    as (_ & entry & _ & Hsub & _ & Hname & _ & _ & Hjson & _);
    [reflexivity|reflexivity|vm_compute; reflexivity|vm_compute; reflexivity
    |vm_compute; reflexivity|].
  exists entry. split; [exact Hsub|]. split; [exact Hname|exact Hjson].
Defined.


Lemma directory_info_ends_counted_and_bounded_witness :
  exists info,
    sampleInfo = Some info
    /\ info_totalDirs info + info_totalFiles info = 4
    /\ info_truncated info = false.
Proof.
  destruct (directory_info_ends_counted_and_bounded 3 500
              (fun name => existsb (String.eqb name) DEFAULT_IGNORES)
              sampleReaddir sampleStat sampleJoin sampleRelative "/w" 0)
    as (info & Heq & _).
  exists info. split; [exact Heq|].
  change (sampleInfo = Some info) in Heq. revert Heq. vm_compute.
  intros [= <-]. by split.
Defined.

Lemma tree_paths_name_their_directory_witness :
  housed (tree_tree sampleTree)
  /\ selectedDirPath (Some (FileNode "src/a.ts" "a.ts" "src/a.ts")) = "src".
Proof.
  destruct (tree_paths_name_their_directory 6 2000
              (fun name => existsb (String.eqb name) DEFAULT_IGNORES)
              sampleReaddir sampleStat sampleJoin sampleJoin
              (fun path => path) sampleCompare "/w") as (Hhoused & _ & _).
  - intros a b _. reflexivity.
  - intros dir entries. unfold sampleReaddir.
    destruct (String.eqb dir "/w"); [intros [= <-]; by repeat constructor|].
    destruct (String.eqb dir "/w/src");
      [intros [= <-]; by repeat constructor|done].
  - split; [exact Hhoused|]. vm_compute. reflexivity.
Defined.


End MoreExamples.
